(** * validatePlan.py and buildPipeline.py: validating, repairing and
      building a plan

    A shallow embedding of [PlanValidator] (src/validatePlan.py) and of the
    builder it hands over to (src/buildPipeline.py), with the properties of
    them that the specification states and further ones the code shows.

    Layout:
    - [Py]: the Python values the programs manipulate (what [json.load]
      returns) and the built-in operations the source applies to them, with
      the exceptions they raise;
    - [Engine]: the validator's state, the effects it has on its
      surroundings (runtime requests, oracle calls, plan file), and one
      definition per method of [PlanValidator];
    - [Props], [Examples], [Facts], [MoreExamples]: the vocabulary of the
      properties and the sample plans and surroundings they are tried on;
    - [Builder], [BuilderFacts]: [main] of buildPipeline.py with its
      requests, and the vocabulary of its properties;
    - the theorems. *)

From Stdlib Require Import List String Ascii ZArith QArith Bool Arith Lia.
From Stdlib Require Import DecimalString.
Import ListNotations.

Local Open Scope string_scope.
Local Open Scope list_scope.
Local Open Scope Z_scope.

Set Warnings "-register-all".

(* ================================================================== *)
(** * Python values and built-ins *)
(* ================================================================== *)

Module Py.

(** What [json.load] / [json.loads] / [response.json()] produce.  A [dict]
    keeps insertion order, so it is an association list; Python dicts have
    distinct keys ([wf] below).  A float is carried as the rational it
    denotes (NaN and infinities, which JSON proper does not have, are not
    modelled).  Characters are code points below 256. *)
Inductive json : Type :=
| JNull
| JBool (b : bool)
| JInt (z : Z)
| JFloat (q : Q)
| JStr (s : string)
| JArr (l : list json)
| JObj (kvs : list (string * json)).

Definition dict := list (string * json).

(** Exceptions the modelled code can raise.  [MarkupError] is the one
    rich raises on console markup it cannot render; [OSError] and
    [UnicodeDecodeError] are what [open] and [json.load] raise on a file
    that is there but cannot be read.  [RequestException] carries the
    text [str(e)] gives. *)
Inductive exn : Type :=
| TypeError
| KeyError
| IndexError
| AttributeError
| UnboundLocalError
| MarkupError
| OSError
| UnicodeDecodeError
| RequestException (msg : string).

Inductive result (A : Type) : Type :=
| Ok (a : A)
| Raise (e : exn).
Arguments Ok {A} a.
Arguments Raise {A} e.

Definition rbind {A B} (r : result A) (k : A -> result B) : result B :=
  match r with
  | Ok a => k a
  | Raise e => Raise e
  end.

Declare Scope res_scope.
Delimit Scope res_scope with res.
Notation "x <- r ;; k" := (rbind r (fun x => k))
  (at level 61, r at next level, right associativity) : res_scope.
Notation "r ;;; k" := (rbind r (fun _ => k))
  (at level 61, right associativity) : res_scope.

Fixpoint rmap {A B} (f : A -> result B) (l : list A) : result (list B) :=
  match l with
  | [] => Ok []
  | a :: l' =>
      (b <- f a ;; bs <- rmap f l' ;; Ok (b :: bs))%res
  end.

(** ** Strings *)

Definition chars (s : string) : list ascii := list_ascii_of_string s.
Definition unchars (l : list ascii) : string := string_of_list_ascii l.

Fixpoint starts (p s : list ascii) : bool :=
  match p, s with
  | [], _ => true
  | a :: p', b :: s' => Ascii.eqb a b && starts p' s'
  | _ :: _, [] => false
  end.

(** [s.startswith(p)] *)
Definition startswith (s p : string) : bool := starts (chars p) (chars s).

(** [s.endswith(p)] *)
Definition endswith (s p : string) : bool :=
  starts (rev (chars p)) (rev (chars s)).

Fixpoint contains_at_some (p s : list ascii) : bool :=
  starts p s ||
  match s with
  | [] => false
  | _ :: s' => contains_at_some p s'
  end.

(** [p in s] for two strings *)
Definition str_in (p s : string) : bool := contains_at_some (chars p) (chars s).

(** [s[n:]] and [s[:-n]] *)
Definition drop_front (n : nat) (s : string) : string := unchars (skipn n (chars s)).
Definition drop_back (n : nat) (s : string) : string :=
  unchars (firstn (List.length (chars s) - n) (chars s)).

(** [str.isspace] on one character: the code points below 256 that Python
    counts as whitespace. *)
Definition is_space (c : ascii) : bool :=
  let n := N_of_ascii c in
  ((9 <=? n) && (n <=? 13) || (28 <=? n) && (n <=? 32) ||
   (n =? 133) || (n =? 160))%N.

Fixpoint lstrip (s : list ascii) : list ascii :=
  match s with
  | c :: s' => if is_space c then lstrip s' else s
  | [] => []
  end.

(** [s.strip()] *)
Definition strip (s : string) : string :=
  unchars (rev (lstrip (rev (lstrip (chars s))))).

Definition lower_char (c : ascii) : ascii :=
  let n := N_of_ascii c in
  if ((65 <=? n) && (n <=? 90) ||
      (192 <=? n) && (n <=? 222) && negb (n =? 215))%N
  then ascii_of_N (n + 32) else c.

(** [s.lower()] *)
Definition lower (s : string) : string := unchars (map lower_char (chars s)).

(** [re.search(r"'([^']+)' is invalid", s)], giving [group(1)]: the first
    quote that is followed by a non-empty run of non-quotes and then by
    [' is invalid].  The run is as long as it can be, and a shorter run
    would have to be followed by a quote it does not find, so no other
    split of the text after a given quote can match. *)
Fixpoint span_not_quote (s : list ascii) : list ascii * list ascii :=
  match s with
  | c :: s' =>
      if Ascii.eqb c "'" then ([], s)
      else let (a, b) := span_not_quote s' in (c :: a, b)
  | [] => ([], [])
  end.

Fixpoint search_invalid (s : list ascii) : option (list ascii) :=
  match s with
  | [] => None
  | c :: s' =>
      if Ascii.eqb c "'" then
        let (run, rest) := span_not_quote s' in
        match run with
        | _ :: _ =>
            if starts (chars "' is invalid") rest then Some run
            else search_invalid s'
        | [] => search_invalid s'
        end
      else search_invalid s'
  end.

Definition re_search_invalid (s : string) : option string :=
  option_map unchars (search_invalid (chars s)).

(** The text of a line break. *)
Definition nl : string := String "010"%char "".

Definition str_of_nat (n : nat) : string :=
  NilZero.string_of_uint (Nat.to_uint n).
Definition str_of_Z (z : Z) : string :=
  NilZero.string_of_int (Z.to_int z).

(** ** Truth value, type names, equality *)

(** [bool(v)] *)
Definition truthy (v : json) : bool :=
  match v with
  | JNull => false
  | JBool b => b
  | JInt z => negb (z =? 0)
  | JFloat q => negb (Qeq_bool q 0)
  | JStr s => negb (s =? "")%string
  | JArr l => match l with [] => false | _ => true end
  | JObj kvs => match kvs with [] => false | _ => true end
  end.

(** [type(v).__name__] *)
Definition type_name (v : json) : string :=
  match v with
  | JNull => "NoneType"
  | JBool _ => "bool"
  | JInt _ => "int"
  | JFloat _ => "float"
  | JStr _ => "str"
  | JArr _ => "list"
  | JObj _ => "dict"
  end.

Definition is_str (v : json) : bool := match v with JStr _ => true | _ => false end.
Definition is_list (v : json) : bool := match v with JArr _ => true | _ => false end.
Definition is_dict (v : json) : bool := match v with JObj _ => true | _ => false end.

Fixpoint lookup (k : string) (d : dict) : option json :=
  match d with
  | [] => None
  | (k', v) :: d' => if (k =? k')%string then Some v else lookup k d'
  end.

(** [d[k] = v]: an existing key keeps its place, a new one goes last. *)
Fixpoint setitem (k : string) (v : json) (d : dict) : dict :=
  match d with
  | [] => [(k, v)]
  | (k', v') :: d' =>
      if (k =? k')%string then (k, v) :: d' else (k', v') :: setitem k v d'
  end.

Definition has_key (k : string) (d : dict) : bool :=
  match lookup k d with Some _ => true | None => false end.

(** The number a value compares as: [True == 1 == 1.0]. *)
Definition num_of (v : json) : option Q :=
  match v with
  | JBool b => Some (if b then 1%Q else 0%Q)
  | JInt z => Some (inject_Z z)
  | JFloat q => Some q
  | _ => None
  end.

(** [a == b] *)
Fixpoint py_eq (a b : json) {struct a} : bool :=
  match a, b with
  | JNull, JNull => true
  | JStr s, JStr t => (s =? t)%string
  | JArr l, JArr m =>
      (fix go (l m : list json) {struct l} : bool :=
         match l, m with
         | [], [] => true
         | x :: l', y :: m' => py_eq x y && go l' m'
         | _, _ => false
         end) l m
  | JObj k, JObj m =>
      (List.length k =? List.length m)%nat &&
      (fix all (k : dict) {struct k} : bool :=
         match k with
         | [] => true
         | (key, v) :: k' =>
             match lookup key m with
             | Some w => py_eq v w
             | None => false
             end && all k'
         end) k
  | _, _ =>
      match num_of a, num_of b with
      | Some x, Some y => Qeq_bool x y
      | _, _ => false
      end
  end.

(** The same value, part by part (where [==] also equates [1] and
    [True], and dicts that differ in order). *)
Fixpoint same (a b : json) {struct a} : bool :=
  match a, b with
  | JNull, JNull => true
  | JBool x, JBool y => Bool.eqb x y
  | JInt x, JInt y => (x =? y)
  | JFloat x, JFloat y => (Qnum x =? Qnum y) && (Qden x =? Qden y)%positive
  | JStr s, JStr t => (s =? t)%string
  | JArr l, JArr m =>
      (fix go (l m : list json) {struct l} : bool :=
         match l, m with
         | [], [] => true
         | x :: l', y :: m' => same x y && go l' m'
         | _, _ => false
         end) l m
  | JObj k, JObj m =>
      (fix go (k m : dict) {struct k} : bool :=
         match k, m with
         | [], [] => true
         | (kx, x) :: k', (ky, y) :: m' => (kx =? ky)%string && same x y && go k' m'
         | _, _ => false
         end) k m
  | _, _ => false
  end.

(** ** Containers *)

(** [k in v] for a string [k]: key test on a dict, element test on a list,
    substring test on a string; anything else is not iterable. *)
Definition py_contains (k : string) (v : json) : result bool :=
  match v with
  | JObj kvs => Ok (has_key k kvs)
  | JArr l => Ok (existsb (py_eq (JStr k)) l)
  | JStr s => Ok (str_in k s)
  | _ => Raise TypeError
  end.

(** [v[k]] for a string [k] *)
Definition py_getitem (v : json) (k : string) : result json :=
  match v with
  | JObj kvs =>
      match lookup k kvs with
      | Some x => Ok x
      | None => Raise KeyError
      end
  | _ => Raise TypeError
  end.

(** [v[0]] *)
Definition py_first (v : json) : result json :=
  match v with
  | JArr l => match l with x :: _ => Ok x | [] => Raise IndexError end
  | JStr s =>
      match chars s with
      | c :: _ => Ok (JStr (String c EmptyString))
      | [] => Raise IndexError
      end
  | JObj _ => Raise KeyError
  | _ => Raise TypeError
  end.

(** [v.get(k, dflt)]: only a dict has [get]. *)
Definition py_get (v : json) (k : string) (dflt : json) : result json :=
  match v with
  | JObj kvs =>
      match lookup k kvs with
      | Some x => Ok x
      | None => Ok dflt
      end
  | _ => Raise AttributeError
  end.

(** [v.items()] and [v.keys()] *)
Definition py_items (v : json) : result dict :=
  match v with
  | JObj kvs => Ok kvs
  | _ => Raise AttributeError
  end.

Definition py_keys (v : json) : result (list string) :=
  match v with
  | JObj kvs => Ok (map fst kvs)
  | _ => Raise AttributeError
  end.

(** [for x in v]: the elements of a list, the characters of a string, the
    keys of a dict. *)
Definition py_iter (v : json) : result (list json) :=
  match v with
  | JArr l => Ok l
  | JStr s => Ok (map (fun c => JStr (String c EmptyString)) (chars s))
  | JObj kvs => Ok (map (fun kv => JStr (fst kv)) kvs)
  | _ => Raise TypeError
  end.

(** [len(v)] *)
Definition py_len (v : json) : result nat :=
  match v with
  | JArr l => Ok (List.length l)
  | JStr s => Ok (String.length s)
  | JObj kvs => Ok (List.length kvs)
  | _ => Raise TypeError
  end.

(** ** Sets and dicts keyed by values

    A [set] holds hashable values (no list, no dict) that are pairwise
    different under [==].  The order of the list is the order of insertion;
    Python's iteration order over a set is unspecified, and nothing below
    depends on it except through [repr_set]. *)
Definition pyset := list json.

Definition hashable (v : json) : bool :=
  match v with
  | JArr _ | JObj _ => false
  | _ => true
  end.

Definition set_mem (x : json) (s : pyset) : bool := existsb (py_eq x) s.

(** [s.add(x)] *)
Definition set_add (s : pyset) (x : json) : result pyset :=
  if hashable x then Ok (if set_mem x s then s else s ++ [x])
  else Raise TypeError.

Fixpoint set_add_all (s : pyset) (l : list json) : result pyset :=
  match l with
  | [] => Ok s
  | x :: l' => (s' <- set_add s x ;; set_add_all s' l')%res
  end.

(** [s.update(v)] and [set(v)] for an iterable [v] *)
Definition set_update (s : pyset) (v : json) : result pyset :=
  (l <- py_iter v ;; set_add_all s l)%res.
Definition set_of (v : json) : result pyset := set_update [] v.

(** [a | b] and [a - b] *)
Definition set_union (a b : pyset) : pyset :=
  a ++ filter (fun x => negb (set_mem x a)) b.
Definition set_diff (a b : pyset) : pyset :=
  filter (fun x => negb (set_mem x b)) a.

(** A dict whose keys are arbitrary hashable values. *)
Definition vdict (V : Type) := list (json * V).

Fixpoint vlookup {V} (k : json) (d : vdict V) : option V :=
  match d with
  | [] => None
  | (k', v) :: d' => if py_eq k k' then Some v else vlookup k d'
  end.

Fixpoint vset {V} (k : json) (v : V) (d : vdict V) : vdict V :=
  match d with
  | [] => [(k, v)]
  | (k', v') :: d' => if py_eq k k' then (k', v) :: d' else (k', v') :: vset k v d'
  end.

(** [k in d]: hashing an unhashable key raises. *)
Definition vmem {V} (k : json) (d : vdict V) : result bool :=
  if hashable k
  then Ok (match vlookup k d with Some _ => true | None => false end)
  else Raise TypeError.

(** ** Well-formed values: dict keys are distinct *)

Fixpoint distinct (l : list string) : bool :=
  match l with
  | [] => true
  | k :: l' => negb (existsb (String.eqb k) l') && distinct l'
  end.

Fixpoint wf (v : json) : bool :=
  match v with
  | JArr l => forallb wf l
  | JObj kvs =>
      distinct (map fst kvs) &&
      (fix wf_vals (kvs : dict) : bool :=
         match kvs with
         | [] => true
         | (_, x) :: kvs' => wf x && wf_vals kvs'
         end) kvs
  | _ => true
  end.

End Py.

(* ================================================================== *)
(** * The validator *)
(* ================================================================== *)

Module Engine.
Import Py.

(** ** Surroundings *)

(** What [__init__] reads from the environment and the control flow looks
    at.  [os.getenv] gives [None] or a string.  [self.client] is created
    exactly when [gemini_api_key] is truthy, so it has no field of its own.
    The authorisation token, the SSL switch and the model name only shape
    the requests and are left out. *)
Record Config : Type := {
  plan_path : string;
  nifi_base_url : option string;
  sandbox_pg_id : option string;
  gemini_api_key : option string;
  max_retries : Z
}.

Definition env_truthy (o : option string) : bool :=
  match o with
  | Some s => negb (s =? "")%string
  | None => false
  end.

(** Answer to [requests.post] on the sandbox group: either the call raises
    a [RequestException], or a response comes back with its status code,
    its text and what [response.json()] gives. *)
Inductive PostReply : Type :=
| PostRaises (msg : string)
| PostResponse (status_code : Z) (text : string) (body : result json).

(** Answer to [requests.delete]; the source ignores both. *)
Inductive DeleteReply : Type :=
| DeleteRaises
| DeleteResponse (status_code : Z).

(** Answer to [requests.get] on the processor-types endpoint followed by
    [raise_for_status] and [response.json()]. *)
Inductive GetReply : Type :=
| GetRaises (msg : string)
| GetJson (types_data : json).

(** Answer of [client.models.generate_content]: it raises (or has no
    text), or [response.text] is a string. *)
Inductive LLMReply : Type :=
| LLMRaises
| LLMText (text : string).

(** What each oracle prompt is built from. *)
Inductive LLMRequest : Type :=
| ConfigRepair (processor_config : json) (error_context : list json)
| SchedulingRepair (scheduling_config : json) (error_message : string)
| StructureRepair (plan_details : json) (errors : list string) (type_names : list json).

(** The plan file: there is none; it is there and [json.load] raises a
    [JSONDecodeError] with the given text on it; it is there and opening
    or reading it raises another exception (an [OSError] for a directory
    or a file that may not be read, a [UnicodeDecodeError] for bytes that
    are not UTF-8); or it holds a JSON document. *)
Inductive Disk : Type :=
| NoFile
| BadFile (msg : string)
| Unreadable (e : exn)
| PlanFile (content : json).

Inductive SaveReply : Type :=
| SaveOk
| SaveFails (msg : string) (left_behind : Disk).

(** The three answers [Prompt.ask] accepts in [run]. *)
Inductive Choice : Type :=
| RetryInitialValidation
| FixThePlanUsingLLM
| ExitChoice.

(** Everything the validator does to its surroundings, in order. *)
Inductive Event : Type :=
| EvGet (reply : GetReply)
| EvPost (payload : json) (reply : PostReply)
| EvDelete (proc_id version : json) (client_id : option json) (reply : DeleteReply)
| EvLLM (request : LLMRequest) (reply : LLMReply)
| EvLoad (found : Disk)
| EvSave (content : json) (reply : SaveReply).

(** The surroundings answer the n-th request of each kind. *)
Record Env : Type := {
  get_reply : nat -> GetReply;
  post_reply : nat -> PostReply;
  delete_reply : nat -> DeleteReply;
  llm_reply : nat -> LLMReply;
  save_reply : nat -> SaveReply
}.

(** Library functions the model does not spell out: [repr] of a value,
    [repr] of a set (whose order depends on hashing), [json.loads]
    ([None] for a [JSONDecodeError]), and rich's rendering of console
    markup ([rich.markup.render]: [false] when it raises a
    [MarkupError]). *)
Record Builtins : Type := {
  repr : json -> string;
  repr_set : pyset -> string;
  json_loads : string -> option json;
  rich_render : string -> bool
}.

(** ** State *)

(** The fields of [self] that change, the plan file, and the trace. *)
Record St : Type := {
  data : json;
  errors : list string;
  available_processor_types : vdict json;
  changes_made : bool;
  disk : Disk;
  trace : list Event
}.

Definition set_data (d : json) (st : St) : St :=
  {| data := d; errors := errors st;
     available_processor_types := available_processor_types st;
     changes_made := changes_made st; disk := disk st; trace := trace st |}.
Definition set_errors (e : list string) (st : St) : St :=
  {| data := data st; errors := e;
     available_processor_types := available_processor_types st;
     changes_made := changes_made st; disk := disk st; trace := trace st |}.
Definition set_types (t : vdict json) (st : St) : St :=
  {| data := data st; errors := errors st;
     available_processor_types := t;
     changes_made := changes_made st; disk := disk st; trace := trace st |}.
Definition set_changes_made (b : bool) (st : St) : St :=
  {| data := data st; errors := errors st;
     available_processor_types := available_processor_types st;
     changes_made := b; disk := disk st; trace := trace st |}.
Definition set_disk (d : Disk) (st : St) : St :=
  {| data := data st; errors := errors st;
     available_processor_types := available_processor_types st;
     changes_made := changes_made st; disk := d; trace := trace st |}.
Definition log (e : Event) (st : St) : St :=
  {| data := data st; errors := errors st;
     available_processor_types := available_processor_types st;
     changes_made := changes_made st; disk := disk st; trace := trace st ++ [e] |}.

(** A method: it may change the state and may raise; what it changed
    before raising stays changed. *)
Definition M (A : Type) : Type := St -> result A * St.

Definition ret {A} (a : A) : M A := fun st => (Ok a, st).
Definition bind {A B} (m : M A) (k : A -> M B) : M B :=
  fun st =>
    match m st with
    | (Ok a, st') => k a st'
    | (Raise e, st') => (Raise e, st')
    end.
Definition lift {A} (r : result A) : M A := fun st => (r, st).
Definition raise {A} (e : exn) : M A := fun st => (Raise e, st).
Definition get : M St := fun st => (Ok st, st).
Definition modify (f : St -> St) : M unit := fun st => (Ok tt, f st).

Declare Scope m_scope.
Delimit Scope m_scope with m.
Notation "x <- m ;; k" := (bind m (fun x => k))
  (at level 61, m at next level, right associativity) : m_scope.
Notation "' pat <- m ;; k" := (bind m (fun x => match x with pat => k end))
  (at level 61, pat pattern, m at next level, right associativity) : m_scope.
Notation "m ;;; k" := (bind m (fun _ => k))
  (at level 61, right associativity) : m_scope.
Local Open Scope m_scope.

(** [self.errors.append(msg)] *)
Definition append_error (msg : string) : M unit :=
  modify (fun st => set_errors (errors st ++ [msg]) st).

Fixpoint for_each {A} (l : list A) (body : A -> M unit) : M unit :=
  match l with
  | [] => ret tt
  | a :: l' => body a ;;; for_each l' body
  end.

(** [enumerate(l)] *)
Definition enumerate {A} (l : list A) : list (nat * A) :=
  combine (seq 0 (List.length l)) l.

Definition when (b : bool) (m : M unit) : M unit := if b then m else ret tt.

(** How many requests of one kind were made so far. *)
Definition count_events (p : Event -> bool) (st : St) : nat :=
  List.length (filter p (trace st)).
Definition is_get (e : Event) := match e with EvGet _ => true | _ => false end.
Definition is_post (e : Event) := match e with EvPost _ _ => true | _ => false end.
Definition is_delete (e : Event) := match e with EvDelete _ _ _ _ => true | _ => false end.
Definition is_llm (e : Event) := match e with EvLLM _ _ => true | _ => false end.
Definition is_save (e : Event) := match e with EvSave _ _ => true | _ => false end.

(** ** Paths into the plan *)

Fixpoint replace_nth {A} (n : nat) (x : A) (l : list A) : list A :=
  match l, n with
  | [], _ => []
  | _ :: l', O => x :: l'
  | y :: l', S n' => y :: replace_nth n' x l'
  end.

(** [self.data["plan_details"]["processors"][index]] *)
Definition processor_at (index : nat) (d : json) : result json :=
  (pd <- py_getitem d "plan_details" ;;
   ps <- py_getitem pd "processors" ;;
   match ps with
   | JArr l =>
       match nth_error l index with
       | Some p => Ok p
       | None => Raise IndexError
       end
   | JStr _ => Raise IndexError
   | JObj _ => Raise KeyError
   | _ => Raise TypeError
   end)%res.

(** [self.data["plan_details"]["processors"][index][field] = v], for a
    processor that is a dict inside a list inside a dict inside a dict
    (the only shape in which the source reaches such an assignment). *)
Definition assign_processor_field (index : nat) (field : string) (v : json)
    (d : json) : json :=
  match d with
  | JObj top =>
      match lookup "plan_details" top with
      | Some (JObj pd) =>
          match lookup "processors" pd with
          | Some (JArr ps) =>
              match nth_error ps index with
              | Some (JObj p) =>
                  JObj (setitem "plan_details"
                    (JObj (setitem "processors"
                      (JArr (replace_nth index (JObj (setitem field v p)) ps)) pd)) top)
              | _ => d
              end
          | _ => d
          end
      | _ => d
      end
  | _ => d
  end.

Section WithSurroundings.

Variable bi : Builtins.
Variable cfg : Config.
Variable env : Env.

(** [f"{v}"] *)
Definition fmt (v : json) : string :=
  match v with
  | JStr s => s
  | JInt z => str_of_Z z
  | JNull => "None"
  | JBool true => "True"
  | JBool false => "False"
  | _ => repr bi v
  end.

(** ** The console *)

(** A text handed to [self.console.print]: the pieces of the f-string,
    those the program wrote and the values it puts between them. *)
Inductive Piece : Type :=
| Lit (s : string)
| Val (s : string).

Definition piece_text (p : Piece) : string :=
  match p with
  | Lit s => s
  | Val s => s
  end.

Definition text_of (t : list Piece) : string := String.concat "" (map piece_text t).

(** rich takes for a tag a [[] that is followed by a lower-case letter,
    [#], [/] or [@] (and later by a []]): [RE_TAGS] of rich/markup.py. *)
Definition tag_char (c : ascii) : bool :=
  let n := N_of_ascii c in
  ((97 <=? n) && (n <=? 122) || (n =? 35) || (n =? 47) || (n =? 64))%N.

Fixpoint opens_tag (s : list ascii) : bool :=
  match s with
  | [] => false
  | c :: s' =>
      (Ascii.eqb c "[" && match s' with
                          | c' :: _ => tag_char c'
                          | [] => false
                          end)
      || opens_tag s'
  end.

(** Some value put into the text holds the start of a tag. *)
Definition holds_markup (t : list Piece) : bool :=
  existsb (fun p => match p with
                    | Val s => opens_tag (chars s)
                    | Lit _ => false
                    end) t.

(** rich renders the text.  It raises only on a closing tag that matches
    no open one.  The tags the program writes itself are balanced, and in
    none of its texts is a value followed at once by a character that
    could make a tag of a [[] the value ends with; so a text is rendered
    when no value in it holds the start of a tag, and otherwise when
    [rich.markup.render] returns on it. *)
Definition displayed (t : list Piece) : bool :=
  negb (holds_markup t) || rich_render bi (text_of t).

(** [self.console.print(text)], for a text with values in it.  The texts
    without one, and those whose only values are numbers, are left out,
    and so is what the built-in [print] writes. *)
Definition console_print (t : list Piece) : M unit :=
  if displayed t then ret tt else raise MarkupError.

(** [for err in errors: self.console.print(f"{bullet}{err}")] *)
Definition print_lines (bullet : string) (lines : list string) : M unit :=
  for_each lines (fun err => console_print [Lit bullet; Val err]).

(** ** [validate_structure] *)

Inductive pytype : Type := TStr | TDict | TList.

Definition isinstance (v : json) (t : pytype) : bool :=
  match t with
  | TStr => is_str v
  | TDict => is_dict v
  | TList => is_list v
  end.

Definition required_processor_fields : list (string * (pytype * string)) :=
  [ ("id", (TStr, "string"));
    ("name", (TStr, "string"));
    ("properties", (TDict, "object"));
    ("scheduling", (TDict, "object"));
    ("auto_terminated_relationships", (TList, "array"));
    ("type", (TStr, "string")) ].

Definition required_connection_fields : list (string * (pytype * string)) :=
  [ ("from_id", (TStr, "string"));
    ("to_id", (TStr, "string"));
    ("relationships", (TList, "array")) ].

(** The inner loop over the required fields of one processor or
    connection (lines 95-99 and 115-119). *)
Definition check_required_fields (prefix : string)
    (required : list (string * (pytype * string))) (item : json) : M unit :=
  for_each required (fun '(field, (expected_type, type_nm)) =>
    present <- lift (py_contains field item) ;;
    if negb present then
      append_error (prefix ++ ": Missing required field `" ++ field ++ "`")
    else
      v <- lift (py_getitem item field) ;;
      when (negb (isinstance v expected_type))
        (append_error (prefix ++ ": Field `" ++ field ++ "` must be a " ++ type_nm
                       ++ ", got " ++ type_name v))).

Definition validate_details (details : dict) : M unit :=
  (* a. processors *)
  match lookup "processors" details with
  | None => append_error "Missing required field in plan_details: `processors`"
  | Some ps =>
      when (negb (is_list ps))
        (append_error "Field `plan_details.processors` must be an array (list)")
  end ;;;
  match lookup "processors" details with
  | Some (JArr ps) =>
      for_each (enumerate ps) (fun '(index, processor) =>
        check_required_fields ("Processor[" ++ str_of_nat index ++ "]")
          required_processor_fields processor)
  | _ => ret tt
  end ;;;
  (* b. connections *)
  match lookup "connections" details with
  | None => append_error "Missing required field in plan_details: `connections`"
  | Some (JArr cs) =>
      for_each (enumerate cs) (fun '(index, connection) =>
        check_required_fields ("Connection[" ++ str_of_nat index ++ "]")
          required_connection_fields connection)
  | Some _ => append_error "Field `plan_details.connections` must be an array (list)"
  end.

Definition validate_structure : M unit :=
  st <- get ;;
  let d := data st in
  if negb (truthy d) then ret tt else
  (* 1. plan_summary *)
  has_summary <- lift (py_contains "plan_summary" d) ;;
  (if negb has_summary then
     append_error "Missing required field: `plan_summary`"
   else
     s <- lift (py_getitem d "plan_summary") ;;
     when (negb (is_str s))
       (append_error "Field `plan_summary` must be a string (markdown)")) ;;;
  (* 2. plan_details *)
  has_details <- lift (py_contains "plan_details" d) ;;
  if negb has_details then
    append_error "Missing required field: `plan_details`"
  else
    details <- lift (py_getitem d "plan_details") ;;
    match details with
    | JObj dd => validate_details dd
    | _ => append_error "Field `plan_details` must be an object (dict)"
    end.

(** ** [fetch_nifi_processor_types] *)

Definition fetch_nifi_processor_types : M bool :=
  if negb (env_truthy (nifi_base_url cfg)) then
    append_error "NIFI_BASE_URL not set in .env" ;;; ret false
  else
    st <- get ;;
    let reply := get_reply env (count_events is_get st) in
    modify (log (EvGet reply)) ;;;
    match reply with
    | GetRaises msg =>
        append_error ("Failed to fetch processor types from NiFi: " ++ msg) ;;;
        ret false
    | GetJson types_data =>
        has <- lift (py_contains "processorTypes" types_data) ;;
        if has then
          pts <- lift (py_getitem types_data "processorTypes") ;;
          l <- lift (py_iter pts) ;;
          for_each l (fun pt =>
            k <- lift (py_getitem pt "type") ;;
            if hashable k then
              modify (fun st => set_types (vset k pt (available_processor_types st)) st)
            else raise TypeError) ;;;
          ret true
        else
          append_error "Unexpected response format from NiFi processor-types endpoint" ;;;
          ret false
    end.

(** ** [validate_processor_types] *)

(** The guard the three plan walkers start with:
    [not self.data or "plan_details" not in self.data or
     "processors" not in self.data["plan_details"]]. *)
Definition no_processors (d : json) : result bool :=
  if negb (truthy d) then Ok true else
  (c1 <- py_contains "plan_details" d ;;
   if negb c1 then Ok true else
   pd <- py_getitem d "plan_details" ;;
   c2 <- py_contains "processors" pd ;;
   Ok (negb c2))%res.

(** The catalog identifiers [fqcn] with
    [fqcn.endswith(f".{p_type}") or fqcn == p_type]. *)
Definition possible_matches (p_type : json) (catalog : vdict json)
    : result (list json) :=
  (flags <- rmap (fun fqcn =>
              match fqcn with
              | JStr f => Ok (endswith f ("." ++ fmt p_type) || py_eq fqcn p_type)
              | _ => Raise AttributeError
              end) (map fst catalog) ;;
   Ok (map fst (filter snd (combine (map fst catalog) flags))))%res.

(** The two messages of lines 189 and 198. *)
Definition ambiguous_type_error (index : nat) (p_name p_type : json)
    (matches : list json) : string :=
  "Processor[" ++ str_of_nat index ++ "] '" ++ fmt p_name
  ++ "': Type '" ++ fmt p_type ++ "' is ambiguous. Matches: "
  ++ repr bi (JArr matches).

Definition unknown_type_error (index : nat) (p_name p_type : json) : string :=
  "Processor[" ++ str_of_nat index ++ "] '" ++ fmt p_name
  ++ "': Type '" ++ fmt p_type ++ "' does not exist in your NiFi instance.".

(** The text of line 194. *)
Definition type_update_text (p_name p_type matched_fqcn : json) : list Piece :=
  [ Lit "[cyan]Updating processor '"; Val (fmt p_name); Lit "': '"; Val (fmt p_type);
    Lit "' -> '"; Val (fmt matched_fqcn); Lit "'[/cyan]" ].

(** One turn of the loop of [validate_processor_types] (lines 170-198);
    the result is the local flag [changes_made] after the turn.
    [processor] is the element of the list the loop is at: it is read
    before the turn writes to it, and no turn writes to another element. *)
Definition resolve_processor_type (index : nat) (processor : json)
    (changed : bool) : M bool :=
  p_type <- lift (py_get processor "type" JNull) ;;
  p_name <- lift (py_get processor "name" (JStr ("Processor-" ++ str_of_nat index))) ;;
  if negb (truthy p_type) then ret changed else
  st <- get ;;
  known <- lift (vmem p_type (available_processor_types st)) ;;
  if known then ret changed else
  matches <- lift (possible_matches p_type (available_processor_types st)) ;;
  match matches with
  | [matched_fqcn] =>
      current <- lift (py_getitem processor "type") ;;
      if negb (py_eq current matched_fqcn) then
        console_print (type_update_text p_name p_type matched_fqcn) ;;;
        modify (fun st => set_data (assign_processor_field index "type" matched_fqcn (data st)) st) ;;;
        ret true
      else ret changed
  | _ :: _ :: _ =>
      append_error (ambiguous_type_error index p_name p_type matches) ;;;
      ret changed
  | [] =>
      append_error (unknown_type_error index p_name p_type) ;;;
      ret changed
  end.

Fixpoint resolve_all (l : list (nat * json)) (changed : bool) : M bool :=
  match l with
  | [] => ret changed
  | (index, processor) :: l' =>
      changed' <- resolve_processor_type index processor changed ;;
      resolve_all l' changed'
  end.

Definition validate_processor_types : M unit :=
  st <- get ;;
  skip <- lift (no_processors (data st)) ;;
  if skip then ret tt else
  success <- (match available_processor_types st with
              | [] => fetch_nifi_processor_types
              | _ => ret true
              end) ;;
  if negb success then ret tt else
  st <- get ;;
  pd <- lift (py_getitem (data st) "plan_details") ;;
  processors <- lift (py_getitem pd "processors") ;;
  l <- lift (py_iter processors) ;;
  changed <- resolve_all (enumerate l) false ;;
  modify (set_changes_made changed).

(** ** [validate_controller_services] *)

Definition validate_controller_services : M unit :=
  st <- get ;;
  skip <- lift (no_processors (data st)) ;;
  if skip then ret tt else
  pd <- lift (py_getitem (data st) "plan_details") ;;
  processors <- lift (py_getitem pd "processors") ;;
  l <- lift (py_iter processors) ;;
  for_each (enumerate l) (fun '(index, processor) =>
    p_name <- lift (py_get processor "name" (JStr ("Processor-" ++ str_of_nat index))) ;;
    properties <- lift (py_get processor "properties" (JObj [])) ;;
    items <- lift (py_items properties) ;;
    for_each items (fun '(prop_name, prop_value) =>
      when (py_eq prop_value (JStr "CREATE_NEW_CS"))
        (append_error ("Processor[" ++ str_of_nat index ++ "] '" ++ fmt p_name
           ++ "': Property '" ++ prop_name
           ++ "' requires a new Controller Service (value is 'CREATE_NEW_CS'). Please create it manually in NiFi and update the plan.json with the actual UUID.")))).

(** ** The repair oracle client *)

(** The text handed to [json.loads]: stripped, then without a leading
    [```json] and a trailing [```]. *)
Definition unfence (text : string) : string :=
  let text := strip text in
  let text := if startswith text "```json" then drop_front 7 text else text in
  if endswith text "```" then drop_back 3 text else text.

(** [self.client.models.generate_content(...)] with its entry in the
    trace. *)
Definition generate_content (request : LLMRequest) : M LLMReply :=
  st <- get ;;
  let reply := llm_reply env (count_events is_llm st) in
  modify (log (EvLLM request reply)) ;;;
  ret reply.

(** One entry of [error_context] (lines 415-438). *)
Definition error_context_entry (descriptors : json) (err : string) : result json :=
  (prop_details <-
     match re_search_invalid err with
     | Some prop_name =>
         known <- py_contains prop_name descriptors ;;
         if known then
           desc <- py_getitem descriptors prop_name ;;
           description <- py_get desc "description" JNull ;;
           required <- py_get desc "required" JNull ;;
           sensitive <- py_get desc "sensitive" JNull ;;
           supportsEl <- py_get desc "supportsEl" JNull ;;
           let prop_details :=
             [ ("description", description); ("required", required);
               ("sensitive", sensitive); ("supportsEl", supportsEl) ] in
           has_av <- py_contains "allowableValues" desc ;;
           if has_av then
             avs <- py_getitem desc "allowableValues" ;;
             if truthy avs then
               l <- py_iter avs ;;
               vals <- rmap (fun av =>
                         a <- py_getitem av "allowableValue" ;;
                         value <- py_getitem a "value" ;;
                         a' <- py_getitem av "allowableValue" ;;
                         displayName <- py_getitem a' "displayName" ;;
                         Ok (JObj [("value", value); ("displayName", displayName)])) l ;;
               Ok (setitem "allowableValues" (JArr vals) prop_details)
             else Ok prop_details
           else Ok prop_details
         else Ok []
     | None => Ok []
     end ;;
   Ok (JObj [("error_message", JStr err); ("property_details", JObj prop_details)]))%res.

(** [resolve_validation_errors_with_llm]; [None] is the source's [False]. *)
Definition resolve_validation_errors_with_llm (processor_config : json)
    (validation_errors : list string) (descriptors : json) : M (option json) :=
  if negb (env_truthy (gemini_api_key cfg)) then ret None else
  error_context <- lift (rmap (error_context_entry descriptors) validation_errors) ;;
  (* try: *)
  if negb (env_truthy (gemini_api_key cfg)) (* not self.client *) then ret None else
  reply <- generate_content (ConfigRepair processor_config error_context) ;;
  match reply with
  | LLMRaises => ret None
  | LLMText text =>
      match json_loads bi (unfence text) with
      | None => ret None
      | Some fixes =>
          match fixes with
          | JObj kvs =>
              let properties_to_update :=
                match lookup "properties" kvs with Some v => v | None => JNull end in
              let relationships_to_update :=
                match lookup "auto_terminated_relationships" kvs with
                | Some v => v | None => JNull end in
              if negb (truthy properties_to_update) && negb (truthy relationships_to_update)
              then ret None
              else ret (Some fixes)
          | _ => ret None
          end
      end
  end.

(** [resolve_scheduling_errors_with_llm]; [None] is the source's [False].
    Everything after the call sits in one [try] whose handler returns
    [False]: a text that does not parse, and a parsed value without [get]. *)
Definition resolve_scheduling_errors_with_llm (scheduling_config : json)
    (error_message : string) : M (option json) :=
  if negb (env_truthy (gemini_api_key cfg)) then ret None else
  (* try: *)
  if negb (env_truthy (gemini_api_key cfg)) (* not self.client *) then ret None else
  reply <- generate_content (SchedulingRepair scheduling_config error_message) ;;
  match reply with
  | LLMRaises => ret None
  | LLMText text =>
      match json_loads bi (unfence text) with
      | None => ret None
      | Some fixes =>
          match py_get fixes "scheduling" fixes with
          | Ok v => ret (Some v)
          | Raise _ => ret None
          end
      end
  end.

(** ** [validate_processor_configuration] *)

(** The names of the method that are bound in one turn of a loop and read
    in a later one before being bound again; [None] is unbound.
    [current_props_dict] holds the keys and values the dict had when the
    name was bound: the loop that reads it only appends to the list
    [filtered_errors] names at that moment. *)
Record Locals : Type := {
  valid_descriptors : option (list string);
  current_props_dict : option json;
  filtered_errors : option (list string)
}.

Definition no_locals : Locals :=
  {| valid_descriptors := None; current_props_dict := None; filtered_errors := None |}.

(** How one turn of the [while] loop ends. *)
Inductive Ctl : Type :=
| Continue
| Break.

(** Lines 216-224. *)
Definition add_connection (connections_map : vdict pyset) (conn : json)
    : result (vdict pyset) :=
  (src <- py_get conn "from_id" JNull ;;
   rels <- py_get conn "relationships" (JArr []) ;;
   if truthy src then
     known <- vmem src connections_map ;;
     let connections_map :=
       if known then connections_map else vset src [] connections_map in
     let current := match vlookup src connections_map with Some s => s | None => [] end in
     s <- set_update current rels ;;
     Ok (vset src s connections_map)
   else Ok connections_map)%res.

Fixpoint add_connections (connections_map : vdict pyset) (l : list json)
    : result (vdict pyset) :=
  match l with
  | [] => Ok connections_map
  | conn :: l' =>
      (m <- add_connection connections_map conn ;; add_connections m l')%res
  end.

Definition build_connections_map (d : json) : result (vdict pyset) :=
  (pd <- py_get d "plan_details" JNull ;;
   has <- (if truthy pd then py_contains "connections" pd else Ok false) ;;
   if has then
     pd' <- py_getitem d "plan_details" ;;
     conns <- py_getitem pd' "connections" ;;
     l <- py_iter conns ;;
     add_connections [] l
   else Ok [])%res.

(** The request body of lines 250-263. *)
Definition create_payload (index : nat) (p_name p_type : json)
    (clean_properties : dict) (strategy period concurrent_tasks : json) : json :=
  JObj [ ("revision", JObj [("version", JInt 0)]);
         ("component", JObj [
            ("type", p_type);
            ("name", JStr ("VALIDATION-" ++ fmt p_name));
            ("position", JObj [("x", JInt (Z.of_nat index * 500)); ("y", JInt 0)]);
            ("config", JObj [
               ("properties", JObj clean_properties);
               ("schedulingStrategy", strategy);
               ("schedulingPeriod", period);
               ("concurrentlySchedulableTaskCount", concurrent_tasks) ]) ]) ].

(** Lines 242-263, before the [try]. *)
Definition prepare_payload (index : nat) (p_name p_type : json) (d : json)
    : result json :=
  (current_processor_data <- processor_at index d ;;
   p_properties <- py_get current_processor_data "properties" (JObj []) ;;
   items <- py_items p_properties ;;
   let clean_properties := filter (fun kv => is_str (snd kv)) items in
   scheduling <- py_get current_processor_data "scheduling" (JObj []) ;;
   strategy <- py_get scheduling "strategy" JNull ;;
   period <- py_get scheduling "period" JNull ;;
   concurrent_tasks <- py_get scheduling "concurrent_tasks" JNull ;;
   Ok (create_payload index p_name p_type clean_properties
         strategy period concurrent_tasks))%res.

(** ["config" in component and "descriptors" in component["config"]] *)
Definition has_descriptors (component : json) : result bool :=
  (c <- py_contains "config" component ;;
   if c then
     config <- py_getitem component "config" ;;
     py_contains "descriptors" config
   else Ok false)%res.

Definition get_descriptors (component : json) : result json :=
  (config <- py_getitem component "config" ;;
   py_getitem config "descriptors")%res.

(** [allowable_values and len(allowable_values) == 1] *)
Definition single_choice (allowable_values : json) : result bool :=
  if truthy allowable_values then
    (n <- py_len allowable_values ;; Ok (n =? 1)%nat)%res
  else Ok false.

(** [allowable_values[0]["allowableValue"]["value"]] *)
Definition first_allowable_value (allowable_values : json) : result json :=
  (first <- py_first allowable_values ;;
   av <- py_getitem first "allowableValue" ;;
   py_getitem av "value")%res.

(** Lines 298-307 for one descriptor that passed the two tests.
    [p_properties] is the dict the processor had under ["properties"] when
    the turn began, if it had one ([had_properties]); the assignment of
    line 306 writes into that very dict, so [p_properties.get] reads the
    plan as it is now.  Without one, [p_properties] is an empty dict of
    its own. *)
Definition auto_correct_property (index : nat) (had_properties : bool)
    (prop_name : string) (allowable_values : json) : M unit :=
  single_value <- lift (first_allowable_value allowable_values) ;;
  st <- get ;;
  processor <- lift (processor_at index (data st)) ;;
  props_now <- lift (py_get processor "properties" (JObj [])) ;;
  current_val <- lift (if had_properties then py_get props_now prop_name JNull
                       else Ok JNull) ;;
  when (negb (py_eq current_val single_value))
    (present <- lift (py_contains "properties" processor) ;;
     when (negb present)
       (modify (fun st => set_data (assign_processor_field index "properties" (JObj []) (data st)) st)) ;;;
     st <- get ;;
     processor <- lift (processor_at index (data st)) ;;
     props <- lift (py_getitem processor "properties") ;;
     items <- lift (py_items props) ;;
     modify (fun st => set_data
       (assign_processor_field index "properties"
          (JObj (setitem prop_name single_value items)) (data st)) st) ;;;
     modify (set_changes_made true)).

(** Lines 295-307: one turn of the loop over the descriptors. *)
Definition auto_correct_descriptor (index : nat) (had_properties : bool)
    (prop_name : string) (descriptor : json) : M unit :=
  identifies <- lift (py_contains "identifiesControllerService" descriptor) ;;
  when identifies
    (allowable_values <- lift (py_get descriptor "allowableValues" JNull) ;;
     single <- lift (single_choice allowable_values) ;;
     when single
       (auto_correct_property index had_properties prop_name allowable_values)).

(** Lines 291-307. *)
Definition auto_correct (index : nat) (had_properties : bool) (component : json)
    : M unit :=
  has <- lift (has_descriptors component) ;;
  when has
    (descriptors <- lift (get_descriptors component) ;;
     items <- lift (py_items descriptors) ;;
     for_each items (fun '(prop_name, descriptor) =>
       auto_correct_descriptor index had_properties prop_name descriptor)).

(** Line 318's message. *)
Definition dynamic_property_error (prop_key : string) : string :=
  "Property '" ++ prop_key
  ++ "' is invalid because the processor does not support dynamic properties. It must be removed.".

(** The loop of lines 315-318, which stands after the [if] of line 311,
    not inside it, and appends to whatever list [filtered_errors] names
    when it runs. *)
Fixpoint flag_dynamic_properties (keys : list string) (loc : Locals) : result Locals :=
  match keys with
  | [] => Ok loc
  | prop_key :: keys' =>
      match valid_descriptors loc with
      | None => Raise UnboundLocalError
      | Some valid =>
          if negb (existsb (String.eqb prop_key) valid) then
            match filtered_errors loc with
            | None => Raise UnboundLocalError
            | Some l =>
                flag_dynamic_properties keys'
                  {| valid_descriptors := valid_descriptors loc;
                     current_props_dict := current_props_dict loc;
                     filtered_errors := Some (l ++ [dynamic_property_error prop_key]) |}
            end
          else flag_dynamic_properties keys' loc
      end
  end.

(** Lines 309-318. *)
Definition cleanup_dynamic_properties (index : nat) (component : json) (d : json)
    (loc : Locals) : result Locals :=
  (supports_dynamic_props <- py_get component "supportsDynamicProperties" (JBool false) ;;
   cond <- (if negb (truthy supports_dynamic_props) then has_descriptors component
            else Ok false) ;;
   loc <- (if cond then
             descriptors <- get_descriptors component ;;
             keys <- py_keys descriptors ;;
             processor <- processor_at index d ;;
             props <- py_get processor "properties" (JObj []) ;;
             Ok {| valid_descriptors := Some keys;
                   current_props_dict := Some props;
                   filtered_errors := filtered_errors loc |}
           else Ok loc) ;;
   match current_props_dict loc with
   | None => Raise UnboundLocalError
   | Some props =>
       keys <- py_keys props ;;
       flag_dynamic_properties keys loc
   end)%res.

(** Lines 320-327: the list [filtered_errors] is bound to from here on. *)
Fixpoint filter_errors (l : list json) : result (list string) :=
  match l with
  | [] => Ok []
  | JStr error :: l' =>
      (rest <- filter_errors l' ;;
       if startswith error "'Relationship" || startswith error "'Upstream Connections"
       then Ok rest
       else Ok (error :: rest))%res
  | _ :: _ => Raise AttributeError
  end.

Definition check_errors (component : json) : result (list string) :=
  (validation_errors <- py_get component "validationErrors" (JArr []) ;;
   l <- py_iter validation_errors ;;
   filter_errors l)%res.

(** Lines 330-333. *)
Fixpoint add_names (s : pyset) (l : list json) : result pyset :=
  match l with
  | [] => Ok s
  | r :: l' =>
      (name <- py_getitem r "name" ;;
       s' <- set_add s name ;;
       add_names s' l')%res
  end.

Definition available_relationships (component : json) : result pyset :=
  (has <- py_contains "relationships" component ;;
   if has then
     rels <- py_getitem component "relationships" ;;
     l <- py_iter rels ;;
     add_names [] l
   else Ok [])%res.

Definition relationship_message (unaccounted : pyset) : string :=
  "Relationships " ++ repr_set bi unaccounted
  ++ " are not auto-terminated or connected.".

(** Lines 335-342. *)
Definition check_relationships (available_rels : pyset)
    (current_processor_data p_id : json) (connections_map : vdict pyset)
    : result (list string) :=
  (atr <- py_get current_processor_data "auto_terminated_relationships" (JArr []) ;;
   auto_terminated <- set_of atr ;;
   is_source <- vmem p_id connections_map ;;
   let connected :=
     match vlookup p_id connections_map with Some s => s | None => [] end in
   if is_source then
     let unaccounted := set_diff available_rels (set_union auto_terminated connected) in
     match unaccounted with
     | [] => Ok []
     | _ :: _ => Ok [relationship_message unaccounted]
     end
   else Ok [])%res.

(** Lines 345-351. *)
Definition all_errors (index : nat) (p_name : json)
    (filtered relationship : list string) : list string :=
  (map (fun err => ("Processor[" ++ str_of_nat index ++ "] '" ++ fmt p_name
                    ++ "' Config Error: " ++ err)%string) filtered
   ++ map (fun err => ("Processor[" ++ str_of_nat index ++ "] '" ++ fmt p_name
                       ++ "' Relationship Error: " ++ err)%string) relationship)%list.

(** What the inspection of a created instance (lines 287-351) hands to
    the rest of the turn. *)
Record Inspection : Type := {
  proc_id : json;
  proc_revision : json;
  insp_filtered : list string;
  insp_relationship : list string;
  insp_all : list string;
  insp_locals : Locals
}.

Definition inspect (index : nat) (p_name p_id : json) (had_properties : bool)
    (connections_map : vdict pyset) (loc : Locals) (proc_data : json)
    : M Inspection :=
  component <- lift (py_getitem proc_data "component") ;;
  the_id <- lift (py_getitem component "id") ;;
  revision <- lift (py_getitem proc_data "revision") ;;
  version <- lift (py_getitem revision "version") ;;
  auto_correct index had_properties component ;;;
  st <- get ;;
  loc <- lift (cleanup_dynamic_properties index component (data st) loc) ;;
  filtered <- lift (check_errors component) ;;
  let loc := {| valid_descriptors := valid_descriptors loc;
                current_props_dict := current_props_dict loc;
                filtered_errors := Some filtered |} in
  available_rels <- lift (available_relationships component) ;;
  current_processor_data <- lift (processor_at index (data st)) ;;
  relationship <- lift (check_relationships available_rels current_processor_data
                          p_id connections_map) ;;
  ret {| proc_id := the_id; proc_revision := version;
         insp_filtered := filtered; insp_relationship := relationship;
         insp_all := all_errors index p_name filtered relationship;
         insp_locals := loc |}.

(** Lines 353-362: the answer to the request is dropped. *)
Definition delete_processor (the_id version : json) (proc_data : json) : M unit :=
  revision <- lift (py_getitem proc_data "revision") ;;
  client_id <- lift (py_get revision "clientId" JNull) ;;
  st <- get ;;
  let reply := delete_reply env (count_events is_delete st) in
  modify (log (EvDelete the_id version
                 (if truthy client_id then Some client_id else None) reply)).

(** The texts of lines 273, 278 and 384. *)
Definition scheduling_error_text (error_text : string) : list Piece :=
  [ Lit "[red]Scheduling Error: "; Val error_text; Lit "[/red]" ].

Definition scheduling_applied_text (p_name : json) : list Piece :=
  [ Lit "[cyan]Applying LLM scheduling fixes for '"; Val (fmt p_name); Lit "'...[/cyan]" ].

Definition config_applied_text (p_name p_type : json) : list Piece :=
  [ Lit "[cyan]Applying LLM fixes for "; Val (fmt p_name); Lit " ("; Val (fmt p_type);
    Lit ")[/cyan]" ].

(** [response.status_code == 400 and "scheduling period" in error_text.lower()] *)
Definition scheduling_refusal (status_code : Z) (error_text : string) : bool :=
  (status_code =? 400) && str_in "scheduling period" (lower error_text).

(** Lines 364-401, after the instance is deleted. *)
Definition after_delete (index : nat) (p_name p_type : json) (retry_count : nat)
    (proc_data : json) (i : Inspection) : M Ctl :=
  match insp_all i with
  | [] => ret Break
  | _ :: _ =>
      if (Z.of_nat retry_count <? max_retries cfg)
         && env_truthy (gemini_api_key cfg)
         && (match insp_filtered i, insp_relationship i with
             | [], [] => false
             | _, _ => true
             end)
      then
        component <- lift (py_getitem proc_data "component") ;;
        descriptors <- lift (get_descriptors component) ;;
        let combined_errors := insp_filtered i ++ insp_relationship i in
        print_lines "- " combined_errors ;;;
        st <- get ;;
        current_processor_data <- lift (processor_at index (data st)) ;;
        fixes <- resolve_validation_errors_with_llm current_processor_data
                   combined_errors descriptors ;;
        let record_failure :=
          modify (fun st => set_errors (errors st ++ insp_all i) st) ;;;
          ret Break in
        match fixes with
        | Some f =>
            if truthy f then
              console_print (config_applied_text p_name p_type) ;;;
              has_properties <- lift (py_contains "properties" f) ;;
              when has_properties
                (v <- lift (py_getitem f "properties") ;;
                 modify (fun st => set_data
                   (assign_processor_field index "properties" v (data st)) st) ;;;
                 modify (set_changes_made true)) ;;;
              has_relationships <- lift (py_contains "auto_terminated_relationships" f) ;;
              when has_relationships
                (v <- lift (py_getitem f "auto_terminated_relationships") ;;
                 modify (fun st => set_data
                   (assign_processor_field index "auto_terminated_relationships" v
                      (data st)) st) ;;;
                 modify (set_changes_made true)) ;;;
              ret Continue
            else record_failure
        | None => record_failure
        end
      else
        modify (fun st => set_errors (errors st ++ insp_all i) st) ;;;
        ret Break
  end.

(** Lines 268-285: the runtime did not answer 201. *)
Definition creation_refused (index : nat) (p_name : json) (retry_count : nat)
    (status_code : Z) (error_text : string) : M Ctl :=
  let record_failure :=
    append_error ("Processor[" ++ str_of_nat index ++ "] '" ++ fmt p_name
                  ++ "': Failed to create in sandbox. Status: " ++ str_of_Z status_code
                  ++ ", Response: " ++ error_text) ;;;
    ret Break in
  if scheduling_refusal status_code error_text then
    if (Z.of_nat retry_count <? max_retries cfg) && env_truthy (gemini_api_key cfg) then
      console_print (scheduling_error_text error_text) ;;;
      st <- get ;;
      current_processor_data <- lift (processor_at index (data st)) ;;
      scheduling_config <- lift (py_get current_processor_data "scheduling" (JObj [])) ;;
      fixes <- resolve_scheduling_errors_with_llm scheduling_config error_text ;;
      match fixes with
      | Some v =>
          if truthy v then
            console_print (scheduling_applied_text p_name) ;;;
            modify (fun st => set_data (assign_processor_field index "scheduling" v (data st)) st) ;;;
            modify (set_changes_made true) ;;;
            ret Continue
          else record_failure
      | None => record_failure
      end
    else record_failure
  else record_failure.

(** [try: ... except requests.exceptions.RequestException as e: handler] *)
Definition try_request {A} (body : M A) (handler : string -> M A) : M A :=
  fun st =>
    match body st with
    | (Raise (RequestException msg), st') => handler msg st'
    | other => other
    end.

(** The body of the [try] (lines 266-401). *)
Definition attempt_body (index : nat) (p_name p_type p_id : json) (had_properties : bool)
    (connections_map : vdict pyset) (retry_count : nat) (loc : Locals)
    (payload : json) : M (Ctl * Locals) :=
  st <- get ;;
  let reply := post_reply env (count_events is_post st) in
  modify (log (EvPost payload reply)) ;;;
  match reply with
  | PostRaises msg => raise (RequestException msg)
  | PostResponse status_code text body =>
      if negb (status_code =? 201) then
        c <- creation_refused index p_name retry_count status_code text ;;
        ret (c, loc)
      else
        proc_data <- lift body ;;
        i <- inspect index p_name p_id had_properties connections_map loc proc_data ;;
        delete_processor (proc_id i) (proc_revision i) proc_data ;;;
        c <- after_delete index p_name p_type retry_count proc_data i ;;
        ret (c, insp_locals i)
  end.

(** One turn of the [while] loop (lines 241-405). *)
Definition attempt (index : nat) (p_name p_type p_id : json)
    (connections_map : vdict pyset) (retry_count : nat) (loc : Locals)
    : M (Ctl * Locals) :=
  st <- get ;;
  payload <- lift (prepare_payload index p_name p_type (data st)) ;;
  current_processor_data <- lift (processor_at index (data st)) ;;
  had_properties <- lift (py_contains "properties" current_processor_data) ;;
  try_request
    (attempt_body index p_name p_type p_id had_properties connections_map retry_count loc
       payload)
    (fun e =>
       append_error ("Processor[" ++ str_of_nat index ++ "] '" ++ fmt p_name
                     ++ "': NiFi API error during sandbox validation: " ++ e) ;;;
       ret (Break, loc)).

(** [max_attempts = self.max_retries + 1 if self.gemini_api_key else 1] *)
Definition max_attempts : Z :=
  if env_truthy (gemini_api_key cfg) then max_retries cfg + 1 else 1.

(** [while retry_count < max_attempts].  [retry_count] goes up by one on
    each [continue]; [remaining] is [max_attempts - retry_count], so the
    loop test holds exactly while [remaining] is not zero. *)
Fixpoint attempts (remaining : nat) (index : nat) (p_name p_type p_id : json)
    (connections_map : vdict pyset) (retry_count : nat) (loc : Locals)
    : M Locals :=
  match remaining with
  | O => ret loc
  | S remaining' =>
      '(c, loc') <- attempt index p_name p_type p_id connections_map retry_count loc ;;
      match c with
      | Continue =>
          attempts remaining' index p_name p_type p_id connections_map
            (S retry_count) loc'
      | Break => ret loc'
      end
  end.

(** One turn of the [for] loop over the processors (lines 230-405). *)
Definition validate_one (connections_map : vdict pyset) (index : nat)
    (processor : json) (loc : Locals) : M Locals :=
  p_name <- lift (py_get processor "name" (JStr ("Processor-" ++ str_of_nat index))) ;;
  p_type <- lift (py_get processor "type" JNull) ;;
  p_id <- lift (py_get processor "id" JNull) ;;
  console_print [ Lit (nl ++ "[bold]Validating "); Val (fmt p_name); Lit " (";
                  Val (fmt p_type);
                  Lit ")[/bold]" ] ;;;
  attempts (Z.to_nat max_attempts) index p_name p_type p_id connections_map 0 loc.

Fixpoint validate_each (connections_map : vdict pyset) (l : list (nat * json))
    (loc : Locals) : M Locals :=
  match l with
  | [] => ret loc
  | (index, processor) :: l' =>
      loc' <- validate_one connections_map index processor loc ;;
      validate_each connections_map l' loc'
  end.

Definition validate_processor_configuration : M unit :=
  if negb (env_truthy (sandbox_pg_id cfg)) then
    append_error "SANDBOX_VALIDATION_PROCESSOR_GROUP not set in .env"
  else
    st <- get ;;
    skip <- lift (no_processors (data st)) ;;
    if skip then ret tt else
    connections_map <- lift (build_connections_map (data st)) ;;
    pd <- lift (py_getitem (data st) "plan_details") ;;
    processors <- lift (py_getitem pd "processors") ;;
    l <- lift (py_iter processors) ;;
    validate_each connections_map (enumerate l) no_locals ;;;
    ret tt.

(** ** The plan file *)

(** [load_plan]: only a [JSONDecodeError] is caught; what else [open] or
    [json.load] raises leaves the method. *)
Definition load_plan : M bool :=
  st <- get ;;
  modify (log (EvLoad (disk st))) ;;;
  match disk st with
  | NoFile =>
      append_error ("File not found: " ++ plan_path cfg) ;;; ret false
  | BadFile msg =>
      append_error ("JSON Parse Error: " ++ msg) ;;; ret false
  | Unreadable e => raise e
  | PlanFile content =>
      modify (set_data content) ;;; ret true
  end.

(** [save_plan]: the whole document is written and the console told so;
    an [IOError] becomes an entry of [self.errors]. *)
Definition save_plan : M unit :=
  st <- get ;;
  let reply := save_reply env (count_events is_save st) in
  modify (log (EvSave (data st) reply)) ;;;
  match reply with
  | SaveOk =>
      modify (set_disk (PlanFile (data st))) ;;;
      console_print [ Lit "[green]Updated "; Val (plan_path cfg);
                      Lit " with corrected types.[/green]" ]
  | SaveFails msg left_behind =>
      modify (set_disk left_behind) ;;;
      append_error ("Failed to save updated plan: " ++ msg)
  end.

(** ** [resolve_structure_errors_with_llm] *)

(** [d.get("description", "")[:100]] for one catalog entry: only a
    sequence can be sliced. *)
Definition describe_type (d : json) : result json :=
  (description <- py_get d "description" (JStr "") ;;
   match description with
   | JStr s => Ok (JStr (unchars (firstn 100 (chars s))))
   | JArr l => Ok (JArr (firstn 100 l))
   | _ => Raise TypeError
   end)%res.

(** [self.data["plan_details"] = fixed_details] *)
Definition assign_plan_details (fixed_details : json) (d : json) : result json :=
  match d with
  | JObj top => Ok (JObj (setitem "plan_details" fixed_details top))
  | _ => Raise TypeError
  end.

(** What the [try] of lines 607-635 does with the text of the answer;
    any exception in it ends in the handler, which returns [False]. *)
Definition parse_structure_fix (text : string) (d : json) : option json :=
  match json_loads bi (unfence text) with
  | None => None
  | Some fixed_details =>
      match
        (nested <- py_contains "plan_details" fixed_details ;;
         fixed_details <- (if nested then py_getitem fixed_details "plan_details"
                           else Ok fixed_details) ;;
         assign_plan_details fixed_details d)%res
      with
      | Ok d' => Some d'
      | Raise _ => None
      end
  end.

Definition resolve_structure_errors_with_llm : M bool :=
  if negb (env_truthy (gemini_api_key cfg)) then ret false else
  st <- get ;;
  match available_processor_types st with
  | [] => fetch_nifi_processor_types ;;; ret tt
  | _ => ret tt
  end ;;;
  st <- get ;;
  lift (rmap (fun td => describe_type (snd td)) (available_processor_types st)) ;;;
  plan_details <- lift (py_get (data st) "plan_details" (JObj [])) ;;
  (* try: *)
  if negb (env_truthy (gemini_api_key cfg)) (* not self.client *) then ret false else
  reply <- generate_content
             (StructureRepair plan_details (errors st)
                (map fst (available_processor_types st))) ;;
  match reply with
  | LLMRaises => ret false
  | LLMText text =>
      match parse_structure_fix text (data st) with
      | Some d' =>
          modify (set_data d') ;;;
          modify (set_changes_made true) ;;;
          ret true
      | None => ret false
      end
  end.

(** ** [run] *)

(** How [run] ends: the process exits with a code, or it sits in
    [Prompt.ask] because no further answer was given. *)
Inductive Outcome : Type :=
| Exited (code : Z)
| AwaitingChoice.

(** [_print_errors]: it leaves the process, with 1 after it has shown the
    errors when there are some, and with 0 after the hand-over to the
    builder, which is not part of the validator. *)
Definition print_errors : M Outcome :=
  st <- get ;;
  match errors st with
  | [] => ret (Exited 0)
  | _ :: _ => print_lines " - " (errors st) ;;; ret (Exited 1)
  end.

(** Lines 701-714. *)
Definition sandbox_phase : M Outcome :=
  validate_processor_configuration ;;;
  st <- get ;;
  when (changes_made st) save_plan ;;;
  print_errors.

(** Lines 664-672: the three initial validations, one after the other. *)
Definition initial_checks : M unit :=
  validate_structure ;;;
  validate_processor_types ;;;
  validate_controller_services.

(** Lines 689-696: the operator chose the repair by the oracle. *)
Definition repair_step : M unit :=
  fixed <- resolve_structure_errors_with_llm ;;
  if fixed then save_plan else ret tt.

(** The [while True] loop of lines 655-699 and what follows it.  Each turn
    that finds errors shows them and asks the operator once, so the
    answers given bound the number of turns. *)
Fixpoint run_from (choices : list Choice) : M Outcome :=
  modify (set_errors []) ;;;
  loaded <- load_plan ;;
  if negb loaded then print_errors else
  modify (set_changes_made false) ;;;
  initial_checks ;;;
  st <- get ;;
  match errors st with
  | [] => sandbox_phase
  | _ :: _ =>
      print_lines " - " (errors st) ;;;
      match choices with
      | [] => ret AwaitingChoice
      | RetryInitialValidation :: choices' => run_from choices'
      | FixThePlanUsingLLM :: choices' => repair_step ;;; run_from choices'
      | ExitChoice :: _ => ret (Exited 1)
      end
  end.

(** The validator as [__init__] leaves it, next to a plan file. *)
Definition initial (d : Disk) : St :=
  {| data := JNull; errors := []; available_processor_types := [];
     changes_made := false; disk := d; trace := [] |}.

Definition run (d : Disk) (choices : list Choice) : result Outcome * St :=
  run_from choices (initial d).

End WithSurroundings.

End Engine.

(* ================================================================== *)
(** * Vocabulary of the properties *)
(* ================================================================== *)

Module Props.
Import Py Engine.

(** ** Plans *)

(** A plan document with a summary, processors and connections. *)
Definition plan_doc (summary : string) (processors connections : list json) : json :=
  JObj [ ("plan_summary", JStr summary);
         ("plan_details", JObj [ ("processors", JArr processors);
                                 ("connections", JArr connections) ]) ].

(** An item is a dict that has every required field with a value of the
    required type. *)
Definition has_required (required : list (string * (pytype * string)))
    (item : json) : bool :=
  match item with
  | JObj kvs =>
      forallb (fun r =>
                 match lookup (fst r) kvs with
                 | Some v => isinstance v (fst (snd r))
                 | None => false
                 end) required
  | _ => false
  end.

(** The value under [field] of a dict, [None] for anything else. *)
Definition field (name : string) (item : json) : option json :=
  match item with
  | JObj kvs => lookup name kvs
  | _ => None
  end.

(** Some processor of the list has [v] as its id. *)
Definition is_processor_id (processors : list json) (v : json) : bool :=
  existsb (fun p => match field "id" p with
                    | Some i => py_eq i v
                    | None => false
                    end) processors.

(** A connection one of whose ends is not the id of any processor. *)
Definition dangling (processors : list json) (connection : json) : bool :=
  match field "from_id" connection, field "to_id" connection with
  | Some f, Some t =>
      negb (is_processor_id processors f) || negb (is_processor_id processors t)
  | _, _ => true
  end.

(** The catalog identifiers that end with a dot and the raw type. *)
Definition candidates (raw : string) (identifiers : list string) : list string :=
  filter (fun fqcn => endswith fqcn ("." ++ raw)) identifiers.

(** The display name the messages use for a processor. *)
Definition display_name (index : nat) (processor : dict) : json :=
  match lookup "name" processor with
  | Some n => n
  | None => JStr ("Processor-" ++ str_of_nat index)
  end.

(** ** Relationships *)

(** A list of string values, as strings. *)
Fixpoint strings (l : list json) : option (list string) :=
  match l with
  | [] => Some []
  | JStr s :: l' => option_map (cons s) (strings l')
  | _ :: _ => None
  end.

(** The source and the relationship names of a connection that has a
    string [from_id] and a list of strings as [relationships]. *)
Definition connection_view (c : json) : option (string * list string) :=
  match field "from_id" c, field "relationships" c with
  | Some (JStr f), Some (JArr l) => option_map (pair f) (strings l)
  | _, _ => None
  end.

(** The connections of a plan. *)
Definition connections_of (d : json) : option (list json) :=
  match field "plan_details" d with
  | Some pd =>
      match field "connections" pd with
      | Some (JArr l) => Some l
      | _ => None
      end
  | None => None
  end.

(** The relationship lists of the connections that start at [id]. *)
Definition outgoing (id : string) (connections : list json) : list (list string) :=
  flat_map (fun c =>
              match connection_view c with
              | Some (f, rels) => if (f =? id)%string then [rels] else []
              | None => []
              end) connections.

(** [id] is the source of at least one connection. *)
Definition is_source (id : string) (connections : list json) : bool :=
  match outgoing id connections with
  | [] => false
  | _ :: _ => true
  end.

(** The union of the relationship sets of the connections leaving [id]. *)
Definition carried (id : string) (connections : list json) : list string :=
  List.concat (outgoing id connections).

Definition mem (x : string) (l : list string) : bool := existsb (String.eqb x) l.

(** The available relationships that are neither auto-terminated nor
    carried by an outgoing connection. *)
Definition unaccounted (available auto_terminated connected : list string)
    : list string :=
  filter (fun r => negb (mem r auto_terminated) && negb (mem r connected)) available.

(** Sets and [connections_map] when every value in them is a string. *)
Fixpoint add_strings (s : list string) (l : list string) : list string :=
  match l with
  | [] => s
  | x :: l' => add_strings (if mem x s then s else s ++ [x]) l'
  end.

Definition smap := list (string * list string).

Definition as_vdict (m : smap) : vdict pyset :=
  map (fun kv => (JStr (fst kv), map JStr (snd kv))) m.

Fixpoint slookup (k : string) (m : smap) : option (list string) :=
  match m with
  | [] => None
  | (k', v) :: m' => if (k =? k')%string then Some v else slookup k m'
  end.

Fixpoint sset (k : string) (v : list string) (m : smap) : smap :=
  match m with
  | [] => [(k, v)]
  | (k', v') :: m' =>
      if (k =? k')%string then (k', v) :: m' else (k', v') :: sset k v m'
  end.

Definition add_view (m : smap) (view : string * list string) : smap :=
  let (f, rels) := view in
  if (f =? "")%string then m else
  let m1 := match slookup f m with Some _ => m | None => sset f [] m end in
  let current := match slookup f m1 with Some s => s | None => [] end in
  sset f (add_strings current rels) m1.

(** The views of the connections that have one. *)
Definition views_of (connections : list json) : list (string * list string) :=
  flat_map (fun c => match connection_view c with
                     | Some v => [v]
                     | None => []
                     end) connections.

Definition or_empty (o : option (list string)) : list string :=
  match o with
  | Some s => s
  | None => []
  end.

Definition is_some {A} (o : option A) : bool :=
  match o with
  | Some _ => true
  | None => false
  end.

(** The properties of a processor: the dict under ["properties"], empty
    when there is none. *)
Definition properties_of (processor : dict) : dict :=
  match lookup "properties" processor with
  | Some (JObj props) => props
  | _ => []
  end.






(** ** What a step may do *)

(** A step relates every state to the state it leaves, whether it
    returns or raises. *)
Definition preserves (R : St -> St -> Prop) {A} (m : M A) : Prop :=
  forall st, R st (snd (m st)).

(** The trace is as it was. *)
Definition same_trace (st st' : St) : Prop := trace st' = trace st.

(** The plan was changed only with the dirty flag set. *)
Definition flagged (st st' : St) : Prop :=
  changes_made st' = true
  \/ (data st' = data st /\ changes_made st' = changes_made st).

(** A computation that does not raise a [RequestException]. *)
Definition pure {A} (r : result A) : Prop :=
  forall msg, r <> Raise (RequestException msg).

Definition quiet {A} (m : M A) : Prop :=
  forall st, pure (fst (m st)).

(** What holds of the result and the state when a step returns. *)
Definition returns {A} (m : M A) (Q : A -> St -> Prop) (st : St) : Prop :=
  match m st with
  | (Ok a, st') => Q a st'
  | (Raise _, _) => True
  end.

(** The last thing done to the surroundings was to write the plan as it
    is in memory to the file.  When the write went through, the file holds
    that plan; when it failed, the file is what the failed write left and
    the failure is the last error recorded. *)
Definition saved_to_disk (st : St) : Prop :=
  exists before reply,
    trace st = before ++ [EvSave (data st) reply]
    /\ match reply with
       | SaveOk => disk st = PlanFile (data st)
       | SaveFails msg left_behind =>
           disk st = left_behind
           /\ exists earlier,
                errors st = earlier ++ [("Failed to save updated plan: " ++ msg)%string]
       end.

(** The plan and the dirty flag are as they were. *)
Definition same_plan (st st' : St) : Prop :=
  data st' = data st /\ changes_made st' = changes_made st.

(** ** Oracle answers *)

Section Answers.

Variable bi : Builtins.

(** What an oracle answer parses to, if it does. *)
Definition parsed (reply : LLMReply) : option json :=
  match reply with
  | LLMText text => json_loads bi (unfence text)
  | LLMRaises => None
  end.

(** The configuration fix in an answer: the parsed object, provided it is
    an object in which [properties] or [auto_terminated_relationships] is
    present and truthy. *)
Definition config_fix (reply : LLMReply) : option json :=
  match parsed reply with
  | Some (JObj kvs) =>
      if truthy (match lookup "properties" kvs with Some v => v | None => JNull end)
         || truthy (match lookup "auto_terminated_relationships" kvs with
                    | Some v => v
                    | None => JNull
                    end)
      then Some (JObj kvs)
      else None
  | _ => None
  end.

(** The scheduling fix in an answer: the [scheduling] member of the
    parsed object, or the object itself when it has none. *)
Definition scheduling_fix (reply : LLMReply) : option json :=
  match parsed reply with
  | Some (JObj kvs) =>
      match lookup "scheduling" kvs with
      | Some v => Some v
      | None => Some (JObj kvs)
      end
  | _ => None
  end.

(** [d.get(name)] on a dict. *)
Definition member (name : string) (kvs : dict) : json :=
  match lookup name kvs with
  | Some v => v
  | None => JNull
  end.

(** An oracle call whose answer holds a fix that gets applied. *)
Definition accepted (e : Event) : bool :=
  match e with
  | EvLLM (ConfigRepair _ _) reply => is_some (config_fix reply)
  | EvLLM (SchedulingRepair _ _) reply =>
      match scheduling_fix reply with
      | Some v => truthy v
      | None => false
      end
  | _ => false
  end.

(** The plan after a configuration fix is applied to a processor: what
    the fix has under [properties] and under
    [auto_terminated_relationships] replaces what the processor had. *)
Definition applied_config (index : nat) (fix_ : dict) (d : json) : json :=
  let d :=
    match lookup "properties" fix_ with
    | Some v => assign_processor_field index "properties" v d
    | None => d
    end in
  match lookup "auto_terminated_relationships" fix_ with
  | Some v => assign_processor_field index "auto_terminated_relationships" v d
  | None => d
  end.

(** How a turn of the loop is decided once the answer of the runtime is
    in, with the oracle calls [tail] it makes on the way: to go on, with
    [budget] left, after exactly one oracle call whose answer was
    accepted; to stop, after no oracle call or one whose answer was not
    accepted; or by an exception, raised before any oracle call or, when
    the console cannot show that a fix is applied, after the one whose
    answer was accepted. *)
Definition decided (budget : Prop) (tail : list Event) (r : result Ctl) : Prop :=
  (r = Ok Continue /\ budget
   /\ exists e, tail = [e] /\ is_llm e = true /\ accepted e = true)
  \/ (r = Ok Break
       /\ (tail = []
           \/ exists e, tail = [e] /\ is_llm e = true /\ accepted e = false))
  \/ (tail = [] /\ exists x, r = Raise x)
  \/ (r = Raise MarkupError /\ budget
       /\ exists e, tail = [e] /\ is_llm e = true /\ accepted e = true).

(** The oracle calls in a trace whose answer was accepted. *)
Definition accepted_calls (tr : list Event) : nat :=
  List.length (filter accepted tr).

End Answers.

(** The decision in the result of a turn. *)
Definition ctl_of {A} (r : result (Ctl * A)) : result Ctl :=
  match r with
  | Ok (c, _) => Ok c
  | Raise e => Raise e
  end.

(** ** Sandbox instances *)

(** The id a creation answer reports, when its body can be read. *)
Definition reported_id (body : result json) : option json :=
  match body with
  | Ok b =>
      match (component <- py_getitem b "component" ;; py_getitem component "id")%res with
      | Ok i => Some i
      | Raise _ => None
      end
  | Raise _ => None
  end.

(** The instance an answer to a creation request stands for: the runtime
    created one exactly when it answered 201. *)
Definition created_instance (reply : PostReply) : option (option json) :=
  match reply with
  | PostResponse status_code _ body =>
      if (status_code =? 201) then Some (reported_id body) else None
  | PostRaises _ => None
  end.

Definition is_instance (id : json) (instance : option json) : bool :=
  match instance with
  | Some i => same i id
  | None => false
  end.

(** The instances a trace leaves behind, starting from [pending]: a
    creation adds one, a delete request that counts ([counts] of its
    answer) takes the instance with that id away. *)
Fixpoint outstanding (counts : DeleteReply -> bool) (tr : list Event)
    (pending : list (option json)) : list (option json) :=
  match tr with
  | [] => pending
  | EvPost _ reply :: tr' =>
      outstanding counts tr'
        match created_instance reply with
        | Some instance => pending ++ [instance]
        | None => pending
        end
  | EvDelete id _ _ reply :: tr' =>
      outstanding counts tr'
        (if counts reply then filter (fun i => negb (is_instance id i)) pending
         else pending)
  | _ :: tr' => outstanding counts tr' pending
  end.

(** Every creation request that made an instance is followed at once, as
    the next thing done to the surroundings, by a delete request for the
    id its answer reported, and one that counts ([counts] of its
    answer). *)
Fixpoint deleted_at_once (counts : DeleteReply -> bool) (tr : list Event) : bool :=
  match tr with
  | [] => true
  | EvPost _ reply :: tr' =>
      match created_instance reply with
      | None => deleted_at_once counts tr'
      | Some instance =>
          match tr' with
          | EvDelete id _ _ answer :: _ =>
              is_instance id instance && counts answer && deleted_at_once counts tr'
          | _ => false
          end
      end
  | _ :: tr' => deleted_at_once counts tr'
  end.

(** What a stretch of the trace looks like when nothing created in it is
    left: every instance is deleted at once, and none is outstanding at
    its end. *)
Definition tidy (counts : DeleteReply -> bool) (evs : list Event) : Prop :=
  deleted_at_once counts evs = true /\ outstanding counts evs [] = [].

(** The trace grew by a tidy stretch. *)
Definition cleaned (counts : DeleteReply -> bool) (st st' : St) : Prop :=
  exists evs, trace st' = trace st ++ evs /\ tidy counts evs.

(** A retry is allowed: [retry_count < self.max_retries and
    self.gemini_api_key]. *)
Definition budget_left (cfg : Config) (retry_count : nat) : Prop :=
  Z.of_nat retry_count < max_retries cfg /\ env_truthy (gemini_api_key cfg) = true.

(** The events one turn of the [while] loop adds to the trace and how the
    turn ends: it raises before any request; or it asks for an instance
    and then, if none was created, decides; if one was created, either an
    exception escapes before the deletion, or the body of the answer
    raises a [RequestException], which ends the turn, or the deletion is
    requested for the reported id and the turn decides. *)
Definition turn_shape (bi : Builtins) (env : Env) (budget : Prop) (loc : Locals)
    (evs : list Event) (r : result (Ctl * Locals)) : Prop :=
  (evs = [] /\ exists e, r = Raise e)
  \/ exists payload n tail,
       let reply := post_reply env n in
       evs = EvPost payload reply :: tail
       /\ ((created_instance reply = None /\ decided bi budget tail (ctl_of r))
           \/ (exists instance, created_instance reply = Some instance
                 /\ tail = [] /\ exists e, r = Raise e)
           \/ (exists text msg,
                 reply = PostResponse 201 text (Raise (RequestException msg))
                 /\ tail = [] /\ r = Ok (Break, loc))
           \/ (exists id version c m tail',
                 created_instance reply = Some (Some id)
                 /\ tail = EvDelete id version c (delete_reply env m) :: tail'
                 /\ decided bi budget tail' (ctl_of r))).

(** Instances for which no delete request was made. *)
Definition unrequested (tr : list Event) : list (option json) :=
  outstanding (fun _ => true) tr [].

(** Instances the runtime still holds: it deletes on a request it answers
    with 200. *)
Definition honoured (reply : DeleteReply) : bool :=
  match reply with
  | DeleteResponse status_code => (status_code =? 200)
  | DeleteRaises => false
  end.
Definition live (tr : list Event) : list (option json) :=
  outstanding honoured tr [].

(** The creation requests in a trace. *)
Definition posts (tr : list Event) : nat := List.length (filter is_post tr).

(** The validator holding a plan in memory. *)
Definition holding (d : json) : St :=
  {| data := d; errors := []; available_processor_types := [];
     changes_made := false; disk := PlanFile d; trace := [] |}.

(** The validator holding a plan in memory, with the type catalog already
    fetched. *)
Definition holding_with (d : json) (identifiers : list string) : St :=
  set_types (map (fun i => (JStr i, JObj [("type", JStr i)])) identifiers) (holding d).

End Props.

(* ================================================================== *)
(** * Sample plans and surroundings *)
(* ================================================================== *)

Module Examples.
Import Py Engine Props.

Definition processor (id type : string) (properties : dict)
    (auto_terminated : list json) : json :=
  JObj [ ("id", JStr id); ("name", JStr id); ("type", JStr type);
         ("properties", JObj properties);
         ("scheduling", JObj [ ("strategy", JStr "TIMER_DRIVEN");
                               ("period", JStr "1 sec");
                               ("concurrent_tasks", JInt 1) ]);
         ("auto_terminated_relationships", JArr auto_terminated) ].

Definition connection (from_id to_id : string) (relationships : list string) : json :=
  JObj [ ("from_id", JStr from_id); ("to_id", JStr to_id);
         ("relationships", JArr (map JStr relationships)) ].

(** [repr] of the values that occur below: strings without quotes or
    escapes in them, integers, [None], booleans, and lists and dicts of
    such (a float is not rendered). *)
Fixpoint quoted (v : json) : string :=
  match v with
  | JNull => "None"
  | JBool true => "True"
  | JBool false => "False"
  | JInt z => str_of_Z z
  | JFloat _ => "?"
  | JStr s => ("'" ++ s ++ "'")%string
  | JArr l => ("[" ++ String.concat ", " (map quoted l) ++ "]")%string
  | JObj kvs =>
      ("{" ++ String.concat ", "
                (map (fun kv => ("'" ++ fst kv ++ "': " ++ quoted (snd kv))%string) kvs)
       ++ "}")%string
  end.

(** *** Reading JSON *)

(** A JSON text, written with single quotes where it has double ones. *)
Definition json_of (s : string) : string :=
  unchars (map (fun c => if Ascii.eqb c "'" then "034"%char else c) (chars s)).

Definition is_ws (c : ascii) : bool :=
  let n := N_of_ascii c in ((n =? 32) || (n =? 9) || (n =? 10) || (n =? 13))%N.
Definition is_digit (c : ascii) : bool :=
  let n := N_of_ascii c in ((48 <=? n) && (n <=? 57))%N.

Fixpoint skip_ws (s : list ascii) : list ascii :=
  match s with
  | c :: s' => if is_ws c then skip_ws s' else s
  | [] => []
  end.

(** The characters up to the closing quote of a string without escapes. *)
Fixpoint scan_string (s : list ascii) : option (list ascii * list ascii) :=
  match s with
  | [] => None
  | c :: s' =>
      if Ascii.eqb c "034" then Some ([], s')
      else if Ascii.eqb c "092" || (N_of_ascii c <? 32)%N then None
      else match scan_string s' with
           | Some (a, r) => Some (c :: a, r)
           | None => None
           end
  end.

Fixpoint scan_digits (s : list ascii) (acc : Z) : Z * list ascii :=
  match s with
  | c :: s' =>
      if is_digit c then scan_digits s' (10 * acc + Z.of_N (N_of_ascii c) - 48)
      else (acc, s)
  | [] => (acc, [])
  end.

Definition after_number (r : list ascii) : bool :=
  match r with
  | c :: _ => negb (Ascii.eqb c "." || Ascii.eqb c "e" || Ascii.eqb c "E")
  | [] => true
  end.

(** An integer. *)
Definition scan_number (s : list ascii) : option (json * list ascii) :=
  let (neg, s1) := match s with
                   | c :: s' => if Ascii.eqb c "-" then (true, s') else (false, s)
                   | [] => (false, s)
                   end in
  match s1 with
  | c :: s2 =>
      if is_digit c then
        if Ascii.eqb c "0" then
          (if match s2 with d :: _ => is_digit d | [] => false end then None
           else if after_number s2 then Some (JInt 0, s2) else None)
        else
          let (z, r) := scan_digits s1 0 in
          if after_number r then Some (JInt (if neg then - z else z), r) else None
      else None
  | [] => None
  end.

Fixpoint parse_value (fuel : nat) (s : list ascii) : option (json * list ascii) :=
  match fuel with
  | O => None
  | S fuel' =>
      match skip_ws s with
      | [] => None
      | c :: r =>
          if Ascii.eqb c "{" then
            match skip_ws r with
            | c' :: r' =>
                if Ascii.eqb c' "}" then Some (JObj [], r') else parse_members fuel' r []
            | [] => None
            end
          else if Ascii.eqb c "[" then
            match skip_ws r with
            | c' :: r' =>
                if Ascii.eqb c' "]" then Some (JArr [], r') else parse_elements fuel' r []
            | [] => None
            end
          else if Ascii.eqb c "034" then
            match scan_string r with
            | Some (a, r') => Some (JStr (unchars a), r')
            | None => None
            end
          else if starts (chars "true") (c :: r) then Some (JBool true, skipn 4 (c :: r))
          else if starts (chars "false") (c :: r) then Some (JBool false, skipn 5 (c :: r))
          else if starts (chars "null") (c :: r) then Some (JNull, skipn 4 (c :: r))
          else scan_number (c :: r)
      end
  end
with parse_members (fuel : nat) (s : list ascii) (acc : dict)
    : option (json * list ascii) :=
  match fuel with
  | O => None
  | S fuel' =>
      match skip_ws s with
      | c :: r =>
          if Ascii.eqb c "034" then
            match scan_string r with
            | Some (k, r1) =>
                match skip_ws r1 with
                | c1 :: r2 =>
                    if Ascii.eqb c1 ":" then
                      match parse_value fuel' r2 with
                      | Some (v, r3) =>
                          let acc := setitem (unchars k) v acc in
                          match skip_ws r3 with
                          | c3 :: r4 =>
                              if Ascii.eqb c3 "," then parse_members fuel' r4 acc
                              else if Ascii.eqb c3 "}" then Some (JObj acc, r4)
                              else None
                          | [] => None
                          end
                      | None => None
                      end
                    else None
                | [] => None
                end
            | None => None
            end
          else None
      | [] => None
      end
  end
with parse_elements (fuel : nat) (s : list ascii) (acc : list json)
    : option (json * list ascii) :=
  match fuel with
  | O => None
  | S fuel' =>
      match parse_value fuel' s with
      | Some (v, r) =>
          match skip_ws r with
          | c :: r' =>
              if Ascii.eqb c "," then parse_elements fuel' r' (acc ++ [v])
              else if Ascii.eqb c "]" then Some (JArr (acc ++ [v]), r')
              else None
          | [] => None
          end
      | None => None
      end
  end.

(** What [json.loads] gives on the JSON texts whose numbers are integers
    and whose strings have no escapes, and [None] on every text that is
    not JSON; other JSON texts are not used below. *)
Definition parse_json (text : string) : option json :=
  match parse_value (S (String.length text)) (chars text) with
  | Some (v, r) => match skip_ws r with [] => Some v | _ :: _ => None end
  | None => None
  end.

(** *** Rendering console markup *)

(** A closing bracket comes before the next opening one. *)
Fixpoint closes (s : list ascii) : bool :=
  match s with
  | [] => false
  | c :: s' =>
      if Ascii.eqb c "]" then true
      else if Ascii.eqb c "[" then false
      else closes s'
  end.

(** The tags of a text, in order, as [RE_TAGS] finds them.  [inside] is
    the tag being read, if any, with the mark of an escaped one;
    [escaped] tells whether an odd number of backslashes stands right
    before the character at hand. *)
Fixpoint tags (s : list ascii) (inside : option (bool * list ascii)) (escaped : bool)
    : list string :=
  match s with
  | [] => []
  | c :: s' =>
      match inside with
      | Some (skip, body) =>
          if Ascii.eqb c "]" then
            (if skip then [] else [unchars (rev body)]) ++ tags s' None false
          else tags s' (Some (skip, c :: body)) false
      | None =>
          if Ascii.eqb c "092" then tags s' None (negb escaped)
          else if Ascii.eqb c "["
                  && match s' with c' :: _ => tag_char c' | [] => false end
                  && closes s'
          then tags s' (Some (escaped, [])) false
          else tags s' None false
      end
  end.

Fixpoint before_equals (s : list ascii) : list ascii :=
  match s with
  | [] => []
  | c :: s' => if Ascii.eqb c "=" then [] else c :: before_equals s'
  end.

(** [Style.normalize] on a name that is no style definition. *)
Definition normalize (name : string) : string := lower (strip name).

(** The stack without the topmost tag of the given name. *)
Fixpoint pop_style (name : string) (stack : list string) : option (list string) :=
  match stack with
  | [] => None
  | t :: stack' =>
      if (t =? name)%string then Some stack'
      else option_map (cons t) (pop_style name stack')
  end.

(** Every closing tag finds a tag to close: an explicit one the topmost
    open tag of its name, [[/]] the topmost open tag. *)
Fixpoint balanced (l : list string) (stack : list string) : bool :=
  match l with
  | [] => true
  | t :: l' =>
      let name := before_equals (chars t) in
      match name with
      | c :: rest =>
          if Ascii.eqb c "/" then
            let style_name := strip (unchars rest) in
            if (style_name =? "")%string then
              match stack with
              | [] => false
              | _ :: stack' => balanced l' stack'
              end
            else
              match pop_style (normalize style_name) stack with
              | Some stack' => balanced l' stack'
              | None => false
              end
          else balanced l' (normalize (unchars name) :: stack)
      | [] => balanced l' stack
      end
  end.

(** [rich.markup.render] returns on the text: the loop of that function
    over the tags, for tag names that are compared as they are written. *)
Definition render (text : string) : bool := balanced (tags (chars text) None false) [].

Definition sample_builtins : Builtins :=
  {| repr := quoted;
     repr_set := fun s =>
       match s with
       | [] => "set()"
       | _ :: _ => ("{" ++ String.concat ", " (map quoted s) ++ "}")%string
       end;
     json_loads := parse_json;
     rich_render := render |}.

(** One processor, and a connection between two ids no processor has. *)
Definition dangling_processors : list json :=
  [ processor "p1" "org.apache.nifi.processors.standard.GenerateFlowFile" [] [JStr "success"] ].
Definition dangling_connections : list json :=
  [ connection "ghost" "nowhere" ["success"] ].
Definition dangling_plan : json :=
  plan_doc "demo" dangling_processors dangling_connections.

(** A processor whose id is the empty string and a connection leaving it. *)
Definition nameless_connections : list json := [ connection "" "p2" [] ].

Definition nameless_processor : json := processor "" "T" [] [].
Definition nameless_plan : json :=
  plan_doc "demo" [nameless_processor; processor "p2" "T" [] []] nameless_connections.

(** What the runtime answers when it creates an instance: its id and
    revision, the descriptors of its type, its relationships and its
    validation errors. *)
Definition created (id : string) (descriptors : dict) (relationships : list string)
    (validation_errors : list string) : json :=
  JObj [ ("revision", JObj [("version", JInt 1)]);
         ("component", JObj [
            ("id", JStr id);
            ("config", JObj [("descriptors", JObj descriptors)]);
            ("relationships",
             JArr (map (fun r => JObj [("name", JStr r)]) relationships));
            ("validationErrors", JArr (map JStr validation_errors)) ]) ].

(** A runtime that answers every creation alike and honours every
    deletion; the oracle gives the same text each time. *)
Definition steady (answer : PostReply) (oracle : LLMReply) : Env :=
  {| get_reply := fun _ => GetJson (JObj [("processorTypes", JArr [])]);
     post_reply := fun _ => answer;
     delete_reply := fun _ => DeleteResponse 200;
     llm_reply := fun _ => oracle;
     save_reply := fun _ => SaveOk |}.

Definition without_oracle : Config :=
  {| plan_path := "plan.json"; nifi_base_url := Some "https://nifi:8443";
     sandbox_pg_id := Some "sandbox-group"; gemini_api_key := None;
     max_retries := 3 |}.

Definition with_oracle : Config :=
  {| plan_path := "plan.json"; nifi_base_url := Some "https://nifi:8443";
     sandbox_pg_id := Some "sandbox-group"; gemini_api_key := Some "key";
     max_retries := 3 |}.

(** A retry budget of minus two, with a key for the oracle. *)
Definition below_zero : Config :=
  {| plan_path := "plan.json"; nifi_base_url := Some "https://nifi:8443";
     sandbox_pg_id := Some "sandbox-group"; gemini_api_key := Some "key";
     max_retries := -2 |}.

(** The scenario of the relationship check: available relationships
    success and failure, failure auto-terminated, success carried by the
    one outgoing connection. *)
Definition two_relationships : Env :=
  steady (PostResponse 201 "" (Ok (created "sandbox-1" [] ["success"; "failure"] [])))
         LLMRaises.
Definition routed_processors : list json :=
  [ processor "p1" "T" [] [JStr "failure"];
    processor "p2" "T" [] [JStr "success"; JStr "failure"];
    processor "p3" "T" [] [JStr "success"; JStr "failure"] ].
Definition routed_plan : json :=
  plan_doc "demo" routed_processors [ connection "p1" "p2" ["success"] ].
(** ... the connection removed ... *)
Definition unrouted_plan : json :=
  plan_doc "demo" routed_processors [].
(** ... and the processor still the source of another connection, which
    does not carry success. *)
Definition rerouted_plan : json :=
  plan_doc "demo" routed_processors [ connection "p1" "p3" ["failure"] ].

(** A processor the runtime never finds valid: its Mongo URI is
    rejected at every attempt. *)
Definition mongo_descriptors : dict :=
  [ ("Mongo URI", JObj [ ("description", JStr "connection string");
                         ("required", JBool true) ]) ].
Definition never_valid : PostReply :=
  PostResponse 201 ""
    (Ok (created "sandbox-1" mongo_descriptors ["success"; "failure"]
           ["'Mongo URI' is invalid because Mongo URI is required"])).
Definition mongo_plan : json :=
  plan_doc "demo" [ processor "p1" "T" [] [JStr "success"; JStr "failure"] ] [].

(** An answer of the oracle that holds a new set of properties. *)
Definition mongo_fix : json :=
  JObj [ ("properties", JObj [("Mongo URI", JStr "mongodb://localhost")]) ].
Definition mongo_fix_text : string :=
  json_of "{'properties': {'Mongo URI': 'mongodb://localhost'}}".

(** A runtime that answers 201 with a body that is not JSON:
    [response.json()] raises the [JSONDecodeError] of requests, which is a
    [RequestException]. *)
Definition unreadable_answer : Env :=
  steady (PostResponse 201 "<html>" (Raise (RequestException "Expecting value")))
         LLMRaises.

(** A plan whose auto-terminated relationships hold a list where a name
    should be. *)
Definition nested_names_plan : json :=
  plan_doc "demo" [ processor "p1" "T" [] [JArr [JStr "success"]] ] [].

(** A property the processor type does not know, on the first processor
    and on the second. *)
Definition bogus_first_plan : json :=
  plan_doc "demo" [ processor "p1" "T" [("Bogus", JStr "x")] [] ] [].
Definition bogus_second_plan : json :=
  plan_doc "demo" [ processor "p1" "T" [] [];
                    processor "p2" "T" [("Bogus", JStr "x")] [] ] [].
Definition always_clean : Env :=
  steady (PostResponse 201 "" (Ok (created "sandbox-1" mongo_descriptors [] []))) LLMRaises.

(** Two descriptors with one allowable value each; only the first names a
    controller service. *)
Definition one_choice (value : string) : json :=
  JArr [ JObj [("allowableValue", JObj [ ("value", JStr value);
                                          ("displayName", JStr value) ])] ].
Definition choice_descriptors : dict :=
  [ ("Client Service", JObj [ ("identifiesControllerService", JStr "MongoDBClientService");
                              ("allowableValues", one_choice "cs-1234") ]);
    ("Mode", JObj [ ("allowableValues", one_choice "Aggregate") ]) ].
Definition choice_component : json :=
  JObj [ ("id", JStr "sandbox-1");
         ("config", JObj [("descriptors", JObj choice_descriptors)]) ].


(** A runtime that refuses the first creation over the scheduling period
    and accepts the next, and an oracle whose answer is an object with a
    period and nothing else. *)
Definition period_only : json := JObj [("period", JStr "30 sec")].
Definition period_only_text : string := json_of "{'period': '30 sec'}".
Definition refuses_period_once : Env :=
  {| get_reply := fun _ => GetJson (JObj [("processorTypes", JArr [])]);
     post_reply := fun n =>
       match n with
       | O => PostResponse 400 "Invalid Scheduling Period: 1 sec is not valid" (Raise TypeError)
       | S _ => PostResponse 201 "" (Ok (created "sandbox-1" mongo_descriptors [] []))
       end;
     delete_reply := fun _ => DeleteResponse 200;
     llm_reply := fun _ => LLMText period_only_text;
     save_reply := fun _ => SaveOk |}.
Definition period_plan : json :=
  plan_doc "demo" [ processor "p1" "T" [] [] ] [].

(** The runtime of [catalog_runtime] next to a plan file that cannot be
    written. *)
Definition read_only_file (kept : json) : Env :=
  {| get_reply := fun _ =>
       GetJson (JObj [("processorTypes",
                       JArr [ JObj [("type", JStr "org.apache.nifi.processors.standard.GenerateFlowFile")] ])]);
     post_reply := fun _ => PostResponse 201 "" (Ok (created "sandbox-1" [] [] []));
     delete_reply := fun _ => DeleteResponse 200;
     llm_reply := fun _ => LLMRaises;
     save_reply := fun _ => SaveFails "[Errno 13] Permission denied: 'plan.json'"
                              (PlanFile kept) |}.

(** A plan with a short type name the catalog resolves, and the same plan
    with a second processor whose type the catalog does not know. *)
Definition catalog_runtime : Env :=
  {| get_reply := fun _ =>
       GetJson (JObj [("processorTypes",
                       JArr [ JObj [("type", JStr "org.apache.nifi.processors.standard.GenerateFlowFile")] ])]);
     post_reply := fun _ => PostResponse 201 "" (Ok (created "sandbox-1" [] [] []));
     delete_reply := fun _ => DeleteResponse 200;
     llm_reply := fun _ => LLMRaises;
     save_reply := fun _ => SaveOk |}.
Definition short_type_plan : json :=
  plan_doc "demo" [ processor "p1" "GenerateFlowFile" [] [] ] [].
Definition half_resolved_plan : json :=
  plan_doc "demo" [ processor "p1" "GenerateFlowFile" [] [];
                    processor "p2" "NoSuchProcessor" [] [] ] [].
Definition half_resolved_after : json :=
  plan_doc "demo"
    [ processor "p1" "org.apache.nifi.processors.standard.GenerateFlowFile" [] [];
      processor "p2" "NoSuchProcessor" [] [] ] [].

(** A processor whose name holds what rich reads as a closing tag, with a
    short type name the catalog resolves. *)
Definition bracket_processor : json :=
  JObj [ ("id", JStr "p1"); ("name", JStr "Write [/tmp/out]");
         ("type", JStr "GenerateFlowFile") ].
Definition bracket_plan : json := plan_doc "demo" [bracket_processor] [].

(** A processor whose type is the empty string, next to a catalog. *)
Definition untyped_processor : json := processor "p1" "" [] [].
Definition untyped_plan : json := plan_doc "demo" [untyped_processor] [].
Definition small_catalog : list string :=
  [ "org.apache.nifi.processors.standard.GenerateFlowFile";
    "org.apache.nifi.json.JsonTreeReader" ].

End Examples.

(* ================================================================== *)
(** * Vocabulary of further properties *)
(* ================================================================== *)

Module Facts.
Import Py Engine Props.

(** ** Reports *)

(** The state after the messages [more] were appended to the errors. *)
Definition reported (more : list string) (st : St) : St :=
  set_errors (errors st ++ more) st.

(** A step that did nothing but report. *)
Definition only_reported (st st' : St) : Prop :=
  exists more, st' = reported more st.

(** A step that returns has only reported, and [P] holds when it
    reported nothing. *)
Definition silent_then (P : Prop) (st : St) : unit -> St -> Prop :=
  fun _ st' => exists more, st' = reported more st /\ (more = [] -> P).

(** A step that left the state as it was. *)
Definition untouched (st st' : St) : Prop := st' = st.

(** No error recorded before the step is lost or moved by it. *)
Definition errors_grow (st st' : St) : Prop :=
  exists more, errors st' = errors st ++ more.

(** ** Well-formed plans *)

(** A dict with a string as summary and, as details, a dict with a list
    of processors and a list of connections, each of which has its
    required fields with values of the required types. *)
Definition well_formed_plan (d : json) : bool :=
  match field "plan_summary" d, field "plan_details" d with
  | Some (JStr _), Some (JObj details) =>
      match lookup "processors" details, lookup "connections" details with
      | Some (JArr processors), Some (JArr connections) =>
          forallb (has_required required_processor_fields) processors
          && forallb (has_required required_connection_fields) connections
      | _, _ => false
      end
  | _, _ => false
  end.

(** A connection with other ends. *)
Definition rewire (ends : string * string) (connection : json) : json :=
  match connection with
  | JObj kvs =>
      JObj (setitem "to_id" (JStr (snd ends)) (setitem "from_id" (JStr (fst ends)) kvs))
  | other => other
  end.

(** A plan with other connections. *)
Definition with_connections (connections : list json) (d : json) : json :=
  match d with
  | JObj top =>
      match lookup "plan_details" top with
      | Some (JObj details) =>
          JObj (setitem "plan_details"
                  (JObj (setitem "connections" (JArr connections) details)) top)
      | _ => d
      end
  | _ => d
  end.

(** The processors of a plan, none when the plan has no list of them. *)
Definition processors_of (d : json) : list json :=
  match field "plan_details" d with
  | Some pd =>
      match field "processors" pd with
      | Some (JArr l) => l
      | _ => []
      end
  | None => []
  end.

(** ** Resolved types *)

(** The processor is a dict whose type is missing, empty or a key of the
    catalog. *)
Definition type_known (catalog : vdict json) (processor : json) : bool :=
  match processor with
  | JObj kvs =>
      match lookup "type" kvs with
      | Some t =>
          negb (truthy t)
          || match vmem t catalog with
             | Ok known => known
             | Raise _ => false
             end
      | None => true
      end
  | _ => false
  end.

(** The plan is a dict whose details are a dict that lists [processors]. *)
Definition plan_shape (d : json) (top pd : dict) (processors : list json) : Prop :=
  d = JObj top
  /\ lookup "plan_details" top = Some (JObj pd)
  /\ lookup "processors" pd = Some (JArr processors).

(** ** The catalog *)

(** An entry of the runtime's list that is a dict with a string as type. *)
Definition typed_entry (entry : json) : bool :=
  match field "type" entry with
  | Some (JStr _) => true
  | _ => false
  end.

Definition has_type (name : string) (entry : json) : bool :=
  match field "type" entry with
  | Some (JStr t) => (t =? name)%string
  | _ => false
  end.

(** The last entry of the list with the given type. *)
Definition last_entry (name : string) (entries : list json) : option json :=
  find (has_type name) (rev entries).

(** The catalog cannot be fetched: no base URL is configured, the request
    fails, or the answer has no [processorTypes]. *)
Definition catalog_unavailable (cfg : Config) (env : Env) (st : St) : Prop :=
  env_truthy (nifi_base_url cfg) = false
  \/ (exists msg, get_reply env (count_events is_get st) = GetRaises msg)
  \/ (exists body, get_reply env (count_events is_get st) = GetJson body
                   /\ py_contains "processorTypes" body = Ok false).

(** ** Requests of the sandbox validation *)

(** A creation request as the sandbox validation sends it: a component
    whose name starts with [VALIDATION-] and whose properties are all
    strings. *)
Definition sandbox_payload (payload : json) : bool :=
  match field "component" payload with
  | Some component =>
      match field "name" component, field "config" component with
      | Some (JStr name), Some config =>
          startswith name "VALIDATION-"
          && match field "properties" config with
             | Some (JObj properties) => forallb (fun kv => is_str (snd kv)) properties
             | _ => false
             end
      | _, _ => false
      end
  | None => false
  end.

(** What the sandbox validation may do: create an instance, delete one,
    and ask the oracle to repair a configuration or a scheduling. *)
Definition sandbox_event (e : Event) : bool :=
  match e with
  | EvPost payload _ => sandbox_payload payload
  | EvDelete _ _ _ _ => true
  | EvLLM (ConfigRepair _ _) _ => true
  | EvLLM (SchedulingRepair _ _) _ => true
  | _ => false
  end.

(** The step left the file and the catalog alone and added only such
    events to the trace. *)
Definition sandbox_steps (st st' : St) : Prop :=
  disk st' = disk st
  /\ available_processor_types st' = available_processor_types st
  /\ exists events,
       trace st' = trace st ++ events /\ forallb sandbox_event events = true.

(** ** The repair of the structure *)

(** What is written as [plan_details] for a parsed answer: its
    [plan_details] member when it has one, else the answer itself. *)
Definition details_of_answer (answer details : json) : Prop :=
  (py_contains "plan_details" answer = Ok true
   /\ py_getitem answer "plan_details" = Ok details)
  \/ (py_contains "plan_details" answer = Ok false /\ details = answer).

(** The plan after an accepted repair: the dict it was, with the details
    the last event of the trace, an answer of the oracle, parses to. *)
Definition repaired_from (bi : Builtins) (st st' : St) : Prop :=
  exists top details before request text answer,
    data st = JObj top
    /\ data st' = JObj (setitem "plan_details" details top)
    /\ trace st' = before ++ [EvLLM request (LLMText text)]
    /\ json_loads bi (unfence text) = Some answer
    /\ details_of_answer answer details.

(** ** Texts *)

(** Only whitespace. *)
Definition blank (s : string) : bool := forallb is_space (chars s).

(** No single quote. *)
Definition unquoted (s : string) : bool :=
  forallb (fun c => negb (Ascii.eqb c "'")) (chars s).

(** ** What a plan is apart from some fields of its processors *)

(** A dict without the given keys. *)
Definition without (keys : list string) (kvs : dict) : dict :=
  filter (fun kv => negb (mem (fst kv) keys)) kvs.

Definition strip_processor (keys : list string) (processor : json) : json :=
  match processor with
  | JObj kvs => JObj (without keys kvs)
  | _ => processor
  end.

(** The plan with the given fields taken out of every processor. *)
Definition skeleton (keys : list string) (d : json) : json :=
  match d with
  | JObj top =>
      match lookup "plan_details" top with
      | Some (JObj pd) =>
          match lookup "processors" pd with
          | Some (JArr ps) =>
              JObj (setitem "plan_details"
                      (JObj (setitem "processors"
                               (JArr (map (strip_processor keys) ps)) pd)) top)
          | _ => d
          end
      | _ => d
      end
  | _ => d
  end.

Definition same_skeleton (keys : list string) (st st' : St) : Prop :=
  skeleton keys (data st') = skeleton keys (data st).

(** The fields the sandbox validation may write. *)
Definition configuration_fields : list string :=
  ["properties"; "scheduling"; "auto_terminated_relationships"].

(** Two plans that differ at most in the given fields of processors. *)
Definition differ_only_in (keys : list string) (d d' : json) : Prop :=
  skeleton keys d' = skeleton keys d
  /\ (forall key, key <> "plan_details" -> field key d' = field key d)
  /\ connections_of d' = connections_of d
  /\ forall key, mem key keys = false ->
       map (field key) (processors_of d') = map (field key) (processors_of d).

(** ** Kinds of events *)

(** The step added only events of the allowed kind to the trace. *)
Definition adds_only (allowed : Event -> bool) (st st' : St) : Prop :=
  exists events, trace st' = trace st ++ events /\ forallb allowed events = true.

Definition not_oracle (e : Event) : bool := negb (is_llm e).
Definition not_creation (e : Event) : bool := negb (is_post e).

(** ** How a run ends *)


(** ** Controller services still to be created *)

(** The names of the properties of a processor whose value is the
    placeholder, in the order of the plan. *)
Definition placeholders (processor : json) : list string :=
  match processor with
  | JObj kvs =>
      match lookup "properties" kvs with
      | Some (JObj items) =>
          map fst (filter (fun kv => py_eq (snd kv) (JStr "CREATE_NEW_CS")) items)
      | _ => []
      end
  | _ => []
  end.

Definition name_of (index : nat) (processor : json) : json :=
  match processor with
  | JObj kvs => display_name index kvs
  | _ => JNull
  end.

Definition placeholder_error (bi : Builtins) (index : nat) (p_name : json)
    (prop_name : string) : string :=
  "Processor[" ++ str_of_nat index ++ "] '" ++ fmt bi p_name
  ++ "': Property '" ++ prop_name
  ++ "' requires a new Controller Service (value is 'CREATE_NEW_CS'). Please create it manually in NiFi and update the plan.json with the actual UUID.".

Definition placeholder_errors (bi : Builtins) (processors : list json) : list string :=
  flat_map (fun ip : nat * json =>
              map (placeholder_error bi (fst ip) (name_of (fst ip) (snd ip)))
                  (placeholders (snd ip)))
           (enumerate processors).

End Facts.

(* ================================================================== *)
(** * Further sample plans *)
(* ================================================================== *)

Module MoreExamples.
Import Py Engine Props Examples Facts.

(** Two processors; the second leaves two controller services to be
    created. *)
Definition placeholder_plan : json :=
  plan_doc "demo"
    [ processor "p1" "GenerateFlowFile" [("File Size", JStr "1 KB")] [];
      processor "p2" "PutDatabaseRecord"
        [("Record Reader", JStr "CREATE_NEW_CS");
         ("Table Name", JStr "events");
         ("Database Connection Pooling Service", JStr "CREATE_NEW_CS")] [] ] [].

(** A runtime that cannot be reached. *)
Definition unreachable_runtime : Env :=
  {| get_reply := fun _ => GetRaises "connection refused";
     post_reply := fun _ => PostRaises "connection refused";
     delete_reply := fun _ => DeleteResponse 200;
     llm_reply := fun _ => LLMRaises;
     save_reply := fun _ => SaveOk |}.

(** A runtime that lists one type twice. *)
Definition twice_listed : list json :=
  [ JObj [("type", JStr "a.b.Reader"); ("bundle", JStr "old")];
    JObj [("type", JStr "a.b.Writer"); ("bundle", JStr "only")];
    JObj [("type", JStr "a.b.Reader"); ("bundle", JStr "new")] ].
Definition twice_listed_runtime : Env :=
  {| get_reply := fun _ => GetJson (JObj [("processorTypes", JArr twice_listed)]);
     post_reply := fun _ => PostRaises "unused";
     delete_reply := fun _ => DeleteResponse 200;
     llm_reply := fun _ => LLMRaises;
     save_reply := fun _ => SaveOk |}.

(** An oracle that answers every call with new plan details, wrapped in
    [plan_details] and in a code fence. *)
Definition fixed_details : json :=
  JObj [ ("processors", JArr [ processor "p1" "GenerateFlowFile" [] [] ]);
         ("connections", JArr []) ].
Definition fixed_details_text : string :=
  json_of "{'plan_details': {'processors': [{'id': 'p1', 'name': 'p1', 'type': 'GenerateFlowFile', 'properties': {}, 'scheduling': {'strategy': 'TIMER_DRIVEN', 'period': '1 sec', 'concurrent_tasks': 1}, 'auto_terminated_relationships': []}], 'connections': []}}".
Definition fixing_oracle : Env :=
  {| get_reply := get_reply catalog_runtime;
     post_reply := post_reply catalog_runtime;
     delete_reply := delete_reply catalog_runtime;
     llm_reply := fun _ => LLMText ("```json" ++ fixed_details_text ++ "```");
     save_reply := fun _ => SaveOk |}.
Definition broken_plan : json :=
  JObj [ ("plan_summary", JStr "demo"); ("plan_details", JObj []) ].

(** A retry budget below zero, with a key for the oracle. *)
Definition negative_budget : Config :=
  {| plan_path := "plan.json"; nifi_base_url := Some "https://nifi:8443";
     sandbox_pg_id := Some "sandbox-group"; gemini_api_key := Some "key";
     max_retries := -1 |}.

End MoreExamples.

(* ================================================================== *)
(** * buildPipeline.py: the builder the validator hands over to *)
(* ================================================================== *)

Module Builder.
Import Py.

(** ** Surroundings *)

(** What the runtime answers: the parsed body of the response, or the
    exception of a failed request, of [raise_for_status] or of
    [resp.json()].  Requests of a kind that is sent more than once are
    answered by their number. *)
Record Runtime : Type := {
  types_reply : result json;
  root_reply : result json;
  group_reply : result json;
  processor_reply : nat -> result json;
  update_reply : nat -> result json;
  connection_reply : nat -> result json
}.

Inductive Request : Type :=
| FetchTypes (reply : result json)
| FetchRoot (reply : result json)
| CreateGroup (root_id payload : json) (reply : result json)
| CreateProcessor (pg_id payload : json) (reply : result json)
| UpdateProcessor (proc_id payload : json) (reply : result json)
| CreateConnection (pg_id payload : json) (reply : result json).

Definition is_creation (r : Request) : bool :=
  match r with CreateProcessor _ _ _ => true | _ => false end.
Definition is_update (r : Request) : bool :=
  match r with UpdateProcessor _ _ _ => true | _ => false end.
Definition is_connection (r : Request) : bool :=
  match r with CreateConnection _ _ _ => true | _ => false end.

(** ** State: the requests made so far and [plan_id_to_nifi_id] *)

Record BSt : Type := {
  requests : list Request;
  plan_id_to_nifi_id : vdict json
}.

Definition start : BSt := {| requests := []; plan_id_to_nifi_id := [] |}.

Definition B (A : Type) : Type := BSt -> result A * BSt.

Definition bret {A} (a : A) : B A := fun s => (Ok a, s).
Definition bbind {A C} (m : B A) (k : A -> B C) : B C :=
  fun s =>
    match m s with
    | (Ok a, s') => k a s'
    | (Raise e, s') => (Raise e, s')
    end.
Definition blift {A} (r : result A) : B A := fun s => (r, s).
Definition bget : B BSt := fun s => (Ok s, s).

Declare Scope b_scope.
Delimit Scope b_scope with b.
Notation "x <- m ;; k" := (bbind m (fun x => k))
  (at level 61, m at next level, right associativity) : b_scope.
Notation "m ;;; k" := (bbind m (fun _ => k))
  (at level 61, right associativity) : b_scope.
Local Open Scope b_scope.

(** A request goes into the list; its answer is what the runtime gives. *)
Definition send (r : Request) : B unit :=
  fun s => (Ok tt, {| requests := requests s ++ [r];
                      plan_id_to_nifi_id := plan_id_to_nifi_id s |}).

(** [plan_id_to_nifi_id[k] = v] *)
Definition remember (k v : json) : B unit :=
  fun s =>
    if hashable k
    then (Ok tt, {| requests := requests s;
                    plan_id_to_nifi_id := vset k v (plan_id_to_nifi_id s) |})
    else (Raise TypeError, s).

(** [try: body except Exception as e: print(...)] *)
Definition shielded (body : B unit) : B unit :=
  fun s =>
    match body s with
    | (Raise _, s') => (Ok tt, s')
    | done => done
    end.

Fixpoint each {A} (l : list A) (body : A -> B unit) : B unit :=
  match l with
  | [] => bret tt
  | a :: l' => body a ;;; each l' body
  end.

Definition count (p : Request -> bool) (s : BSt) : nat :=
  List.length (filter p (requests s)).

Definition enumerate {A} (l : list A) : list (nat * A) :=
  combine (seq 0 (List.length l)) l.

(** ** The request bodies *)

(** [create_process_group] *)
Definition group_payload (name : json) : json :=
  JObj [ ("revision", JObj [("version", JInt 0)]);
         ("component", JObj [ ("name", name);
                              ("position", JObj [("x", JInt 0); ("y", JInt 0)]) ]) ].

(** [create_processor]: the body, built before the request is sent. *)
Definition processor_payload (processor_config bundle : json) (index : nat)
    : result json :=
  (p_type <- py_getitem processor_config "type" ;;
   p_name <- py_getitem processor_config "name" ;;
   properties <- py_get processor_config "properties" (JObj []) ;;
   scheduling <- py_get processor_config "scheduling" (JObj []) ;;
   strategy <- py_get scheduling "strategy" (JStr "TIMER_DRIVEN") ;;
   period <- py_get scheduling "period" (JStr "0 sec") ;;
   concurrent_tasks <- py_get scheduling "concurrent_tasks" (JInt 1) ;;
   auto_terminated <- py_get processor_config "auto_terminated_relationships" (JArr []) ;;
   Ok (JObj [ ("revision", JObj [("version", JInt 0)]);
              ("component", JObj [
                 ("type", p_type);
                 ("name", p_name);
                 ("bundle", bundle);
                 ("position", JObj [("x", JInt 400);
                                    ("y", JInt (100 + Z.of_nat index * 200))]);
                 ("config", JObj [
                    ("properties", properties);
                    ("schedulingStrategy", strategy);
                    ("schedulingPeriod", period);
                    ("concurrentlySchedulableTaskCount", concurrent_tasks);
                    ("autoTerminatedRelationships", auto_terminated) ]) ]) ]))%res.

(** [update_processor_auto_termination] *)
Definition update_payload (proc_id : json) (relationships : list json)
    (revision_version : json) : json :=
  JObj [ ("revision", JObj [("version", revision_version)]);
         ("component", JObj [
            ("id", proc_id);
            ("config", JObj [("autoTerminatedRelationships", JArr relationships)]) ]) ].

(** [create_connection] *)
Definition connection_payload (pg_id source_id dest_id relationships : json) : json :=
  JObj [ ("revision", JObj [("version", JInt 0)]);
         ("component", JObj [
            ("source", JObj [("id", source_id); ("groupId", pg_id);
                             ("type", JStr "PROCESSOR")]);
            ("destination", JObj [("id", dest_id); ("groupId", pg_id);
                                  ("type", JStr "PROCESSOR")]);
            ("selectedRelationships", relationships) ]) ].

(** ** [main], from the parsed plan on *)

(** Lines 139-142: the processors that are the source of a connection. *)
Fixpoint source_ids (connections : list json) (found : pyset) : result pyset :=
  match connections with
  | [] => Ok found
  | conn :: rest =>
      (has <- py_contains "from_id" conn ;;
       if has then
         src <- py_getitem conn "from_id" ;;
         found' <- set_add found src ;;
         source_ids rest found'
       else source_ids rest found)%res
  end.

(** The loop of [fetch_processor_types] (lines 36-38). *)
Fixpoint read_types (entries : list json) (types : vdict json) : result (vdict json) :=
  match entries with
  | [] => Ok types
  | t :: rest =>
      (bundle <- py_getitem t "bundle" ;;
       k <- py_getitem t "type" ;;
       if hashable k then read_types rest (vset k bundle types)
       else Raise TypeError)%res
  end.

Definition processor_types (body : json) : result (vdict json) :=
  (pts <- py_get body "processorTypes" (JArr []) ;;
   entries <- py_iter pts ;;
   read_types entries [])%res.

(** [[r["name"] for r in nifi_proc["component"].get("relationships", [])]] *)
Definition relationship_names (nifi_proc : json) : result (list json) :=
  (component <- py_getitem nifi_proc "component" ;;
   relationships <- py_get component "relationships" (JArr []) ;;
   l <- py_iter relationships ;;
   rmap (fun r => py_getitem r "name") l)%res.

(** Lines 182-192: the [try] of one turn of the loop over the processors. *)
Definition create_and_terminate (rt : Runtime) (pg_id : json) (sources : pyset)
    (index : nat) (proc bundle p_plan_id : json) : B unit :=
  payload <- blift (processor_payload proc bundle index) ;;
  s <- bget ;;
  let reply := processor_reply rt (count is_creation s) in
  send (CreateProcessor pg_id payload reply) ;;;
  nifi_proc <- blift reply ;;
  component <- blift (py_getitem nifi_proc "component") ;;
  nifi_id <- blift (py_getitem component "id") ;;
  remember p_plan_id nifi_id ;;;
  (* Check if leaf node (not a source for any connection) *)
  if set_mem p_plan_id sources then bret tt else
  available_rels <- blift (relationship_names nifi_proc) ;;
  match available_rels with
  | [] => bret tt
  | _ :: _ =>
      revision <- blift (py_getitem nifi_proc "revision") ;;
      version <- blift (py_getitem revision "version") ;;
      s <- bget ;;
      let reply := update_reply rt (count is_update s) in
      send (UpdateProcessor nifi_id (update_payload nifi_id available_rels version)
              reply) ;;;
      blift reply ;;;
      bret tt
  end.

(** One turn of the loop over the processors (lines 171-195). *)
Definition place_processor (rt : Runtime) (pg_id : json) (types : vdict json)
    (sources : pyset) (index : nat) (proc : json) : B unit :=
  p_type <- blift (py_getitem proc "type") ;;
  p_name <- blift (py_get proc "name" (JStr ("Processor-" ++ str_of_nat index))) ;;
  p_plan_id <- blift (py_get proc "id" JNull) ;;
  known <- blift (vmem p_type types) ;;
  if negb known then bret tt else
  match vlookup p_type types with
  | None => bret tt
  | Some bundle =>
      shielded (create_and_terminate rt pg_id sources index proc bundle p_plan_id)
  end.

(** [d.get(k)]: the key is hashed. *)
Definition id_of (ids : vdict json) (k : json) : result json :=
  if hashable k
  then Ok (match vlookup k ids with Some v => v | None => JNull end)
  else Raise TypeError.

(** One turn of the loop over the connections (lines 198-214). *)
Definition connect (rt : Runtime) (pg_id : json) (index : nat) (conn : json) : B unit :=
  src_plan_id <- blift (py_getitem conn "from_id") ;;
  dst_plan_id <- blift (py_getitem conn "to_id") ;;
  rels <- blift (py_get conn "relationships" (JArr [])) ;;
  s <- bget ;;
  src_nifi_id <- blift (id_of (plan_id_to_nifi_id s) src_plan_id) ;;
  dst_nifi_id <- blift (id_of (plan_id_to_nifi_id s) dst_plan_id) ;;
  if negb (truthy src_nifi_id) || negb (truthy dst_nifi_id) then bret tt else
  shielded
    (s <- bget ;;
     let reply := connection_reply rt (count is_connection s) in
     send (CreateConnection pg_id
             (connection_payload pg_id src_nifi_id dst_nifi_id rels) reply) ;;;
     blift reply ;;;
     bret tt).

(** How [main] ends when no exception leaves it: with the pipeline built
    in a new process group, or with [sys.exit(1)]. *)
Inductive Outcome : Type :=
| Built (pg_id : json)
| Exit1.

(** [main], lines 133-216. *)
Definition build (rt : Runtime) (plan : json) : B Outcome :=
  details <- blift (py_get plan "plan_details" (JObj [])) ;;
  flow_name <- blift (py_get details "flow_name" (JStr "NiFi Pipeline")) ;;
  processors <- blift (py_get details "processors" (JArr [])) ;;
  connections <- blift (py_get details "connections" (JArr [])) ;;
  conns <- blift (py_iter connections) ;;
  sources <- blift (source_ids conns []) ;;
  send (FetchTypes (types_reply rt)) ;;;
  match (body <- types_reply rt ;; processor_types body)%res with
  | Raise _ => bret Exit1
  | Ok types =>
      send (FetchRoot (root_reply rt)) ;;;
      match (body <- root_reply rt ;;
             flow <- py_getitem body "processGroupFlow" ;;
             py_getitem flow "id")%res with
      | Raise _ => bret Exit1
      | Ok root_id =>
          send (CreateGroup root_id (group_payload flow_name) (group_reply rt)) ;;;
          match (pg <- group_reply rt ;;
                 component <- py_getitem pg "component" ;;
                 py_getitem component "id")%res with
          | Raise _ => bret Exit1
          | Ok pg_id =>
              procs <- blift (py_iter processors) ;;
              each (enumerate procs)
                (fun ip => place_processor rt pg_id types sources (fst ip) (snd ip)) ;;;
              each (enumerate conns)
                (fun ic => connect rt pg_id (fst ic) (snd ic)) ;;;
              bret (Built pg_id)
          end
      end
  end.

End Builder.

(* ================================================================== *)
(** * Vocabulary of the properties of the builder *)
(* ================================================================== *)

Module BuilderFacts.
Import Py Builder.

(** The value under [name] of a dict, [None] for anything else. *)
Definition member (name : string) (item : json) : option json :=
  match item with
  | JObj kvs => lookup name kvs
  | _ => None
  end.

(** [proc.get("id")] for a processor that is a dict. *)
Definition plan_id_of (proc : json) : json :=
  match member "id" proc with
  | Some i => i
  | None => JNull
  end.

(** The list the builder walks for [key] ([processors] or [connections]),
    empty when the plan does not give one. *)
Definition plan_list (key : string) (plan : json) : list json :=
  match (details <- py_get plan "plan_details" (JObj []) ;;
         v <- py_get details key (JArr []) ;;
         py_iter v)%res with
  | Ok l => l
  | Raise _ => []
  end.

(** The id a creation answer reports. *)
Definition created_id (reply : result json) : option json :=
  match (nifi_proc <- reply ;;
         component <- py_getitem nifi_proc "component" ;;
         py_getitem component "id")%res with
  | Ok i => Some i
  | Raise _ => None
  end.

(** The ids of the processors the runtime reported as created. *)
Definition created_ids (l : list Request) : list json :=
  flat_map (fun r =>
              match r with
              | CreateProcessor _ _ reply =>
                  match created_id reply with
                  | Some i => [i]
                  | None => []
                  end
              | _ => []
              end) l.

(** The version a creation answer reports. *)
Definition reported_version (body : json) : result json :=
  (revision <- py_getitem body "revision" ;; py_getitem revision "version")%res.

(** What one turn of the loop over the processors may send: nothing; one
    creation request; or a creation request that was answered with an id,
    followed by the request to auto-terminate all the relationships the
    answer lists, for a processor that is not the source of a
    connection. *)
Definition turn_requests (rt : Runtime) (pg_id : json) (sources : pyset)
    (p_plan_id : json) (s : BSt) (new : list Request) : Prop :=
  new = []
  \/ (exists payload,
        new = [CreateProcessor pg_id payload (processor_reply rt (count is_creation s))])
  \/ (exists payload body nifi_id names version,
        processor_reply rt (count is_creation s) = Ok body
        /\ created_id (Ok body) = Some nifi_id
        /\ relationship_names body = Ok names
        /\ names <> []
        /\ reported_version body = Ok version
        /\ set_mem p_plan_id sources = false
        /\ new = [ CreateProcessor pg_id payload (Ok body);
                   UpdateProcessor nifi_id (update_payload nifi_id names version)
                     (update_reply rt (count is_update s)) ]).

(** What the turn does to [plan_id_to_nifi_id]: nothing, or it files an id
    the runtime reported for a creation request among [l]. *)
Definition ids_step (p_plan_id : json) (l : list Request) (ids ids' : vdict json)
    : Prop :=
  ids' = ids
  \/ exists nifi_id, In nifi_id (created_ids l) /\ ids' = vset p_plan_id nifi_id ids.

(** Every id the builder remembers was reported by the runtime. *)
Definition ids_reported (s : BSt) : Prop :=
  forall k v, vlookup k (plan_id_to_nifi_id s) = Some v ->
              In v (created_ids (requests s)).

(** Every connection request joins two processors the runtime reported. *)
Definition joins_created (l : list Request) : Prop :=
  forall pg_id payload reply,
    In (CreateConnection pg_id payload reply) l ->
    exists source dest rels,
      payload = connection_payload pg_id source dest rels
      /\ In source (created_ids l) /\ In dest (created_ids l).

(** The requests of a run stay within what the plan asks for. *)
Definition within_plan (processors connections : nat) (l : list Request) : Prop :=
  (List.length (filter is_creation l) <= processors)%nat
  /\ (List.length (filter is_update l) <= List.length (filter is_creation l))%nat
  /\ (List.length (filter is_connection l) <= connections)%nat.

(** What [n] turns of the loop over the processors leave: at most [n]
    creation requests, no more updates than creations, no connection
    request, and only reported ids remembered. *)
Definition placed (n : nat) (s s' : BSt) : Prop :=
  exists new,
    requests s' = requests s ++ new
    /\ (List.length (filter is_creation new) <= n)%nat
    /\ (List.length (filter is_update new) <= List.length (filter is_creation new))%nat
    /\ filter is_connection new = []
    /\ (ids_reported s -> ids_reported s').

(** A connection request between two remembered ids. *)
Definition joins_remembered (ids : vdict json) (r : Request) : Prop :=
  exists pg_id source dest rels reply,
    r = CreateConnection pg_id (connection_payload pg_id source dest rels) reply
    /\ (exists k, vlookup k ids = Some source)
    /\ (exists k, vlookup k ids = Some dest).

(** What [n] turns of the loop over the connections leave: at most [n]
    requests, all of them connection requests between remembered ids. *)
Definition connected (n : nat) (s s' : BSt) : Prop :=
  exists new,
    requests s' = requests s ++ new
    /\ plan_id_to_nifi_id s' = plan_id_to_nifi_id s
    /\ (List.length new <= n)%nat
    /\ Forall (joins_remembered (plan_id_to_nifi_id s)) new.

(** ** Sample runtime and plan *)

Definition created_reply (id : string) (relationships : list string) : result json :=
  Ok (JObj [ ("revision", JObj [("version", JInt 1)]);
             ("component", JObj [ ("id", JStr id);
                                  ("relationships",
                                   JArr (map (fun r => JObj [("name", JStr r)])
                                           relationships)) ]) ]).

Definition two_processor_runtime : Runtime :=
  {| types_reply :=
       Ok (JObj [("processorTypes",
                  JArr [ JObj [("type", JStr "GenerateFlowFile"); ("bundle", JStr "std")];
                         JObj [("type", JStr "PutFile"); ("bundle", JStr "std")] ])]);
     root_reply := Ok (JObj [("processGroupFlow", JObj [("id", JStr "root")])]);
     group_reply := Ok (JObj [("component", JObj [("id", JStr "pg-1")])]);
     processor_reply := fun n =>
       match n with
       | O => created_reply "nifi-1" ["success"]
       | _ => created_reply "nifi-2" ["success"; "failure"]
       end;
     update_reply := fun _ => Ok (JObj []);
     connection_reply := fun _ => Ok (JObj []) |}.

Definition two_processor_plan : json :=
  JObj [ ("plan_summary", JStr "demo");
         ("plan_details", JObj [
            ("flow_name", JStr "demo flow");
            ("processors", JArr [
               JObj [("id", JStr "p1"); ("name", JStr "make");
                     ("type", JStr "GenerateFlowFile")];
               JObj [("id", JStr "p2"); ("name", JStr "write");
                     ("type", JStr "PutFile")];
               JObj [("id", JStr "p3"); ("name", JStr "lost");
                     ("type", JStr "NoSuchType")] ]);
            ("connections", JArr [
               JObj [("from_id", JStr "p1"); ("to_id", JStr "p2");
                     ("relationships", JArr [JStr "success"])];
               JObj [("from_id", JStr "p1"); ("to_id", JStr "p3");
                     ("relationships", JArr [JStr "success"])] ]) ]) ].

End BuilderFacts.

(* ================================================================== *)
(** * Properties *)
(* ================================================================== *)

Import Py Engine Props Examples.
Local Open Scope m_scope.

(** Runs a closed term and records what it evaluates to. *)
Ltac run_as H term :=
  let v := eval vm_compute in term in
  assert (H : term = v) by (vm_compute; reflexivity).

(** ** Reasoning about methods *)

Lemma bind_ok {A B} (m : M A) (k : A -> M B) st a st' :
  m st = (Ok a, st') -> bind m k st = k a st'.
Proof. intros H. unfold bind. now rewrite H. Qed.

Lemma bind_raise {A B} (m : M A) (k : A -> M B) st e st' :
  m st = (Raise e, st') -> bind m k st = (Raise e, st').
Proof. intros H. unfold bind. now rewrite H. Qed.

Lemma for_each_skip {A} (l : list A) (body : A -> M unit) st :
  (forall a, In a l -> body a st = (Ok tt, st)) ->
  for_each l body st = (Ok tt, st).
Proof.
  induction l as [|a l IH]; intros H; simpl.
  - reflexivity.
  - rewrite (bind_ok _ _ st tt st) by (apply H; now left).
    apply IH. intros b Hb. apply H. now right.
Qed.

(** ** Steps that preserve a relation *)

Section Preserves.

Variable R : St -> St -> Prop.
Hypothesis R_refl : forall st, R st st.
Hypothesis R_trans : forall a b c, R a b -> R b c -> R a c.

Lemma preserves_ret {A} (a : A) : preserves R (ret a).
Proof. intros st. apply R_refl. Qed.

Lemma preserves_lift {A} (r : result A) : preserves R (lift r).
Proof. intros st. apply R_refl. Qed.

Lemma preserves_raise {A} e : preserves R (@raise A e).
Proof. intros st. apply R_refl. Qed.

Lemma preserves_get : preserves R get.
Proof. intros st. apply R_refl. Qed.

Lemma preserves_modify f : (forall st, R st (f st)) -> preserves R (modify f).
Proof. intros H st. apply H. Qed.

Lemma preserves_bind {A B} (m : M A) (k : A -> M B) :
  preserves R m -> (forall a, preserves R (k a)) -> preserves R (bind m k).
Proof.
  intros Hm Hk st. unfold bind. specialize (Hm st).
  destruct (m st) as [[a|e] st1]; simpl in *; [|exact Hm].
  eapply R_trans; [exact Hm|apply Hk].
Qed.

Lemma preserves_when b m : preserves R m -> preserves R (when b m).
Proof. intros H. destruct b; [exact H|apply preserves_ret]. Qed.

Lemma preserves_for_each {A} (l : list A) body :
  (forall a, preserves R (body a)) -> preserves R (for_each l body).
Proof.
  intros H. induction l as [|a l IH]; simpl.
  - apply preserves_ret.
  - apply preserves_bind; [apply H|intros _; exact IH].
Qed.

Lemma preserves_try_request {A} (body : M A) handler :
  preserves R body -> (forall e, preserves R (handler e)) ->
  preserves R (try_request body handler).
Proof.
  intros Hb Hh st. unfold try_request. specialize (Hb st).
  destruct (body st) as [[a|[| | | | | | | |msg]] st1]; simpl in *; try exact Hb.
  eapply R_trans; [exact Hb|apply Hh].
Qed.

(** Showing a text changes nothing. *)
Lemma preserves_console_print bi t : preserves R (console_print bi t).
Proof. intros st. unfold console_print. destruct (displayed bi t); apply R_refl. Qed.

Lemma preserves_print_lines bi bullet lines : preserves R (print_lines bi bullet lines).
Proof. apply preserves_for_each. intros err. apply preserves_console_print. Qed.

End Preserves.

(** Breaks a step into its parts; what is left are the state changes
    and the calls of other methods. *)
Ltac preserve_with refl trans :=
  repeat match goal with
         | |- preserves _ (ret _) => apply (preserves_ret _ refl)
         | |- preserves _ (lift _) => apply (preserves_lift _ refl)
         | |- preserves _ (raise _) => apply (preserves_raise _ refl)
         | |- preserves _ get => apply (preserves_get _ refl)
         | |- preserves _ (when _ _) => apply (preserves_when _ refl)
         | |- preserves _ (console_print _ _) => apply (preserves_console_print _ refl)
         | |- preserves _ (print_lines _ _ _) =>
             apply (preserves_print_lines _ refl trans)
         | |- preserves _ (for_each _ _) =>
             apply (preserves_for_each _ refl trans); intro; cbv beta
         | |- preserves _ (bind _ _) => apply (preserves_bind _ trans); [|intro]
         | |- preserves _ (modify _) => apply preserves_modify; intro
         | |- preserves _ (match ?x with _ => _ end) => destruct x
         | |- preserves _ (let _ := _ in _) => cbv zeta
         end.

Lemma same_trace_refl st : same_trace st st.
Proof. reflexivity. Qed.

Lemma same_trace_trans a b c : same_trace a b -> same_trace b c -> same_trace a c.
Proof. unfold same_trace. congruence. Qed.

Lemma flagged_refl st : flagged st st.
Proof. right. now split. Qed.

Lemma flagged_trans a b c : flagged a b -> flagged b c -> flagged a c.
Proof.
  unfold flagged. intros [H1|[H1 H1']] [H2|[H2 H2']]; try (now left).
  - left. congruence.
  - right. split; congruence.
Qed.

(** ** Steps that raise no [RequestException] *)

Lemma pure_ok {A} (a : A) : pure (Ok a).
Proof. intros msg. discriminate. Qed.

Lemma pure_rbind {A B} (r : result A) (k : A -> result B) :
  pure r -> (forall a, pure (k a)) -> pure (rbind r k).
Proof.
  intros Hr Hk msg. destruct r as [a|e]; simpl; [apply Hk|].
  intros Heq. injection Heq as ->. exact (Hr msg eq_refl).
Qed.

Lemma quiet_ret {A} (a : A) : quiet (ret a).
Proof. intros st msg. discriminate. Qed.

Lemma quiet_get : quiet get.
Proof. intros st msg. discriminate. Qed.

Lemma quiet_modify f : quiet (modify f).
Proof. intros st msg. discriminate. Qed.

Lemma quiet_lift {A} (r : result A) : pure r -> quiet (lift r).
Proof. intros H st. exact H. Qed.

Lemma quiet_bind {A B} (m : M A) (k : A -> M B) :
  quiet m -> (forall a, quiet (k a)) -> quiet (bind m k).
Proof.
  intros Hm Hk st. unfold bind. specialize (Hm st).
  destruct (m st) as [[a|e] st1]; simpl in *; [apply Hk|].
  intros msg Heq. injection Heq as ->. exact (Hm msg eq_refl).
Qed.

Lemma quiet_when b m : quiet m -> quiet (when b m).
Proof. intros H. destruct b; [exact H|apply quiet_ret]. Qed.

Lemma quiet_for_each {A} (l : list A) body :
  (forall a, quiet (body a)) -> quiet (for_each l body).
Proof.
  intros H. induction l as [|a l IH]; simpl.
  - apply quiet_ret.
  - apply quiet_bind; [apply H|intros _; exact IH].
Qed.

Lemma quiet_console_print bi t : quiet (console_print bi t).
Proof.
  intros st msg. unfold console_print. destruct (displayed bi t); discriminate.
Qed.

Lemma quiet_print_lines bi bullet lines : quiet (print_lines bi bullet lines).
Proof. apply quiet_for_each. intros err. apply quiet_console_print. Qed.

(** A text that is shown leaves the state as it is. *)
Lemma console_print_ok bi t st : displayed bi t = true -> console_print bi t st = (Ok tt, st).
Proof. intros H. unfold console_print. now rewrite H. Qed.

Lemma console_print_returns bi t st u st' :
  console_print bi t st = (Ok u, st') -> st' = st /\ displayed bi t = true.
Proof.
  unfold console_print. destruct (displayed bi t); [|discriminate].
  unfold ret. intros H. injection H as _ <-. now split.
Qed.

Lemma console_print_state bi t st : snd (console_print bi t st) = st.
Proof. unfold console_print. now destruct (displayed bi t). Qed.

Lemma print_lines_state bi bullet lines st : snd (print_lines bi bullet lines st) = st.
Proof.
  unfold print_lines. induction lines as [|err lines IH]; simpl; [reflexivity|].
  unfold bind. pose proof (console_print_state bi [Lit bullet; Val err] st) as H.
  destruct (console_print bi [Lit bullet; Val err] st) as [[[]|e] st1]; simpl in *;
    subst st1; [exact IH|reflexivity].
Qed.

Lemma print_lines_returns bi bullet lines st u st' :
  print_lines bi bullet lines st = (Ok u, st') -> st' = st.
Proof. intros H. pose proof (print_lines_state bi bullet lines st) as E. now rewrite H in E. Qed.

Lemma console_print_cases bi t st :
  console_print bi t st = (Ok tt, st) \/ console_print bi t st = (Raise MarkupError, st).
Proof. unfold console_print. destruct (displayed bi t); [now left|now right]. Qed.

Lemma print_lines_cases bi bullet lines st :
  print_lines bi bullet lines st = (Ok tt, st)
  \/ print_lines bi bullet lines st = (Raise MarkupError, st).
Proof.
  unfold print_lines. induction lines as [|err lines IH]; simpl; [now left|].
  unfold bind.
  destruct (console_print_cases bi [Lit bullet; Val err] st) as [E|E]; rewrite E;
    [exact IH|now right].
Qed.

(** A text none of whose values holds the start of a tag is shown. *)
Lemma plain_displayed bi t : holds_markup t = false -> displayed bi t = true.
Proof. intros H. unfold displayed. now rewrite H. Qed.

Create HintDb pure.

(** The built-ins raise Python's own exceptions only. *)
Ltac pure_cases :=
  intros;
  repeat match goal with
         | |- pure (match ?x with _ => _ end) => destruct x
         | |- pure (if ?x then _ else _) => destruct x
         | |- pure (let _ := _ in _) => cbv zeta
         | |- pure (rbind _ _) => apply pure_rbind; intros
         end;
  try (intros ?; discriminate).

Lemma pure_py_contains k v : pure (py_contains k v).
Proof. unfold py_contains. pure_cases. Qed.

Lemma pure_py_getitem v k : pure (py_getitem v k).
Proof. unfold py_getitem. pure_cases. Qed.

Lemma pure_py_first v : pure (py_first v).
Proof. unfold py_first. pure_cases. Qed.

Lemma pure_py_get v k d : pure (py_get v k d).
Proof. unfold py_get. pure_cases. Qed.

Lemma pure_py_items v : pure (py_items v).
Proof. unfold py_items. pure_cases. Qed.

Lemma pure_py_keys v : pure (py_keys v).
Proof. unfold py_keys. pure_cases. Qed.

Lemma pure_py_iter v : pure (py_iter v).
Proof. unfold py_iter. pure_cases. Qed.

Lemma pure_py_len v : pure (py_len v).
Proof. unfold py_len. pure_cases. Qed.

Lemma pure_set_add s x : pure (set_add s x).
Proof. unfold set_add. pure_cases. Qed.

#[local] Hint Resolve pure_ok pure_py_contains pure_py_getitem pure_py_first pure_py_get
  pure_py_items pure_py_keys pure_py_iter pure_py_len pure_set_add : pure.

Lemma pure_set_add_all l : forall s, pure (set_add_all s l).
Proof.
  induction l as [|x l IH]; intros s; simpl; [apply pure_ok|].
  apply pure_rbind; [apply pure_set_add|intros; apply IH].
Qed.

Lemma pure_set_of v : pure (set_of v).
Proof.
  unfold set_of, set_update. apply pure_rbind; [apply pure_py_iter|].
  intros; apply pure_set_add_all.
Qed.

Lemma pure_processor_at index d : pure (processor_at index d).
Proof. unfold processor_at. pure_cases; auto with pure. Qed.

Lemma pure_vmem {V} k (d : vdict V) : pure (vmem k d).
Proof. unfold vmem. pure_cases. Qed.

#[local] Hint Resolve pure_set_add_all pure_set_of pure_processor_at pure_vmem : pure.

(** ** Dicts and paths *)

Lemma lookup_setitem_same k v d : lookup k (setitem k v d) = Some v.
Proof.
  induction d as [|[k' v'] d IH]; simpl.
  - now rewrite String.eqb_refl.
  - destruct (k =? k')%string eqn:E; simpl.
    + now rewrite String.eqb_refl.
    + now rewrite E.
Qed.

Lemma lookup_setitem_other k k' v d :
  k <> k' -> lookup k' (setitem k v d) = lookup k' d.
Proof.
  intros Hne. induction d as [|[k0 v0] d IH]; simpl.
  - destruct (k' =? k)%string eqn:E; [|reflexivity].
    apply String.eqb_eq in E. congruence.
  - destruct (k =? k0)%string eqn:E; simpl.
    + apply String.eqb_eq in E. subst k0.
      destruct (k' =? k)%string eqn:E'; [|reflexivity].
      apply String.eqb_eq in E'. congruence.
    + destruct (k' =? k0)%string; [reflexivity|apply IH].
Qed.

Lemma nth_error_replace_nth {A} n (x y : A) l :
  nth_error l n = Some y -> nth_error (replace_nth n x l) n = Some x.
Proof.
  revert n. induction l as [|a l IH]; intros [|n] H; simpl in *; try discriminate.
  - reflexivity.
  - now apply IH.
Qed.

Lemma nth_error_replace_nth_other {A} n m (x : A) l :
  n <> m -> nth_error (replace_nth n x l) m = nth_error l m.
Proof.
  revert n m. induction l as [|a l IH]; intros [|n] [|m] H; simpl; try reflexivity.
  - congruence.
  - apply IH. congruence.
Qed.

(** What [processor_at] finding a dict says about the shape of the plan. *)
Lemma processor_at_shape index d p :
  processor_at index d = Ok p ->
  exists top pd ps,
    d = JObj top /\ lookup "plan_details" top = Some (JObj pd) /\
    lookup "processors" pd = Some (JArr ps) /\ nth_error ps index = Some p.
Proof.
  unfold processor_at, py_getitem, rbind. intros H.
  destruct d as [| | | | | |top]; try discriminate.
  destruct (lookup "plan_details" top) as [pdv|] eqn:E1; try discriminate.
  destruct pdv as [| | | | | |pd]; try discriminate.
  destruct (lookup "processors" pd) as [psv|] eqn:E2; try discriminate.
  destruct psv as [| | | | |ps|]; try discriminate.
  destruct (nth_error ps index) as [q|] eqn:E3; try discriminate.
  injection H as <-. now exists top, pd, ps.
Qed.

(** Assigning a field of a processor changes that field of that processor. *)
Lemma processor_at_assign index fld v d kvs :
  processor_at index d = Ok (JObj kvs) ->
  processor_at index (assign_processor_field index fld v d)
  = Ok (JObj (setitem fld v kvs)).
Proof.
  intros H. destruct (processor_at_shape _ _ _ H) as (top & pd & ps & -> & E1 & E2 & E3).
  unfold assign_processor_field. rewrite E1, E2, E3.
  unfold processor_at, py_getitem, rbind.
  rewrite lookup_setitem_same, lookup_setitem_same.
  now rewrite (nth_error_replace_nth _ _ _ _ E3).
Qed.

Lemma setitem_setitem k v1 v2 d : setitem k v2 (setitem k v1 d) = setitem k v2 d.
Proof.
  induction d as [|[k' v'] d IH]; simpl.
  - now rewrite String.eqb_refl.
  - destruct (k =? k')%string eqn:E; simpl.
    + now rewrite String.eqb_refl.
    + now rewrite E, IH.
Qed.

(** ** The structural checker *)

Lemma check_required_fields_ok prefix required item st :
  has_required required item = true ->
  check_required_fields prefix required item st = (Ok tt, st).
Proof.
  intros H. destruct item as [| | | | | |kvs]; try discriminate.
  unfold check_required_fields. apply for_each_skip.
  intros [fld [t nm]] Hin. simpl in H.
  rewrite forallb_forall in H. specialize (H _ Hin). simpl in H.
  unfold bind, lift, py_contains, has_key, py_getitem, when.
  destruct (lookup fld kvs) as [v|]; [|discriminate].
  simpl. now rewrite H.
Qed.

Lemma check_all_ok prefix required (l : list json) st :
  forallb (has_required required) l = true ->
  for_each (enumerate l) (fun '(index, item) =>
    check_required_fields (prefix index) required item) st = (Ok tt, st).
Proof.
  intros H. apply for_each_skip. intros [i item] Hin.
  apply check_required_fields_ok.
  rewrite forallb_forall in H. apply H.
  unfold enumerate in Hin. now apply in_combine_r in Hin.
Qed.

(** ** The type resolver *)

Section TypeResolver.

Variable bi : Builtins.

Lemma vlookup_strings {V} (t : string) (catalog : vdict V) names :
  map fst catalog = map JStr names ->
  match vlookup (JStr t) catalog with Some _ => true | None => false end
  = existsb (String.eqb t) names.
Proof.
  revert names. induction catalog as [|[k v] c IH]; intros [|n names] H;
    simpl in *; try discriminate; [reflexivity|].
  injection H as -> H. simpl.
  destruct (t =? n)%string; simpl; [reflexivity|]. now apply IH.
Qed.

Lemma vmem_strings {V} (t : string) (catalog : vdict V) names :
  map fst catalog = map JStr names ->
  vmem (JStr t) catalog = Ok (existsb (String.eqb t) names).
Proof. intros H. unfold vmem. simpl. now rewrite (vlookup_strings t catalog names H). Qed.

Lemma filter_flags (p : string -> bool) names :
  map fst (filter snd (combine (map JStr names) (map p names)))
  = map JStr (filter p names).
Proof.
  induction names as [|n names IH]; simpl; [reflexivity|].
  destruct (p n); simpl; now rewrite IH.
Qed.

Lemma possible_matches_strings (t : string) (catalog : vdict json) names :
  map fst catalog = map JStr names ->
  existsb (String.eqb t) names = false ->
  possible_matches bi (JStr t) catalog = Ok (map JStr (candidates t names)).
Proof.
  intros H Hn. unfold possible_matches. rewrite H. clear H catalog.
  assert (E : rmap (fun fqcn =>
                match fqcn with
                | JStr f => Ok (endswith f ("." ++ fmt bi (JStr t)) || py_eq fqcn (JStr t))
                | _ => Raise AttributeError
                end) (map JStr names)
              = Ok (map (fun f => endswith f ("." ++ t)) names)).
  { induction names as [|n names IH]; simpl in *; [reflexivity|].
    apply orb_false_elim in Hn as [Hn1 Hn2].
    rewrite (IH Hn2). simpl.
    rewrite String.eqb_sym, Hn1. now rewrite orb_false_r. }
  rewrite E. unfold rbind, candidates. f_equal. apply filter_flags.
Qed.

(** Once the local flag is set, the later turns of the loop keep it, and
    the method stores it in [self.changes_made]. *)
Lemma resolve_all_keeps_flag l st b st' :
  resolve_all bi l true st = (Ok b, st') -> b = true.
Proof.
  revert st. induction l as [|[index processor] l IH]; intros st H; simpl in H.
  - unfold ret in H. congruence.
  - unfold bind in H.
    destruct (resolve_processor_type bi index processor true st) as [[c|e] st1] eqn:E;
      [|discriminate].
    assert (c = true); [|subst; eauto].
    clear H IH. unfold resolve_processor_type, bind, lift, ret, get, modify, append_error in E.
    repeat match type of E with
           | context [match ?x with _ => _ end] => destruct x eqn:?; try discriminate
           end; congruence.
Qed.

(** C4, as amended: how one processor's type string is resolved against a
    catalog of identifiers.  An empty type is skipped.  A non-empty type
    that is in the catalog leaves everything as it is.  Otherwise the
    candidates are the identifiers ending with a dot and the type: none
    gives one "does not exist" error; exactly one is announced on the
    console and then written into the processor's type field, with the
    dirty flag set, which the rest of the loop keeps, unless the
    announcement cannot be displayed, in which case a [MarkupError]
    leaves the check with nothing written; several give one "ambiguous"
    error that carries the list of all candidates, and the plan is not
    touched. *)
Theorem type_resolution :
  forall (index : nat) (processor : dict) (raw : string) (identifiers : list string)
         (changed : bool) (st : St),
    lookup "type" processor = Some (JStr raw) ->
    map fst (available_processor_types st) = map JStr identifiers ->
    processor_at index (data st) = Ok (JObj processor) ->
    let turn := resolve_processor_type bi index (JObj processor) changed st in
    let p_name := display_name index processor in
    (raw = "" -> turn = (Ok changed, st))
    /\ (raw <> "" ->
        (existsb (String.eqb raw) identifiers = true -> turn = (Ok changed, st))
        /\ (existsb (String.eqb raw) identifiers = false ->
            match candidates raw identifiers with
            | [] =>
                turn = (Ok changed,
                        set_errors (errors st ++ [unknown_type_error bi index p_name (JStr raw)]) st)
            | [fqcn] =>
                let announcement := type_update_text bi p_name (JStr raw) (JStr fqcn) in
                (displayed bi announcement = true ->
                 exists st',
                   turn = (Ok true, st')
                   /\ processor_at index (data st')
                      = Ok (JObj (setitem "type" (JStr fqcn) processor))
                   /\ errors st' = errors st
                   /\ (forall rest b st'',
                         resolve_all bi rest true st' = (Ok b, st'') -> b = true))
                /\ (displayed bi announcement = false ->
                    turn = (Raise MarkupError, st))
            | found =>
                turn = (Ok changed,
                        set_errors
                          (errors st ++ [ambiguous_type_error bi index p_name (JStr raw)
                                           (map JStr found)]) st)
            end)).
Proof.
  intros index processor raw ids changed st Ht Hc Hat turn p_name.
  assert (Hname : py_get (JObj processor) "name" (JStr ("Processor-" ++ str_of_nat index))
                  = Ok p_name).
  { unfold py_get, p_name, display_name. now destruct (lookup "name" processor). }
  assert (Hget : py_get (JObj processor) "type" JNull = Ok (JStr raw)).
  { unfold py_get. now rewrite Ht. }
  split.
  - intros ->. subst turn. unfold resolve_processor_type, bind, lift.
    rewrite Hget, Hname. reflexivity.
  - intros Hne.
    assert (Htr : truthy (JStr raw) = true).
    { simpl. destruct (raw =? "")%string eqn:E; [|reflexivity].
      apply String.eqb_eq in E. contradiction. }
    assert (Hturn : turn =
      (known <- lift (vmem (JStr raw) (available_processor_types st)) ;;
       if known then ret changed else
       matches <- lift (possible_matches bi (JStr raw) (available_processor_types st)) ;;
       match matches with
       | [matched_fqcn] =>
           current <- lift (py_getitem (JObj processor) "type") ;;
           if negb (py_eq current matched_fqcn) then
             console_print bi (type_update_text bi p_name (JStr raw) matched_fqcn) ;;;
             modify (fun st => set_data (assign_processor_field index "type" matched_fqcn (data st)) st) ;;;
             ret true
           else ret changed
       | _ :: _ :: _ =>
           append_error (ambiguous_type_error bi index p_name (JStr raw) matches) ;;;
           ret changed
       | [] =>
           append_error (unknown_type_error bi index p_name (JStr raw)) ;;;
           ret changed
       end) st).
    { subst turn. unfold resolve_processor_type. unfold bind at 1, lift at 1.
      rewrite Hget. unfold bind at 1, lift at 1. rewrite Hname. rewrite Htr. reflexivity. }
    rewrite Hturn. clear Hturn. unfold bind at 1, lift at 1.
    rewrite (vmem_strings raw _ ids Hc).
    split; intros Hk; rewrite Hk; [reflexivity|].
    unfold bind at 1, lift at 1.
    rewrite (possible_matches_strings raw _ ids Hc Hk).
    pose proof (fun f => proj1 (filter_In (fun fqcn => endswith fqcn ("." ++ raw)) f ids)) as Hin.
    fold (candidates raw ids) in Hin.
    destruct (candidates raw ids) as [|fqcn [|f2 found]]; cbn [map];
      unfold lift at 1; cbv iota beta.
    + reflexivity.
    + assert (Hdiff : (raw =? fqcn)%string = false).
      { destruct (raw =? fqcn)%string eqn:E; [|reflexivity].
        apply String.eqb_eq in E. subst fqcn.
        destruct (Hin raw (or_introl eq_refl)) as [Hi _].
        assert (existsb (String.eqb raw) ids = true).
        { apply existsb_exists. exists raw. split; [assumption|apply String.eqb_refl]. }
        congruence. }
      split; intros Hshow.
      * eexists. split.
        { unfold bind, lift, py_getitem, console_print. cbv iota beta. rewrite Ht.
          cbn [py_eq]. rewrite Hdiff. cbn [negb]. cbv iota beta. rewrite Hshow.
          reflexivity. }
        simpl. split; [|split].
        -- now apply processor_at_assign.
        -- reflexivity.
        -- intros rest b st''. apply resolve_all_keeps_flag.
      * unfold bind, lift, py_getitem, console_print. cbv iota beta. rewrite Ht.
        cbn [py_eq]. rewrite Hdiff. cbn [negb]. cbv iota beta. now rewrite Hshow.
    + reflexivity.
Qed.

End TypeResolver.

Lemma type_resolution_witness :
  lookup "type" [("type", JStr "GenerateFlowFile")] = Some (JStr "GenerateFlowFile") /\
  exists st',
    resolve_processor_type sample_builtins 0 (JObj [("type", JStr "GenerateFlowFile")]) false
      (holding_with (plan_doc "demo" [JObj [("type", JStr "GenerateFlowFile")]] []) small_catalog)
    = (Ok true, st')
    /\ processor_at 0 (data st')
       = Ok (JObj [("type", JStr "org.apache.nifi.processors.standard.GenerateFlowFile")]).
Proof.
  split; [reflexivity|].
  destruct (type_resolution sample_builtins 0 [("type", JStr "GenerateFlowFile")]
              "GenerateFlowFile" small_catalog false
              (holding_with (plan_doc "demo" [JObj [("type", JStr "GenerateFlowFile")]] [])
                 small_catalog)
              eq_refl eq_refl eq_refl) as [_ H].
  destruct (H ltac:(discriminate)) as [_ H2].
  destruct (H2 eq_refl) as [H3 _].
  destruct (H3 eq_refl) as (st' & E1 & E2 & _).
  exists st'. split; [exact E1|exact E2].
Defined.

(** The empty type string is not in the catalog and no identifier ends
    with a dot alone, so there are zero candidates, yet the turn records
    no "does not exist" error. *)
Lemma empty_type_is_skipped :
  existsb (String.eqb "") small_catalog = false /\
  candidates "" small_catalog = [] /\
  resolve_processor_type sample_builtins 0 untyped_processor false
    (holding_with untyped_plan small_catalog)
  = (Ok false, holding_with untyped_plan small_catalog) /\
  errors (holding_with untyped_plan small_catalog) = [].
Proof. repeat split; vm_compute; reflexivity. Qed.

(** The processor is named "Write [/tmp/out]" and has a short type name
    with exactly one candidate in the catalog.  rich reads "[/tmp/out]"
    in the announcement as a closing tag that matches no open one: the
    turn ends in a [MarkupError], the type is not rewritten and the
    dirty flag not set. *)
Lemma markup_stops_type_rewrite :
  let st := holding_with bracket_plan small_catalog in
  let out := resolve_processor_type sample_builtins 0 bracket_processor false st in
  candidates "GenerateFlowFile" small_catalog
  = ["org.apache.nifi.processors.standard.GenerateFlowFile"]
  /\ text_of (type_update_text sample_builtins (JStr "Write [/tmp/out]")
                (JStr "GenerateFlowFile")
                (JStr "org.apache.nifi.processors.standard.GenerateFlowFile"))
     = "[cyan]Updating processor 'Write [/tmp/out]': 'GenerateFlowFile' -> 'org.apache.nifi.processors.standard.GenerateFlowFile'[/cyan]"
  /\ out = (Raise MarkupError, st)
  /\ processor_at 0 (data (snd out)) = Ok bracket_processor
  /\ fst (validate_processor_types sample_builtins without_oracle catalog_runtime
            (holding bracket_plan)) = Raise MarkupError.
Proof. repeat split; vm_compute; reflexivity. Qed.

(** C4, as stated, fails in two places: an empty type string has zero
    candidates and gets no "does not exist" error; and a type with
    exactly one candidate is not rewritten when the announcement of the
    rewrite cannot be displayed. *)
Lemma type_resolution_gaps :
  (existsb (String.eqb "") small_catalog = false /\
   candidates "" small_catalog = [] /\
   resolve_processor_type sample_builtins 0 untyped_processor false
     (holding_with untyped_plan small_catalog)
   = (Ok false, holding_with untyped_plan small_catalog) /\
   errors (holding_with untyped_plan small_catalog) = [])
  /\ (let st := holding_with bracket_plan small_catalog in
      let out := resolve_processor_type sample_builtins 0 bracket_processor false st in
      candidates "GenerateFlowFile" small_catalog
      = ["org.apache.nifi.processors.standard.GenerateFlowFile"]
      /\ text_of (type_update_text sample_builtins (JStr "Write [/tmp/out]")
                    (JStr "GenerateFlowFile")
                    (JStr "org.apache.nifi.processors.standard.GenerateFlowFile"))
         = "[cyan]Updating processor 'Write [/tmp/out]': 'GenerateFlowFile' -> 'org.apache.nifi.processors.standard.GenerateFlowFile'[/cyan]"
      /\ out = (Raise MarkupError, st)
      /\ processor_at 0 (data (snd out)) = Ok bracket_processor
      /\ fst (validate_processor_types sample_builtins without_oracle catalog_runtime
                (holding bracket_plan)) = Raise MarkupError).
Proof. split; [exact empty_type_is_skipped|exact markup_stops_type_rewrite]. Qed.

(** ** Relationship completeness *)

Section Relationships.

Variable bi : Builtins.

Lemma set_mem_strings x l : set_mem (JStr x) (map JStr l) = mem x l.
Proof.
  unfold set_mem, mem. induction l as [|a l IH]; [reflexivity|].
  change (existsb (py_eq (JStr x)) (map JStr (a :: l)))
    with (py_eq (JStr x) (JStr a) || existsb (py_eq (JStr x)) (map JStr l)).
  rewrite IH. reflexivity.
Qed.

Lemma mem_app x a b : mem x (a ++ b) = mem x a || mem x b.
Proof. unfold mem. apply existsb_app. Qed.

Lemma mem_eq x y l : (x =? y)%string = true -> mem x l = mem y l.
Proof. intros H. apply String.eqb_eq in H. now subst. Qed.

Lemma set_add_all_strings l : forall s,
  set_add_all (map JStr s) (map JStr l) = Ok (map JStr (add_strings s l)).
Proof.
  induction l as [|x l IH]; intros s; simpl; [reflexivity|].
  unfold set_add. simpl. rewrite set_mem_strings.
  destruct (mem x s); simpl.
  - apply IH.
  - rewrite <- (IH (s ++ [x])). now rewrite map_app.
Qed.

Lemma mem_add_strings x l : forall s,
  mem x (add_strings s l) = mem x s || mem x l.
Proof.
  induction l as [|y l IH]; intros s; simpl.
  - now rewrite orb_false_r.
  - rewrite IH. destruct (mem y s) eqn:E.
    + destruct (x =? y)%string eqn:Exy; simpl; [|reflexivity].
      rewrite (mem_eq x y s Exy), E. reflexivity.
    + rewrite mem_app. simpl. rewrite orb_false_r. now rewrite orb_assoc.
Qed.

Lemma set_union_strings a b :
  set_union (map JStr a) (map JStr b)
  = map JStr (a ++ filter (fun y => negb (mem y a)) b).
Proof.
  unfold set_union. rewrite map_app. f_equal.
  induction b as [|y b IH]; simpl; [reflexivity|].
  rewrite set_mem_strings. destruct (mem y a); simpl; now rewrite IH.
Qed.

Lemma mem_union x a b :
  mem x (a ++ filter (fun y => negb (mem y a)) b) = mem x a || mem x b.
Proof.
  rewrite mem_app. destruct (mem x a) eqn:Ea; simpl; [reflexivity|].
  induction b as [|y b IH]; simpl; [reflexivity|].
  destruct (mem y a) eqn:Ey; simpl.
  - destruct (x =? y)%string eqn:E; simpl; [|exact IH].
    rewrite (mem_eq x y a E) in Ea. congruence.
  - now rewrite IH.
Qed.

Lemma set_diff_strings a b :
  set_diff (map JStr a) (map JStr b) = map JStr (filter (fun x => negb (mem x b)) a).
Proof.
  unfold set_diff. induction a as [|x a IH]; simpl; [reflexivity|].
  rewrite set_mem_strings. destruct (mem x b); simpl; now rewrite IH.
Qed.

Lemma vlookup_as_vdict id m :
  vlookup (JStr id) (as_vdict m) = option_map (map JStr) (slookup id m).
Proof.
  induction m as [|[k v] m IH]; simpl; [reflexivity|].
  destruct (id =? k)%string; [reflexivity|exact IH].
Qed.

Lemma vset_as_vdict id s m :
  vset (JStr id) (map JStr s) (as_vdict m) = as_vdict (sset id s m).
Proof.
  induction m as [|[k v] m IH]; simpl; [reflexivity|].
  destruct (id =? k)%string; simpl; [reflexivity|]. now rewrite IH.
Qed.

Lemma strings_map l rels : strings l = Some rels -> l = map JStr rels.
Proof.
  revert rels. induction l as [|x l IH]; intros rels H; simpl in H.
  - injection H as <-. reflexivity.
  - destruct x; try discriminate.
    destruct (strings l) as [r|]; try discriminate.
    injection H as <-. simpl. now rewrite (IH r eq_refl).
Qed.

(** A connection with a string source and string relationship names is
    added to [connections_map] as its view is added to the string map. *)
Lemma add_connection_view c view m :
  connection_view c = Some view ->
  add_connection (as_vdict m) c = Ok (as_vdict (add_view m view)).
Proof.
  unfold connection_view, field. intros H.
  destruct c as [| | | | | |kvs]; try discriminate.
  destruct (lookup "from_id" kvs) as [[| | | |f| |]|] eqn:Ef; try discriminate.
  destruct (lookup "relationships" kvs) as [[| | | | |l|]|] eqn:Er; try discriminate.
  destruct (strings l) as [rels|] eqn:Es; try discriminate.
  injection H as <-. apply strings_map in Es. subst l.
  unfold add_connection, py_get, rbind. rewrite Ef, Er. simpl.
  destruct (f =? "")%string; simpl; [reflexivity|].
  unfold vmem. simpl. rewrite vlookup_as_vdict.
  destruct (slookup f m) as [s|] eqn:E; simpl.
  - rewrite vlookup_as_vdict, E. simpl.
    unfold set_update. simpl. rewrite set_add_all_strings. simpl.
    now rewrite vset_as_vdict.
  - pose proof (vset_as_vdict f [] m) as Hv. simpl in Hv. rewrite !Hv.
    rewrite vlookup_as_vdict.
    pose proof (set_add_all_strings rels []) as Ha. simpl in Ha.
    destruct (slookup f (sset f [] m)) as [s|]; simpl;
      unfold set_update; simpl.
    + rewrite set_add_all_strings. simpl. now rewrite vset_as_vdict.
    + rewrite Ha. simpl. now rewrite vset_as_vdict.
Qed.

Lemma add_connections_views cs : forall m,
  (forall c, In c cs -> connection_view c <> None) ->
  add_connections (as_vdict m) cs = Ok (as_vdict (fold_left add_view (views_of cs) m)).
Proof.
  induction cs as [|c cs IH]; intros m H; simpl; [reflexivity|].
  destruct (connection_view c) as [v|] eqn:E.
  - rewrite (add_connection_view c v m E). simpl. apply IH.
    intros c' Hc'. apply H. now right.
  - exfalso. apply (H c); [now left|exact E].
Qed.

Lemma slookup_sset_same k v m : slookup k (sset k v m) = Some v.
Proof.
  induction m as [|[k' v'] m IH]; simpl.
  - now rewrite String.eqb_refl.
  - destruct (k =? k')%string eqn:E; simpl; now rewrite E.
Qed.

Lemma slookup_sset_other k k' v m :
  (k =? k')%string = false -> slookup k' (sset k v m) = slookup k' m.
Proof.
  intros Hne. induction m as [|[k0 v0] m IH]; simpl.
  - now rewrite String.eqb_sym, Hne.
  - destruct (k =? k0)%string eqn:E; simpl.
    + apply String.eqb_eq in E. subst k0. now rewrite String.eqb_sym, Hne.
    + destruct (k' =? k0)%string; [reflexivity|exact IH].
Qed.

Lemma slookup_add_view id m f rels :
  slookup id (add_view m (f, rels))
  = if negb (f =? "")%string && (f =? id)%string
    then Some (add_strings (or_empty (slookup id m)) rels)
    else slookup id m.
Proof.
  unfold add_view. destruct (f =? "")%string; simpl; [reflexivity|].
  destruct (f =? id)%string eqn:E.
  - apply String.eqb_eq in E. subst f. rewrite slookup_sset_same.
    destruct (slookup id m) as [s|] eqn:Es; simpl.
    + now rewrite Es.
    + now rewrite slookup_sset_same.
  - rewrite slookup_sset_other by exact E.
    destruct (slookup f m); [reflexivity|]. now apply slookup_sset_other.
Qed.

(** What [connections_map] holds for an id after the connections are
    added: an entry exactly if the id is not empty and some connection
    starts there, and in it the names those connections carry. *)
Lemma slookup_fold id views : forall m,
  is_some (slookup id (fold_left add_view views m))
  = is_some (slookup id m)
    || (negb (id =? "")%string && existsb (fun v => (fst v =? id)%string) views)
  /\ forall r,
       mem r (or_empty (slookup id (fold_left add_view views m)))
       = mem r (or_empty (slookup id m))
         || (negb (id =? "")%string
             && mem r (List.concat
                         (map snd (filter (fun v => (fst v =? id)%string) views)))).
Proof.
  induction views as [|[f rels] views IH]; intros m.
  - simpl. split; [|intros r]; now rewrite andb_false_r, orb_false_r.
  - change (fold_left add_view ((f, rels) :: views) m)
      with (fold_left add_view views (add_view m (f, rels))).
    destruct (IH (add_view m (f, rels))) as [IH1 IH2]. clear IH.
    cbn [filter existsb fst].
    split; [rewrite IH1|intros r; rewrite IH2]; clear IH1 IH2;
      rewrite slookup_add_view;
      destruct (f =? id)%string eqn:E; cbn [negb andb orb map snd List.concat];
      try (apply String.eqb_eq in E; subst f);
      destruct (id =? "")%string eqn:E0; cbn [negb andb orb is_some or_empty];
      rewrite ?andb_false_r, ?orb_false_r, ?andb_true_r; try reflexivity.
    + now rewrite orb_true_r.
    + rewrite mem_add_strings, mem_app. now rewrite orb_assoc.
Qed.

Lemma outgoing_views id cs :
  outgoing id cs = map snd (filter (fun v => (fst v =? id)%string) (views_of cs)).
Proof.
  unfold outgoing, views_of. induction cs as [|c cs IH]; simpl; [reflexivity|].
  destruct (connection_view c) as [[f rels]|]; simpl; [|exact IH].
  destruct (f =? id)%string; simpl; now rewrite IH.
Qed.

Lemma is_source_views id cs :
  is_source id cs = existsb (fun v => (fst v =? id)%string) (views_of cs).
Proof.
  unfold is_source. rewrite outgoing_views.
  induction (views_of cs) as [|[f rels] vs IH]; simpl; [reflexivity|].
  destruct (f =? id)%string; simpl; [reflexivity|exact IH].
Qed.

Lemma build_connections_map_views d cs :
  connections_of d = Some cs ->
  (forall c, In c cs -> connection_view c <> None) ->
  build_connections_map d = Ok (as_vdict (fold_left add_view (views_of cs) [])).
Proof.
  unfold connections_of, field. intros H Hv.
  destruct d as [| | | | | |top]; try discriminate.
  destruct (lookup "plan_details" top) as [[| | | | | |pd]|] eqn:E1; try discriminate.
  destruct (lookup "connections" pd) as [[| | | | |l|]|] eqn:E2; try discriminate.
  injection H as ->.
  unfold build_connections_map, py_get, py_getitem, py_contains, has_key, rbind.
  rewrite E1. simpl. destruct pd as [|kv pd]; [discriminate|].
  rewrite E2. simpl. apply (add_connections_views cs [] Hv).
Qed.

(** C6, as amended: for a processor with a string id, string names for
    its auto-terminated relationships and connections with a string source
    and string relationship names, the relationship check gives one error
    exactly when the id is not empty, some connection starts at the
    processor and some available relationship is neither auto-terminated
    nor carried by a connection that starts there; the error is made from
    exactly those relationships.  A processor that is not the source of a
    connection, or whose id is empty, gets no relationship error. *)
Theorem relationship_errors_exact :
  forall (d : json) (connections : list json) (processor : dict) (id : string)
         (component : json) (available auto_terminated : list string),
    connections_of d = Some connections ->
    (forall c, In c connections -> connection_view c <> None) ->
    lookup "auto_terminated_relationships" processor
      = Some (JArr (map JStr auto_terminated)) ->
    available_relationships component = Ok (map JStr available) ->
    exists connections_map,
      build_connections_map d = Ok connections_map
      /\ let missing := unaccounted available auto_terminated (carried id connections) in
         (available_rels <- available_relationships component ;;
          check_relationships bi available_rels (JObj processor) (JStr id)
            connections_map)%res
         = Ok (if is_source id connections && negb (id =? "")%string
               then match missing with
                    | [] => []
                    | _ :: _ => [relationship_message bi (map JStr missing)]
                    end
               else []).
Proof.
  intros d cs processor id component available T Hc Hv Ht Ha.
  eexists. split; [apply (build_connections_map_views d cs Hc Hv)|].
  intros missing. rewrite Ha. simpl.
  unfold check_relationships, py_get, rbind. rewrite Ht.
  unfold set_of, set_update. simpl.
  pose proof (set_add_all_strings T []) as HT. simpl in HT. rewrite HT. clear HT.
  unfold vmem. simpl. rewrite vlookup_as_vdict.
  destruct (slookup_fold id (views_of cs) []) as [H1 H2].
  cbn [slookup is_some or_empty mem existsb orb] in H1, H2.
  rewrite <- is_source_views in H1.
  set (m := fold_left add_view (views_of cs) []) in *.
  assert (Hmiss : set_diff (map JStr available)
                    (set_union (map JStr (add_strings [] T))
                       (map JStr (or_empty (slookup id m))))
                  = map JStr (if is_source id cs && negb (id =? "")%string
                              then missing else
                              filter (fun x => negb (mem x T)) available)).
  { rewrite set_union_strings, set_diff_strings. f_equal.
    destruct (is_source id cs && negb (id =? "")%string) eqn:Es.
    - unfold missing, unaccounted. apply filter_ext. intros x.
      rewrite mem_union, mem_add_strings, H2. simpl.
      rewrite andb_comm in Es. destruct (negb (id =? "")%string); [|discriminate].
      simpl. unfold carried. rewrite outgoing_views. now rewrite negb_orb.
    - apply filter_ext. intros x.
      rewrite mem_union, mem_add_strings. simpl.
      assert (Hn : slookup id m = None).
      { rewrite andb_comm in Es. rewrite Es in H1. now destruct (slookup id m). }
      rewrite Hn. simpl. now rewrite orb_false_r. }
  destruct (slookup id m) as [s|] eqn:Em; simpl in *.
  - rewrite andb_comm in H1. rewrite <- H1 in *. rewrite Hmiss.
    now destruct missing.
  - rewrite andb_comm in H1. rewrite <- H1. reflexivity.
Qed.

End Relationships.

Lemma relationship_errors_exact_witness :
  connections_of rerouted_plan = Some [connection "p1" "p3" ["failure"]] /\
  lookup "auto_terminated_relationships" [("auto_terminated_relationships", JArr [])]
    = Some (JArr (map JStr [])) /\
  available_relationships
    (JObj [("relationships", JArr [JObj [("name", JStr "success")];
                                    JObj [("name", JStr "failure")]])])
    = Ok (map JStr ["success"; "failure"]) /\
  exists connections_map,
    build_connections_map rerouted_plan = Ok connections_map /\
    (available_rels <- available_relationships
        (JObj [("relationships", JArr [JObj [("name", JStr "success")];
                                        JObj [("name", JStr "failure")]])]) ;;
     check_relationships sample_builtins available_rels
       (JObj [("auto_terminated_relationships", JArr [])]) (JStr "p1") connections_map)%res
    = Ok [relationship_message sample_builtins [JStr "success"]].
Proof.
  split; [reflexivity|]. split; [reflexivity|]. split; [reflexivity|].
  refine (relationship_errors_exact sample_builtins rerouted_plan
            [connection "p1" "p3" ["failure"]]
            [("auto_terminated_relationships", JArr [])] "p1"
            (JObj [("relationships", JArr [JObj [("name", JStr "success")];
                                            JObj [("name", JStr "failure")]])])
            ["success"; "failure"] [] eq_refl _ eq_refl eq_refl).
  intros c [<-|[]]. discriminate.
Defined.

(** C6, as stated, fails for a processor whose id is the empty string: it
    is the source of a connection and its available relationship success
    is neither auto-terminated nor carried, yet the check gives no
    error. *)
Lemma empty_id_source_unchecked :
  is_source "" nameless_connections = true /\
  unaccounted ["success"] [] (carried "" nameless_connections) = ["success"] /\
  (connections_map <- build_connections_map nameless_plan ;;
   check_relationships sample_builtins [JStr "success"] nameless_processor (JStr "")
     connections_map)%res = Ok [].
Proof. repeat split; vm_compute; reflexivity. Qed.

(** ** The relationship scenario *)

(** C7, as amended: with success carried by the one outgoing connection
    and failure auto-terminated, sandbox validation ends without an error;
    with that connection removed the processor is no connection source
    any more and validation again ends without an error; when the
    processor is still the source of another connection, which does not
    carry success, validation ends with exactly one error, the
    relationship error of that processor made from the set holding
    success alone. *)
Theorem relationship_scenario :
  forall bi : Builtins,
    let validate plan :=
      validate_processor_configuration bi without_oracle two_relationships (holding plan) in
    (fst (validate routed_plan) = Ok tt /\ errors (snd (validate routed_plan)) = [])
    /\ (fst (validate unrouted_plan) = Ok tt /\ errors (snd (validate unrouted_plan)) = [])
    /\ (fst (validate rerouted_plan) = Ok tt
        /\ errors (snd (validate rerouted_plan))
           = [ ("Processor[0] 'p1' Relationship Error: "
                ++ relationship_message bi [JStr "success"])%string ]).
Proof. intros bi validate. repeat split; vm_compute; reflexivity. Qed.

(** C7, as stated, fails in its second half: once the connection is
    removed, the relationship check of the processor gives no error at
    all, and the whole validation ends with an empty error list, where
    the claim expects one error about success. *)
Lemma removed_connection_no_error :
  (connections_map <- build_connections_map unrouted_plan ;;
   check_relationships sample_builtins [JStr "success"; JStr "failure"]
     (processor "p1" "T" [] [JStr "failure"]) (JStr "p1") connections_map)%res = Ok []
  /\ errors (snd (validate_processor_configuration sample_builtins without_oracle
                    two_relationships (holding unrouted_plan))) = [].
Proof. split; vm_compute; reflexivity. Qed.

(** ** The sandbox validator: what each step does to the trace *)

Lemma same_refl : forall v, same v v = true.
Proof.
  fix IH 1. intros [| b | z | q | s | l | kvs]; simpl.
  - reflexivity.
  - apply Bool.eqb_reflx.
  - apply Z.eqb_refl.
  - now rewrite Z.eqb_refl, Pos.eqb_refl.
  - apply String.eqb_refl.
  - induction l as [|x l IHl]; [reflexivity|]. now rewrite (IH x), IHl.
  - induction kvs as [|[k x] kvs IHk]; [reflexivity|].
    now rewrite String.eqb_refl, (IH x), IHk.
Qed.

Section Sandbox.

Variable bi : Builtins.
Variable cfg : Config.
Variable env : Env.

Lemma resolve_validation_spec pc errs descs st :
  let reply := llm_reply env (count_events is_llm st) in
  let call := resolve_validation_errors_with_llm bi cfg env pc errs descs st in
  (env_truthy (gemini_api_key cfg) = false /\ call = (Ok None, st))
  \/ (exists e, call = (Raise e, st))
  \/ (exists ctx,
        env_truthy (gemini_api_key cfg) = true
        /\ call = (Ok (config_fix bi reply), log (EvLLM (ConfigRepair pc ctx) reply) st)).
Proof.
  intros reply call. subst call. unfold resolve_validation_errors_with_llm.
  destruct (env_truthy (gemini_api_key cfg)) eqn:K; simpl; [|now left].
  right. unfold bind at 1, lift at 1.
  destruct (rmap (error_context_entry descs) errs) as [ctx|e]; [|left; now exists e].
  right. exists ctx. split; [reflexivity|].
  unfold bind, generate_content, get, modify, ret. simpl. fold reply.
  unfold config_fix, parsed.
  destruct reply as [|text]; [reflexivity|].
  destruct (json_loads bi (unfence text)) as [[| | | | | |kvs]|]; try reflexivity.
  destruct (truthy _), (truthy _); reflexivity.
Qed.

Lemma resolve_scheduling_spec sc msg st :
  let reply := llm_reply env (count_events is_llm st) in
  let call := resolve_scheduling_errors_with_llm bi cfg env sc msg st in
  (env_truthy (gemini_api_key cfg) = false /\ call = (Ok None, st))
  \/ (env_truthy (gemini_api_key cfg) = true
      /\ call = (Ok (scheduling_fix bi reply),
                 log (EvLLM (SchedulingRepair sc msg) reply) st)).
Proof.
  intros reply call. subst call. unfold resolve_scheduling_errors_with_llm.
  destruct (env_truthy (gemini_api_key cfg)) eqn:K; simpl; [|now left].
  right. split; [reflexivity|].
  unfold bind, generate_content, get, modify, ret. simpl. fold reply.
  unfold scheduling_fix, parsed.
  destruct reply as [|text]; [reflexivity|].
  destruct (json_loads bi (unfence text)) as [[| | | | | |kvs]|]; try reflexivity.
  simpl. now destruct (lookup "scheduling" kvs).
Qed.

(** *** Inspection *)

Ltac quiet_steps :=
  repeat match goal with
         | |- quiet (ret _) => apply quiet_ret
         | |- quiet get => apply quiet_get
         | |- quiet (modify _) => apply quiet_modify
         | |- quiet (when _ _) => apply quiet_when
         | |- quiet (for_each _ _) => apply quiet_for_each; intro; cbv beta
         | |- quiet (bind _ _) => apply quiet_bind; [|intro]
         | |- quiet (lift _) => apply quiet_lift
         | |- quiet (match ?x with _ => _ end) => destruct x
         | |- quiet (let _ := _ in _) => cbv zeta
         end.

Lemma pure_has_descriptors c : pure (has_descriptors c).
Proof. unfold has_descriptors. pure_cases; auto with pure. Qed.

Lemma pure_get_descriptors c : pure (get_descriptors c).
Proof. unfold get_descriptors. pure_cases; auto with pure. Qed.

Lemma pure_single_choice v : pure (single_choice v).
Proof. unfold single_choice. pure_cases; auto with pure. Qed.

Lemma pure_flag_dynamic_properties keys : forall loc,
  pure (flag_dynamic_properties keys loc).
Proof.
  induction keys as [|k keys IH]; intros loc; simpl; [apply pure_ok|].
  pure_cases; apply IH.
Qed.

Lemma pure_cleanup_dynamic_properties index c d loc :
  pure (cleanup_dynamic_properties index c d loc).
Proof.
  unfold cleanup_dynamic_properties.
  pure_cases; auto using pure_has_descriptors, pure_get_descriptors,
    pure_flag_dynamic_properties with pure.
Qed.

Lemma pure_filter_errors l : pure (filter_errors l).
Proof.
  induction l as [|x l IH]; simpl; [apply pure_ok|].
  destruct x; try (intros ?; discriminate).
  apply pure_rbind; [exact IH|]. intros. pure_cases.
Qed.

Lemma pure_check_errors c : pure (check_errors c).
Proof. unfold check_errors. pure_cases; auto using pure_filter_errors with pure. Qed.

Lemma pure_add_names l : forall s, pure (add_names s l).
Proof.
  induction l as [|x l IH]; intros s; simpl; [apply pure_ok|].
  pure_cases; auto with pure.
Qed.

Lemma pure_available_relationships c : pure (available_relationships c).
Proof. unfold available_relationships. pure_cases; auto using pure_add_names with pure. Qed.

Lemma pure_check_relationships a p i m : pure (check_relationships bi a p i m).
Proof. unfold check_relationships. pure_cases; auto with pure. Qed.

Lemma pure_first_allowable_value v : pure (first_allowable_value v).
Proof. unfold first_allowable_value. pure_cases; auto with pure. Qed.

Lemma quiet_inspect index p_name p_id had cm loc proc_data :
  quiet (inspect bi index p_name p_id had cm loc proc_data).
Proof.
  unfold inspect, auto_correct, auto_correct_descriptor, auto_correct_property.
  quiet_steps;
    try match goal with |- pure (if ?b then _ else _) => destruct b end;
    auto using pure_has_descriptors, pure_get_descriptors, pure_single_choice,
      pure_cleanup_dynamic_properties, pure_check_errors, pure_first_allowable_value,
      pure_available_relationships, pure_check_relationships with pure.
Qed.

Lemma inspect_same_trace index p_name p_id had cm loc proc_data :
  preserves same_trace (inspect bi index p_name p_id had cm loc proc_data).
Proof.
  unfold inspect, auto_correct, auto_correct_descriptor, auto_correct_property.
  preserve_with same_trace_refl same_trace_trans; reflexivity.
Qed.

(** What the rewrite of one single-choice property does: it raises
    before touching anything, or finds a value in place that [==] the
    single value and does nothing, or writes the value into the
    processor's properties (a new dict if the processor had none) and
    sets the dirty flag. *)
Lemma auto_correct_property_spec index had prop_name av st :
  let step := auto_correct_property index had prop_name av st in
  (exists e, step = (Raise e, st))
  \/ (exists v kvs current,
        step = (Ok tt, st)
        /\ first_allowable_value av = Ok v
        /\ processor_at index (data st) = Ok (JObj kvs)
        /\ (if had
            then py_get (match lookup "properties" kvs with
                         | Some x => x
                         | None => JObj []
                         end) prop_name JNull
            else Ok JNull) = Ok current
        /\ py_eq current v = true)
  \/ (exists v kvs st',
        step = (Ok tt, st')
        /\ first_allowable_value av = Ok v
        /\ processor_at index (data st) = Ok (JObj kvs)
        /\ processor_at index (data st')
           = Ok (JObj (setitem "properties"
                         (JObj (setitem prop_name v (properties_of kvs))) kvs))
        /\ changes_made st' = true
        /\ trace st' = trace st /\ errors st' = errors st).
Proof.
  intros step. destruct step as [r st'] eqn:H. subst step.
  unfold auto_correct_property in H.
  unfold bind, lift, get, modify, ret, when in H. simpl in H.
  destruct (first_allowable_value av) as [v|e]; [|left; exists e; congruence].
  destruct (processor_at index (data st)) as [processor|e] eqn:Hp;
    [|left; exists e; congruence].
  destruct processor as [| | | | | |kvs]; simpl in H;
    try (left; eexists; symmetry; exact H).
  assert (Hnow : (match lookup "properties" kvs with
                  | Some x => Ok x | None => Ok (JObj [])
                  end)
                 = Ok (match lookup "properties" kvs with
                       | Some x => x | None => JObj []
                       end)).
  { now destruct (lookup "properties" kvs). }
  rewrite Hnow in H. clear Hnow.
  destruct (if had then py_get _ prop_name JNull else Ok JNull) as [current|e] eqn:Hcur;
    [|left; exists e; congruence].
  destruct (negb (py_eq current v)) eqn:Hne.
  2:{ right. left. exists v, kvs, current. unfold ret in H. apply negb_false_iff in Hne.
      split; [congruence|]. now repeat split. }
  unfold has_key in H.
  destruct (lookup "properties" kvs) as [pv|] eqn:Hl; simpl in H.
  - unfold ret in H. rewrite Hp in H. simpl in H. rewrite Hl in H.
    destruct pv as [| | | | | |items]; simpl in H;
      try (left; eexists; symmetry; exact H).
    right. right. exists v, kvs, st'. injection H as <- <-.
    split; [reflexivity|]. split; [reflexivity|]. split; [reflexivity|]. simpl.
    split; [|now repeat split].
    rewrite (processor_at_assign _ _ _ _ _ Hp). unfold properties_of. now rewrite Hl.
  - rewrite (processor_at_assign _ "properties" (JObj []) _ _ Hp) in H.
    simpl in H. rewrite lookup_setitem_same in H. simpl in H.
    right. right. exists v, kvs, st'. injection H as <- <-.
    split; [reflexivity|]. split; [reflexivity|]. split; [reflexivity|]. simpl.
    split; [|now repeat split].
    rewrite (processor_at_assign _ _ _ _ _
               (processor_at_assign _ "properties" (JObj []) _ _ Hp)).
    rewrite setitem_setitem. unfold properties_of. now rewrite Hl.
Qed.

Lemma auto_correct_property_flagged index had prop_name av :
  preserves flagged (auto_correct_property index had prop_name av).
Proof.
  intros st.
  destruct (auto_correct_property_spec index had prop_name av st)
    as [[e H]|[(v & kvs & cur & H & _)|(v & kvs & st' & H & _ & _ & _ & Hc & _)]];
    rewrite H; simpl.
  - apply flagged_refl.
  - apply flagged_refl.
  - now left.
Qed.

Lemma inspect_flagged index p_name p_id had cm loc proc_data :
  preserves flagged (inspect bi index p_name p_id had cm loc proc_data).
Proof.
  unfold inspect, auto_correct, auto_correct_descriptor.
  repeat match goal with
         | |- preserves _ (auto_correct_property _ _ _ _) =>
             apply auto_correct_property_flagged
         | _ => progress preserve_with flagged_refl flagged_trans
         end.
Qed.

(** The instance the inspection names is the one the answer reports. *)
Lemma inspect_id index p_name p_id had cm loc proc_data st i st' :
  inspect bi index p_name p_id had cm loc proc_data st = (Ok i, st') ->
  reported_id (Ok proc_data) = Some (proc_id i).
Proof.
  unfold inspect. unfold bind at 1 2 3 4, lift at 1 2 3 4. unfold reported_id, rbind.
  destruct (py_getitem proc_data "component") as [component|]; [|discriminate].
  destruct (py_getitem component "id") as [the_id|]; [|discriminate].
  destruct (py_getitem proc_data "revision") as [revision|]; [|discriminate].
  destruct (py_getitem revision "version") as [version|]; [|discriminate].
  unfold bind.
  repeat match goal with
         | |- context [match ?x with _ => _ end] => destruct x; simpl
         end; try discriminate.
  all: unfold ret; intros H; injection H as <- _; reflexivity.
Qed.

(** *** Deletion and what follows *)

Lemma delete_processor_spec the_id version proc_data st :
  let step := delete_processor env the_id version proc_data st in
  (exists e, step = (Raise e, st) /\ pure (@Raise unit e))
  \/ (exists c,
        step = (Ok tt, log (EvDelete the_id version c
                              (delete_reply env (count_events is_delete st))) st)).
Proof.
  intros step. subst step. unfold delete_processor, bind, lift, get, modify.
  pose proof (pure_py_getitem proc_data "revision") as P1.
  destruct (py_getitem proc_data "revision") as [revision|e];
    [|left; exists e; split; [reflexivity|]; intros msg Hm; apply (P1 msg); congruence].
  pose proof (pure_py_get revision "clientId" JNull) as P2.
  destruct (py_get revision "clientId" JNull) as [client_id|e];
    [|left; exists e; split; [reflexivity|]; intros msg Hm; apply (P2 msg); congruence].
  right. eexists. reflexivity.
Qed.

Lemma config_fix_some reply f :
  config_fix bi reply = Some f -> exists kvs, f = JObj kvs /\ truthy f = true.
Proof.
  unfold config_fix. destruct (parsed bi reply) as [[| | | | | |kvs]|]; try discriminate.
  destruct (_ || _) eqn:E; [|discriminate].
  intros H. injection H as <-. exists kvs. split; [reflexivity|].
  destruct kvs; [discriminate|reflexivity].
Qed.

Lemma after_delete_decided index p_name p_type retry_count proc_data i st r st' :
  after_delete bi cfg env index p_name p_type retry_count proc_data i st = (r, st') ->
  exists tail, trace st' = trace st ++ tail
               /\ decided bi (budget_left cfg retry_count) tail r.
Proof.
  unfold after_delete. intros H.
  assert (Stop : forall s, (modify (fun st => set_errors (errors st ++ insp_all i) st) ;;;
                            ret Break) s = (r, st') ->
                 trace s = trace st ++ [] \/ (exists e, trace s = trace st ++ [e]
                    /\ is_llm e = true /\ accepted bi e = false) ->
                 exists tail, trace st' = trace st ++ tail
                              /\ decided bi (budget_left cfg retry_count) tail r).
  { intros s Hs Ht. unfold bind, modify, ret in Hs. injection Hs as <- <-. simpl.
    destruct Ht as [Ht|(e & Ht & L & Acc)].
    - exists []. split; [exact Ht|]. right. left. split; [reflexivity|now left].
    - exists [e]. split; [exact Ht|]. right. left. split; [reflexivity|].
      right. now exists e. }
  destruct (insp_all i) as [|err errs].
  { unfold ret in H. injection H as <- <-. exists []. rewrite app_nil_r.
    split; [reflexivity|]. right. left. split; [reflexivity|now left]. }
  destruct (_ && _ && _) eqn:Cond.
  2:{ apply (Stop st H). left. now rewrite app_nil_r. }
  assert (Budget : budget_left cfg retry_count).
  { apply andb_true_iff in Cond as [Cond _]. apply andb_true_iff in Cond as [C1 C2].
    split; [now apply Z.ltb_lt|exact C2]. }
  unfold bind at 1, lift at 1 in H.
  destruct (py_getitem proc_data "component") as [component|e].
  2:{ injection H as <- <-. exists []. rewrite app_nil_r. split; [reflexivity|].
      right. right. left. split; [reflexivity|now exists e]. }
  unfold bind at 1, lift at 1 in H.
  destruct (get_descriptors component) as [descriptors|e].
  2:{ injection H as <- <-. exists []. rewrite app_nil_r. split; [reflexivity|].
      right. right. left. split; [reflexivity|now exists e]. }
  unfold bind at 1 in H.
  destruct (print_lines_cases bi "- " (insp_filtered i ++ insp_relationship i) st)
    as [E|E]; rewrite E in H; clear E.
  2:{ injection H as <- <-. exists []. rewrite app_nil_r. split; [reflexivity|].
      right. right. left. split; [reflexivity|now exists MarkupError]. }
  unfold bind at 1, get at 1 in H. unfold bind at 1, lift at 1 in H.
  destruct (processor_at index (data st)) as [current|e].
  2:{ injection H as <- <-. exists []. rewrite app_nil_r. split; [reflexivity|].
      right. right. left. split; [reflexivity|now exists e]. }
  unfold bind at 1 in H.
  destruct (resolve_validation_spec current (insp_filtered i ++ insp_relationship i)
              descriptors st) as [[K E]|[[e E]|(ctx & K & E)]];
    rewrite E in H; clear E.
  - apply (Stop st H). left. now rewrite app_nil_r.
  - injection H as <- <-. exists []. rewrite app_nil_r. split; [reflexivity|].
    right. right. left. split; [reflexivity|now exists e].
  - set (reply := llm_reply env (count_events is_llm st)) in *.
    set (e := EvLLM (ConfigRepair current ctx) reply) in *.
    assert (Acc : config_fix bi reply <> None -> accepted bi e = true).
    { intros Hn. unfold e. simpl. now destruct (config_fix bi reply). }
    destruct (config_fix bi reply) as [f|] eqn:Ef.
    + destruct (config_fix_some reply f Ef) as (kvs & -> & Tr). rewrite Tr in H.
      specialize (Acc ltac:(discriminate)).
      unfold bind at 1 in H.
      destruct (console_print_cases bi (config_applied_text bi p_name p_type) (log e st))
        as [E|E]; rewrite E in H; clear E.
      2:{ injection H as <- <-. exists [e]. split; [reflexivity|].
          right. right. right. split; [reflexivity|]. split; [exact Budget|].
          exists e. now repeat split. }
      unfold bind, lift, py_contains, py_getitem, has_key, when, modify, ret in H.
      exists [e]. split.
      * destruct (lookup "properties" kvs), (lookup "auto_terminated_relationships" kvs);
          injection H as <- <-; reflexivity.
      * left. split; [|split; [exact Budget|]].
        -- destruct (lookup "properties" kvs), (lookup "auto_terminated_relationships" kvs);
             injection H as <- <-; reflexivity.
        -- exists e. now repeat split.
    + apply (Stop _ H). right. exists e. split; [reflexivity|].
      split; [reflexivity|]. unfold e. simpl. now rewrite Ef.
Qed.

Lemma creation_refused_decided index p_name retry_count status_code error_text st r st' :
  creation_refused bi cfg env index p_name retry_count status_code error_text st = (r, st') ->
  exists tail, trace st' = trace st ++ tail
               /\ decided bi (budget_left cfg retry_count) tail r.
Proof.
  unfold creation_refused. intros H.
  set (stop := append_error _ ;;; ret Break) in H.
  assert (Stop : forall s, stop s = (r, st') ->
                 trace s = trace st ++ [] \/ (exists e, trace s = trace st ++ [e]
                    /\ is_llm e = true /\ accepted bi e = false) ->
                 exists tail, trace st' = trace st ++ tail
                              /\ decided bi (budget_left cfg retry_count) tail r).
  { intros s Hs Ht. unfold stop, bind, append_error, modify, ret in Hs.
    injection Hs as <- <-. simpl.
    destruct Ht as [Ht|(e & Ht & L & Acc)].
    - exists []. split; [exact Ht|]. right. left. split; [reflexivity|now left].
    - exists [e]. split; [exact Ht|]. right. left. split; [reflexivity|].
      right. now exists e. }
  destruct (scheduling_refusal status_code error_text).
  2:{ apply (Stop st H). left. now rewrite app_nil_r. }
  destruct (_ && _) eqn:Cond.
  2:{ apply (Stop st H). left. now rewrite app_nil_r. }
  assert (Budget : budget_left cfg retry_count).
  { apply andb_true_iff in Cond as [C1 C2]. split; [now apply Z.ltb_lt|exact C2]. }
  unfold bind at 1 in H.
  destruct (console_print_cases bi (scheduling_error_text error_text) st)
    as [E|E]; rewrite E in H; clear E.
  2:{ injection H as <- <-. exists []. rewrite app_nil_r. split; [reflexivity|].
      right. right. left. split; [reflexivity|now exists MarkupError]. }
  unfold bind at 1, get at 1 in H. unfold bind at 1, lift at 1 in H.
  destruct (processor_at index (data st)) as [current|e].
  2:{ injection H as <- <-. exists []. rewrite app_nil_r. split; [reflexivity|].
      right. right. left. split; [reflexivity|now exists e]. }
  unfold bind at 1, lift at 1 in H.
  destruct (py_get current "scheduling" (JObj [])) as [sc|e].
  2:{ injection H as <- <-. exists []. rewrite app_nil_r. split; [reflexivity|].
      right. right. left. split; [reflexivity|now exists e]. }
  unfold bind at 1 in H.
  destruct (resolve_scheduling_spec sc error_text st) as [[K E]|[K E]];
    rewrite E in H; clear E.
  - apply (Stop st H). left. now rewrite app_nil_r.
  - set (reply := llm_reply env (count_events is_llm st)) in *.
    set (e := EvLLM (SchedulingRepair sc error_text) reply) in *.
    assert (Acc : accepted bi e = match scheduling_fix bi reply with
                                  | Some v => truthy v | None => false end)
      by reflexivity.
    destruct (scheduling_fix bi reply) as [v|].
    + destruct (truthy v).
      * unfold bind at 1 in H.
        destruct (console_print_cases bi (scheduling_applied_text bi p_name) (log e st))
          as [E|E]; rewrite E in H; clear E.
        2:{ injection H as <- <-. exists [e]. split; [reflexivity|].
            right. right. right. split; [reflexivity|]. split; [exact Budget|].
            exists e. now repeat split. }
        unfold bind, modify, ret in H. injection H as <- <-.
        exists [e]. split; [reflexivity|]. left. split; [reflexivity|].
        split; [exact Budget|]. exists e. now repeat split.
      * apply (Stop _ H). right. exists e. now repeat split.
    + apply (Stop _ H). right. exists e. now repeat split.
Qed.

(** *** One turn of the loop *)

(** A [RequestException] out of the decision ends the turn as a stop
    without any oracle call. *)
Lemma decided_handled budget tail msg x :
  decided bi budget tail (Raise (RequestException msg)) ->
  tail = [] /\ decided bi budget tail (@ctl_of Locals (Ok (Break, x))).
Proof.
  intros [[H _]|[[H _]|[[H _]|[H _]]]]; try discriminate.
  split; [exact H|]. right. left. split; [reflexivity|now left].
Qed.

Lemma attempt_shape index p_name p_type p_id cm retry_count loc st r st' :
  attempt bi cfg env index p_name p_type p_id cm retry_count loc st = (r, st') ->
  exists evs, trace st' = trace st ++ evs
              /\ turn_shape bi env (budget_left cfg retry_count) loc evs r.
Proof.
  unfold attempt. intros H.
  unfold bind at 1, get at 1 in H. unfold bind at 1, lift at 1 in H.
  destruct (prepare_payload bi index p_name p_type (data st)) as [payload|e].
  2:{ injection H as <- <-. exists []. rewrite app_nil_r. split; [reflexivity|].
      left. split; [reflexivity|now exists e]. }
  unfold bind at 1, lift at 1 in H.
  destruct (processor_at index (data st)) as [current|e].
  2:{ injection H as <- <-. exists []. rewrite app_nil_r. split; [reflexivity|].
      left. split; [reflexivity|now exists e]. }
  unfold bind at 1, lift at 1 in H.
  destruct (py_contains "properties" current) as [had|e].
  2:{ injection H as <- <-. exists []. rewrite app_nil_r. split; [reflexivity|].
      left. split; [reflexivity|now exists e]. }
  unfold try_request, attempt_body in H.
  unfold bind at 1, get at 1 in H. unfold bind at 1, modify at 1 in H.
  set (reply := post_reply env (count_events is_post st)) in *.
  set (st1 := log (EvPost payload reply) st) in *.
  assert (Handler : forall msg s,
            (append_error ("Processor[" ++ str_of_nat index ++ "] '" ++ fmt bi p_name
                           ++ "': NiFi API error during sandbox validation: " ++ msg) ;;;
             ret (Break, loc)) s = (r, st') ->
            r = Ok (Break, loc) /\ trace st' = trace s).
  { intros msg s Hs. unfold bind, append_error, modify, ret in Hs.
    injection Hs as <- <-. now split. }
  destruct reply as [msg|status_code text body] eqn:Er.
  { (* the request raised *)
    unfold raise in H. apply Handler in H. destruct H as [-> Ht].
    exists [EvPost payload (PostRaises msg)]. split; [exact Ht|].
    right. exists payload, (count_events is_post st), []. fold reply. rewrite Er.
    split; [reflexivity|]. left. split; [reflexivity|].
    right. left. split; [reflexivity|now left]. }
  destruct (status_code =? 201) eqn:Es; cbn [negb] in H; cbv iota beta in H.
  - (* created *)
    apply Z.eqb_eq in Es. subst status_code.
    unfold bind at 1, lift at 1 in H.
    destruct body as [proc_data|e].
    2:{ destruct e as [| | | | | | | |msg]; try (injection H as <- <-;
          exists [EvPost payload reply]; rewrite Er; split; [reflexivity|];
          right; exists payload, (count_events is_post st), []; fold reply; rewrite Er;
          split; [reflexivity|]; right; left; eexists; split; [reflexivity|];
          split; [reflexivity|]; eexists; reflexivity).
        apply Handler in H. destruct H as [-> Ht].
        exists [EvPost payload reply]. rewrite Er. split; [exact Ht|].
        right. exists payload, (count_events is_post st), []. fold reply. rewrite Er.
        split; [reflexivity|]. right. right. left. exists text, msg. now repeat split. }
    unfold bind at 1 in H.
    destruct (inspect bi index p_name p_id had cm loc proc_data st1) as [ri st2] eqn:Hi.
    pose proof (inspect_same_trace index p_name p_id had cm loc proc_data st1) as Tr.
    pose proof (quiet_inspect index p_name p_id had cm loc proc_data st1) as Qi.
    rewrite Hi in Tr, Qi. simpl in Tr, Qi. unfold same_trace in Tr.
    destruct ri as [i|e].
    2:{ destruct e as [| | | | | | | |msg]; try (injection H as <- <-;
          exists [EvPost payload reply]; rewrite Er; split; [exact Tr|];
          right; exists payload, (count_events is_post st), []; fold reply; rewrite Er;
          split; [reflexivity|]; right; left; eexists; split; [reflexivity|];
          split; [reflexivity|]; eexists; reflexivity).
        exfalso. exact (Qi msg eq_refl). }
    pose proof (inspect_id _ _ _ _ _ _ _ _ _ _ Hi) as Hid.
    unfold bind at 1 in H.
    destruct (delete_processor_spec (proc_id i) (proc_revision i) proc_data st2)
      as [(e & E & P)|[c E]]; rewrite E in H; clear E.
    { destruct e as [| | | | | | | |msg]; try (injection H as <- <-;
          exists [EvPost payload reply]; rewrite Er; split; [exact Tr|];
          right; exists payload, (count_events is_post st), []; fold reply; rewrite Er;
          split; [reflexivity|]; right; left; eexists; split; [reflexivity|];
          split; [reflexivity|]; eexists; reflexivity).
      exfalso. exact (P msg eq_refl). }
    set (del := EvDelete (proc_id i) (proc_revision i) c
                  (delete_reply env (count_events is_delete st2))) in *.
    unfold bind at 1 in H.
    destruct (after_delete bi cfg env index p_name p_type retry_count proc_data i
                (log del st2)) as [rc st3] eqn:Ha.
    destruct (after_delete_decided _ _ _ _ _ _ _ _ _ Ha) as (tail & Ht & D).
    simpl in Ht. rewrite Tr in Ht. unfold st1 in Ht. simpl in Ht.
    assert (Shape : forall r0, decided bi (budget_left cfg retry_count) tail (ctl_of r0) ->
              turn_shape bi env (budget_left cfg retry_count) loc
                (EvPost payload reply :: del :: tail) r0).
    { intros r0 D0. right. exists payload, (count_events is_post st), (del :: tail).
      fold reply. split; [reflexivity|]. right. right. right.
      exists (proc_id i), (proc_revision i), c, (count_events is_delete st2), tail.
      rewrite Er. unfold created_instance. change (201 =? 201) with true. cbv iota.
      rewrite Hid. now repeat split. }
    destruct rc as [ctl|e].
    + unfold ret in H. injection H as <- <-.
      exists (EvPost payload reply :: del :: tail). split.
      * rewrite Ht, Er. now rewrite <- !app_assoc.
      * apply Shape. exact D.
    + destruct e as [| | | | | | | |msg]; try (injection H as <- <-;
        exists (EvPost payload reply :: del :: tail); split;
        [rewrite Ht, Er; now rewrite <- !app_assoc|apply Shape; exact D]).
      apply Handler in H. destruct H as [-> Ht'].
      destruct (decided_handled _ tail msg loc D) as [-> D'].
      exists (EvPost payload reply :: del :: []). split.
      * rewrite Ht', Ht, Er. now rewrite <- !app_assoc.
      * apply Shape. exact D'.
  - (* refused *)
    unfold bind at 1 in H.
    destruct (creation_refused bi cfg env index p_name retry_count status_code text st1)
      as [rc st2] eqn:Hc.
    destruct (creation_refused_decided _ _ _ _ _ _ _ _ Hc) as (tail & Ht & D).
    unfold st1 in Ht. simpl in Ht.
    assert (Shape : forall r0, decided bi (budget_left cfg retry_count) tail (ctl_of r0) ->
              turn_shape bi env (budget_left cfg retry_count) loc
                (EvPost payload reply :: tail) r0).
    { intros r0 D0. right. exists payload, (count_events is_post st), tail.
      fold reply. split; [reflexivity|]. left. rewrite Er. simpl. rewrite Es.
      now split. }
    destruct rc as [ctl|e].
    + unfold ret in H. injection H as <- <-.
      exists (EvPost payload reply :: tail). split.
      * rewrite Ht, Er. now rewrite <- !app_assoc.
      * apply Shape. exact D.
    + destruct e as [| | | | | | | |msg]; try (injection H as <- <-;
        exists (EvPost payload reply :: tail); split;
        [rewrite Ht, Er; now rewrite <- !app_assoc|apply Shape; exact D]).
      apply Handler in H. destruct H as [-> Ht'].
      destruct (decided_handled _ tail msg loc D) as [-> D'].
      exists (EvPost payload reply :: []). split.
      * rewrite Ht', Ht, Er. now rewrite <- !app_assoc.
      * apply Shape. exact D'.
Qed.

End Sandbox.

(** ** Counting requests *)

Lemma posts_app a b : posts (a ++ b) = (posts a + posts b)%nat.
Proof. unfold posts. now rewrite filter_app, length_app. Qed.

Lemma accepted_calls_app bi a b :
  accepted_calls bi (a ++ b) = (accepted_calls bi a + accepted_calls bi b)%nat.
Proof. unfold accepted_calls. now rewrite filter_app, length_app. Qed.

Lemma outstanding_app counts a : forall b p,
  outstanding counts (a ++ b) p = outstanding counts b (outstanding counts a p).
Proof.
  induction a as [|e a IH]; intros b p; simpl; [reflexivity|].
  destruct e; apply IH.
Qed.

Lemma deleted_at_once_app counts a : forall b,
  deleted_at_once counts a = true -> deleted_at_once counts b = true ->
  deleted_at_once counts (a ++ b) = true.
Proof.
  induction a as [|e a IH]; intros b Ha Hb; [exact Hb|].
  destruct e as [r|payload reply|id v c r|q r|d|content r];
    try (simpl in *; apply IH; assumption).
  cbn [app deleted_at_once] in *.
  destruct (created_instance reply); [|apply IH; assumption].
  destruct a as [|[r|payload' reply'|id v c r|q r|d|content r] a']; try discriminate.
  cbn [app] in *.
  apply andb_true_iff in Ha as [H1 H2]. rewrite H1. cbn [andb].
  now apply IH.
Qed.

Lemma tidy_nil counts : tidy counts [].
Proof. now split. Qed.

Lemma tidy_app counts a b : tidy counts a -> tidy counts b -> tidy counts (a ++ b).
Proof.
  intros [A1 A2] [B1 B2]. split; [now apply deleted_at_once_app|].
  now rewrite outstanding_app, A2.
Qed.

Lemma cleaned_refl counts st : cleaned counts st st.
Proof. exists []. split; [now rewrite app_nil_r|apply tidy_nil]. Qed.

Lemma cleaned_trans counts a b c :
  cleaned counts a b -> cleaned counts b c -> cleaned counts a c.
Proof.
  intros (e1 & T1 & C1) (e2 & T2 & C2). exists (e1 ++ e2).
  split; [rewrite T2, T1; now rewrite app_assoc|now apply tidy_app].
Qed.

(** What a decision adds: oracle calls only. *)
Lemma decided_facts bi budget counts tail r :
  decided bi budget tail r ->
  posts tail = 0%nat
  /\ (forall p, outstanding counts tail p = p)
  /\ deleted_at_once counts tail = true
  /\ match r with
     | Ok Continue => budget /\ accepted_calls bi tail = 1%nat
     | Ok Break => accepted_calls bi tail = 0%nat
     | Raise _ => tail = [] \/ budget
     end.
Proof.
  assert (L : forall e, is_llm e = true ->
            posts [e] = 0%nat /\ (forall p, outstanding counts [e] p = p)
            /\ deleted_at_once counts [e] = true).
  { intros [] He; try discriminate. now repeat split. }
  intros [(-> & B & e & -> & He & Ha)|[(-> & [->|(e & -> & He & Ha)])
         |[(-> & x & ->)|(-> & B & e & -> & He & Ha)]]].
  - destruct (L e He) as (L1 & L2 & L3).
    split; [exact L1|]. split; [exact L2|]. split; [exact L3|].
    split; [exact B|]. unfold accepted_calls. simpl. now rewrite Ha.
  - now repeat split.
  - destruct (L e He) as (L1 & L2 & L3).
    split; [exact L1|]. split; [exact L2|]. split; [exact L3|].
    unfold accepted_calls. simpl. now rewrite Ha.
  - repeat split. now left.
  - destruct (L e He) as (L1 & L2 & L3).
    split; [exact L1|]. split; [exact L2|]. split; [exact L3|]. now right.
Qed.

Section Turns.

Variable bi : Builtins.
Variable cfg : Config.
Variable env : Env.

(** A turn asks for at most one instance; a turn that ends normally asks
    for exactly one, and goes on exactly when the oracle's answer was
    accepted and the budget allowed it. *)
Lemma turn_count budget loc evs r :
  turn_shape bi env budget loc evs r ->
  (posts evs <= 1)%nat
  /\ ((exists x, r = Raise x) -> accepted_calls bi evs = 0%nat \/ budget)
  /\ forall c x, r = Ok (c, x) ->
       posts evs = 1%nat
       /\ match c with
          | Continue => budget /\ accepted_calls bi evs = 1%nat
          | Break => accepted_calls bi evs = 0%nat
          end.
Proof.
  intros [[-> [e ->]]|(payload & n & tail & -> & H)].
  { split; [auto|]. split; [now left|]. intros c x Hx. discriminate. }
  assert (D : forall t, decided bi budget t (ctl_of r) ->
            posts t = 0%nat /\
            ((exists x, r = Raise x) -> accepted_calls bi t = 0%nat \/ budget) /\
            forall c x, r = Ok (c, x) ->
              match c with
              | Continue => budget /\ accepted_calls bi t = 1%nat
              | Break => accepted_calls bi t = 0%nat
              end).
  { intros t Dt.
    destruct (decided_facts bi budget (fun _ => true) t _ Dt) as (P & _ & _ & M).
    split; [exact P|]. split.
    - intros [x ->]. simpl in M. destruct M as [->|B]; [now left|now right].
    - intros c x ->. exact M. }
  destruct H as [[_ Dt]|[(inst & _ & -> & e & ->)|[(text & msg & _ & -> & ->)
                 |(id & version & c0 & m & tail' & _ & -> & Dt)]]].
  - destruct (D tail Dt) as (P & R & M).
    change (posts (EvPost payload (post_reply env n) :: tail)) with (S (posts tail)).
    rewrite P. split; [auto|]. split; [exact R|].
    intros c x Hx. split; [reflexivity|]. exact (M c x Hx).
  - split; [auto|]. split; [now left|]. intros c x Hx. discriminate.
  - split; [auto|]. split; [now left|]. intros c x Hx. injection Hx as <- <-. now split.
  - destruct (D tail' Dt) as (P & R & M).
    change (posts (EvPost payload (post_reply env n)
                     :: EvDelete id version c0 (delete_reply env m) :: tail'))
      with (S (posts tail')). rewrite P. split; [auto|]. split; [exact R|].
    intros c x Hx. split; [reflexivity|]. exact (M c x Hx).
Qed.

(** The number of turns the loop takes. *)
Lemma attempts_count index p_name p_type p_id cm : forall remaining retry_count loc st r st',
  attempts bi cfg env remaining index p_name p_type p_id cm retry_count loc st = (r, st') ->
  max_attempts cfg <= Z.of_nat remaining + Z.of_nat retry_count ->
  exists evs,
    trace st' = trace st ++ evs
    /\ (posts evs <= remaining)%nat
    /\ (remaining = 0%nat -> evs = [])
    /\ (env_truthy (gemini_api_key cfg) = false -> accepted_calls bi evs = 0%nat)
    /\ ((exists x, r = Ok x) -> (1 <= remaining)%nat ->
        posts evs = (1 + accepted_calls bi evs)%nat).
Proof.
  induction remaining as [|n IH]; intros retry_count loc st r st' H Inv.
  { simpl in H. unfold ret in H. injection H as <- <-. exists []. rewrite app_nil_r.
    repeat split; auto. intros _ Hn. inversion Hn. }
  simpl in H. unfold bind in H.
  destruct (attempt bi cfg env index p_name p_type p_id cm retry_count loc st)
    as [r1 st1] eqn:Ha.
  destruct (attempt_shape _ _ _ _ _ _ _ _ _ _ _ _ _ Ha) as (evs1 & T1 & Sh).
  destruct (turn_count _ _ _ _ Sh) as (P1 & R1 & Ok1).
  destruct r1 as [[c loc1]|e].
  2:{ injection H as <- <-. exists evs1. split; [exact T1|]. split; [lia|].
      split; [discriminate|]. split.
      - intros K. destruct (R1 ltac:(now exists e)) as [A|[_ B]]; [exact A|congruence].
      - intros [x Hx]. discriminate. }
  destruct (Ok1 c loc1 eq_refl) as [P1' M].
  destruct c.
  - (* one more turn *)
    destruct M as [[B1 B2] A1].
    assert (Hmax : max_attempts cfg = max_retries cfg + 1).
    { unfold max_attempts. now rewrite B2. }
    destruct (IH (S retry_count) loc1 st1 r st' H ltac:(lia))
      as (evs2 & T2 & P2 & _ & K2 & E2).
    exists (evs1 ++ evs2). split; [rewrite T2, T1; now rewrite app_assoc|].
    rewrite posts_app, accepted_calls_app. split; [lia|]. split; [discriminate|]. split.
    + intros K. congruence.
    + intros Hx _. rewrite (E2 Hx ltac:(lia)). lia.
  - (* the loop stops *)
    unfold ret in H. injection H as <- <-. exists evs1. split; [exact T1|].
    split; [lia|]. split; [discriminate|]. split; [intros _; exact M|]. intros _ _. lia.
Qed.

(** What one processor adds to the trace. *)
Lemma validate_one_count cm index processor loc st r st' :
  validate_one bi cfg env cm index processor loc st = (r, st') ->
  exists evs,
    trace st' = trace st ++ evs
    /\ (posts evs <= Z.to_nat (max_attempts cfg))%nat
    /\ (max_attempts cfg <= 0 -> evs = [])
    /\ (env_truthy (gemini_api_key cfg) = false -> accepted_calls bi evs = 0%nat)
    /\ ((exists x, r = Ok x) -> 0 < max_attempts cfg ->
        posts evs = (1 + accepted_calls bi evs)%nat).
Proof.
  intros H.
  assert (Stop : forall e, (r, st') = (Raise e, st) ->
            exists evs,
              trace st' = trace st ++ evs
              /\ (posts evs <= Z.to_nat (max_attempts cfg))%nat
              /\ (max_attempts cfg <= 0 -> evs = [])
              /\ (env_truthy (gemini_api_key cfg) = false -> accepted_calls bi evs = 0%nat)
              /\ ((exists x, r = Ok x) -> 0 < max_attempts cfg ->
                  posts evs = (1 + accepted_calls bi evs)%nat)).
  { intros e He. injection He as -> ->. exists []. rewrite app_nil_r.
    split; [reflexivity|]. split; [apply Nat.le_0_l|]. split; [reflexivity|].
    split; [reflexivity|]. intros [x Hx]. discriminate. }
  unfold validate_one in H.
  unfold bind at 1, lift at 1 in H.
  destruct (py_get processor "name" _) as [p_name|e]; [|exact (Stop e (eq_sym H))].
  unfold bind at 1, lift at 1 in H.
  destruct (py_get processor "type" JNull) as [p_type|e]; [|exact (Stop e (eq_sym H))].
  unfold bind at 1, lift at 1 in H.
  destruct (py_get processor "id" JNull) as [p_id|e]; [|exact (Stop e (eq_sym H))].
  unfold bind at 1 in H.
  match type of H with
  | context [console_print bi ?t st] =>
      destruct (console_print_cases bi t st) as [E|E]; rewrite E in H; clear E
  end; [|exact (Stop _ (eq_sym H))].
  destruct (attempts_count _ _ _ _ _ _ _ _ _ _ _ H ltac:(lia))
    as (evs & T & P & Z0 & K & E).
  exists evs. split; [exact T|]. split; [exact P|]. split.
  - intros Hm. apply Z0. lia.
  - split; [exact K|]. intros Hx Hm. apply (E Hx). lia.
Qed.

(** C3, as amended: for every processor whose turn of the validation loop
    returns, the number of creation attempts follows from the budget,
    which is [max_retries + 1] with an oracle configured and one without.
    With a positive budget the engine makes one creation attempt, plus
    one for every oracle answer it accepted, and never more than the
    budget; without an oracle exactly one.  With a budget of zero or
    less, which a negative [max_retries] gives next to an oracle, it
    makes no attempt at all and asks nothing of the runtime or the
    oracle. *)
Theorem attempt_budget :
  forall (cm : vdict pyset) (index : nat) (processor : json) (loc loc' : Locals)
         (st st' : St),
    validate_one bi cfg env cm index processor loc st = (Ok loc', st') ->
    let made := (posts (trace st') - posts (trace st))%nat in
    let fixes := (accepted_calls bi (trace st') - accepted_calls bi (trace st))%nat in
    let budget := if env_truthy (gemini_api_key cfg) then max_retries cfg + 1 else 1 in
    Z.of_nat made <= Z.max 0 budget
    /\ (0 < budget -> made = (1 + fixes)%nat)
    /\ (budget <= 0 -> made = 0%nat /\ trace st' = trace st)
    /\ (env_truthy (gemini_api_key cfg) = false -> made = 1%nat).
Proof.
  intros cm index processor loc loc' st st' H made fixes budget.
  destruct (validate_one_count _ _ _ _ _ _ _ H) as (evs & T & P & Z0 & K & E).
  assert (Hm : made = posts evs).
  { unfold made. rewrite T, posts_app. lia. }
  assert (Hf : fixes = accepted_calls bi evs).
  { unfold fixes. rewrite T, accepted_calls_app. lia. }
  change budget with (max_attempts cfg). rewrite Hm, Hf.
  assert (Some_ok : exists x, Ok loc' = Ok x) by now exists loc'.
  split; [lia|]. split; [exact (E Some_ok)|]. split.
  - intros Hb. rewrite (Z0 Hb) in *. split; [reflexivity|]. now rewrite T, app_nil_r.
  - intros Hk. specialize (K Hk).
    rewrite (E Some_ok); [lia|]. unfold max_attempts. now rewrite Hk.
Qed.

End Turns.

Lemma attempt_budget_witness :
  exists loc' st',
    validate_one sample_builtins with_oracle (steady never_valid (LLMText mongo_fix_text))
      [] 0 (processor "p1" "T" [] [JStr "success"; JStr "failure"]) no_locals
      (holding mongo_plan) = (Ok loc', st')
    /\ (posts (trace st') - posts (trace (holding mongo_plan)) = 4)%nat
    /\ (posts (trace st') - posts (trace (holding mongo_plan))
        = 1 + (accepted_calls sample_builtins (trace st')
               - accepted_calls sample_builtins (trace (holding mongo_plan))))%nat.
Proof.
  run_as H (validate_one sample_builtins with_oracle
              (steady never_valid (LLMText mongo_fix_text))
              [] 0 (processor "p1" "T" [] [JStr "success"; JStr "failure"]) no_locals
              (holding mongo_plan)).
  do 2 eexists. split; [exact H|]. split; [vm_compute; reflexivity|].
  apply (attempt_budget sample_builtins with_oracle
           (steady never_valid (LLMText mongo_fix_text)) _ _ _ _ _ _ _ H).
  simpl. lia.
Defined.

(** With an oracle configured and three retries allowed, a processor the
    runtime never finds valid is attempted once, not four times, when the
    oracle has no fix to offer; its errors are recorded after that one
    attempt. *)
Lemma no_fix_single_attempt :
  let out := validate_processor_configuration sample_builtins with_oracle
               (steady never_valid LLMRaises) (holding mongo_plan) in
  fst out = Ok tt
  /\ posts (trace (snd out)) = 1%nat
  /\ max_retries with_oracle + 1 = 4
  /\ errors (snd out)
     = ["Processor[0] 'p1' Config Error: 'Mongo URI' is invalid because Mongo URI is required"].
Proof. repeat split; vm_compute; reflexivity. Qed.

(** With an oracle configured and a retry budget of minus two, the same
    processor is not attempted at all, and validation ends without an
    error. *)
Lemma negative_budget_no_attempt :
  let out := validate_processor_configuration sample_builtins below_zero
               (steady never_valid LLMRaises) (holding mongo_plan) in
  fst out = Ok tt
  /\ posts (trace (snd out)) = 0%nat
  /\ max_retries below_zero + 1 = -1
  /\ errors (snd out) = [].
Proof. repeat split; vm_compute; reflexivity. Qed.

(** C3, as stated, fails: a processor that never validates cleanly is
    attempted once when the oracle offers no fix, and not at all when the
    budget is below zero, where the claim counts [max_retries + 1]
    attempts, four and minus one. *)
Lemma attempts_fall_short :
  (let out := validate_processor_configuration sample_builtins with_oracle
                (steady never_valid LLMRaises) (holding mongo_plan) in
   fst out = Ok tt
   /\ posts (trace (snd out)) = 1%nat
   /\ max_retries with_oracle + 1 = 4
   /\ errors (snd out)
      = ["Processor[0] 'p1' Config Error: 'Mongo URI' is invalid because Mongo URI is required"])
  /\ (let out := validate_processor_configuration sample_builtins below_zero
                   (steady never_valid LLMRaises) (holding mongo_plan) in
      fst out = Ok tt
      /\ posts (trace (snd out)) = 0%nat
      /\ max_retries below_zero + 1 = -1
      /\ errors (snd out) = []).
Proof. split; [exact no_fix_single_attempt|exact negative_budget_no_attempt]. Qed.

(** ** Deleting what was created *)

Section Cleanup.

Variable bi : Builtins.
Variable cfg : Config.
Variable env : Env.

(** Which delete requests count, every answer of the runtime to a delete
    request being one that counts. *)
Variable counts : DeleteReply -> bool.
Hypothesis counts_all : forall n, counts (delete_reply env n) = true.

(** The body of every 201 answer can be read. *)
Hypothesis bodies_read :
  forall n text msg,
    post_reply env n <> PostResponse 201 text (Raise (RequestException msg)).

Lemma turn_clean budget loc evs x :
  turn_shape bi env budget loc evs (Ok x) -> tidy counts evs.
Proof.
  intros [[-> _]|(payload & n & tail & -> & H)]; [apply tidy_nil|].
  destruct H as [[Hn Dt]|[(inst & _ & _ & e & He)|[(text & msg & Hr & _)
                 |(id & version & c0 & m & tail' & Hc & -> & Dt)]]].
  - destruct (decided_facts bi budget counts tail _ Dt) as (_ & O & T & _).
    split; cbn [deleted_at_once outstanding]; rewrite Hn; [exact T|apply O].
  - discriminate.
  - exfalso. exact (bodies_read n text msg Hr).
  - destruct (decided_facts bi budget counts tail' _ Dt) as (_ & O & T & _).
    split; cbn [deleted_at_once outstanding]; rewrite Hc, counts_all.
    + cbn [is_instance]. rewrite same_refl. exact T.
    + cbn [app filter is_instance]. rewrite same_refl. cbn [negb]. apply O.
Qed.

Lemma attempts_clean index p_name p_type p_id cm : forall remaining retry_count loc st x st',
  attempts bi cfg env remaining index p_name p_type p_id cm retry_count loc st = (Ok x, st') ->
  cleaned counts st st'.
Proof.
  induction remaining as [|n IH]; intros retry_count loc st x st' H.
  { simpl in H. unfold ret in H. injection H as _ <-. apply cleaned_refl. }
  simpl in H. unfold bind in H.
  destruct (attempt bi cfg env index p_name p_type p_id cm retry_count loc st)
    as [r1 st1] eqn:Ha.
  destruct (attempt_shape _ _ _ _ _ _ _ _ _ _ _ _ _ Ha) as (evs1 & T1 & Sh).
  destruct r1 as [[c loc1]|e]; [|discriminate].
  assert (Clean1 : cleaned counts st st1).
  { exists evs1. split; [exact T1|exact (turn_clean _ _ _ _ Sh)]. }
  destruct c.
  - exact (cleaned_trans _ _ _ _ Clean1 (IH _ _ _ _ _ H)).
  - unfold ret in H. now injection H as _ <-.
Qed.

Lemma validate_one_clean cm index processor loc st x st' :
  validate_one bi cfg env cm index processor loc st = (Ok x, st') ->
  cleaned counts st st'.
Proof.
  intros Hv. unfold validate_one in Hv.
  unfold bind at 1, lift at 1 in Hv.
  destruct (py_get processor "name" _) as [p_name|]; [|discriminate].
  unfold bind at 1, lift at 1 in Hv.
  destruct (py_get processor "type" JNull) as [p_type|]; [|discriminate].
  unfold bind at 1, lift at 1 in Hv.
  destruct (py_get processor "id" JNull) as [p_id|]; [|discriminate].
  unfold bind at 1 in Hv.
  match type of Hv with
  | context [console_print bi ?t st] =>
      destruct (console_print_cases bi t st) as [E|E]; rewrite E in Hv; clear E
  end; [|discriminate].
  exact (attempts_clean _ _ _ _ _ _ _ _ _ _ _ Hv).
Qed.

Lemma validate_each_clean cm : forall l loc st x st',
  validate_each bi cfg env cm l loc st = (Ok x, st') ->
  cleaned counts st st'.
Proof.
  induction l as [|[index processor] l IH]; intros loc st x st' H.
  { simpl in H. unfold ret in H. injection H as _ <-. apply cleaned_refl. }
  simpl in H. unfold bind at 1 in H.
  destruct (validate_one bi cfg env cm index processor loc st) as [[loc1|e] st1] eqn:Hv;
    [|discriminate].
  exact (cleaned_trans _ _ _ _ (validate_one_clean _ _ _ _ _ _ _ Hv) (IH _ _ _ _ H)).
Qed.

Lemma validation_clean st st' :
  validate_processor_configuration bi cfg env st = (Ok tt, st') ->
  cleaned counts st st'.
Proof.
  unfold validate_processor_configuration. intros H.
  destruct (negb (env_truthy (sandbox_pg_id cfg))).
  { unfold append_error, modify in H. injection H as <-. exists [].
    split; [simpl; now rewrite app_nil_r|apply tidy_nil]. }
  unfold bind at 1, get at 1 in H. unfold bind at 1, lift at 1 in H.
  destruct (no_processors (data st)) as [[|]|]; try discriminate.
  { unfold ret in H. injection H as <-. apply cleaned_refl. }
  unfold bind at 1, lift at 1 in H.
  destruct (build_connections_map (data st)) as [cm|]; [|discriminate].
  unfold bind at 1, lift at 1 in H.
  destruct (py_getitem (data st) "plan_details") as [pd|]; [|discriminate].
  unfold bind at 1, lift at 1 in H.
  destruct (py_getitem pd "processors") as [ps|]; [|discriminate].
  unfold bind at 1, lift at 1 in H.
  destruct (py_iter ps) as [l|]; [|discriminate].
  unfold bind in H.
  destruct (validate_each bi cfg env cm (enumerate l) no_locals st) as [[loc|e] st1] eqn:Hv;
    [|discriminate].
  unfold ret in H. injection H as <-.
  exact (validate_each_clean _ _ _ _ _ _ Hv).
Qed.

End Cleanup.

(** C1, as amended: in every validation run that returns, and in which the
    body of every 201 answer can be read, each creation request that made
    a sandbox instance is followed at once, before anything else is asked
    of the runtime or the oracle, by a delete request for the id the
    answer reported: no instance is left without one, whether the
    processor validated, its errors were recorded, a fix was applied or
    the retry budget ran out.  If the runtime answers every delete
    request with 200, each instance is deleted at once and none is live
    afterwards. *)
Theorem created_instances_deleted :
  forall (bi : Builtins) (cfg : Config) (env : Env) (st st' : St),
    validate_processor_configuration bi cfg env st = (Ok tt, st') ->
    (forall n text msg,
        post_reply env n <> PostResponse 201 text (Raise (RequestException msg))) ->
    exists evs,
      trace st' = trace st ++ evs
      /\ deleted_at_once (fun _ => true) evs = true
      /\ (unrequested (trace st) = [] -> unrequested (trace st') = [])
      /\ ((forall n, delete_reply env n = DeleteResponse 200) ->
          deleted_at_once honoured evs = true
          /\ (live (trace st) = [] -> live (trace st') = [])).
Proof.
  intros bi cfg env st st' H Bodies.
  destruct (validation_clean bi cfg env (fun _ => true) (fun _ => eq_refl) Bodies st st' H)
    as (evs & T & D & O).
  exists evs. split; [exact T|]. split; [exact D|]. split.
  - intros U. unfold unrequested in *. now rewrite T, outstanding_app, U.
  - intros Hd.
    assert (Hc : forall n, honoured (delete_reply env n) = true)
      by (intros n; now rewrite Hd).
    destruct (validation_clean bi cfg env honoured Hc Bodies st st' H)
      as (evs' & T' & D' & O').
    assert (evs' = evs) by (rewrite T in T'; now apply app_inv_head in T').
    subst evs'. split; [exact D'|].
    intros L. unfold live in *. now rewrite T, outstanding_app, L.
Qed.

Lemma created_instances_deleted_witness :
  exists st' evs,
    validate_processor_configuration sample_builtins without_oracle two_relationships
      (holding routed_plan) = (Ok tt, st')
    /\ trace st' = evs
    /\ posts evs = 3%nat
    /\ deleted_at_once honoured evs = true
    /\ live (trace st') = [].
Proof.
  run_as H (validate_processor_configuration sample_builtins without_oracle
              two_relationships (holding routed_plan)).
  assert (B : forall n text msg,
             post_reply two_relationships n
             <> PostResponse 201 text (Raise (RequestException msg)))
    by (intros n text msg; discriminate).
  destruct (created_instances_deleted _ _ _ _ _ H B) as (evs & T & D & U & L).
  destruct (L (fun n => eq_refl)) as [Dh Lv].
  do 2 eexists. split; [exact H|]. split; [exact T|].
  split; [rewrite <- T; vm_compute; reflexivity|]. split; [exact Dh|exact (Lv eq_refl)].
Defined.

(** The plan lists a list where the name of an auto-terminated
    relationship should be; building the set of those names raises a
    [TypeError] while the created instance is being inspected, the
    exception leaves the method, and the run ends with the instance still
    in the runtime and no delete request made for it. *)
Lemma exception_leaves_instance :
  let out := validate_processor_configuration sample_builtins without_oracle
               two_relationships (holding nested_names_plan) in
  fst out = Raise TypeError
  /\ posts (trace (snd out)) = 1%nat
  /\ filter is_delete (trace (snd out)) = []
  /\ live (trace (snd out)) = [Some (JStr "sandbox-1")].
Proof. repeat split; vm_compute; reflexivity. Qed.

(** The runtime answers the creation request with 201 and a body that
    cannot be read; the error is recorded, validation returns, and the
    instance the runtime made is left without a delete request. *)
Lemma unread_answer_leaves_instance :
  let out := validate_processor_configuration sample_builtins without_oracle
               unreadable_answer (holding mongo_plan) in
  fst out = Ok tt
  /\ errors (snd out)
     = ["Processor[0] 'p1': NiFi API error during sandbox validation: Expecting value"]
  /\ map created_instance
       (flat_map (fun e => match e with EvPost _ reply => [reply] | _ => [] end)
          (trace (snd out))) = [Some None]
  /\ filter is_delete (trace (snd out)) = []
  /\ deleted_at_once (fun _ => true) (trace (snd out)) = false.
Proof. repeat split; vm_compute; reflexivity. Qed.

(** C1, as stated, fails: an exception raised while the created instance
    is inspected leaves the run with the instance in the runtime and no
    delete request made for it; and an answer to the creation request
    whose body cannot be read ends the turn with the error recorded and,
    again, no delete request. *)
Lemma instances_left_behind :
  (let out := validate_processor_configuration sample_builtins without_oracle
                two_relationships (holding nested_names_plan) in
   fst out = Raise TypeError
   /\ posts (trace (snd out)) = 1%nat
   /\ filter is_delete (trace (snd out)) = []
   /\ live (trace (snd out)) = [Some (JStr "sandbox-1")])
  /\ (let out := validate_processor_configuration sample_builtins without_oracle
                   unreadable_answer (holding mongo_plan) in
      fst out = Ok tt
      /\ errors (snd out)
         = ["Processor[0] 'p1': NiFi API error during sandbox validation: Expecting value"]
      /\ map created_instance
           (flat_map (fun e => match e with EvPost _ reply => [reply] | _ => [] end)
              (trace (snd out))) = [Some None]
      /\ filter is_delete (trace (snd out)) = []
      /\ deleted_at_once (fun _ => true) (trace (snd out)) = false).
Proof. split; [exact exception_leaves_instance|exact unread_answer_leaves_instance]. Qed.

(** ** Properties the type does not know *)

(** C9 on the code: a property that is absent from the descriptors of a
    type without dynamic properties is never reported.  On the first
    inspection of a run the loop that should flag it reads
    [filtered_errors] before anything was assigned to it: the run ends in
    an [UnboundLocalError], with the instance created and no delete
    request made.  On a later inspection the message goes into the list
    of the inspection before, which is dropped right after: validation
    ends without an error and without a call to the oracle. *)
Lemma unknown_property_not_reported :
  let first := validate_processor_configuration sample_builtins with_oracle
                 always_clean (holding bogus_first_plan) in
  let later := validate_processor_configuration sample_builtins with_oracle
                 always_clean (holding bogus_second_plan) in
  (fst first = Raise UnboundLocalError
   /\ errors (snd first) = []
   /\ posts (trace (snd first)) = 1%nat
   /\ live (trace (snd first)) = [Some (JStr "sandbox-1")])
  /\ (fst later = Ok tt
      /\ errors (snd later) = []
      /\ posts (trace (snd later)) = 2%nat
      /\ filter is_llm (trace (snd later)) = []).
Proof. repeat split; vm_compute; reflexivity. Qed.

(** ** Single-choice properties *)





Section SingleChoice.

Variable index : nat.
Variable had : bool.



End SingleChoice.






(** ** The repair oracle client *)

Section Oracle.

Variable bi : Builtins.
Variable cfg : Config.
Variable env : Env.

Lemma after_delete_data index p_name p_type retry_count proc_data i st :
  let reply := llm_reply env (count_events is_llm st) in
  let out := after_delete bi cfg env index p_name p_type retry_count proc_data i st in
  data (snd out) = data st
  \/ exists kvs, config_fix bi reply = Some (JObj kvs)
                 /\ data (snd out) = applied_config index kvs (data st).
Proof.
  intros reply out. destruct out as [r st'] eqn:H. subst out. simpl.
  unfold after_delete in H.
  assert (Stop : forall s, (modify (fun st => set_errors (errors st ++ insp_all i) st) ;;;
                            ret Break) s = (r, st') -> data st' = data s).
  { intros s Hs. unfold bind, modify, ret in Hs. now injection Hs as <- <-. }
  destruct (insp_all i); [unfold ret in H; injection H as <- <-; now left|].
  destruct (_ && _ && _); [|left; exact (Stop _ H)].
  unfold bind at 1, lift at 1 in H.
  destruct (py_getitem proc_data "component") as [component|e];
    [|injection H as <- <-; now left].
  unfold bind at 1, lift at 1 in H.
  destruct (get_descriptors component) as [descriptors|e];
    [|injection H as <- <-; now left].
  unfold bind at 1 in H.
  destruct (print_lines_cases bi "- " (insp_filtered i ++ insp_relationship i) st)
    as [E|E]; rewrite E in H; clear E; [|injection H as <- <-; now left].
  unfold bind at 1, get at 1 in H. unfold bind at 1, lift at 1 in H.
  destruct (processor_at index (data st)) as [current|e];
    [|injection H as <- <-; now left].
  unfold bind at 1 in H.
  destruct (resolve_validation_spec bi cfg env current
              (insp_filtered i ++ insp_relationship i) descriptors st)
    as [[K E]|[[e E]|(ctx & K & E)]]; rewrite E in H; clear E.
  - left. exact (Stop _ H).
  - injection H as <- <-. now left.
  - fold reply in H.
    destruct (config_fix bi reply) as [f|] eqn:Ef; [|left; exact (Stop _ H)].
    destruct (config_fix_some bi reply f Ef) as (kvs & -> & Tr). rewrite Tr in H.
    unfold bind at 1 in H.
    match type of H with
    | context [console_print bi ?t ?s] =>
        destruct (console_print_cases bi t s) as [E|E]; rewrite E in H; clear E
    end; [|injection H as <- <-; now left].
    right. exists kvs. split; [reflexivity|].
    unfold bind, lift, py_contains, py_getitem, has_key, when, modify, ret in H.
    unfold applied_config.
    destruct (lookup "properties" kvs), (lookup "auto_terminated_relationships" kvs);
      injection H as <- <-; reflexivity.
Qed.

Lemma creation_refused_data index p_name retry_count status_code error_text st :
  let reply := llm_reply env (count_events is_llm st) in
  let out := creation_refused bi cfg env index p_name retry_count status_code
               error_text st in
  data (snd out) = data st
  \/ exists v, scheduling_fix bi reply = Some v
               /\ truthy v = true
               /\ data (snd out) = assign_processor_field index "scheduling" v (data st).
Proof.
  intros reply out. destruct out as [r st'] eqn:H. subst out. simpl.
  unfold creation_refused in H.
  set (stop := append_error _ ;;; ret Break) in H.
  assert (Stop : forall s, stop s = (r, st') -> data st' = data s).
  { intros s Hs. unfold stop, bind, append_error, modify, ret in Hs.
    now injection Hs as <- <-. }
  destruct (scheduling_refusal status_code error_text); [|left; exact (Stop _ H)].
  destruct (_ && _); [|left; exact (Stop _ H)].
  unfold bind at 1 in H.
  match type of H with
  | context [console_print bi ?t ?s] =>
      destruct (console_print_cases bi t s) as [E|E]; rewrite E in H; clear E
  end; [|injection H as <- <-; now left].
  unfold bind at 1, get at 1 in H. unfold bind at 1, lift at 1 in H.
  destruct (processor_at index (data st)) as [current|e];
    [|injection H as <- <-; now left].
  unfold bind at 1, lift at 1 in H.
  destruct (py_get current "scheduling" (JObj [])) as [sc|e];
    [|injection H as <- <-; now left].
  unfold bind at 1 in H.
  destruct (resolve_scheduling_spec bi cfg env sc error_text st) as [[K E]|[K E]];
    rewrite E in H; clear E; [left; exact (Stop _ H)|].
  fold reply in H.
  destruct (scheduling_fix bi reply) as [v|]; [|left; exact (Stop _ H)].
  destruct (truthy v) eqn:Tr; [|left; exact (Stop _ H)].
  unfold bind at 1 in H.
  match type of H with
  | context [console_print bi ?t ?s] =>
      destruct (console_print_cases bi t s) as [E|E]; rewrite E in H; clear E
  end; [|injection H as <- <-; now left].
  right. exists v. unfold bind, modify, ret in H. injection H as <- <-.
  now repeat split.
Qed.

(** A scheduling fix that is not empty is applied: the runtime refused the
    creation with status 400 and a text about the scheduling period, a
    retry is left, and the console shows the two messages. *)
Lemma scheduling_fix_applied index p_name retry_count status_code error_text st
    current sc v :
  env_truthy (gemini_api_key cfg) = true ->
  let reply := llm_reply env (count_events is_llm st) in
  scheduling_refusal status_code error_text = true ->
  Z.of_nat retry_count < max_retries cfg ->
  displayed bi (scheduling_error_text error_text) = true ->
  displayed bi (scheduling_applied_text bi p_name) = true ->
  processor_at index (data st) = Ok current ->
  py_get current "scheduling" (JObj []) = Ok sc ->
  scheduling_fix bi reply = Some v ->
  truthy v = true ->
  creation_refused bi cfg env index p_name retry_count status_code error_text st
  = (Ok Continue,
     set_changes_made true
       (set_data (assign_processor_field index "scheduling" v (data st))
          (log (EvLLM (SchedulingRepair sc error_text) reply) st))).
Proof.
  intros K reply Hr Hb D1 D2 Hp Hs Hf Tr.
  unfold creation_refused. rewrite Hr.
  apply Z.ltb_lt in Hb. rewrite Hb, K. cbn [andb].
  unfold bind at 1. fold (scheduling_error_text error_text).
  rewrite (console_print_ok bi _ st D1).
  unfold bind at 1, get at 1. cbv iota beta. unfold bind at 1, lift at 1.
  rewrite Hp. unfold bind at 1, lift at 1. rewrite Hs. unfold bind at 1.
  destruct (resolve_scheduling_spec bi cfg env sc error_text st) as [[K' _]|[_ E]];
    [congruence|]. rewrite E. fold reply. rewrite Hf, Tr.
  unfold bind at 1. fold (scheduling_applied_text bi p_name).
  rewrite (console_print_ok bi _ _ D2). reflexivity.
Qed.

(** A configuration fix is applied: the inspection found errors, a retry
    is left, and the console shows the errors and the message. *)
Lemma config_fix_applied index p_name p_type retry_count proc_data i st
    component descriptors current ctx kvs :
  env_truthy (gemini_api_key cfg) = true ->
  let reply := llm_reply env (count_events is_llm st) in
  let found := insp_filtered i ++ insp_relationship i in
  insp_all i <> [] ->
  found <> [] ->
  Z.of_nat retry_count < max_retries cfg ->
  py_getitem proc_data "component" = Ok component ->
  get_descriptors component = Ok descriptors ->
  forallb (fun err => displayed bi [Lit "- "; Val err]) found = true ->
  displayed bi (config_applied_text bi p_name p_type) = true ->
  processor_at index (data st) = Ok current ->
  rmap (error_context_entry descriptors) found = Ok ctx ->
  config_fix bi reply = Some (JObj kvs) ->
  after_delete bi cfg env index p_name p_type retry_count proc_data i st
  = (Ok Continue,
     set_changes_made true
       (set_data (applied_config index kvs (data st))
          (log (EvLLM (ConfigRepair current ctx) reply) st))).
Proof.
  intros K reply found Ha Hf Hb Hc Hd D1 D2 Hp Hx Hfix.
  unfold after_delete. destruct (insp_all i) as [|a all]; [contradiction|].
  apply Z.ltb_lt in Hb. rewrite Hb, K. cbn [andb].
  assert (Hne : match insp_filtered i, insp_relationship i with
                | [], [] => false
                | _, _ => true
                end = true).
  { subst found. destruct (insp_filtered i); [|reflexivity].
    destruct (insp_relationship i); [contradiction|reflexivity]. }
  rewrite Hne. unfold bind at 1, lift at 1. rewrite Hc.
  unfold bind at 1, lift at 1. rewrite Hd. unfold bind at 1.
  fold found.
  assert (Hshow : print_lines bi "- " found st = (Ok tt, st)).
  { unfold print_lines. apply for_each_skip. intros err Hin.
    apply console_print_ok. rewrite forallb_forall in D1. now apply D1. }
  rewrite Hshow. unfold bind at 1, get at 1. cbv iota beta.
  unfold bind at 1, lift at 1. rewrite Hp. unfold bind at 1.
  destruct (resolve_validation_spec bi cfg env current found descriptors st)
    as [[K' _]|[[e E]|(ctx' & _ & E)]]; [congruence| |].
  { exfalso. unfold resolve_validation_errors_with_llm in E. rewrite K in E.
    cbn [negb] in E. unfold bind at 1, lift at 1 in E. rewrite Hx in E.
    unfold bind, generate_content, get, modify, ret in E. simpl in E.
    repeat match type of E with
           | context [match ?x with _ => _ end] => destruct x
           end; discriminate. }
  assert (ctx' = ctx).
  { unfold resolve_validation_errors_with_llm in E. rewrite K in E.
    cbn [negb] in E. unfold bind at 1, lift at 1 in E. rewrite Hx in E.
    unfold bind, generate_content, get, modify, ret in E. simpl in E.
    assert (Ht : forall (a b : option json) (s t : St),
                   (Ok a, s) = (Ok b, t) -> trace s = trace t)
      by (intros a0 b0 s t Hq; now injection Hq as _ ->).
    assert (Hl : trace (log (EvLLM (ConfigRepair current ctx)
                               (llm_reply env (count_events is_llm st))) st)
                 = trace (log (EvLLM (ConfigRepair current ctx') reply) st)).
    { repeat match type of E with
             | context [match ?x with _ => _ end] => destruct x
             end; exact (Ht _ _ _ _ E). }
    simpl in Hl. apply app_inv_head in Hl. now injection Hl as ->. }
  subst ctx'. rewrite E. fold reply. rewrite Hfix.
  destruct (config_fix_some bi reply _ Hfix) as (kvs' & Hk & Tr).
  rewrite Tr. unfold bind at 1. fold (config_applied_text bi p_name p_type).
  rewrite (console_print_ok bi _ _ D2).
  unfold config_fix in Hfix.
  destruct (parsed bi reply) as [[| | | | | |kvs0]|]; try discriminate.
  destruct (truthy (match lookup "properties" kvs0 with Some v => v | None => JNull end)
            || truthy (match lookup "auto_terminated_relationships" kvs0 with
                       | Some v => v | None => JNull end)) eqn:Et; [|discriminate].
  injection Hfix as ->.
  unfold bind, lift, py_contains, py_getitem, has_key, when, modify, ret, applied_config.
  destruct (lookup "properties" kvs) as [v1|];
    destruct (lookup "auto_terminated_relationships" kvs) as [v2|];
    try reflexivity.
  discriminate.
Qed.

(** C10, as amended.  With a client configured, a configuration repair
    call whose error context can be built returns what [config_fix] finds
    in the answer, and a scheduling repair call returns what
    [scheduling_fix] finds; each asks the oracle once.  [config_fix]
    finds nothing when the answer does not parse, is not an object, or
    has neither a truthy [properties] nor a truthy
    [auto_terminated_relationships], and the parsed object otherwise;
    [scheduling_fix] finds nothing when the answer does not parse or is
    not an object, and otherwise the [scheduling] member of the object or,
    without one, the whole object, whichever keys it has.  A scheduling
    fix that is not empty is written over the scheduling of the
    processor, and a configuration fix over its properties and
    auto-terminated relationships, when the turn is one that may be
    retried and the console shows its messages.  Whatever the turn, what
    is written into the plan is a member of the parsed answer, or the
    parsed answer. *)
Theorem oracle_answers_checked :
  forall (processor_config descriptors scheduling_config p_name p_type proc_data : json)
         (validation_errors : list string) (error_message : string)
         (index retry_count : nat) (status_code : Z) (i : Inspection) (st : St),
    env_truthy (gemini_api_key cfg) = true ->
    let reply := llm_reply env (count_events is_llm st) in
    let inspected := after_delete bi cfg env index p_name p_type retry_count proc_data i st in
    let refused :=
      creation_refused bi cfg env index p_name retry_count status_code error_message st in
    (* what the two calls return *)
    (forall ctx,
        rmap (error_context_entry descriptors) validation_errors = Ok ctx ->
        resolve_validation_errors_with_llm bi cfg env processor_config validation_errors
          descriptors st
        = (Ok (config_fix bi reply),
           log (EvLLM (ConfigRepair processor_config ctx) reply) st))
    /\ resolve_scheduling_errors_with_llm bi cfg env scheduling_config error_message st
       = (Ok (scheduling_fix bi reply),
          log (EvLLM (SchedulingRepair scheduling_config error_message) reply) st)
    (* what the answer is read as *)
    /\ config_fix bi reply
       = match parsed bi reply with
         | Some (JObj kvs) =>
             if truthy (member "properties" kvs)
                || truthy (member "auto_terminated_relationships" kvs)
             then Some (JObj kvs) else None
         | _ => None
         end
    /\ scheduling_fix bi reply
       = match parsed bi reply with
         | Some (JObj kvs) =>
             Some (if has_key "scheduling" kvs then member "scheduling" kvs else JObj kvs)
         | _ => None
         end
    (* a fix is applied *)
    /\ (forall current sc v,
          scheduling_refusal status_code error_message = true ->
          Z.of_nat retry_count < max_retries cfg ->
          displayed bi (scheduling_error_text error_message) = true ->
          displayed bi (scheduling_applied_text bi p_name) = true ->
          processor_at index (data st) = Ok current ->
          py_get current "scheduling" (JObj []) = Ok sc ->
          scheduling_fix bi reply = Some v ->
          truthy v = true ->
          refused
          = (Ok Continue,
             set_changes_made true
               (set_data (assign_processor_field index "scheduling" v (data st))
                  (log (EvLLM (SchedulingRepair sc error_message) reply) st))))
    /\ (forall component descs current ctx kvs,
          insp_all i <> [] ->
          insp_filtered i ++ insp_relationship i <> [] ->
          Z.of_nat retry_count < max_retries cfg ->
          py_getitem proc_data "component" = Ok component ->
          get_descriptors component = Ok descs ->
          forallb (fun err => displayed bi [Lit "- "; Val err])
            (insp_filtered i ++ insp_relationship i) = true ->
          displayed bi (config_applied_text bi p_name p_type) = true ->
          processor_at index (data st) = Ok current ->
          rmap (error_context_entry descs) (insp_filtered i ++ insp_relationship i)
          = Ok ctx ->
          config_fix bi reply = Some (JObj kvs) ->
          inspected
          = (Ok Continue,
             set_changes_made true
               (set_data (applied_config index kvs (data st))
                  (log (EvLLM (ConfigRepair current ctx) reply) st))))
    (* nothing else is written *)
    /\ (data (snd inspected) = data st
        \/ exists kvs, config_fix bi reply = Some (JObj kvs)
                       /\ data (snd inspected) = applied_config index kvs (data st))
    /\ (data (snd refused) = data st
        \/ exists v, scheduling_fix bi reply = Some v
                     /\ truthy v = true
                     /\ data (snd refused)
                        = assign_processor_field index "scheduling" v (data st)).
Proof.
  intros processor_config descriptors scheduling_config p_name p_type proc_data
         validation_errors error_message index retry_count status_code i st K
         reply inspected refused.
  split; [|split; [|split; [|split; [|split; [|split; [|split]]]]]].
  - intros ctx Hx.
    unfold resolve_validation_errors_with_llm. rewrite K. cbn [negb].
    unfold bind at 1, lift at 1. rewrite Hx.
    unfold bind, generate_content, get, modify, ret. simpl. fold reply.
    unfold config_fix, parsed.
    destruct reply as [|text]; [reflexivity|].
    destruct (json_loads bi (unfence text)) as [[| | | | | |kvs]|]; try reflexivity.
    destruct (truthy _), (truthy _); reflexivity.
  - destruct (resolve_scheduling_spec bi cfg env scheduling_config error_message st)
      as [[K' _]|[_ E]]; [congruence|exact E].
  - unfold config_fix, member.
    destruct (parsed bi reply) as [[| | | | | |kvs]|]; reflexivity.
  - unfold scheduling_fix, member, has_key.
    destruct (parsed bi reply) as [[| | | | | |kvs]|]; try reflexivity.
    now destruct (lookup "scheduling" kvs).
  - intros current sc v. now apply scheduling_fix_applied.
  - intros component descs current ctx kvs. now apply config_fix_applied.
  - apply after_delete_data.
  - apply creation_refused_data.
Qed.

End Oracle.

Lemma oracle_answers_checked_witness :
  env_truthy (gemini_api_key with_oracle) = true
  /\ scheduling_fix sample_builtins (LLMText period_only_text) = Some period_only
  /\ exists st',
       creation_refused sample_builtins with_oracle refuses_period_once 0 (JStr "p1") 0 400
         "Invalid Scheduling Period: 1 sec is not valid" (holding period_plan)
       = (Ok Continue, st')
       /\ exists processor,
            processor_at 0 (data st') = Ok (JObj processor)
            /\ lookup "scheduling" processor = Some period_only.
Proof.
  split; [reflexivity|]. split; [vm_compute; reflexivity|].
  destruct (oracle_answers_checked sample_builtins with_oracle refuses_period_once
              JNull JNull JNull (JStr "p1") (JStr "T") JNull [] 
              "Invalid Scheduling Period: 1 sec is not valid" 0 0 400
              {| proc_id := JNull; proc_revision := JNull; insp_filtered := [];
                 insp_relationship := []; insp_all := []; insp_locals := no_locals |}
              (holding period_plan) eq_refl)
    as (_ & _ & _ & _ & Happly & _).
  run_as P (processor_at 0 period_plan).
  match type of P with
  | _ = Ok ?current =>
      run_as Hsc (py_get current "scheduling" (JObj []));
      match type of Hsc with
      | _ = Ok ?sc =>
          specialize (Happly current sc period_only eq_refl ltac:(reflexivity)
                        eq_refl eq_refl P Hsc ltac:(vm_compute; reflexivity) eq_refl)
      end
  end.
  eexists. split; [exact Happly|].
  eexists. split; [vm_compute; reflexivity|]. reflexivity.
Defined.

(** What [config_fix] and [scheduling_fix] let through. *)
Lemma config_fix_checked bi reply :
  match config_fix bi reply with
  | Some f =>
      parsed bi reply = Some f
      /\ exists kvs, f = JObj kvs
                     /\ (has_key "properties" kvs = true
                         \/ has_key "auto_terminated_relationships" kvs = true)
  | None => True
  end.
Proof.
  unfold config_fix. destruct (parsed bi reply) as [[| | | | | |kvs]|]; try exact I.
  destruct (_ || _) eqn:E; [|exact I]. split; [reflexivity|]. exists kvs.
  split; [reflexivity|]. unfold has_key.
  destruct (lookup "properties" kvs); [now left|].
  destruct (lookup "auto_terminated_relationships" kvs); [now right|discriminate].
Qed.

Lemma scheduling_fix_checked bi reply :
  match scheduling_fix bi reply with
  | Some v =>
      exists kvs, parsed bi reply = Some (JObj kvs)
                  /\ (lookup "scheduling" kvs = Some v
                      \/ (lookup "scheduling" kvs = None /\ v = JObj kvs))
  | None => True
  end.
Proof.
  unfold scheduling_fix. destruct (parsed bi reply) as [[| | | | | |kvs]|]; try exact I.
  destruct (lookup "scheduling" kvs) eqn:E; exists kvs; split; try reflexivity;
    [now left|now right].
Qed.

(** C10, as stated, fails for a scheduling repair: the oracle's answer is
    the JSON object with a period and neither of the keys [properties]
    and [auto_terminated_relationships] (nor [scheduling]); it is
    accepted and written over the scheduling of the processor, and
    validation goes on to a second attempt. *)
Lemma scheduling_answer_without_keys_applied :
  let out := validate_processor_configuration sample_builtins with_oracle
               refuses_period_once (holding period_plan) in
  period_only_text
  = String "{" (String "034" ("period" ++ String "034" (": " ++ String "034"
      ("30 sec" ++ String "034" "}"))))
  /\ parsed sample_builtins (LLMText period_only_text) = Some period_only
  /\ config_fix sample_builtins (LLMText period_only_text) = None
  /\ fst out = Ok tt
  /\ posts (trace (snd out)) = 2%nat
  /\ exists processor,
       processor_at 0 (data (snd out)) = Ok (JObj processor)
       /\ lookup "scheduling" processor = Some period_only.
Proof.
  split; [reflexivity|]. split; [vm_compute; reflexivity|].
  split; [vm_compute; reflexivity|].
  split; [vm_compute; reflexivity|]. split; [vm_compute; reflexivity|].
  eexists. split; [vm_compute; reflexivity|]. reflexivity.
Qed.

(** ** Saving the plan *)

Lemma same_plan_refl st : same_plan st st.
Proof. now split. Qed.

Lemma same_plan_trans a b c : same_plan a b -> same_plan b c -> same_plan a c.
Proof. unfold same_plan. intros [H1 H2] [H3 H4]. split; congruence. Qed.

Lemma same_plan_flagged a b : same_plan a b -> flagged a b.
Proof. intros H. now right. Qed.

(** *** Steps that return *)

Lemma returns_ret {A} (a : A) (Q : A -> St -> Prop) st : Q a st -> returns (ret a) Q st.
Proof. intros H. exact H. Qed.

Lemma returns_get (Q : St -> St -> Prop) st : Q st st -> returns get Q st.
Proof. intros H. exact H. Qed.

Lemma returns_modify f (Q : unit -> St -> Prop) st :
  Q tt (f st) -> returns (modify f) Q st.
Proof. intros H. exact H. Qed.

Lemma returns_lift {A} (r : result A) (Q : A -> St -> Prop) st :
  (forall a, r = Ok a -> Q a st) -> returns (lift r) Q st.
Proof. intros H. unfold returns, lift. destruct r; [now apply H|exact I]. Qed.

Lemma returns_bind {A B} (m : M A) (k : A -> M B) (Q : B -> St -> Prop) st :
  returns m (fun a st1 => returns (k a) Q st1) st -> returns (bind m k) Q st.
Proof.
  unfold returns, bind. destruct (m st) as [[a|e] st1]; [|trivial].
  intros H. exact H.
Qed.

Lemma returns_mono {A} (m : M A) (Q Q' : A -> St -> Prop) st :
  returns m Q st -> (forall a st', Q a st' -> Q' a st') -> returns m Q' st.
Proof.
  unfold returns. destruct (m st) as [[a|e] st1]; [|trivial].
  intros H HQ. now apply HQ.
Qed.

Lemma returns_preserves {A} R (m : M A) st :
  preserves R m -> returns m (fun _ st' => R st st') st.
Proof.
  intros H. unfold returns. specialize (H st).
  destruct (m st) as [[a|e] st1]; [exact H|exact I].
Qed.

Lemma returns_ok {A} (m : M A) (Q : A -> St -> Prop) st a st' :
  returns m Q st -> m st = (Ok a, st') -> Q a st'.
Proof. unfold returns. intros H E. now rewrite E in H. Qed.

Lemma returns_console_print bi t (Q : unit -> St -> Prop) st :
  Q tt st -> returns (console_print bi t) Q st.
Proof.
  intros H. unfold returns.
  destruct (console_print_cases bi t st) as [E|E]; rewrite E; [exact H|exact I].
Qed.

Lemma returns_print_lines bi bullet lines (Q : unit -> St -> Prop) st :
  Q tt st -> returns (print_lines bi bullet lines) Q st.
Proof.
  intros H. unfold returns.
  destruct (print_lines_cases bi bullet lines st) as [E|E]; rewrite E; [exact H|exact I].
Qed.

(** Breaks a step into the state changes it is made of. *)
Ltac returns_steps :=
  repeat match goal with
         | |- returns (ret _) _ _ => apply returns_ret
         | |- returns (console_print _ _) _ _ => apply returns_console_print
         | |- returns (print_lines _ _ _) _ _ => apply returns_print_lines
         | |- returns get _ _ => apply returns_get
         | |- returns (modify _) _ _ => apply returns_modify
         | |- returns (append_error _) _ _ => apply returns_modify
         | |- returns (lift _) _ _ => apply returns_lift; intros ? ?
         | |- returns (bind _ _) _ _ => apply returns_bind
         | |- returns (when ?b _) _ _ => destruct b; unfold when
         | |- returns (match ?x with _ => _ end) _ _ => destruct x
         | |- returns (let _ := _ in _) _ _ => cbv zeta
         end.

Section Persistence.

Variable bi : Builtins.
Variable cfg : Config.
Variable env : Env.

(** Steps whose only changes are new errors, new trace entries or a
    filled catalog. *)
Ltac plan_kept :=
  repeat match goal with
         | |- preserves _ (append_error _) => unfold append_error
         | |- same_plan _ _ => now split
         | |- flagged _ _ => right; now split
         | _ => progress preserve_with same_plan_refl same_plan_trans
         end.

Lemma check_required_fields_same_plan prefix required item :
  preserves same_plan (check_required_fields prefix required item).
Proof. unfold check_required_fields. plan_kept. Qed.

Lemma validate_structure_same_plan : preserves same_plan validate_structure.
Proof.
  unfold validate_structure, validate_details.
  repeat match goal with
         | |- preserves _ (check_required_fields _ _ _) =>
             apply check_required_fields_same_plan
         | _ => progress plan_kept
         end.
Qed.

Lemma validate_controller_services_same_plan :
  preserves same_plan (validate_controller_services bi).
Proof. unfold validate_controller_services. plan_kept. Qed.

Lemma fetch_same_plan : preserves same_plan (fetch_nifi_processor_types cfg env).
Proof. unfold fetch_nifi_processor_types. plan_kept. Qed.

(** *** The type resolver writes with its flag raised *)

Lemma resolve_processor_type_flag index processor changed st :
  returns (resolve_processor_type bi index processor changed)
    (fun changed' st' =>
       (changed' = true \/ (changed' = changed /\ data st' = data st))
       /\ changes_made st' = changes_made st) st.
Proof.
  unfold resolve_processor_type. returns_steps;
    (split; [first [now left | right; now split]|reflexivity]).
Qed.

Lemma resolve_all_flag l : forall changed st,
  returns (resolve_all bi l changed)
    (fun changed' st' =>
       (changed' = true \/ (changed' = changed /\ data st' = data st))
       /\ changes_made st' = changes_made st) st.
Proof.
  induction l as [|[index processor] l IH]; intros changed st; simpl.
  - apply returns_ret. split; [right; now split|reflexivity].
  - apply returns_bind.
    eapply returns_mono; [apply resolve_processor_type_flag|].
    intros c1 st1 [H1 H2]. cbv beta.
    eapply returns_mono; [apply IH|].
    intros c2 st2 [H3 H4]. cbv beta. split; [|congruence].
    destruct H3 as [H3|[H3 H3']]; [now left|].
    destruct H1 as [H1|[H1 H1']]; [left; congruence|].
    right. split; congruence.
Qed.

Lemma validate_processor_types_flagged st :
  changes_made st = false ->
  returns (validate_processor_types bi cfg env) (fun _ st' => flagged st st') st.
Proof.
  intros Hc. unfold validate_processor_types.
  apply returns_bind, returns_get.
  apply returns_bind, returns_lift. intros skip _.
  destruct skip; [apply returns_ret, flagged_refl|].
  apply returns_bind.
  apply (returns_mono _ (fun _ st1 => same_plan st st1)).
  { destruct (available_processor_types st).
    - apply returns_preserves, fetch_same_plan.
    - apply returns_ret, same_plan_refl. }
  intros success st1 [Hd1 Hc1]. cbv beta.
  destruct success; simpl; [|apply returns_ret; right; now split].
  apply returns_bind, returns_get.
  apply returns_bind, returns_lift. intros pd _.
  apply returns_bind, returns_lift. intros processors _.
  apply returns_bind, returns_lift. intros l _.
  apply returns_bind.
  eapply returns_mono; [apply resolve_all_flag|].
  intros changed st2 [[->|[-> Hd2]] Hc2]; cbv beta; apply returns_modify.
  - now left.
  - right. simpl. split; congruence.
Qed.

Lemma initial_checks_flagged st :
  changes_made st = false ->
  returns (initial_checks bi cfg env) (fun _ st' => flagged st st') st.
Proof.
  intros Hc. unfold initial_checks.
  apply returns_bind.
  eapply returns_mono; [apply returns_preserves, validate_structure_same_plan|].
  intros u1 st1 [Hd1 Hc1]. cbv beta.
  apply returns_bind.
  eapply returns_mono; [apply validate_processor_types_flagged; congruence|].
  intros u2 st2 H2. cbv beta.
  eapply returns_mono;
    [apply returns_preserves, validate_controller_services_same_plan|].
  intros u3 st3 H3. cbv beta.
  apply (flagged_trans st st1); [right; now split|].
  apply (flagged_trans st1 st2); [exact H2|now apply same_plan_flagged].
Qed.

(** *** The sandbox writes with the flag raised *)

Lemma flagged_write {A} f (k : unit -> M A) :
  (forall u, preserves flagged (k u)) ->
  preserves flagged (modify f ;;; modify (set_changes_made true) ;;; k tt).
Proof.
  intros Hk st. unfold bind, modify. simpl.
  destruct (Hk tt (set_changes_made true (f st))) as [H|[_ H]]; left; [exact H|].
  rewrite H. reflexivity.
Qed.

Lemma flagged_write_last f :
  preserves flagged (modify f ;;; modify (set_changes_made true)).
Proof. intros st. now left. Qed.

Lemma resolve_validation_flagged pc errs descs :
  preserves flagged (resolve_validation_errors_with_llm bi cfg env pc errs descs).
Proof.
  intros st.
  destruct (resolve_validation_spec bi cfg env pc errs descs st)
    as [[_ H]|[[e H]|(ctx & _ & H)]]; rewrite H; right; now split.
Qed.

Lemma resolve_scheduling_flagged sc msg :
  preserves flagged (resolve_scheduling_errors_with_llm bi cfg env sc msg).
Proof.
  intros st.
  destruct (resolve_scheduling_spec bi cfg env sc msg st) as [[_ H]|[_ H]];
    rewrite H; right; now split.
Qed.

(** The writes of a step come with the flag; everything else leaves the
    plan alone. *)
Ltac flag_kept :=
  repeat match goal with
         | |- preserves _ (append_error _) => unfold append_error
         | |- preserves _ (modify _ ;;; modify (set_changes_made true) ;;; _) =>
             apply (flagged_write _ (fun _ => _)); intro
         | |- preserves _ (modify _ ;;; modify (set_changes_made true)) =>
             apply flagged_write_last
         | |- preserves _ (resolve_validation_errors_with_llm _ _ _ _ _ _) =>
             apply resolve_validation_flagged
         | |- preserves _ (resolve_scheduling_errors_with_llm _ _ _ _ _) =>
             apply resolve_scheduling_flagged
         | |- preserves _ (inspect _ _ _ _ _ _ _ _) => apply inspect_flagged
         | |- preserves _ (try_request _ _) =>
             apply (preserves_try_request _ flagged_trans); [|intro]
         | |- flagged _ _ => right; now split
         | |- preserves _ (bind (modify ?f) _) =>
             apply (preserves_bind _ flagged_trans); [apply preserves_modify; intro|intro]
         | |- preserves _ (bind ?m _) =>
             lazymatch m with
             | modify _ => fail
             | _ => apply (preserves_bind _ flagged_trans); [|intro]
             end
         | |- preserves _ (ret _) => apply (preserves_ret _ flagged_refl)
         | |- preserves _ (console_print _ _) =>
             apply (preserves_console_print _ flagged_refl)
         | |- preserves _ (print_lines _ _ _) =>
             apply (preserves_print_lines _ flagged_refl flagged_trans)
         | |- preserves _ (lift _) => apply (preserves_lift _ flagged_refl)
         | |- preserves _ (raise _) => apply (preserves_raise _ flagged_refl)
         | |- preserves _ get => apply (preserves_get _ flagged_refl)
         | |- preserves _ (when _ _) => apply (preserves_when _ flagged_refl)
         | |- preserves _ (modify _) => apply preserves_modify; intro
         | |- preserves _ (match ?x with _ => _ end) => destruct x
         | |- preserves _ (let _ := _ in _) => cbv zeta
         end.

Lemma delete_processor_flagged the_id version proc_data :
  preserves flagged (delete_processor env the_id version proc_data).
Proof. unfold delete_processor. flag_kept. Qed.

Lemma after_delete_flagged index p_name p_type retry_count proc_data i :
  preserves flagged (after_delete bi cfg env index p_name p_type retry_count proc_data i).
Proof. unfold after_delete. flag_kept. Qed.

Lemma creation_refused_flagged index p_name retry_count status_code error_text :
  preserves flagged
    (creation_refused bi cfg env index p_name retry_count status_code error_text).
Proof. unfold creation_refused. flag_kept. Qed.

Lemma attempt_flagged index p_name p_type p_id cm retry_count loc :
  preserves flagged (attempt bi cfg env index p_name p_type p_id cm retry_count loc).
Proof.
  unfold attempt, attempt_body.
  repeat match goal with
         | |- preserves _ (delete_processor _ _ _ _) => apply delete_processor_flagged
         | |- preserves _ (after_delete _ _ _ _ _ _ _ _ _) => apply after_delete_flagged
         | |- preserves _ (creation_refused _ _ _ _ _ _ _ _) =>
             apply creation_refused_flagged
         | _ => progress flag_kept
         end.
Qed.

Lemma attempts_flagged index p_name p_type p_id cm : forall remaining retry_count loc,
  preserves flagged
    (attempts bi cfg env remaining index p_name p_type p_id cm retry_count loc).
Proof.
  induction remaining as [|remaining IH]; intros retry_count loc; simpl.
  - apply (preserves_ret _ flagged_refl).
  - apply (preserves_bind _ flagged_trans); [apply attempt_flagged|].
    intros [[|] loc']; [apply IH|apply (preserves_ret _ flagged_refl)].
Qed.

Lemma validate_each_flagged cm : forall l loc,
  preserves flagged (validate_each bi cfg env cm l loc).
Proof.
  induction l as [|[index processor] l IH]; intros loc; simpl.
  - apply (preserves_ret _ flagged_refl).
  - apply (preserves_bind _ flagged_trans); [|intro; apply IH].
    unfold validate_one.
    repeat (apply (preserves_bind _ flagged_trans);
            [apply (preserves_lift _ flagged_refl)|intro]).
    apply (preserves_bind _ flagged_trans);
      [apply (preserves_console_print _ flagged_refl)|intro].
    apply attempts_flagged.
Qed.

Lemma validate_processor_configuration_flagged :
  preserves flagged (validate_processor_configuration bi cfg env).
Proof.
  unfold validate_processor_configuration.
  repeat match goal with
         | |- preserves _ (validate_each _ _ _ _ _ _) => apply validate_each_flagged
         | _ => progress flag_kept
         end.
Qed.

(** *** Saving *)

(** What a save leaves, and how it ends: by returning or, the file
    written, by a console that cannot show the message. *)
Lemma save_plan_spec st :
  let reply := save_reply env (count_events is_save st) in
  let written := log (EvSave (data st) reply) st in
  match reply with
  | SaveOk =>
      snd (save_plan bi cfg env st) = set_disk (PlanFile (data st)) written
      /\ (fst (save_plan bi cfg env st) = Ok tt
          \/ fst (save_plan bi cfg env st) = Raise MarkupError)
  | SaveFails msg left_behind =>
      save_plan bi cfg env st
      = (Ok tt,
         set_errors (errors st ++ [("Failed to save updated plan: " ++ msg)%string])
           (set_disk left_behind written))
  end.
Proof.
  intros reply written. subst reply written.
  destruct (save_reply env (count_events is_save st)) as [|msg left_behind] eqn:Er.
  - unfold save_plan, bind, get, modify. cbv iota beta. rewrite Er. cbv iota beta.
    match goal with
    | |- context [console_print bi ?t ?s] =>
        destruct (console_print_cases bi t s) as [E|E]; rewrite E
    end; (split; [reflexivity|]); [now left|now right].
  - unfold save_plan, bind, get, modify, append_error. cbv iota beta. rewrite Er.
    reflexivity.
Qed.

Lemma saved_after_save st st' :
  save_plan bi cfg env st = (Ok tt, st') -> saved_to_disk st'.
Proof.
  intros H. pose proof (save_plan_spec st) as S0. cbv zeta in S0.
  exists (trace st), (save_reply env (count_events is_save st)).
  destruct (save_reply env (count_events is_save st)) as [|msg left_behind].
  - destruct S0 as [S1 _]. rewrite H in S1. simpl in S1. subst st'. now split.
  - rewrite H in S0. injection S0 as ->. simpl. split; [reflexivity|].
    split; [reflexivity|]. now exists (errors st).
Qed.

Lemma print_errors_state st : snd (print_errors bi st) = st.
Proof.
  unfold print_errors, bind at 1, get at 1. cbv iota beta.
  destruct (errors st) as [|e l]; [reflexivity|].
  unfold bind.
  pose proof (print_lines_state bi " - " (e :: l) st) as H.
  destruct (print_lines bi " - " (e :: l) st) as [[[]|x] s1]; simpl in *; now subst s1.
Qed.

(** A sandbox phase that returns has saved every plan that differs from
    the one the pass started with. *)
Lemma sandbox_phase_saved st0 st o st' :
  flagged st0 st -> changes_made st0 = false ->
  sandbox_phase bi cfg env st = (Ok o, st') ->
  data st' <> data st0 -> saved_to_disk st'.
Proof.
  intros H0 Hc0 Hrun Hne. unfold sandbox_phase in Hrun.
  pose proof (validate_processor_configuration_flagged st) as Hv.
  unfold bind at 1 in Hrun.
  destruct (validate_processor_configuration bi cfg env st) as [[[]|e] st1];
    [|discriminate]. simpl in Hv.
  pose proof (flagged_trans _ _ _ H0 Hv) as H1.
  unfold bind at 1, get at 1 in Hrun. cbv iota beta in Hrun.
  unfold bind at 1 in Hrun.
  destruct (changes_made st1) eqn:Hc1; unfold when in Hrun.
  - destruct (save_plan bi cfg env st1) as [[[]|e] st2] eqn:Es; [|discriminate].
    apply saved_after_save in Es.
    pose proof (print_errors_state st2) as Hp. rewrite Hrun in Hp.
    simpl in Hp. now subst st'.
  - unfold ret in Hrun. pose proof (print_errors_state st1) as Hp.
    rewrite Hrun in Hp. simpl in Hp. subst st'.
    destruct H1 as [H1|[H1 _]]; [congruence|contradiction].
Qed.

Lemma pass_saved st st2 o st' :
  initial_checks bi cfg env (set_changes_made false st) = (Ok tt, st2) ->
  sandbox_phase bi cfg env st2 = (Ok o, st') ->
  data st' <> data st -> saved_to_disk st'.
Proof.
  intros Hi Hs Hne.
  apply (sandbox_phase_saved (set_changes_made false st) st2 o st'); auto.
  exact (returns_ok _ _ _ _ _
           (initial_checks_flagged (set_changes_made false st) eq_refl) Hi).
Qed.

(** *** The repair of the structure *)

Lemma resolve_structure_kept st :
  returns (resolve_structure_errors_with_llm bi cfg env)
    (fun fixed st' => fixed = false -> data st' = data st) st.
Proof.
  unfold resolve_structure_errors_with_llm.
  destruct (negb (env_truthy (gemini_api_key cfg))); [now apply returns_ret|].
  apply returns_bind, returns_get.
  apply returns_bind.
  apply (returns_mono _ (fun _ st1 => same_plan st st1)).
  { destruct (available_processor_types st).
    - apply returns_preserves.
      apply (preserves_bind _ same_plan_trans); [apply fetch_same_plan|].
      intro. apply (preserves_ret _ same_plan_refl).
    - apply returns_ret, same_plan_refl. }
  intros u st1 [Hd1 _]. cbv beta.
  apply returns_bind, returns_get.
  apply returns_bind, returns_lift. intros descriptions _.
  apply returns_bind, returns_lift. intros plan_details _.
  simpl. unfold generate_content.
  returns_steps; first [discriminate | intros _; exact Hd1].
Qed.

Lemma repair_saved st st' :
  repair_step bi cfg env st = (Ok tt, st') ->
  data st' <> data st -> saved_to_disk st'.
Proof.
  unfold repair_step. intros Hrun Hne.
  pose proof (resolve_structure_kept st) as Hk. unfold returns in Hk.
  unfold bind in Hrun.
  destruct (resolve_structure_errors_with_llm bi cfg env st) as [[[|]|e] st1];
    [|injection Hrun as <-; now specialize (Hk eq_refl)|discriminate].
  now apply saved_after_save in Hrun.
Qed.

End Persistence.

(** C8, as amended: two steps of a run save what they changed.  A repair of
    the structure by the oracle that changes the plan in memory is
    followed at once, before the plan is loaded again, by a write of the
    whole document to the file.  In a pass whose initial checks and
    sandbox validation both return, a plan in memory that differs from
    the plan the pass loaded (by a type rewrite, an auto-correction, or a
    scheduling, property or relationship fix) is written as a whole
    document to the file as the last step before the run ends.  After a
    write that went through the file holds the plan in memory; a write
    that failed is recorded as the last error and leaves the file as the
    failure left it. *)
Theorem plan_changes_saved :
  forall (bi : Builtins) (cfg : Config) (env : Env) (st st' : St),
    (repair_step bi cfg env st = (Ok tt, st')
     \/ exists st2 o,
          initial_checks bi cfg env (set_changes_made false st) = (Ok tt, st2)
          /\ sandbox_phase bi cfg env st2 = (Ok o, st')) ->
    data st' <> data st ->
    saved_to_disk st'.
Proof.
  intros bi cfg env st st' [Hr|(st2 & o & Hi & Hs)] Hne.
  - now apply (repair_saved bi cfg env st).
  - now apply (pass_saved bi cfg env st st2 o).
Qed.

Lemma plan_changes_saved_witness :
  exists st2 st',
    initial_checks sample_builtins without_oracle catalog_runtime
      (set_changes_made false (holding short_type_plan)) = (Ok tt, st2)
    /\ sandbox_phase sample_builtins without_oracle catalog_runtime st2
       = (Ok (Exited 0), st')
    /\ data st' <> data (holding short_type_plan)
    /\ saved_to_disk st'
    /\ disk st' = PlanFile (data st').
Proof.
  run_as Hi (initial_checks sample_builtins without_oracle catalog_runtime
               (set_changes_made false (holding short_type_plan))).
  match type of Hi with _ = (_, ?s) =>
    run_as Hs (sandbox_phase sample_builtins without_oracle catalog_runtime s)
  end.
  do 2 eexists. split; [exact Hi|]. split; [exact Hs|].
  assert (Hne : forall a b : json, (a = b -> False) -> a <> b) by (intros a b H; exact H).
  match type of Hs with _ = (_, ?s') =>
    assert (Hd : data s' <> data (holding short_type_plan))
      by (apply Hne; vm_compute; intros E; discriminate E)
  end.
  split; [exact Hd|]. split; [|vm_compute; reflexivity].
  eapply plan_changes_saved; [|exact Hd].
  right. do 2 eexists. split; [exact Hi|exact Hs].
Defined.

(** A run the operator is never asked in: when it exits, a plan in memory
    that is not the plan of the file has just been written. *)
Lemma run_unanswered_saved bi cfg env content code st' :
  run bi cfg env (PlanFile content) [] = (Ok (Exited code), st') ->
  data st' <> content ->
  saved_to_disk st'.
Proof.
  unfold run. cbn [run_from]. unfold bind at 1, modify at 1.
  unfold bind at 1, load_plan at 1. unfold bind at 1, get at 1.
  cbv iota beta. unfold bind at 1, modify at 1. cbv iota beta.
  cbn [disk log set_errors initial]. unfold bind at 1, modify at 1.
  cbv iota beta. unfold ret at 1. cbn [negb]. cbv iota.
  unfold bind at 1, modify at 1. cbv iota beta.
  match goal with
  | |- context [set_changes_made false ?s] => set (loaded := s)
  end.
  intros Hrun Hne. unfold bind at 1 in Hrun.
  destruct (initial_checks bi cfg env (set_changes_made false loaded))
    as [[[]|e] st2] eqn:Hi; [|discriminate].
  unfold bind at 1, get at 1 in Hrun. cbv iota beta in Hrun.
  destruct (errors st2) as [|err errs] eqn:He.
  - exact (pass_saved bi cfg env loaded st2 _ st' Hi Hrun Hne).
  - unfold bind in Hrun.
    destruct (print_lines bi " - " (err :: errs) st2) as [[[]|x] s]; discriminate.
Qed.

(** The first processor of the plan has a short type name the catalog
    resolves, the second a type the catalog does not know.  The initial
    checks rewrite the first type in memory and report the second; the
    operator chooses to exit, and the run ends with the rewritten plan in
    memory, no save made and the file as it was. *)
Lemma type_rewrite_lost_on_exit :
  let out := run sample_builtins without_oracle catalog_runtime
               (PlanFile half_resolved_plan) [ExitChoice] in
  fst out = Ok (Exited 1)
  /\ data (snd out) = half_resolved_after
  /\ half_resolved_after <> half_resolved_plan
  /\ changes_made (snd out) = true
  /\ filter is_save (trace (snd out)) = []
  /\ disk (snd out) = PlanFile half_resolved_plan.
Proof.
  repeat split; try (vm_compute; reflexivity).
  intros E. vm_compute in E. discriminate E.
Qed.

(** The only processor of the plan has a short type name the catalog
    resolves; the initial checks rewrite it, the sandbox validation finds
    nothing, and the write of the rewritten plan fails: the failure is
    recorded, the run exits with code 1, and the file still holds the
    plan with the short name. *)
Lemma failed_write_keeps_old_file :
  let out := run sample_builtins without_oracle (read_only_file short_type_plan)
               (PlanFile short_type_plan) [] in
  fst out = Ok (Exited 1)
  /\ data (snd out) <> short_type_plan
  /\ errors (snd out)
     = ["Failed to save updated plan: [Errno 13] Permission denied: 'plan.json'"]
  /\ List.length (filter is_save (trace (snd out))) = 1%nat
  /\ disk (snd out) = PlanFile short_type_plan.
Proof.
  repeat split; try (vm_compute; reflexivity).
  intros E. vm_compute in E. discriminate E.
Qed.

(** C8, as stated, fails: a type rewrite made in a pass whose initial
    checks report another error is never written to the file, and a
    write that fails leaves the file without the repair. *)
Lemma repairs_not_on_disk :
  (let out := run sample_builtins without_oracle catalog_runtime
                (PlanFile half_resolved_plan) [ExitChoice] in
   fst out = Ok (Exited 1)
   /\ data (snd out) = half_resolved_after
   /\ half_resolved_after <> half_resolved_plan
   /\ changes_made (snd out) = true
   /\ filter is_save (trace (snd out)) = []
   /\ disk (snd out) = PlanFile half_resolved_plan)
  /\ (let out := run sample_builtins without_oracle (read_only_file short_type_plan)
                   (PlanFile short_type_plan) [] in
      fst out = Ok (Exited 1)
      /\ data (snd out) <> short_type_plan
      /\ errors (snd out)
         = ["Failed to save updated plan: [Errno 13] Permission denied: 'plan.json'"]
      /\ List.length (filter is_save (trace (snd out))) = 1%nat
      /\ disk (snd out) = PlanFile short_type_plan).
Proof. split; [exact type_rewrite_lost_on_exit|exact failed_write_keeps_old_file]. Qed.

(* ================================================================== *)
(** * Further properties of the validator *)
(* ================================================================== *)

Import Facts MoreExamples.

(** ** Steps that only report *)

Lemma reported_nil st : reported [] st = st.
Proof. destruct st. unfold reported, set_errors. simpl. now rewrite app_nil_r. Qed.

Lemma reported_reported a b st : reported b (reported a st) = reported (a ++ b) st.
Proof. unfold reported, set_errors. simpl. now rewrite app_assoc. Qed.

Lemma reported_data more st : data (reported more st) = data st.
Proof. reflexivity. Qed.

Lemma only_reported_refl st : only_reported st st.
Proof. exists []. now rewrite reported_nil. Qed.

Lemma only_reported_trans a b c :
  only_reported a b -> only_reported b c -> only_reported a c.
Proof.
  intros [m1 ->] [m2 ->]. exists (m1 ++ m2). apply reported_reported.
Qed.

Lemma only_reported_error msg st :
  only_reported st (set_errors (errors st ++ [msg]) st).
Proof. now exists [msg]. Qed.

(** A state that equals itself with more errors has none more. *)
Lemma reported_same more st : st = reported more st -> more = [].
Proof.
  intros H. apply (f_equal errors) in H. simpl in H.
  rewrite <- (app_nil_r (errors st)) in H at 1.
  apply app_inv_head in H. now symmetry.
Qed.

Ltac only_reports :=
  repeat match goal with
         | |- preserves _ (append_error _) => unfold append_error
         | |- only_reported _ _ => apply only_reported_error
         | _ => progress preserve_with only_reported_refl only_reported_trans
         end.

Lemma check_required_fields_reports prefix required item :
  preserves only_reported (check_required_fields prefix required item).
Proof. unfold check_required_fields. only_reports. Qed.

Lemma validate_structure_reports : preserves only_reported validate_structure.
Proof.
  unfold validate_structure, validate_details.
  repeat match goal with
         | |- preserves _ (check_required_fields _ _ _) =>
             apply check_required_fields_reports
         | _ => progress only_reports
         end.
Qed.

Lemma validate_controller_services_reports bi :
  preserves only_reported (validate_controller_services bi).
Proof. unfold validate_controller_services. only_reports. Qed.

(** X2: the structural check and the check of the controller services
    read the plan and report; whether they return or raise, the state
    they leave is the state they found with messages appended to the
    errors: the plan, the catalog, the dirty flag, the file and the trace
    of requests are as they were. *)
Theorem checks_only_report :
  forall (bi : Builtins) (st : St),
    only_reported st (snd (validate_structure st))
    /\ only_reported st (snd (validate_controller_services bi st)).
Proof.
  intros bi st. split.
  - apply validate_structure_reports.
  - apply validate_controller_services_reports.
Qed.

(** ** Silent passes *)

Lemma silent_ret (P : Prop) st : P -> returns (ret tt) (silent_then P st) st.
Proof. intros H. exists []. now rewrite reported_nil. Qed.

Lemma silent_error (P : Prop) msg st : returns (append_error msg) (silent_then P st) st.
Proof. exists [msg]. split; [reflexivity|discriminate]. Qed.

Lemma silent_bind (m k : M unit) (P1 P2 : Prop) st :
  returns m (silent_then P1 st) st ->
  (forall st1, returns k (silent_then P2 st1) st1) ->
  returns (m ;;; k) (silent_then (P1 /\ P2) st) st.
Proof.
  intros Hm Hk. apply returns_bind.
  eapply returns_mono; [exact Hm|].
  intros [] st1 (m1 & -> & H1). cbv beta.
  eapply returns_mono; [apply Hk|].
  intros [] st2 (m2 & -> & H2). exists (m1 ++ m2).
  split; [apply reported_reported|].
  intros E. apply app_eq_nil in E. destruct E as [E1 E2]. auto.
Qed.

Lemma silent_mono (m : M unit) (P Q : Prop) st :
  returns m (silent_then P st) st -> (P -> Q) -> returns m (silent_then Q st) st.
Proof.
  intros H HPQ. eapply returns_mono; [exact H|].
  intros [] st1 (m1 & -> & H1). exists m1. split; [reflexivity|auto].
Qed.

Lemma silent_for_each {A} (body : A -> M unit) (ok : A -> Prop) (l : list A) :
  (forall a st, returns (body a) (silent_then (ok a) st) st) ->
  forall st, returns (for_each l body) (silent_then (Forall ok l) st) st.
Proof.
  intros Hb. induction l as [|a l IH]; intros st; simpl.
  - now apply silent_ret.
  - eapply silent_mono; [apply silent_bind; [apply Hb|apply IH]|].
    intros [H1 H2]. now constructor.
Qed.

(** One required field of an item. *)
Lemma required_field_silent prefix (r : string * (pytype * string)) item st :
  returns (let '(field, (expected_type, type_nm)) := r in
           present <- lift (py_contains field item) ;;
           if negb present then
             append_error (prefix ++ ": Missing required field `" ++ field ++ "`")
           else
             v <- lift (py_getitem item field) ;;
             when (negb (isinstance v expected_type))
               (append_error (prefix ++ ": Field `" ++ field ++ "` must be a "
                              ++ type_nm ++ ", got " ++ type_name v)))
    (silent_then (exists v, Props.field (fst r) item = Some v
                            /\ isinstance v (fst (snd r)) = true) st) st.
Proof.
  destruct r as [fld [t nm]]. cbv iota beta.
  apply returns_bind, returns_lift. intros present _.
  destruct present; simpl; [|apply silent_error].
  apply returns_bind, returns_lift. intros v Hv.
  destruct (isinstance v t) eqn:Hi; simpl; [|apply silent_error].
  apply silent_ret. exists v. split; [|exact Hi].
  destruct item as [| | | | | |kvs]; try discriminate.
  simpl in *. destruct (lookup fld kvs); [now injection Hv as ->|discriminate].
Qed.

Lemma check_required_fields_silent prefix required item st :
  required <> [] ->
  returns (check_required_fields prefix required item)
    (silent_then (has_required required item = true) st) st.
Proof.
  intros Hne. unfold check_required_fields.
  eapply silent_mono; [apply silent_for_each; intros; apply required_field_silent|].
  intros H. destruct required as [|r0 required]; [contradiction|].
  pose proof (Forall_inv H) as (v0 & Hf0 & _).
  destruct item as [| | | | | |kvs]; try discriminate.
  unfold has_required. apply forallb_forall. intros r Hin.
  rewrite Forall_forall in H. destruct (H r Hin) as (v & Hf & Hi).
  simpl in Hf. now rewrite Hf.
Qed.

Lemma forallb_enumerate {A} (f : A -> bool) (l : list A) :
  Forall (fun ip => f (snd ip) = true) (enumerate l) -> forallb f l = true.
Proof.
  unfold enumerate. generalize 0%nat.
  induction l as [|a l IH]; intros n H; simpl in *; [reflexivity|].
  inversion H as [|x xs Ha Hl]; subst. simpl in Ha. rewrite Ha. simpl.
  now apply (IH (S n)).
Qed.

Lemma check_all_silent (prefix : nat -> string) required (l : list json) st :
  required <> [] ->
  returns (for_each (enumerate l) (fun '(index, item) =>
             check_required_fields (prefix index) required item))
    (silent_then (forallb (has_required required) l = true) st) st.
Proof.
  intros Hne.
  eapply silent_mono;
    [apply (silent_for_each _ (fun ip => has_required required (snd ip) = true))|].
  - intros [index item] st1. now apply check_required_fields_silent.
  - apply forallb_enumerate.
Qed.

Lemma validate_details_silent details st :
  returns (validate_details details)
    (silent_then
       (exists processors connections,
           lookup "processors" details = Some (JArr processors)
           /\ lookup "connections" details = Some (JArr connections)
           /\ forallb (has_required required_processor_fields) processors = true
           /\ forallb (has_required required_connection_fields) connections = true)
       st) st.
Proof.
  unfold validate_details.
  eapply silent_mono.
  - apply (silent_bind _ _
             (exists processors, lookup "processors" details = Some (JArr processors))).
    + destruct (lookup "processors" details) as [ps|]; [|apply silent_error].
      destruct ps; simpl; try apply silent_error.
      apply silent_ret. eauto.
    + intros st1.
      apply (silent_bind _ _
               (forall processors, lookup "processors" details = Some (JArr processors) ->
                  forallb (has_required required_processor_fields) processors = true)
               (exists connections,
                   lookup "connections" details = Some (JArr connections)
                   /\ forallb (has_required required_connection_fields) connections
                      = true)).
      * destruct (lookup "processors" details) as [ps|];
          [|apply silent_ret; discriminate].
        destruct ps as [| | | | |ps|]; try (apply silent_ret; discriminate).
        eapply silent_mono; [apply check_all_silent; discriminate|].
        intros H processors E. now injection E as <-.
      * intros st2.
        destruct (lookup "connections" details) as [cs|]; [|apply silent_error].
        destruct cs as [| | | | |cs|]; try apply silent_error.
        eapply silent_mono; [apply check_all_silent; discriminate|].
        intros H. eauto.
  - intros [[ps Hp] [Hps (cs & Hc & Hcs)]]. exists ps, cs. auto.
Qed.

Lemma validate_structure_silent st :
  truthy (data st) = true ->
  returns validate_structure
    (silent_then (well_formed_plan (data st) = true) st) st.
Proof.
  intros Ht. unfold validate_structure.
  apply returns_bind, returns_get. cbv zeta. rewrite Ht. cbn [negb]. cbv iota.
  apply returns_bind, returns_lift. intros has_summary Hs.
  eapply silent_mono.
  - apply (silent_bind _ _
             (exists s, field "plan_summary" (data st) = Some (JStr s))
             (exists details, field "plan_details" (data st) = Some (JObj details)
                /\ exists processors connections,
                     lookup "processors" details = Some (JArr processors)
                     /\ lookup "connections" details = Some (JArr connections)
                     /\ forallb (has_required required_processor_fields) processors = true
                     /\ forallb (has_required required_connection_fields) connections
                        = true)).
    + destruct has_summary; simpl; [|apply silent_error].
      apply returns_bind, returns_lift. intros s Hg.
      destruct s; simpl; try apply silent_error.
      apply silent_ret. eexists.
      destruct (data st) as [| | | | | |top]; try discriminate. simpl in *.
      destruct (lookup "plan_summary" top); [now injection Hg as ->|discriminate].
    + intros st1.
      apply returns_bind, returns_lift. intros has_details _.
      destruct has_details; simpl; [|apply silent_error].
      apply returns_bind, returns_lift. intros details Hg.
      destruct details as [| | | | | |dd]; try apply silent_error.
      eapply silent_mono; [apply validate_details_silent|].
      intros H. exists dd. split; [|exact H].
      destruct (data st) as [| | | | | |top]; try discriminate. simpl in *.
      destruct (lookup "plan_details" top); [now injection Hg as ->|discriminate].
  - intros [[s Hs'] (dd & Hd & ps & cs & Hp & Hc & Hps & Hcs)].
    unfold well_formed_plan. rewrite Hs', Hd, Hp, Hc, Hps, Hcs. reflexivity.
Qed.

Lemma well_formed_passes st :
  well_formed_plan (data st) = true -> validate_structure st = (Ok tt, st).
Proof.
  unfold well_formed_plan, field. intros H.
  destruct (data st) as [| | | | | |top] eqn:Hd; try discriminate.
  destruct (lookup "plan_summary" top) as [[| | | |s| |]|] eqn:E1; try discriminate.
  destruct (lookup "plan_details" top) as [[| | | | | |details]|] eqn:E2; try discriminate.
  destruct (lookup "processors" details) as [[| | | | |ps|]|] eqn:E3; try discriminate.
  destruct (lookup "connections" details) as [[| | | | |cs|]|] eqn:E4; try discriminate.
  apply andb_prop in H. destruct H as [Hp Hc].
  assert (Htop : truthy (JObj top) = true) by (destruct top; [discriminate|reflexivity]).
  unfold validate_structure, bind at 1, get. rewrite Hd, Htop.
  unfold bind, lift, py_contains, py_getitem, has_key, when. rewrite E1, E2.
  cbn [negb is_str]. cbv iota beta.
  unfold validate_details. rewrite E3, E4. cbn [negb is_list when ret]. cbv iota beta.
  unfold bind, ret.
  rewrite check_all_ok by assumption.
  now rewrite check_all_ok by assumption.
Qed.

(** X1: the structural check passes in silence on the well-formed plans
    and on no others.  For a plan that is not empty, the check returns with
    the state as it found it exactly when the plan is a dict whose summary
    is a string and whose details are a dict with a list of processors and
    a list of connections, each with all its required fields holding
    values of the required types. *)
Theorem structure_check_exact :
  forall st : St,
    truthy (data st) = true ->
    (validate_structure st = (Ok tt, st) <-> well_formed_plan (data st) = true).
Proof.
  intros st Ht. split.
  - intros H.
    destruct (returns_ok _ _ _ _ _ (validate_structure_silent st Ht) H)
      as (more & Hm & Hwf).
    apply Hwf. now apply (reported_same more st).
  - apply well_formed_passes.
Qed.

Lemma structure_check_exact_witness :
  truthy (data (holding dangling_plan)) = true
  /\ well_formed_plan (data (holding dangling_plan)) = true
  /\ validate_structure (holding dangling_plan) = (Ok tt, holding dangling_plan).
Proof.
  split; [reflexivity|]. split; [reflexivity|].
  apply (structure_check_exact (holding dangling_plan)); reflexivity.
Defined.

(** ** Controller services still to be created *)

Lemma exact_for_each {A} (body : A -> M unit) (msgs : A -> list string) (l : list A) :
  (forall a st, returns (body a) (fun _ st' => st' = reported (msgs a) st) st) ->
  forall st, returns (for_each l body)
               (fun _ st' => st' = reported (flat_map msgs l) st) st.
Proof.
  intros Hb. induction l as [|a l IH]; intros st; simpl.
  - apply returns_ret. now rewrite reported_nil.
  - apply returns_bind. eapply returns_mono; [apply Hb|].
    intros [] st1 ->. cbv beta.
    eapply returns_mono; [apply IH|].
    intros [] st2 ->. apply reported_reported.
Qed.

Lemma placeholder_properties_exact bi index (p_name : json) (items : dict) st :
  returns (for_each items (fun '(prop_name, prop_value) =>
             when (py_eq prop_value (JStr "CREATE_NEW_CS"))
               (append_error (placeholder_error bi index p_name prop_name))))
    (fun _ st' =>
       st' = reported
               (map (placeholder_error bi index p_name)
                  (map fst (filter (fun kv => py_eq (snd kv) (JStr "CREATE_NEW_CS"))
                              items))) st) st.
Proof.
  revert st. induction items as [|[k v] items IH]; intros st; simpl.
  - apply returns_ret. now rewrite reported_nil.
  - apply returns_bind. destruct (py_eq v (JStr "CREATE_NEW_CS")); simpl.
    + apply returns_modify. eapply returns_mono; [apply IH|].
      intros [] st2 ->. apply reported_reported.
    + apply returns_ret. apply IH.
Qed.

Lemma placeholder_processor_exact bi (ip : nat * json) st :
  returns (let '(index, processor) := ip in
           p_name <- lift (py_get processor "name"
                             (JStr ("Processor-" ++ str_of_nat index))) ;;
           properties <- lift (py_get processor "properties" (JObj [])) ;;
           items <- lift (py_items properties) ;;
           for_each items (fun '(prop_name, prop_value) =>
             when (py_eq prop_value (JStr "CREATE_NEW_CS"))
               (append_error (placeholder_error bi index p_name prop_name))))
    (fun _ st' =>
       st' = reported (map (placeholder_error bi (fst ip) (name_of (fst ip) (snd ip)))
                         (placeholders (snd ip))) st) st.
Proof.
  destruct ip as [index processor]. cbv iota beta.
  apply returns_bind, returns_lift. intros p_name Hn.
  apply returns_bind, returns_lift. intros properties Hp.
  apply returns_bind, returns_lift. intros items Hi.
  destruct processor as [| | | | | |kvs]; try discriminate.
  destruct properties as [| | | | | |its]; try discriminate.
  injection Hi as <-. unfold py_get in Hn, Hp. cbn [fst snd].
  assert (En : name_of index (JObj kvs) = p_name).
  { unfold name_of, display_name. destruct (lookup "name" kvs); congruence. }
  assert (Ep : placeholders (JObj kvs)
               = map fst (filter (fun kv => py_eq (snd kv) (JStr "CREATE_NEW_CS")) its)).
  { unfold placeholders. destruct (lookup "properties" kvs) as [v|].
    - injection Hp as ->. reflexivity.
    - injection Hp as <-. reflexivity. }
  rewrite En, Ep. apply placeholder_properties_exact.
Qed.

Lemma skipped_has_no_processors d :
  no_processors d = Ok true -> processors_of d = [].
Proof.
  unfold no_processors, processors_of, field. intros Hs.
  destruct d as [| | | | | |top]; try reflexivity.
  assert (Ht : truthy (JObj top) = true \/ top = [])
    by (destruct top; [now right|now left]).
  destruct Ht as [Ht| ->]; [|reflexivity].
  rewrite Ht in Hs. unfold py_contains, py_getitem, has_key, rbind in Hs.
  destruct (lookup "plan_details" top) as [pd|]; [|reflexivity].
  cbn [negb] in Hs. cbv iota in Hs.
  destruct pd as [| | | | | |kvs]; try reflexivity.
  destruct (lookup "processors" kvs); [discriminate|reflexivity].
Qed.

(** X3: when the check of the controller services returns, what it added
    to the errors is exactly one message for every property whose value is
    the placeholder [CREATE_NEW_CS], processor by processor and property
    by property in the order of the plan, naming the processor and the
    property; nothing else in the state changed.  In particular a plan
    without the placeholder passes without an error. *)
Theorem controller_service_errors_exact :
  forall (bi : Builtins) (st st' : St),
    validate_controller_services bi st = (Ok tt, st') ->
    st' = reported (placeholder_errors bi (processors_of (data st))) st.
Proof.
  intros bi st st' H.
  refine (returns_ok _ (fun _ s => s = reported _ st) _ _ _ _ H).
  clear H st'. unfold validate_controller_services.
  apply returns_bind, returns_get.
  apply returns_bind, returns_lift. intros skip Hs.
  destruct skip.
  - apply returns_ret. rewrite (skipped_has_no_processors _ Hs).
    unfold placeholder_errors. simpl. now rewrite reported_nil.
  - apply returns_bind, returns_lift. intros pd Hpd.
    apply returns_bind, returns_lift. intros processors Hps.
    apply returns_bind, returns_lift. intros l Hl.
    unfold processors_of, field.
    destruct (data st) as [| | | | | |top]; try discriminate.
    simpl in Hpd. destruct (lookup "plan_details" top) as [pd'|]; [|discriminate].
    injection Hpd as ->.
    destruct pd as [| | | | | |kvs]; try discriminate.
    simpl in Hps. destruct (lookup "processors" kvs) as [ps|]; [|discriminate].
    injection Hps as ->.
    destruct processors as [| | | |s|ps|ks]; try discriminate; simpl in Hl;
      injection Hl as <-.
    + (* the characters of a string *)
      destruct (chars s) as [|c cs]; simpl.
      * apply returns_ret. unfold placeholder_errors. simpl. now rewrite reported_nil.
      * unfold enumerate. simpl. apply returns_bind, returns_bind, returns_lift.
        intros a Ha. discriminate.
    + unfold placeholder_errors.
      apply (exact_for_each _
               (fun ip : nat * json =>
                  map (placeholder_error bi (fst ip) (name_of (fst ip) (snd ip)))
                    (placeholders (snd ip)))).
      intros ip st1. apply (placeholder_processor_exact bi ip st1).
    + (* the keys of a dict *)
      destruct ks as [|k ks]; simpl.
      * apply returns_ret. unfold placeholder_errors. simpl. now rewrite reported_nil.
      * unfold enumerate. simpl. apply returns_bind, returns_bind, returns_lift.
        intros a Ha. discriminate.
Qed.

Lemma controller_service_errors_exact_witness :
  exists st',
    validate_controller_services sample_builtins (holding placeholder_plan) = (Ok tt, st')
    /\ errors st'
       = [ placeholder_error sample_builtins 1 (JStr "p2") "Record Reader";
           placeholder_error sample_builtins 1 (JStr "p2")
             "Database Connection Pooling Service" ].
Proof.
  run_as H (validate_controller_services sample_builtins (holding placeholder_plan)).
  eexists. split; [exact H|].
  rewrite (controller_service_errors_exact _ _ _ H). vm_compute. reflexivity.
Defined.

(** ** The structural checker and the ends of the connections *)

Lemma rewire_has_required ends c :
  has_required required_connection_fields c = true ->
  has_required required_connection_fields (rewire ends c) = true.
Proof.
  destruct c as [| | | | | |kvs]; try discriminate.
  unfold has_required, rewire, required_connection_fields. cbn [forallb fst snd].
  rewrite lookup_setitem_other by discriminate. rewrite lookup_setitem_same.
  rewrite lookup_setitem_same.
  rewrite !lookup_setitem_other by discriminate.
  intros H. apply andb_prop in H as [_ H]. apply andb_prop in H as [_ H].
  cbn [isinstance is_str andb]. exact H.
Qed.

Lemma rewired_well_formed (ends : json -> string * string) d connections :
  well_formed_plan d = true ->
  connections_of d = Some connections ->
  well_formed_plan (with_connections (map (fun c => rewire (ends c) c) connections) d)
  = true.
Proof.
  unfold well_formed_plan, connections_of, with_connections, field.
  destruct d as [| | | | | |top]; try discriminate.
  destruct (lookup "plan_summary" top) as [[| | | |s| |]|] eqn:E1; try discriminate.
  destruct (lookup "plan_details" top) as [[| | | | | |details]|] eqn:E2; try discriminate.
  destruct (lookup "processors" details) as [[| | | | |ps|]|] eqn:E3; try discriminate.
  destruct (lookup "connections" details) as [[| | | | |cs|]|] eqn:E4; try discriminate.
  intros H Hc. injection Hc as <-.
  rewrite lookup_setitem_other by discriminate. rewrite E1.
  rewrite lookup_setitem_same.
  rewrite lookup_setitem_other by discriminate. rewrite E3.
  rewrite lookup_setitem_same.
  apply andb_prop in H as [Hp Hcs]. rewrite Hp. cbn [andb].
  rewrite forallb_forall in Hcs. apply forallb_forall.
  intros c' Hin. apply in_map_iff in Hin as (c & <- & Hin).
  apply rewire_has_required. now apply Hcs.
Qed.

(** C2, as amended: the structural checker looks at the presence and the
    type of the fields, and at nothing else.  A plan that is not empty
    passes, with no error and no change, exactly when its summary is a
    string and its details are a dict with a list of processors and a
    list of connections that all carry their required fields with values
    of the required types.  Which ids the connections name plays no part:
    a plan that passes still passes when the ends of its connections are
    replaced by any other strings. *)
Theorem structure_checks_fields_only :
  forall (st : St),
    truthy (data st) = true ->
    (validate_structure st = (Ok tt, st) <-> well_formed_plan (data st) = true)
    /\ forall (connections : list json) (ends : json -> string * string),
         validate_structure st = (Ok tt, st) ->
         connections_of (data st) = Some connections ->
         let rewired :=
           set_data (with_connections (map (fun c => rewire (ends c) c) connections)
                       (data st)) st in
         validate_structure rewired = (Ok tt, rewired).
Proof.
  intros st Ht.
  assert (Hiff : validate_structure st = (Ok tt, st) <-> well_formed_plan (data st) = true).
  { split.
    - intros H.
      destruct (returns_ok _ _ _ _ _ (validate_structure_silent st Ht) H)
        as (more & Hm & Hwf).
      apply Hwf. now apply (reported_same more st).
    - apply well_formed_passes. }
  split; [exact Hiff|].
  intros connections ends Hp Hc rewired. apply well_formed_passes.
  subst rewired. cbn [data set_data]. apply rewired_well_formed; [|exact Hc].
  now apply Hiff.
Qed.

Lemma structure_checks_fields_only_witness :
  truthy (data (holding dangling_plan)) = true
  /\ existsb (dangling dangling_processors) dangling_connections = true
  /\ (let rewired :=
        set_data dangling_plan
          (holding (plan_doc "demo" dangling_processors
                      [connection "p1" "p1" ["success"]])) in
      validate_structure rewired = (Ok tt, rewired))
  /\ validate_structure (holding (plan_doc "demo" dangling_processors
                                   [connection "p1" "p1" ["success"]]))
     = (Ok tt, holding (plan_doc "demo" dangling_processors
                          [connection "p1" "p1" ["success"]])).
Proof.
  split; [reflexivity|]. split; [reflexivity|].
  destruct (structure_checks_fields_only (holding (plan_doc "demo" dangling_processors
                                                     [connection "p1" "p1" ["success"]]))
              eq_refl) as [Hiff Hrewire].
  pose proof (proj2 Hiff eq_refl) as Hpass.
  split; [|exact Hpass].
  exact (Hrewire [connection "p1" "p1" ["success"]] (fun _ => ("ghost", "nowhere"))
           Hpass eq_refl).
Defined.

(** C2, as stated, fails: the only connection of [dangling_plan] goes from
    "ghost" to "nowhere", neither of which is the id of a processor, and
    the structural checker returns without having recorded any error. *)
Lemma dangling_connection_passes :
  existsb (dangling dangling_processors) dangling_connections = true /\
  fst (validate_structure (holding dangling_plan)) = Ok tt /\
  errors (snd (validate_structure (holding dangling_plan))) = [].
Proof. repeat split; vm_compute; reflexivity. Qed.

(** ** Errors are only added *)

Lemma errors_grow_refl st : errors_grow st st.
Proof. exists []. now rewrite app_nil_r. Qed.

Lemma errors_grow_trans a b c : errors_grow a b -> errors_grow b c -> errors_grow a c.
Proof.
  intros [m1 H1] [m2 H2]. exists (m1 ++ m2). now rewrite H2, H1, app_assoc.
Qed.

Lemma errors_grow_same a b : errors b = errors a -> errors_grow a b.
Proof. intros H. exists []. now rewrite app_nil_r. Qed.

Lemma errors_grow_more st more f :
  errors (f st) = errors st ++ more -> errors_grow st (f st).
Proof. intros H. now exists more. Qed.

(** A step is broken into its parts; a state change either keeps the
    errors or appends to them. *)
Ltac errors_kept :=
  repeat match goal with
         | |- preserves _ (append_error _) => unfold append_error
         | |- errors_grow ?st (set_errors (errors ?st ++ ?more) ?st) => now exists more
         | |- errors_grow _ _ => apply errors_grow_same; reflexivity
         | |- preserves _ (try_request _ _) =>
             apply (preserves_try_request _ errors_grow_trans); [|intro]
         | _ => progress preserve_with errors_grow_refl errors_grow_trans
         end.

Section ErrorsGrow.

Variable bi : Builtins.
Variable cfg : Config.
Variable env : Env.

Lemma check_required_fields_grow prefix required item :
  preserves errors_grow (check_required_fields prefix required item).
Proof. unfold check_required_fields. errors_kept. Qed.

Lemma validate_structure_grow : preserves errors_grow validate_structure.
Proof.
  intros st. destruct (validate_structure_reports st) as [more H].
  rewrite H. now exists more.
Qed.

Lemma validate_controller_services_grow :
  preserves errors_grow (validate_controller_services bi).
Proof.
  intros st. destruct (validate_controller_services_reports bi st) as [more H].
  rewrite H. now exists more.
Qed.

Lemma fetch_grow : preserves errors_grow (fetch_nifi_processor_types cfg env).
Proof. unfold fetch_nifi_processor_types. errors_kept. Qed.

Lemma resolve_processor_type_grow index processor changed :
  preserves errors_grow (resolve_processor_type bi index processor changed).
Proof. unfold resolve_processor_type. errors_kept. Qed.

Lemma resolve_all_grow l : forall changed,
  preserves errors_grow (resolve_all bi l changed).
Proof.
  induction l as [|[index processor] l IH]; intros changed; simpl.
  - apply (preserves_ret _ errors_grow_refl).
  - apply (preserves_bind _ errors_grow_trans);
      [apply resolve_processor_type_grow|intro; apply IH].
Qed.

Lemma validate_processor_types_grow :
  preserves errors_grow (validate_processor_types bi cfg env).
Proof.
  unfold validate_processor_types.
  repeat match goal with
         | |- preserves _ (fetch_nifi_processor_types _ _) => apply fetch_grow
         | |- preserves _ (resolve_all _ _ _) => apply resolve_all_grow
         | _ => progress errors_kept
         end.
Qed.

Lemma initial_checks_grow : preserves errors_grow (initial_checks bi cfg env).
Proof.
  unfold initial_checks.
  apply (preserves_bind _ errors_grow_trans); [apply validate_structure_grow|intro].
  apply (preserves_bind _ errors_grow_trans); [apply validate_processor_types_grow|intro].
  apply validate_controller_services_grow.
Qed.

Lemma generate_content_grow request : preserves errors_grow (generate_content env request).
Proof. unfold generate_content. errors_kept. Qed.

Lemma resolve_validation_grow pc errs descs :
  preserves errors_grow (resolve_validation_errors_with_llm bi cfg env pc errs descs).
Proof.
  intros st.
  destruct (resolve_validation_spec bi cfg env pc errs descs st)
    as [[_ H]|[[e H]|(ctx & _ & H)]]; rewrite H; apply errors_grow_same; reflexivity.
Qed.

Lemma resolve_scheduling_grow sc msg :
  preserves errors_grow (resolve_scheduling_errors_with_llm bi cfg env sc msg).
Proof.
  intros st.
  destruct (resolve_scheduling_spec bi cfg env sc msg st) as [[_ H]|[_ H]];
    rewrite H; apply errors_grow_same; reflexivity.
Qed.

Lemma auto_correct_property_grow index had prop_name av :
  preserves errors_grow (auto_correct_property index had prop_name av).
Proof. unfold auto_correct_property. errors_kept. Qed.

Lemma inspect_grow index p_name p_id had cm loc proc_data :
  preserves errors_grow (inspect bi index p_name p_id had cm loc proc_data).
Proof.
  unfold inspect, auto_correct, auto_correct_descriptor.
  repeat match goal with
         | |- preserves _ (auto_correct_property _ _ _ _) =>
             apply auto_correct_property_grow
         | _ => progress errors_kept
         end.
Qed.

Lemma delete_processor_grow the_id version proc_data :
  preserves errors_grow (delete_processor env the_id version proc_data).
Proof. unfold delete_processor. errors_kept. Qed.

Lemma after_delete_grow index p_name p_type retry_count proc_data i :
  preserves errors_grow (after_delete bi cfg env index p_name p_type retry_count proc_data i).
Proof.
  unfold after_delete.
  repeat match goal with
         | |- preserves _ (resolve_validation_errors_with_llm _ _ _ _ _ _) =>
             apply resolve_validation_grow
         | _ => progress errors_kept
         end.
Qed.

Lemma creation_refused_grow index p_name retry_count status_code error_text :
  preserves errors_grow
    (creation_refused bi cfg env index p_name retry_count status_code error_text).
Proof.
  unfold creation_refused.
  repeat match goal with
         | |- preserves _ (resolve_scheduling_errors_with_llm _ _ _ _ _) =>
             apply resolve_scheduling_grow
         | _ => progress errors_kept
         end.
Qed.

Lemma attempt_grow index p_name p_type p_id cm retry_count loc :
  preserves errors_grow (attempt bi cfg env index p_name p_type p_id cm retry_count loc).
Proof.
  unfold attempt, attempt_body.
  repeat match goal with
         | |- preserves _ (inspect _ _ _ _ _ _ _ _) => apply inspect_grow
         | |- preserves _ (delete_processor _ _ _ _) => apply delete_processor_grow
         | |- preserves _ (after_delete _ _ _ _ _ _ _ _ _) => apply after_delete_grow
         | |- preserves _ (creation_refused _ _ _ _ _ _ _ _) =>
             apply creation_refused_grow
         | _ => progress errors_kept
         end.
Qed.

Lemma attempts_grow index p_name p_type p_id cm : forall remaining retry_count loc,
  preserves errors_grow
    (attempts bi cfg env remaining index p_name p_type p_id cm retry_count loc).
Proof.
  induction remaining as [|remaining IH]; intros retry_count loc; simpl.
  - apply (preserves_ret _ errors_grow_refl).
  - apply (preserves_bind _ errors_grow_trans); [apply attempt_grow|].
    intros [[|] loc']; [apply IH|apply (preserves_ret _ errors_grow_refl)].
Qed.

Lemma validate_each_grow cm : forall l loc,
  preserves errors_grow (validate_each bi cfg env cm l loc).
Proof.
  induction l as [|[index processor] l IH]; intros loc; simpl.
  - apply (preserves_ret _ errors_grow_refl).
  - apply (preserves_bind _ errors_grow_trans); [|intro; apply IH].
    unfold validate_one.
    repeat (apply (preserves_bind _ errors_grow_trans);
            [first [apply (preserves_lift _ errors_grow_refl)
                   |apply (preserves_console_print _ errors_grow_refl)]|intro]).
    apply attempts_grow.
Qed.

Lemma validate_processor_configuration_grow :
  preserves errors_grow (validate_processor_configuration bi cfg env).
Proof.
  unfold validate_processor_configuration.
  repeat match goal with
         | |- preserves _ (validate_each _ _ _ _ _ _) => apply validate_each_grow
         | _ => progress errors_kept
         end.
Qed.

Lemma save_plan_grow : preserves errors_grow (save_plan bi cfg env).
Proof. unfold save_plan. errors_kept. Qed.

Lemma resolve_structure_grow :
  preserves errors_grow (resolve_structure_errors_with_llm bi cfg env).
Proof.
  unfold resolve_structure_errors_with_llm.
  repeat match goal with
         | |- preserves _ (fetch_nifi_processor_types _ _) => apply fetch_grow
         | |- preserves _ (generate_content _ _) => apply generate_content_grow
         | _ => progress errors_kept
         end.
Qed.

(** X4: no step of a pass drops or reorders an error that was recorded
    before it: the initial checks, the sandbox validation, the repair of
    the structure and the save of the plan each leave the list of errors
    they found as a prefix of the list they leave, whether they return or
    raise. *)
Theorem errors_are_only_added :
  forall st : St,
    errors_grow st (snd (initial_checks bi cfg env st))
    /\ errors_grow st (snd (validate_processor_configuration bi cfg env st))
    /\ errors_grow st (snd (repair_step bi cfg env st))
    /\ errors_grow st (snd (save_plan bi cfg env st)).
Proof.
  intros st. repeat split.
  - apply initial_checks_grow.
  - apply validate_processor_configuration_grow.
  - unfold repair_step.
    apply (preserves_bind _ errors_grow_trans); [apply resolve_structure_grow|].
    intros [|]; [apply save_plan_grow|apply (preserves_ret _ errors_grow_refl)].
  - apply save_plan_grow.
Qed.

End ErrorsGrow.

(** ** Type resolution over the whole plan *)

Lemma py_eq_str a f : py_eq a (JStr f) = true -> a = JStr f.
Proof.
  destruct a as [|b|z|q|s|l|kvs]; simpl; try discriminate;
    try (destruct b; discriminate).
  intros H. apply String.eqb_eq in H. now subst.
Qed.

Lemma key_vmem {V} f (catalog : vdict V) :
  In (JStr f) (map fst catalog) -> vmem (JStr f) catalog = Ok true.
Proof.
  unfold vmem. simpl. induction catalog as [|[k v] c IH]; simpl; [contradiction|].
  intros [->|H].
  - simpl. now rewrite String.eqb_refl.
  - destruct (match k with JStr t => (f =? t)%string | _ => false end);
      [reflexivity|]. now apply IH.
Qed.

Lemma rmap_all_ok {A B} (f : A -> result B) (l : list A) bs :
  rmap f l = Ok bs -> forall a, In a l -> exists b, f a = Ok b.
Proof.
  revert bs. induction l as [|x l IH]; intros bs H a Ha; [contradiction|].
  simpl in H. unfold rbind in H.
  destruct (f x) as [b|e] eqn:Ex; [|discriminate].
  destruct (rmap f l) as [bs'|e] eqn:El; [|discriminate].
  destruct Ha as [<-|Ha]; [now exists b|]. now apply (IH bs').
Qed.

Lemma possible_matches_keys bi t (catalog : vdict json) ms :
  possible_matches bi t catalog = Ok ms ->
  forall m, In m ms -> exists f, m = JStr f /\ In m (map fst catalog).
Proof.
  unfold possible_matches, rbind. intros H m Hm.
  destruct (rmap _ (map fst catalog)) as [flags|e] eqn:E; [|discriminate].
  injection H as <-.
  apply in_map_iff in Hm. destruct Hm as ([k flag] & <- & Hin).
  apply filter_In in Hin. destruct Hin as [Hin _]. apply in_combine_l in Hin.
  simpl. destruct (rmap_all_ok _ _ _ E k Hin) as [b Hb].
  destruct k as [| | | |f| |]; try discriminate. now exists f.
Qed.

Section WholePlan.

Variable bi : Builtins.

(** What one turn of the loop leaves when it returns. *)
Lemma resolve_turn_cases index p changed st changed' st' :
  resolve_processor_type bi index p changed st = (Ok changed', st') ->
  (st' = st /\ changed' = changed
   /\ type_known (available_processor_types st) p = true)
  \/ (exists msg, st' = set_errors (errors st ++ [msg]) st /\ changed' = changed)
  \/ (exists kvs m,
        p = JObj kvs /\ vmem m (available_processor_types st) = Ok true
        /\ changed' = true
        /\ st' = set_data (assign_processor_field index "type" m (data st)) st).
Proof.
  unfold resolve_processor_type. intros H.
  destruct p as [| | | | | |kvs]; try discriminate.
  unfold bind at 1, lift at 1, py_get at 1 in H.
  unfold bind at 1, lift at 1, py_get at 1 in H.
  unfold type_known.
  destruct (lookup "type" kvs) as [t|] eqn:Et.
  2:{ destruct (lookup "name" kvs); simpl in H; unfold ret in H; injection H as <- <-;
      left; auto. }
  assert (H' :
    (if negb (truthy t) then ret changed else
     st0 <- get ;;
     known <- lift (vmem t (available_processor_types st0)) ;;
     if known then ret changed else
     matches <- lift (possible_matches bi t (available_processor_types st0)) ;;
     match matches with
     | [matched_fqcn] =>
         current <- lift (py_getitem (JObj kvs) "type") ;;
         if negb (py_eq current matched_fqcn) then
           console_print bi
             (type_update_text bi (display_name index kvs) t matched_fqcn) ;;;
           modify (fun st => set_data
                     (assign_processor_field index "type" matched_fqcn (data st)) st) ;;;
           ret true
         else ret changed
     | _ :: _ :: _ =>
         append_error (ambiguous_type_error bi index (display_name index kvs) t matches) ;;;
         ret changed
     | [] =>
         append_error (unknown_type_error bi index (display_name index kvs) t) ;;;
         ret changed
     end) st = (Ok changed', st')).
  { unfold display_name. destruct (lookup "name" kvs); exact H. }
  clear H. rename H' into H.
  destruct (truthy t) eqn:Tt; cbn [negb] in H; cbv iota in H.
  2:{ unfold ret in H. injection H as <- <-. left. auto. }
  unfold bind at 1, get at 1 in H. cbv iota beta in H.
  unfold bind at 1, lift at 1 in H.
  destruct (vmem t (available_processor_types st)) as [[|]|e] eqn:Ek;
    cbv iota beta in H; [| |discriminate].
  { unfold ret in H. injection H as <- <-. left. split; [reflexivity|].
    split; [reflexivity|]. apply orb_true_r. }
  unfold bind at 1, lift at 1 in H.
  destruct (possible_matches bi t (available_processor_types st)) as [ms|e] eqn:Em;
    cbv iota beta in H; [|discriminate].
  destruct ms as [|m [|m' ms]].
  - right. left. eexists. unfold bind, append_error, modify, ret in H.
    injection H as <- <-. split; reflexivity.
  - unfold bind at 1, lift at 1, py_getitem in H. rewrite Et in H. cbv iota beta in H.
    destruct (possible_matches_keys _ _ _ _ Em m (or_introl eq_refl)) as (f & -> & Hin).
    destruct (py_eq t (JStr f)) eqn:Ee; cbn [negb] in H; cbv iota in H.
    + apply py_eq_str in Ee. subst t. rewrite (key_vmem f _ Hin) in Ek. discriminate.
    + right. right. exists kvs, (JStr f).
      unfold bind at 1 in H.
      match type of H with
      | context [console_print bi ?x ?s] =>
          destruct (console_print_cases bi x s) as [E|E]; rewrite E in H; clear E
      end; [|discriminate].
      unfold bind, modify, ret in H. injection H as <- <-.
      split; [reflexivity|]. split; [now apply key_vmem|]. split; reflexivity.
  - right. left. eexists. unfold bind, append_error, modify, ret in H.
    injection H as <- <-. split; reflexivity.
Qed.

Lemma replace_nth_app {A} (done : list A) x y rest :
  replace_nth (List.length done) x (done ++ y :: rest) = done ++ x :: rest.
Proof. induction done as [|a done IH]; simpl; [reflexivity|now rewrite IH]. Qed.

Lemma nth_error_middle {A} (done : list A) y rest :
  nth_error (done ++ y :: rest) (List.length done) = Some y.
Proof. induction done as [|a done IH]; simpl; [reflexivity|exact IH]. Qed.

Lemma assign_shape fld v d top pd done kvs rest :
  plan_shape d top pd (done ++ JObj kvs :: rest) ->
  exists top' pd',
    plan_shape (assign_processor_field (List.length done) fld v d) top' pd'
      (done ++ JObj (setitem fld v kvs) :: rest).
Proof.
  intros (-> & E1 & E2). unfold assign_processor_field.
  rewrite E1, E2, nth_error_middle, replace_nth_app.
  do 2 eexists. split; [reflexivity|].
  split; [apply lookup_setitem_same|apply lookup_setitem_same].
Qed.

Lemma errors_between a b c :
  errors_grow a b -> errors_grow b c -> errors c = errors a ->
  errors b = errors a /\ errors c = errors b.
Proof.
  intros [m1 H1] [m2 H2] H. rewrite H2, H1, <- app_assoc in H.
  rewrite <- (app_nil_r (errors a)) in H at 2.
  apply app_inv_head in H. apply app_eq_nil in H. destruct H as [-> ->].
  rewrite app_nil_r in H1. rewrite app_nil_r in H2. auto.
Qed.

(** The loop over the processors, from the processor it has reached. *)
Lemma resolve_all_resolves : forall suffix done changed st b st' top pd,
  plan_shape (data st) top pd (done ++ suffix) ->
  resolve_all bi (combine (seq (List.length done) (List.length suffix)) suffix)
    changed st = (Ok b, st') ->
  errors st' = errors st ->
  available_processor_types st' = available_processor_types st
  /\ exists top' pd' suffix',
       plan_shape (data st') top' pd' (done ++ suffix')
       /\ forallb (type_known (available_processor_types st)) suffix' = true.
Proof.
  induction suffix as [|p rest IH]; intros done changed st b st' top pd Hs H He.
  - simpl in H. unfold ret in H. injection H as <- <-.
    split; [reflexivity|]. now exists top, pd, [].
  - simpl in H. unfold bind at 1 in H.
    destruct (resolve_processor_type bi (List.length done) p changed st)
      as [[c1|e] s1] eqn:Et; [|discriminate].
    pose proof (resolve_processor_type_grow bi (List.length done) p changed st) as G1.
    rewrite Et in G1. simpl in G1.
    pose proof (resolve_all_grow bi
                  (combine (seq (S (List.length done)) (List.length rest)) rest) c1 s1)
      as G2.
    rewrite H in G2. simpl in G2.
    destruct (errors_between _ _ _ G1 G2 He) as [He1 He2].
    assert (Hlen : forall x : json, S (List.length done) = List.length (done ++ [x]))
      by (intros x; rewrite length_app; simpl; lia).
    destruct (resolve_turn_cases _ _ _ _ _ _ Et)
      as [(-> & _ & Hk)|[(msg & -> & _)|(kvs & m & -> & Hm & _ & ->)]].
    + rewrite (Hlen p) in H.
      destruct (IH (done ++ [p]) c1 st b st' top pd) as (Hc & top' & pd' & suffix' & Hs' & Hf);
        [now rewrite <- app_assoc|exact H|exact He|].
      split; [exact Hc|]. exists top', pd', (p :: suffix').
      split; [now rewrite <- app_assoc in Hs'|]. simpl. now rewrite Hk.
    + simpl in He1. rewrite <- (app_nil_r (errors st)) in He1 at 2.
      apply app_inv_head in He1. discriminate.
    + destruct (assign_shape "type" m _ _ _ _ _ _ Hs) as (top1 & pd1 & Hs1).
      rewrite (Hlen (JObj (setitem "type" m kvs))) in H.
      destruct (IH (done ++ [JObj (setitem "type" m kvs)]) c1
                  (set_data (assign_processor_field (List.length done) "type" m (data st))
                     st) b st' top1 pd1)
        as (Hc & top' & pd' & suffix' & Hs' & Hf);
        [simpl; now rewrite <- app_assoc|exact H|exact He2|].
      split; [exact Hc|].
      exists top', pd', (JObj (setitem "type" m kvs) :: suffix').
      split; [now rewrite <- app_assoc in Hs'|].
      simpl in Hf |- *. rewrite Hf, andb_true_r.
      rewrite lookup_setitem_same, Hm. apply orb_true_r.
Qed.

Variable cfg : Config.
Variable env : Env.

(** A fetch that fails has said why. *)
Lemma fetch_false_reports st st' :
  fetch_nifi_processor_types cfg env st = (Ok false, st') ->
  exists msg, errors st' = errors st ++ [msg]
              /\ data st' = data st
              /\ changes_made st' = changes_made st
              /\ available_processor_types st' = available_processor_types st.
Proof.
  unfold fetch_nifi_processor_types. intros H.
  destruct (negb (env_truthy (nifi_base_url cfg))).
  { unfold bind, append_error, modify, ret in H. injection H as <-.
    eexists. now repeat split. }
  unfold bind at 1, get at 1 in H. cbv iota beta zeta in H.
  unfold bind at 1, modify at 1 in H. cbv iota beta in H.
  destruct (get_reply env (count_events is_get st)) as [msg|types_data].
  { unfold bind, append_error, modify, ret in H. injection H as <-.
    eexists. now repeat split. }
  unfold bind at 1, lift at 1 in H.
  destruct (py_contains "processorTypes" types_data) as [[|]|e]; [| |discriminate].
  - exfalso. cbv iota beta in H.
    unfold bind at 1, lift at 1 in H.
    destruct (py_getitem types_data "processorTypes") as [pts|]; [|discriminate].
    cbv iota beta in H. unfold bind at 1, lift at 1 in H.
    destruct (py_iter pts); [|discriminate].
    cbv iota beta in H. unfold bind at 1 in H.
    destruct (for_each _ _ _) as [[[]|e] s]; [|discriminate].
    unfold ret in H. discriminate.
  - unfold bind, append_error, modify, ret in H. injection H as <-.
    eexists. now repeat split.
Qed.

Lemma shape_processors d top pd ps :
  plan_shape d top pd ps -> processors_of d = ps.
Proof.
  intros (-> & E1 & E2). unfold processors_of, field. now rewrite E1, E2.
Qed.

Lemma enumerate_cons {A} (a : A) l :
  enumerate (a :: l) = (0%nat, a) :: combine (seq 1 (List.length l)) l.
Proof. reflexivity. Qed.

(** X5: a pass of the type validation that returns without a new error
    leaves every type resolved: each processor of the plan in memory is a
    dict whose type is missing, empty or an identifier of the catalog the
    validator holds. *)
Theorem clean_type_pass_resolves :
  forall st st' : St,
    validate_processor_types bi cfg env st = (Ok tt, st') ->
    errors st' = errors st ->
    forallb (type_known (available_processor_types st')) (processors_of (data st'))
    = true.
Proof.
  intros st st' H He. unfold validate_processor_types in H.
  unfold bind at 1, get at 1 in H. cbv iota beta in H.
  unfold bind at 1, lift at 1 in H.
  destruct (no_processors (data st)) as [[|]|e] eqn:Hskip; [| |discriminate];
    cbv iota beta in H.
  { unfold ret in H. injection H as <-.
    now rewrite (skipped_has_no_processors _ Hskip). }
  unfold bind at 1 in H.
  destruct (match available_processor_types st with
            | [] => fetch_nifi_processor_types cfg env
            | _ :: _ => ret true
            end st) as [[success|e] s1] eqn:Hf; [|discriminate].
  assert (G1 : errors_grow st s1 /\ data s1 = data st).
  { destruct (available_processor_types st).
    - pose proof (fetch_grow cfg env st) as G. pose proof (fetch_same_plan cfg env st) as P.
      rewrite Hf in G, P. split; [exact G|apply P].
    - unfold ret in Hf. injection Hf as _ <-. split; [apply errors_grow_refl|reflexivity]. }
  destruct G1 as [G1 Hd1].
  destruct success; cbn [negb] in H; cbv iota in H.
  2:{ unfold ret in H. injection H as <-.
      destruct (available_processor_types st); [|discriminate].
      destruct (fetch_false_reports _ _ Hf) as (msg & Hm & _).
      rewrite Hm in He. rewrite <- (app_nil_r (errors st)) in He at 2.
      apply app_inv_head in He. discriminate. }
  unfold bind at 1, get at 1 in H. cbv iota beta in H.
  unfold bind at 1, lift at 1 in H.
  destruct (data s1) as [| | | | | |top] eqn:Ed; try discriminate.
  unfold py_getitem at 1 in H.
  destruct (lookup "plan_details" top) as [pd|] eqn:E1; [|discriminate].
  cbv iota beta in H. unfold bind at 1, lift at 1 in H.
  destruct pd as [| | | | | |pdk]; try discriminate.
  unfold py_getitem at 1 in H.
  destruct (lookup "processors" pdk) as [processors|] eqn:E2; [|discriminate].
  cbv iota beta in H. unfold bind at 1, lift at 1 in H.
  destruct (py_iter processors) as [l|e] eqn:El; [|discriminate].
  cbv iota beta in H. unfold bind at 1 in H.
  destruct (resolve_all bi (enumerate l) false s1) as [[changed|e] s2] eqn:Hr;
    [|discriminate].
  unfold modify in H. injection H as <-.
  cbn [available_processor_types data set_changes_made].
  pose proof (resolve_all_grow bi (enumerate l) false s1) as G2.
  rewrite Hr in G2. simpl in G2.
  destruct (errors_between _ _ _ G1 G2 He) as [_ He2].
  destruct processors as [| | | |s|ps|ks]; try discriminate; simpl in El;
    injection El as <-.
  - destruct (chars s) as [|c cs].
    + simpl in Hr. unfold ret in Hr. injection Hr as _ <-. rewrite Ed.
      unfold processors_of, field. now rewrite E1, E2.
    + simpl map in Hr. rewrite enumerate_cons in Hr. simpl in Hr. discriminate.
  - destruct (resolve_all_resolves ps [] false s1 changed s2 top pdk)
      as (Hc & top' & pd' & suffix' & Hs' & Hk); [now rewrite Ed|exact Hr|exact He2|].
    rewrite (shape_processors _ _ _ _ Hs'). simpl. now rewrite Hc.
  - destruct ks as [|k ks].
    + simpl in Hr. unfold ret in Hr. injection Hr as _ <-. rewrite Ed.
      unfold processors_of, field. now rewrite E1, E2.
    + simpl map in Hr. rewrite enumerate_cons in Hr. simpl in Hr. discriminate.
Qed.

(** A processor whose type is known is passed over. *)
Lemma known_type_skipped index p changed st :
  type_known (available_processor_types st) p = true ->
  resolve_processor_type bi index p changed st = (Ok changed, st).
Proof.
  unfold type_known, resolve_processor_type. intros H.
  destruct p as [| | | | | |kvs]; try discriminate.
  unfold bind at 1, lift at 1, py_get at 1.
  unfold bind at 1, lift at 1, py_get at 1.
  destruct (lookup "type" kvs) as [t|]; [|now destruct (lookup "name" kvs)].
  assert (E :
    (if negb (truthy t) then ret changed else
     st0 <- get ;;
     known <- lift (vmem t (available_processor_types st0)) ;;
     if known then ret changed else
     matches <- lift (possible_matches bi t (available_processor_types st0)) ;;
     match matches with
     | [matched_fqcn] =>
         current <- lift (py_getitem (JObj kvs) "type") ;;
         if negb (py_eq current matched_fqcn) then
           console_print bi
             (type_update_text bi (display_name index kvs) t matched_fqcn) ;;;
           modify (fun st => set_data
                     (assign_processor_field index "type" matched_fqcn (data st)) st) ;;;
           ret true
         else ret changed
     | _ :: _ :: _ =>
         append_error (ambiguous_type_error bi index (display_name index kvs) t matches) ;;;
         ret changed
     | [] =>
         append_error (unknown_type_error bi index (display_name index kvs) t) ;;;
         ret changed
     end) st = (Ok changed, st)).
  { destruct (truthy t); simpl in *; [|reflexivity].
    unfold bind, get, lift.
    destruct (vmem t (available_processor_types st)) as [[|]|]; try discriminate.
    reflexivity. }
  unfold display_name in E. destruct (lookup "name" kvs); exact E.
Qed.

Lemma known_types_skipped : forall l changed st,
  forallb (fun ip => type_known (available_processor_types st) (snd ip)) l = true ->
  resolve_all bi l changed st = (Ok changed, st).
Proof.
  induction l as [|[index p] l IH]; intros changed st H; simpl in *; [reflexivity|].
  apply andb_prop in H. destruct H as [Hp Hl].
  unfold bind. rewrite (known_type_skipped _ _ _ _ Hp). now apply IH.
Qed.

Lemma forallb_snd_enumerate {A} (f : A -> bool) (l : list A) :
  forallb f l = true -> forallb (fun ip => f (snd ip)) (enumerate l) = true.
Proof.
  unfold enumerate. generalize 0%nat.
  induction l as [|a l IH]; intros n H; simpl in *; [reflexivity|].
  apply andb_prop in H. destruct H as [Ha Hl]. rewrite Ha. simpl. now apply IH.
Qed.

(** X6: type validation leaves a resolved plan alone.  When the validator
    already holds a catalog and every processor of the plan has a type
    that is missing, empty or an identifier of that catalog, the type
    validation returns without a request, without an error and without a
    change to the plan, and it sets the dirty flag to false. *)
Theorem resolved_plan_passes :
  forall (st : St) (top pd : dict) (processors : list json),
    available_processor_types st <> [] ->
    plan_shape (data st) top pd processors ->
    forallb (type_known (available_processor_types st)) processors = true ->
    validate_processor_types bi cfg env st = (Ok tt, set_changes_made false st).
Proof.
  intros st top pd ps Hc (Hd & E1 & E2) Hk.
  assert (Ht : truthy (JObj top) = true) by (destruct top; [discriminate|reflexivity]).
  unfold validate_processor_types, bind at 1, get at 1. cbv iota beta.
  unfold bind at 1, lift at 1, no_processors. rewrite Hd, Ht.
  unfold py_contains, py_getitem, has_key, rbind. rewrite E1. cbn [negb]. cbv iota beta.
  rewrite E2. cbn [negb]. cbv iota beta.
  unfold bind at 1.
  destruct (available_processor_types st) as [|entry catalog] eqn:Ec; [contradiction|].
  unfold ret at 1. cbn [negb]. cbv iota beta.
  unfold bind at 1, get at 1. cbv iota beta. rewrite Hd.
  unfold bind at 1, lift at 1. rewrite E1. cbv iota beta.
  unfold bind at 1, lift at 1. rewrite E2. cbv iota beta.
  unfold bind at 1, lift at 1, py_iter. cbv iota beta.
  unfold bind.
  rewrite known_types_skipped; [reflexivity|].
  rewrite Ec. now apply forallb_snd_enumerate.
Qed.

End WholePlan.

Lemma clean_type_pass_resolves_witness :
  exists st',
    validate_processor_types sample_builtins without_oracle catalog_runtime
      (holding short_type_plan) = (Ok tt, st')
    /\ errors st' = errors (holding short_type_plan)
    /\ data st' <> short_type_plan
    /\ forallb (type_known (available_processor_types st')) (processors_of (data st'))
       = true.
Proof.
  run_as H (validate_processor_types sample_builtins without_oracle catalog_runtime
              (holding short_type_plan)).
  eexists. split; [exact H|]. split; [reflexivity|].
  split; [intros E; vm_compute in E; discriminate E|].
  exact (clean_type_pass_resolves _ _ _ _ _ H eq_refl).
Defined.

Lemma resolved_plan_passes_witness :
  let st := holding_with dangling_plan ["org.apache.nifi.processors.standard.GenerateFlowFile"] in
  validate_processor_types sample_builtins without_oracle catalog_runtime st
  = (Ok tt, set_changes_made false st).
Proof.
  intros st.
  apply (resolved_plan_passes sample_builtins without_oracle catalog_runtime st
           [("plan_summary", JStr "demo");
            ("plan_details", JObj [("processors", JArr dangling_processors);
                                   ("connections", JArr dangling_connections)])]
           [("processors", JArr dangling_processors);
            ("connections", JArr dangling_connections)]
           dangling_processors).
  - discriminate.
  - repeat split.
  - vm_compute. reflexivity.
Defined.

(** ** The catalog of types *)

Lemma py_eq_str_l b k : py_eq (JStr b) k = true -> k = JStr b.
Proof.
  destruct k; simpl; try discriminate.
  intros H. apply String.eqb_eq in H. now subst.
Qed.

Lemma vlookup_vset {V} a b (v : V) (d : vdict V) :
  vlookup (JStr a) (vset (JStr b) v d)
  = if (a =? b)%string then Some v else vlookup (JStr a) d.
Proof.
  induction d as [|[k v'] d IH].
  - reflexivity.
  - cbn [vset vlookup]. destruct (py_eq (JStr b) k) eqn:Eb.
    + apply py_eq_str_l in Eb. subst k. cbn [vlookup]. simpl.
      now destruct (a =? b)%string.
    + cbn [vlookup]. rewrite IH.
      destruct (a =? b)%string eqn:Eab; [|reflexivity].
      apply String.eqb_eq in Eab. subst a. now rewrite Eb.
Qed.

Lemma find_snoc {A} (p : A -> bool) l x :
  find p (l ++ [x]) = match find p l with
                      | Some y => Some y
                      | None => if p x then Some x else None
                      end.
Proof.
  induction l as [|a l IH]; simpl; [reflexivity|].
  destruct (p a); [reflexivity|exact IH].
Qed.

Section Catalog.

Variable bi : Builtins.
Variable cfg : Config.
Variable env : Env.

(** The loop that files the entries of the answer under their types. *)
Lemma file_entries entries : forall st,
  forallb typed_entry entries = true ->
  exists catalog,
    for_each entries (fun pt =>
      k <- lift (py_getitem pt "type") ;;
      if hashable k then
        modify (fun st => set_types (vset k pt (available_processor_types st)) st)
      else raise TypeError) st
    = (Ok tt, set_types catalog st)
    /\ forall name,
         vlookup (JStr name) catalog
         = match last_entry name entries with
           | Some e => Some e
           | None => vlookup (JStr name) (available_processor_types st)
           end.
Proof.
  induction entries as [|e entries IH]; intros st H.
  - exists (available_processor_types st). split; [now destruct st|].
    intros name. reflexivity.
  - simpl in H. apply andb_prop in H. destruct H as [He Hes].
    unfold typed_entry, field in He.
    destruct e as [| | | | | |kvs]; try discriminate.
    destruct (lookup "type" kvs) as [[| | | |t| |]|] eqn:Et; try discriminate.
    destruct (IH (set_types (vset (JStr t) (JObj kvs) (available_processor_types st)) st)
                Hes) as (catalog & Hrun & Hlook).
    exists catalog. split.
    + match goal with
      | |- for_each _ ?body _ = _ =>
          assert (Hstep : body (JObj kvs) st
                          = (Ok tt, set_types (vset (JStr t) (JObj kvs)
                                                 (available_processor_types st)) st))
            by (unfold bind, lift, py_getitem, modify; rewrite Et; reflexivity)
      end.
      cbn [for_each]. unfold bind at 1. rewrite Hstep. exact Hrun.
    + intros name. rewrite Hlook. unfold last_entry. cbn [rev].
      rewrite find_snoc.
      destruct (find (has_type name) (rev entries)); [reflexivity|].
      cbn [available_processor_types set_types]. rewrite vlookup_vset.
      unfold has_type, field. rewrite Et. rewrite String.eqb_sym.
      now destruct (t =? name)%string.
Qed.

(** X7: a fetch that is answered with a list of typed entries fills the
    catalog from it.  The fetch makes one request, returns [True] and
    records no error; afterwards a type name is looked up to the last
    entry the answer lists under that name and, for a name the answer
    does not list, to what the catalog held before. *)
Theorem fetch_fills_catalog :
  forall (st : St) (body : dict) (entries : list json),
    env_truthy (nifi_base_url cfg) = true ->
    get_reply env (count_events is_get st) = GetJson (JObj body) ->
    lookup "processorTypes" body = Some (JArr entries) ->
    forallb typed_entry entries = true ->
    exists st',
      fetch_nifi_processor_types cfg env st = (Ok true, st')
      /\ errors st' = errors st
      /\ data st' = data st
      /\ trace st' = trace st ++ [EvGet (GetJson (JObj body))]
      /\ forall name,
           vlookup (JStr name) (available_processor_types st')
           = match last_entry name entries with
             | Some e => Some e
             | None => vlookup (JStr name) (available_processor_types st)
             end.
Proof.
  intros st body entries Hu Hr Hb He.
  unfold fetch_nifi_processor_types. rewrite Hu. cbn [negb]. cbv iota.
  unfold bind at 1, get at 1. cbv iota beta zeta.
  unfold bind at 1, modify at 1. cbv iota beta. rewrite Hr.
  unfold bind at 1, lift at 1, py_contains, has_key. rewrite Hb. cbv iota beta.
  unfold bind at 1, lift at 1, py_getitem at 1. rewrite Hb. cbv iota beta.
  unfold bind at 1, lift at 1, py_iter. cbv iota beta.
  destruct (file_entries entries (log (EvGet (GetJson (JObj body))) st) He)
    as (catalog & Hrun & Hlook).
  unfold bind at 1. rewrite Hrun. eexists. split; [reflexivity|].
  repeat split. exact Hlook.
Qed.

(** A catalog that cannot be fetched: the fetch says so once. *)
Lemma fetch_unavailable st :
  catalog_unavailable cfg env st ->
  exists msg st',
    fetch_nifi_processor_types cfg env st = (Ok false, st')
    /\ (st' = set_errors (errors st ++ [msg]) st
        \/ st' = set_errors (errors st ++ [msg])
                   (log (EvGet (get_reply env (count_events is_get st))) st)).
Proof.
  unfold fetch_nifi_processor_types. intros [Hu|[[msg Hr]|(body & Hr & Hb)]].
  - rewrite Hu. do 2 eexists. split; [reflexivity|now left].
  - destruct (env_truthy (nifi_base_url cfg)); cbn [negb]; cbv iota;
      [|do 2 eexists; split; [reflexivity|now left]].
    unfold bind at 1, get at 1. cbv iota beta zeta.
    unfold bind at 1, modify at 1. cbv iota beta. rewrite Hr.
    do 2 eexists. split; [reflexivity|now right].
  - destruct (env_truthy (nifi_base_url cfg)); cbn [negb]; cbv iota;
      [|do 2 eexists; split; [reflexivity|now left]].
    unfold bind at 1, get at 1. cbv iota beta zeta.
    unfold bind at 1, modify at 1. cbv iota beta. rewrite Hr.
    unfold bind at 1, lift at 1. rewrite Hb. cbv iota beta.
    do 2 eexists. split; [reflexivity|now right].
Qed.

(** X8: when the validator holds no catalog and none can be fetched (no
    base URL, a failed request, or an answer without [processorTypes]),
    the type validation of a plan with processors returns after recording
    exactly one error, the one of the fetch: no type is reported as
    unknown, the plan and the dirty flag are as they were, the catalog is
    still empty, and at most one request was made. *)
Theorem unreachable_catalog_one_error :
  forall st : St,
    available_processor_types st = [] ->
    no_processors (data st) = Ok false ->
    catalog_unavailable cfg env st ->
    exists msg st',
      validate_processor_types bi cfg env st = (Ok tt, st')
      /\ errors st' = errors st ++ [msg]
      /\ data st' = data st
      /\ changes_made st' = changes_made st
      /\ available_processor_types st' = []
      /\ (trace st' = trace st
          \/ trace st' = trace st ++ [EvGet (get_reply env (count_events is_get st))]).
Proof.
  intros st Hc Hs Hu. destruct (fetch_unavailable st Hu) as (msg & s1 & Hf & Hs1).
  exists msg, s1. unfold validate_processor_types.
  unfold bind at 1, get at 1. cbv iota beta.
  unfold bind at 1, lift at 1. rewrite Hs. cbv iota beta.
  unfold bind at 1. rewrite Hc, Hf. cbn [negb]. cbv iota beta.
  split; [reflexivity|].
  destruct Hs1 as [-> | ->]; simpl; rewrite Hc; repeat split; auto.
Qed.

(** The requests of the type validation. *)
Lemma resolve_processor_type_trace index p changed :
  preserves same_trace (resolve_processor_type bi index p changed).
Proof.
  unfold resolve_processor_type, append_error.
  preserve_with same_trace_refl same_trace_trans; reflexivity.
Qed.

Lemma resolve_all_trace l : forall changed,
  preserves same_trace (resolve_all bi l changed).
Proof.
  induction l as [|[index p] l IH]; intros changed; simpl.
  - apply (preserves_ret _ same_trace_refl).
  - apply (preserves_bind _ same_trace_trans);
      [apply resolve_processor_type_trace|intro; apply IH].
Qed.

Lemma fetch_trace st :
  let st' := snd (fetch_nifi_processor_types cfg env st) in
  trace st' = trace st
  \/ trace st' = trace st ++ [EvGet (get_reply env (count_events is_get st))].
Proof.
  unfold fetch_nifi_processor_types.
  destruct (negb (env_truthy (nifi_base_url cfg))); [now left|].
  right. unfold bind at 1, get at 1. cbv iota beta zeta.
  unfold bind at 1, modify at 1. cbv iota beta.
  set (st1 := log _ st).
  change (trace st ++ [EvGet (get_reply env (count_events is_get st))]) with (trace st1).
  match goal with
  | |- trace (snd (?m st1)) = _ =>
      assert (P : preserves same_trace m); [|exact (P st1)]
  end.
  unfold append_error.
  preserve_with same_trace_refl same_trace_trans; reflexivity.
Qed.

(** X9: the initial checks ask the runtime at most once, and not at all
    when the validator already holds a catalog: the trace they leave is
    the trace they found, or that trace followed by the one request for
    the processor types. *)
Theorem initial_checks_one_request :
  forall st : St,
    let st' := snd (initial_checks bi cfg env st) in
    (available_processor_types st <> [] -> trace st' = trace st)
    /\ (trace st' = trace st
        \/ trace st' = trace st ++ [EvGet (get_reply env (count_events is_get st))]).
Proof.
  intros st.
  assert (Hs : forall s, only_reported s (snd (validate_structure s)))
    by apply validate_structure_reports.
  assert (Hc : forall s, only_reported s (snd (validate_controller_services bi s)))
    by apply validate_controller_services_reports.
  assert (Ht : forall s,
            let s' := snd (validate_processor_types bi cfg env s) in
            (available_processor_types s <> [] -> trace s' = trace s)
            /\ (trace s' = trace s
                \/ trace s' = trace s ++ [EvGet (get_reply env (count_events is_get s))])).
  { intros s.
    set (P := fun s' : St =>
           (available_processor_types s <> [] -> trace s' = trace s)
           /\ (trace s' = trace s
               \/ trace s' = trace s ++ [EvGet (get_reply env (count_events is_get s))])).
    change (P (snd (validate_processor_types bi cfg env s))).
    assert (P0 : P s) by (split; [reflexivity|now left]).
    unfold validate_processor_types.
    unfold bind at 1, get at 1. cbv iota beta.
    unfold bind at 1, lift at 1.
    destruct (no_processors (data s)) as [[|]|e]; cbv iota beta; try exact P0.
    unfold bind at 1.
    assert (Hrest : forall success,
              preserves same_trace
                (if negb success then ret tt else
                 st0 <- get ;;
                 pd <- lift (py_getitem (data st0) "plan_details") ;;
                 processors <- lift (py_getitem pd "processors") ;;
                 l <- lift (py_iter processors) ;;
                 changed <- resolve_all bi (enumerate l) false ;;
                 modify (set_changes_made changed))).
    { intros success.
      repeat match goal with
             | |- preserves _ (resolve_all _ _ _) => apply resolve_all_trace
             | |- same_trace _ _ => reflexivity
             | _ => progress preserve_with same_trace_refl same_trace_trans
             end. }
    destruct (available_processor_types s) as [|entry catalog].
    - pose proof (fetch_trace s) as Hf. cbv zeta in Hf.
      destruct (fetch_nifi_processor_types cfg env s) as [[success|e] s1];
        simpl in Hf.
      + pose proof (Hrest success s1) as Hr. unfold same_trace in Hr.
        split; [intros H; contradiction|]. rewrite Hr. exact Hf.
      + split; [intros H; contradiction|exact Hf].
    - unfold ret at 1. pose proof (Hrest true s) as Hr. unfold same_trace in Hr.
      split; [intros _; exact Hr|left; exact Hr]. }
  set (P := fun s' : St =>
         (available_processor_types st <> [] -> trace s' = trace st)
         /\ (trace s' = trace st
             \/ trace s' = trace st ++ [EvGet (get_reply env (count_events is_get st))])).
  change (P (snd (initial_checks bi cfg env st))).
  assert (HP : forall m s', P s' -> P (reported m s')) by (intros m s' H; exact H).
  unfold initial_checks. unfold bind at 1.
  specialize (Hs st).
  destruct (validate_structure st) as [[[]|e] s1]; simpl in Hs; destruct Hs as [m1 ->];
    [|split; [reflexivity|now left]].
  unfold bind at 1. specialize (Ht (reported m1 st)). cbv zeta in Ht.
  destruct (validate_processor_types bi cfg env (reported m1 st)) as [[[]|e] s2];
    simpl in Ht; [|exact Ht].
  specialize (Hc s2). destruct Hc as [m3 ->]. exact Ht.
Qed.

End Catalog.

Lemma fetch_fills_catalog_witness :
  exists st',
    fetch_nifi_processor_types without_oracle twice_listed_runtime (holding dangling_plan)
    = (Ok true, st')
    /\ vlookup (JStr "a.b.Reader") (available_processor_types st')
       = Some (JObj [("type", JStr "a.b.Reader"); ("bundle", JStr "new")])
    /\ vlookup (JStr "a.b.Missing") (available_processor_types st') = None.
Proof.
  destruct (fetch_fills_catalog without_oracle twice_listed_runtime (holding dangling_plan)
              [("processorTypes", JArr twice_listed)] twice_listed
              eq_refl eq_refl eq_refl eq_refl) as (st' & H & _ & _ & _ & Hl).
  exists st'. split; [exact H|]. split; rewrite Hl; reflexivity.
Defined.

Lemma unreachable_catalog_one_error_witness :
  exists st',
    validate_processor_types sample_builtins without_oracle unreachable_runtime
      (holding short_type_plan) = (Ok tt, st')
    /\ errors st'
       = ["Failed to fetch processor types from NiFi: connection refused"]
    /\ data st' = short_type_plan.
Proof.
  destruct (unreachable_catalog_one_error sample_builtins without_oracle
              unreachable_runtime (holding short_type_plan) eq_refl eq_refl)
    as (msg & st' & H & He & Hd & _).
  { right. left. now exists "connection refused". }
  exists st'. split; [exact H|].
  assert (E : validate_processor_types sample_builtins without_oracle unreachable_runtime
                (holding short_type_plan)
              = (Ok tt, set_errors
                          ["Failed to fetch processor types from NiFi: connection refused"]
                          (log (EvGet (GetRaises "connection refused"))
                             (holding short_type_plan))))
    by (vm_compute; reflexivity).
  rewrite E in H. injection H as <-. split; reflexivity.
Defined.

(** ** The requests of the sandbox validation *)

Lemma sandbox_steps_refl st : sandbox_steps st st.
Proof. repeat split. exists []. now rewrite app_nil_r. Qed.

Lemma sandbox_steps_trans a b c :
  sandbox_steps a b -> sandbox_steps b c -> sandbox_steps a c.
Proof.
  intros (D1 & T1 & e1 & E1 & F1) (D2 & T2 & e2 & E2 & F2).
  split; [congruence|]. split; [congruence|].
  exists (e1 ++ e2). split; [now rewrite E2, E1, app_assoc|].
  now rewrite forallb_app, F1, F2.
Qed.

Lemma sandbox_steps_same a b :
  disk b = disk a -> available_processor_types b = available_processor_types a ->
  trace b = trace a -> sandbox_steps a b.
Proof.
  intros D T E. split; [exact D|]. split; [exact T|].
  exists []. now rewrite app_nil_r.
Qed.

Lemma sandbox_steps_log e st : sandbox_event e = true -> sandbox_steps st (log e st).
Proof.
  intros H. repeat split. exists [e]. split; [reflexivity|]. simpl. now rewrite H.
Qed.

Lemma preserves_bind_lift R {A B} (r : result A) (k : A -> M B) :
  (forall st, R st st) ->
  (forall a, r = Ok a -> preserves R (k a)) -> preserves R (bind (lift r) k).
Proof.
  intros Hrefl Hk st. unfold bind, lift. destruct r as [a|e]; [|apply Hrefl].
  now apply Hk.
Qed.

Lemma starts_prefix (p s : list ascii) : starts p (p ++ s) = true.
Proof.
  induction p as [|c p IH]; simpl; [now destruct s|].
  now rewrite Ascii.eqb_refl.
Qed.

Lemma chars_append a b : chars (a ++ b) = (chars a ++ chars b)%list.
Proof. induction a as [|c a IH]; simpl; [reflexivity|]. unfold chars in *. simpl. now rewrite IH. Qed.

Lemma startswith_append p s : startswith (p ++ s) p = true.
Proof. unfold startswith. rewrite chars_append. apply starts_prefix. Qed.

Lemma forallb_filter {A} (p : A -> bool) l : forallb p (filter p l) = true.
Proof.
  induction l as [|a l IH]; simpl; [reflexivity|].
  destruct (p a) eqn:E; simpl; [now rewrite E|exact IH].
Qed.

Section SandboxRequests.

Variable bi : Builtins.
Variable cfg : Config.
Variable env : Env.

Lemma prepare_payload_clean index p_name p_type d payload :
  prepare_payload bi index p_name p_type d = Ok payload ->
  sandbox_payload payload = true.
Proof.
  unfold prepare_payload, rbind. intros H.
  repeat match type of H with
         | match ?x with _ => _ end = _ => destruct x; [|discriminate]
         end.
  injection H as <-. unfold sandbox_payload, create_payload, field.
  cbn [lookup String.eqb Ascii.eqb Bool.eqb].
  rewrite startswith_append. apply forallb_filter.
Qed.

Ltac sandbox_kept :=
  repeat match goal with
         | |- preserves _ (append_error _) => unfold append_error
         | |- sandbox_steps _ (log _ _) => apply sandbox_steps_log; reflexivity
         | |- sandbox_steps _ _ => apply sandbox_steps_same; reflexivity
         | |- preserves _ (try_request _ _) =>
             apply (preserves_try_request _ sandbox_steps_trans); [|intro]
         | _ => progress preserve_with sandbox_steps_refl sandbox_steps_trans
         end.

Lemma resolve_validation_steps pc errs descs :
  preserves sandbox_steps (resolve_validation_errors_with_llm bi cfg env pc errs descs).
Proof.
  intros st.
  destruct (resolve_validation_spec bi cfg env pc errs descs st)
    as [[_ H]|[[e H]|(ctx & _ & H)]]; rewrite H;
    [apply sandbox_steps_refl|apply sandbox_steps_refl|now apply sandbox_steps_log].
Qed.

Lemma resolve_scheduling_steps sc msg :
  preserves sandbox_steps (resolve_scheduling_errors_with_llm bi cfg env sc msg).
Proof.
  intros st.
  destruct (resolve_scheduling_spec bi cfg env sc msg st) as [[_ H]|[_ H]];
    rewrite H; [apply sandbox_steps_refl|now apply sandbox_steps_log].
Qed.

Lemma auto_correct_property_steps index had prop_name av :
  preserves sandbox_steps (auto_correct_property index had prop_name av).
Proof. unfold auto_correct_property. sandbox_kept. Qed.

Lemma inspect_steps index p_name p_id had cm loc proc_data :
  preserves sandbox_steps (inspect bi index p_name p_id had cm loc proc_data).
Proof.
  unfold inspect, auto_correct, auto_correct_descriptor.
  repeat match goal with
         | |- preserves _ (auto_correct_property _ _ _ _) =>
             apply auto_correct_property_steps
         | _ => progress sandbox_kept
         end.
Qed.

Lemma delete_processor_steps the_id version proc_data :
  preserves sandbox_steps (delete_processor env the_id version proc_data).
Proof. unfold delete_processor. sandbox_kept. Qed.

Lemma after_delete_steps index p_name p_type retry_count proc_data i :
  preserves sandbox_steps (after_delete bi cfg env index p_name p_type retry_count proc_data i).
Proof.
  unfold after_delete.
  repeat match goal with
         | |- preserves _ (resolve_validation_errors_with_llm _ _ _ _ _ _) =>
             apply resolve_validation_steps
         | _ => progress sandbox_kept
         end.
Qed.

Lemma creation_refused_steps index p_name retry_count status_code error_text :
  preserves sandbox_steps
    (creation_refused bi cfg env index p_name retry_count status_code error_text).
Proof.
  unfold creation_refused.
  repeat match goal with
         | |- preserves _ (resolve_scheduling_errors_with_llm _ _ _ _ _) =>
             apply resolve_scheduling_steps
         | _ => progress sandbox_kept
         end.
Qed.

Lemma attempt_body_steps index p_name p_type p_id had cm retry_count loc payload :
  sandbox_payload payload = true ->
  preserves sandbox_steps
    (attempt_body bi cfg env index p_name p_type p_id had cm retry_count loc payload).
Proof.
  intros Hp. unfold attempt_body.
  apply (preserves_bind _ sandbox_steps_trans);
    [apply (preserves_get _ sandbox_steps_refl)|intros st0; cbv zeta].
  apply (preserves_bind _ sandbox_steps_trans).
  { apply preserves_modify. intros st. now apply sandbox_steps_log. }
  intros _.
  repeat match goal with
         | |- preserves _ (inspect _ _ _ _ _ _ _ _) => apply inspect_steps
         | |- preserves _ (delete_processor _ _ _ _) => apply delete_processor_steps
         | |- preserves _ (after_delete _ _ _ _ _ _ _ _ _) => apply after_delete_steps
         | |- preserves _ (creation_refused _ _ _ _ _ _ _ _) =>
             apply creation_refused_steps
         | _ => progress sandbox_kept
         end.
Qed.

Lemma attempt_steps index p_name p_type p_id cm retry_count loc :
  preserves sandbox_steps (attempt bi cfg env index p_name p_type p_id cm retry_count loc).
Proof.
  unfold attempt.
  apply (preserves_bind _ sandbox_steps_trans);
    [apply (preserves_get _ sandbox_steps_refl)|intros st0].
  apply (preserves_bind_lift _ _ _ sandbox_steps_refl). intros payload Hp.
  apply prepare_payload_clean in Hp.
  repeat match goal with
         | |- preserves _ (attempt_body _ _ _ _ _ _ _ _ _ _ _ _) =>
             now apply attempt_body_steps
         | _ => progress sandbox_kept
         end.
Qed.

Lemma attempts_steps index p_name p_type p_id cm : forall remaining retry_count loc,
  preserves sandbox_steps
    (attempts bi cfg env remaining index p_name p_type p_id cm retry_count loc).
Proof.
  induction remaining as [|remaining IH]; intros retry_count loc; simpl.
  - apply (preserves_ret _ sandbox_steps_refl).
  - apply (preserves_bind _ sandbox_steps_trans); [apply attempt_steps|].
    intros [[|] loc']; [apply IH|apply (preserves_ret _ sandbox_steps_refl)].
Qed.

Lemma validate_each_steps cm : forall l loc,
  preserves sandbox_steps (validate_each bi cfg env cm l loc).
Proof.
  induction l as [|[index processor] l IH]; intros loc; simpl.
  - apply (preserves_ret _ sandbox_steps_refl).
  - apply (preserves_bind _ sandbox_steps_trans); [|intro; apply IH].
    unfold validate_one.
    repeat (apply (preserves_bind _ sandbox_steps_trans);
            [first [apply (preserves_lift _ sandbox_steps_refl)
                   |apply (preserves_console_print _ sandbox_steps_refl)]|intro]).
    apply attempts_steps.
Qed.

Lemma validate_processor_configuration_steps :
  preserves sandbox_steps (validate_processor_configuration bi cfg env).
Proof.
  unfold validate_processor_configuration.
  repeat match goal with
         | |- preserves _ (validate_each _ _ _ _ _ _) => apply validate_each_steps
         | _ => progress sandbox_kept
         end.
Qed.

(** X10: what the sandbox validation asks of its surroundings.  Whether
    it returns or raises, it has left the plan file and the type catalog
    as they were, and every event it added to the trace is a creation
    request for a component named [VALIDATION-...] whose properties are
    all strings, a delete request, or a call of the oracle for a
    configuration or a scheduling repair: it never fetches the catalog,
    loads or saves the plan, or asks for a repair of the structure. *)
Theorem sandbox_validation_requests :
  forall st : St,
    sandbox_steps st (snd (validate_processor_configuration bi cfg env st)).
Proof. intros st. apply validate_processor_configuration_steps. Qed.

End SandboxRequests.

(** ** How a run ends *)

Lemma returns_any {A} (m : M A) st : returns m (fun _ _ => True) st.
Proof. unfold returns. now destruct (m st) as [[a|e] st']. Qed.

Lemma returns_skip {A B} (m : M A) (k : A -> M B) (Q : B -> St -> Prop) st :
  (forall a st1, returns (k a) Q st1) -> returns (bind m k) Q st.
Proof.
  intros H. apply returns_bind. eapply returns_mono; [apply returns_any|].
  intros a st1 _. apply H.
Qed.

Section RunEnds.

Variable bi : Builtins.
Variable cfg : Config.
Variable env : Env.





End RunEnds.


(** ** The repair of the structure *)

Section StructureRepair.

Variable bi : Builtins.
Variable cfg : Config.
Variable env : Env.

Lemma parse_structure_fix_accepts text d d' :
  parse_structure_fix bi text d = Some d' ->
  exists top details answer,
    d = JObj top
    /\ d' = JObj (setitem "plan_details" details top)
    /\ json_loads bi (unfence text) = Some answer
    /\ details_of_answer answer details.
Proof.
  unfold parse_structure_fix, rbind, assign_plan_details, details_of_answer.
  destruct (json_loads bi (unfence text)) as [answer|]; [|discriminate].
  destruct (py_contains "plan_details" answer) as [[|]|e] eqn:Ec; [| |discriminate].
  - destruct (py_getitem answer "plan_details") as [details|e] eqn:Eg; [|discriminate].
    destruct d as [| | | | | |top]; try discriminate.
    intros H. injection H as <-. exists top, details, answer.
    repeat split. now left.
  - destruct d as [| | | | | |top]; try discriminate.
    intros H. injection H as <-. exists top, answer, answer.
    repeat split. now right.
Qed.

(** X12: what the repair of the structure may change.  Without a key for
    the oracle it returns [False] and does nothing.  When it returns
    [False] the plan and the dirty flag are as they were.  When it
    returns [True] the dirty flag is set and the plan is the dict it was
    with, as [plan_details], what the oracle's answer (the last event of
    the trace) parses to, or the [plan_details] member of that when it has
    one.  In either case every other top-level field of the plan, the
    summary among them, keeps its value. *)
Theorem structure_repair_scope :
  forall (st st' : St) (fixed : bool),
    resolve_structure_errors_with_llm bi cfg env st = (Ok fixed, st') ->
    (env_truthy (gemini_api_key cfg) = false -> fixed = false /\ st' = st)
    /\ (fixed = false -> data st' = data st /\ changes_made st' = changes_made st)
    /\ (fixed = true -> changes_made st' = true /\ repaired_from bi st st')
    /\ (forall key, key <> "plan_details" ->
          field key (data st') = field key (data st)).
Proof.
  intros st st' fixed H.
  refine (returns_ok _ (fun fixed st' => _ /\ _ /\ _ /\ _) _ _ _ _ H).
  clear H st' fixed. unfold resolve_structure_errors_with_llm.
  destruct (env_truthy (gemini_api_key cfg)) eqn:K; cbn [negb]; cbv iota.
  2:{ apply returns_ret. repeat split; auto; discriminate. }
  apply returns_bind, returns_get.
  apply returns_bind.
  apply (returns_mono _ (fun _ st1 => same_plan st st1)).
  { destruct (available_processor_types st).
    - apply returns_preserves.
      apply (preserves_bind _ same_plan_trans); [apply fetch_same_plan|].
      intro. apply (preserves_ret _ same_plan_refl).
    - apply returns_ret, same_plan_refl. }
  intros u st1 [Hd1 Hc1]. cbv beta.
  apply returns_bind, returns_get.
  apply returns_bind, returns_lift. intros descriptions _.
  apply returns_bind, returns_lift. intros plan_details _.
  unfold generate_content.
  apply returns_bind, returns_bind, returns_get. cbv zeta.
  apply returns_bind, returns_modify, returns_ret.
  destruct (llm_reply env (count_events is_llm st1)) as [|text].
  { apply returns_ret. simpl. repeat split; try discriminate; auto; congruence. }
  destruct (parse_structure_fix bi text (data st1)) as [d'|] eqn:Ep.
  2:{ apply returns_ret. simpl. repeat split; try discriminate; auto; congruence. }
  apply returns_bind, returns_modify. apply returns_bind, returns_modify.
  apply returns_ret. simpl.
  destruct (parse_structure_fix_accepts _ _ _ Ep) as (top & details & answer & E1 & E2 & E3 & E4).
  split; [discriminate|]. split; [discriminate|]. split.
  - intros _. split; [reflexivity|].
    exists top, details, (trace st1),
      (StructureRepair plan_details (errors st1) (map fst (available_processor_types st1))),
      text, answer.
    rewrite <- Hd1. auto.
  - intros key Hk. rewrite E2, <- Hd1, E1. simpl.
    apply lookup_setitem_other. congruence.
Qed.

End StructureRepair.

Lemma structure_repair_scope_witness :
  exists st',
    resolve_structure_errors_with_llm sample_builtins with_oracle fixing_oracle
      (holding broken_plan) = (Ok true, st')
    /\ field "plan_details" (data st') = Some fixed_details
    /\ field "plan_summary" (data st') = Some (JStr "demo").
Proof.
  run_as H (resolve_structure_errors_with_llm sample_builtins with_oracle fixing_oracle
              (holding broken_plan)).
  eexists. split; [exact H|].
  destruct (structure_repair_scope _ _ _ _ _ _ H) as (_ & _ & _ & Hk).
  split; [vm_compute; reflexivity|].
  rewrite (Hk "plan_summary"); [reflexivity|discriminate].
Defined.

(** ** A retry budget below zero *)

Lemma untouched_refl st : untouched st st.
Proof. reflexivity. Qed.

Lemma untouched_trans a b c : untouched a b -> untouched b c -> untouched a c.
Proof. unfold untouched. congruence. Qed.

(** X13: a retry budget below zero switches the sandbox validation off.
    With a sandbox group and a key for the oracle configured and
    [max_retries] negative, the loop over the attempts is never entered:
    whatever the plan, the validation leaves the state as it found it, so
    no instance is created, no error is recorded and every processor
    counts as valid. *)
Theorem negative_budget_validates_nothing :
  forall (bi : Builtins) (cfg : Config) (env : Env) (st : St),
    env_truthy (sandbox_pg_id cfg) = true ->
    env_truthy (gemini_api_key cfg) = true ->
    max_retries cfg < 0 ->
    snd (validate_processor_configuration bi cfg env st) = st.
Proof.
  intros bi cfg env st Hs Hk Hm. revert st.
  change (preserves untouched (validate_processor_configuration bi cfg env)).
  assert (Hz : Z.to_nat (max_attempts cfg) = 0%nat).
  { unfold max_attempts. rewrite Hk. lia. }
  assert (He : forall cm l loc,
            preserves untouched (validate_each bi cfg env cm l loc)).
  { intros cm l. induction l as [|[index processor] l IH]; intros loc; simpl.
    - apply (preserves_ret _ untouched_refl).
    - apply (preserves_bind _ untouched_trans); [|intro; apply IH].
      unfold validate_one. rewrite Hz.
      preserve_with untouched_refl untouched_trans.
      apply (preserves_ret _ untouched_refl). }
  unfold validate_processor_configuration. rewrite Hs. cbn [negb]. cbv iota.
  repeat match goal with
         | |- preserves _ (validate_each _ _ _ _ _ _) => apply He
         | _ => progress preserve_with untouched_refl untouched_trans
         end.
Qed.

Lemma negative_budget_validates_nothing_witness :
  env_truthy (sandbox_pg_id negative_budget) = true
  /\ max_retries negative_budget < 0
  /\ snd (validate_processor_configuration sample_builtins negative_budget
            unreachable_runtime (holding mongo_plan)) = holding mongo_plan.
Proof.
  split; [reflexivity|]. split; [reflexivity|].
  apply negative_budget_validates_nothing; reflexivity.
Defined.

(** ** The texts of the oracle and of the runtime *)

Lemma chars_unchars l : chars (unchars l) = l.
Proof. apply list_ascii_of_string_of_list_ascii. Qed.

Lemma unchars_chars s : unchars (chars s) = s.
Proof. apply string_of_list_ascii_of_string. Qed.

Lemma lstrip_blank ws c rest :
  forallb is_space ws = true -> is_space c = false ->
  lstrip (ws ++ c :: rest) = c :: rest.
Proof.
  intros Hw Hc. induction ws as [|w ws IH]; simpl in *.
  - now rewrite Hc.
  - apply andb_prop in Hw. destruct Hw as [Hw Hws]. rewrite Hw. now apply IH.
Qed.

Lemma forallb_rev {A} (p : A -> bool) l : forallb p (rev l) = forallb p l.
Proof.
  induction l as [|a l IH]; simpl; [reflexivity|].
  rewrite forallb_app, IH. simpl. rewrite andb_true_r. apply andb_comm.
Qed.

Lemma strip_between ws c mid d ws' :
  forallb is_space ws = true -> forallb is_space ws' = true ->
  is_space c = false -> is_space d = false ->
  rev (lstrip (rev (lstrip (ws ++ (c :: mid ++ [d]) ++ ws')))) = c :: mid ++ [d].
Proof.
  intros Hw Hw' Hc Hd. rewrite <- app_comm_cons.
  rewrite (lstrip_blank ws c _ Hw Hc).
  cbn [rev]. rewrite !rev_app_distr. cbn [rev app]. rewrite <- !app_assoc.
  cbn [app]. rewrite (lstrip_blank (rev ws') d) by (rewrite ?forallb_rev; assumption).
  cbn [rev]. rewrite rev_app_distr. cbn [rev app]. now rewrite rev_involutive.
Qed.

(** X14: a fenced answer reaches the parser without its fence.  For an
    answer that is, between leading and trailing whitespace, a body
    enclosed in [```json] and [```], the text handed to [json.loads] is
    exactly the body. *)
Theorem unfence_fenced :
  forall before body after : string,
    blank before = true ->
    blank after = true ->
    unfence (before ++ "```json" ++ body ++ "```" ++ after) = body.
Proof.
  intros before body after Hb Ha. unfold blank in *.
  assert (Hs : strip (before ++ "```json" ++ body ++ "```" ++ after)
               = unchars (chars "```json" ++ chars body ++ chars "```")%list).
  { unfold strip. rewrite !chars_append. f_equal.
    set (mid := (chars "``json" ++ chars body ++ chars "``")%list).
    replace (chars before ++ chars "```json" ++ chars body ++ chars "```" ++ chars after)%list
      with (chars before ++ ("`"%char :: mid ++ ["`"%char]) ++ chars after)%list
      by (subst mid; simpl; rewrite <- !app_assoc; reflexivity).
    replace (chars "```json" ++ chars body ++ chars "```")%list
      with ("`"%char :: mid ++ ["`"%char])%list
      by (subst mid; simpl; rewrite <- !app_assoc; reflexivity).
    now apply strip_between. }
  unfold unfence. cbv zeta. rewrite Hs. clear Hs.
  unfold startswith. rewrite chars_unchars, starts_prefix.
  unfold drop_front. rewrite chars_unchars.
  change (skipn 7 (chars "```json" ++ chars body ++ chars "```"))
    with (chars body ++ chars "```")%list.
  unfold endswith. rewrite chars_unchars, rev_app_distr, starts_prefix.
  unfold drop_back. rewrite chars_unchars, length_app.
  replace (List.length (chars body) + List.length (chars "```") - 3)%nat
    with (List.length (chars body) + 0)%nat by (simpl; lia).
  rewrite firstn_app_2. simpl. rewrite app_nil_r. apply unchars_chars.
Qed.

Lemma unfence_fenced_witness :
  blank "  " = true
  /\ unfence ("  " ++ "```json" ++ "{}" ++ "```" ++ "") = "{}".
Proof.
  split; [reflexivity|]. apply unfence_fenced; reflexivity.
Defined.

Lemma span_unquoted (run rest : list ascii) :
  forallb (fun c => negb (Ascii.eqb c "'")) run = true ->
  span_not_quote (run ++ "'"%char :: rest) = (run, "'"%char :: rest).
Proof.
  induction run as [|c run IH]; intros H; simpl in *; [reflexivity|].
  apply andb_prop in H. destruct H as [Hc Hr].
  destruct (Ascii.eqb c "'"); [discriminate|]. now rewrite (IH Hr).
Qed.

(** X15: which property an error of the runtime is filed under.  In a
    message that reads, after a text without a quote, ['NAME' is invalid]
    with a name that is not empty and has no quote in it, the search that
    prepares the oracle's context finds exactly NAME, whatever follows. *)
Theorem invalid_property_found :
  forall before name after : string,
    unquoted before = true ->
    unquoted name = true ->
    name <> "" ->
    re_search_invalid (before ++ "'" ++ name ++ "' is invalid" ++ after) = Some name.
Proof.
  intros before name after Hb Hn Hne. unfold re_search_invalid, unquoted in *.
  rewrite !chars_append.
  assert (Hrun : exists c run, chars name = c :: run).
  { destruct name as [|c name]; [contradiction|]. now exists c, (chars name). }
  destruct Hrun as (c & run & Hrun).
  assert (E : search_invalid (chars before ++ chars "'" ++ chars name
                              ++ chars "' is invalid" ++ chars after)%list
              = Some (chars name)).
  { induction (chars before) as [|b cb IH]; simpl in Hb |- *.
    - rewrite (span_unquoted _ _ Hn). rewrite Hrun. reflexivity.
    - apply andb_prop in Hb. destruct Hb as [Hb1 Hb2].
      destruct (Ascii.eqb b "'"); [discriminate|]. now apply IH. }
  rewrite E. simpl. now rewrite unchars_chars.
Qed.

Lemma invalid_property_found_witness :
  re_search_invalid ("" ++ "'" ++ "Mongo URI" ++ "' is invalid" ++ " because it is required")
  = Some "Mongo URI".
Proof. apply invalid_property_found; [reflexivity|reflexivity|discriminate]. Defined.

(** ** The kinds of events a step adds *)

Lemma adds_only_refl allowed st : adds_only allowed st st.
Proof. exists []. now rewrite app_nil_r. Qed.

Lemma adds_only_trans allowed a b c :
  adds_only allowed a b -> adds_only allowed b c -> adds_only allowed a c.
Proof.
  intros (e1 & E1 & F1) (e2 & E2 & F2). exists (e1 ++ e2).
  split; [now rewrite E2, E1, app_assoc|]. now rewrite forallb_app, F1, F2.
Qed.

Lemma adds_only_same allowed a b : trace b = trace a -> adds_only allowed a b.
Proof. intros E. exists []. now rewrite app_nil_r. Qed.

Lemma adds_only_log allowed e st : allowed e = true -> adds_only allowed st (log e st).
Proof. intros H. exists [e]. split; [reflexivity|]. simpl. now rewrite H. Qed.

Lemma adds_only_filter allowed p st st' :
  (forall e, allowed e = true -> p e = false) ->
  adds_only allowed st st' -> filter p (trace st') = filter p (trace st).
Proof.
  intros Hp (events & E & F). rewrite E, filter_app. clear E.
  replace (filter p events) with (@nil Event); [now rewrite app_nil_r|].
  symmetry. induction events as [|e events IH]; [reflexivity|].
  simpl in *. apply andb_prop in F. destruct F as [Fe Fs].
  rewrite (Hp e Fe). now apply IH.
Qed.

(** A step is broken into its parts; what is left are the calls of other
    methods and the events whose kind has to be allowed. *)
Ltac adds_kept allowed :=
  repeat match goal with
         | |- preserves _ (append_error _) => unfold append_error
         | |- adds_only _ _ (log _ _) => apply adds_only_log; auto
         | |- adds_only _ _ _ => apply adds_only_same; reflexivity
         | |- preserves _ (try_request _ _) =>
             apply (preserves_try_request _ (adds_only_trans allowed)); [|intro]
         | _ => progress preserve_with (adds_only_refl allowed) (adds_only_trans allowed)
         end.

Section Kinds.

Variable bi : Builtins.
Variable cfg : Config.
Variable env : Env.
Variable allowed : Event -> bool.

Hypothesis allowed_get : forall reply, allowed (EvGet reply) = true.
Hypothesis allowed_load : forall found, allowed (EvLoad found) = true.
Hypothesis allowed_save : forall content reply, allowed (EvSave content reply) = true.
Hypothesis allowed_post : forall payload reply, allowed (EvPost payload reply) = true.
Hypothesis allowed_delete :
  forall i v c reply, allowed (EvDelete i v c reply) = true.
Hypothesis allowed_oracle :
  env_truthy (gemini_api_key cfg) = false
  \/ forall request reply, allowed (EvLLM request reply) = true.

Abbreviation kept := (preserves (adds_only allowed)).

Lemma reports_add_nothing {A} (m : M A) : preserves only_reported m -> kept m.
Proof. intros H st. destruct (H st) as [more E]. rewrite E. now apply adds_only_same. Qed.

Lemma same_trace_adds_nothing {A} (m : M A) : preserves same_trace m -> kept m.
Proof. intros H st. apply adds_only_same. apply H. Qed.

Lemma load_plan_kinds : kept (load_plan cfg).
Proof. unfold load_plan. adds_kept allowed. Qed.

Lemma save_plan_kinds : kept (save_plan bi cfg env).
Proof. unfold save_plan. adds_kept allowed. Qed.

Lemma fetch_kinds : kept (fetch_nifi_processor_types cfg env).
Proof. unfold fetch_nifi_processor_types. adds_kept allowed. Qed.

Lemma validate_processor_types_kinds : kept (validate_processor_types bi cfg env).
Proof.
  unfold validate_processor_types.
  repeat match goal with
         | |- preserves _ (fetch_nifi_processor_types _ _) => apply fetch_kinds
         | |- preserves _ (resolve_all _ _ _) =>
             apply same_trace_adds_nothing, resolve_all_trace
         | _ => progress adds_kept allowed
         end.
Qed.

Lemma initial_checks_kinds : kept (initial_checks bi cfg env).
Proof.
  unfold initial_checks.
  apply (preserves_bind _ (adds_only_trans allowed));
    [apply reports_add_nothing, validate_structure_reports|intro].
  apply (preserves_bind _ (adds_only_trans allowed));
    [apply validate_processor_types_kinds|intro].
  apply reports_add_nothing, validate_controller_services_reports.
Qed.

Lemma generate_content_kinds request :
  (forall request reply, allowed (EvLLM request reply) = true) ->
  kept (generate_content env request).
Proof. intros H. unfold generate_content. adds_kept allowed. Qed.

Lemma resolve_structure_kinds : kept (resolve_structure_errors_with_llm bi cfg env).
Proof.
  unfold resolve_structure_errors_with_llm.
  destruct allowed_oracle as [K|Ho].
  - rewrite K. apply (preserves_ret _ (adds_only_refl allowed)).
  - repeat match goal with
           | |- preserves _ (fetch_nifi_processor_types _ _) => apply fetch_kinds
           | |- preserves _ (generate_content _ _) => now apply generate_content_kinds
           | _ => progress adds_kept allowed
           end.
Qed.

Lemma repair_step_kinds : kept (repair_step bi cfg env).
Proof.
  unfold repair_step.
  apply (preserves_bind _ (adds_only_trans allowed)); [apply resolve_structure_kinds|].
  intros [|]; [apply save_plan_kinds|apply (preserves_ret _ (adds_only_refl allowed))].
Qed.

Lemma resolve_validation_kinds pc errs descs :
  kept (resolve_validation_errors_with_llm bi cfg env pc errs descs).
Proof.
  intros st.
  destruct (resolve_validation_spec bi cfg env pc errs descs st)
    as [[_ H]|[[e H]|(ctx & K & H)]]; rewrite H; try apply adds_only_refl.
  apply adds_only_log. destruct allowed_oracle as [K'|Ho]; [congruence|apply Ho].
Qed.

Lemma resolve_scheduling_kinds sc msg :
  kept (resolve_scheduling_errors_with_llm bi cfg env sc msg).
Proof.
  intros st.
  destruct (resolve_scheduling_spec bi cfg env sc msg st) as [[_ H]|[K H]];
    rewrite H; try apply adds_only_refl.
  apply adds_only_log. destruct allowed_oracle as [K'|Ho]; [congruence|apply Ho].
Qed.

Lemma inspect_kinds index p_name p_id had cm loc proc_data :
  kept (inspect bi index p_name p_id had cm loc proc_data).
Proof. apply same_trace_adds_nothing, inspect_same_trace. Qed.

Lemma delete_processor_kinds the_id version proc_data :
  kept (delete_processor env the_id version proc_data).
Proof. unfold delete_processor. adds_kept allowed. Qed.

Lemma after_delete_kinds index p_name p_type retry_count proc_data i :
  kept (after_delete bi cfg env index p_name p_type retry_count proc_data i).
Proof.
  unfold after_delete.
  repeat match goal with
         | |- preserves _ (resolve_validation_errors_with_llm _ _ _ _ _ _) =>
             apply resolve_validation_kinds
         | _ => progress adds_kept allowed
         end.
Qed.

Lemma creation_refused_kinds index p_name retry_count status_code error_text :
  kept (creation_refused bi cfg env index p_name retry_count status_code error_text).
Proof.
  unfold creation_refused.
  repeat match goal with
         | |- preserves _ (resolve_scheduling_errors_with_llm _ _ _ _ _) =>
             apply resolve_scheduling_kinds
         | _ => progress adds_kept allowed
         end.
Qed.

Lemma attempt_kinds index p_name p_type p_id cm retry_count loc :
  kept (attempt bi cfg env index p_name p_type p_id cm retry_count loc).
Proof.
  unfold attempt, attempt_body.
  repeat match goal with
         | |- preserves _ (inspect _ _ _ _ _ _ _ _) => apply inspect_kinds
         | |- preserves _ (delete_processor _ _ _ _) => apply delete_processor_kinds
         | |- preserves _ (after_delete _ _ _ _ _ _ _ _ _) => apply after_delete_kinds
         | |- preserves _ (creation_refused _ _ _ _ _ _ _ _) =>
             apply creation_refused_kinds
         | _ => progress adds_kept allowed
         end.
Qed.

Lemma attempts_kinds index p_name p_type p_id cm : forall remaining retry_count loc,
  kept (attempts bi cfg env remaining index p_name p_type p_id cm retry_count loc).
Proof.
  induction remaining as [|remaining IH]; intros retry_count loc; simpl.
  - apply (preserves_ret _ (adds_only_refl allowed)).
  - apply (preserves_bind _ (adds_only_trans allowed)); [apply attempt_kinds|].
    intros [[|] loc']; [apply IH|apply (preserves_ret _ (adds_only_refl allowed))].
Qed.

Lemma validate_each_kinds cm : forall l loc,
  kept (validate_each bi cfg env cm l loc).
Proof.
  induction l as [|[index processor] l IH]; intros loc; simpl.
  - apply (preserves_ret _ (adds_only_refl allowed)).
  - apply (preserves_bind _ (adds_only_trans allowed)); [|intro; apply IH].
    unfold validate_one.
    repeat (apply (preserves_bind _ (adds_only_trans allowed));
            [first [apply (preserves_lift _ (adds_only_refl allowed))
                   |apply (preserves_console_print _ (adds_only_refl allowed))]|intro]).
    apply attempts_kinds.
Qed.

Lemma validate_processor_configuration_kinds :
  kept (validate_processor_configuration bi cfg env).
Proof.
  unfold validate_processor_configuration.
  repeat match goal with
         | |- preserves _ (validate_each _ _ _ _ _ _) => apply validate_each_kinds
         | _ => progress adds_kept allowed
         end.
Qed.

Lemma sandbox_phase_kinds : kept (sandbox_phase bi cfg env).
Proof.
  unfold sandbox_phase, print_errors.
  repeat match goal with
         | |- preserves _ (validate_processor_configuration _ _ _) =>
             apply validate_processor_configuration_kinds
         | |- preserves _ (save_plan _ _ _) => apply save_plan_kinds
         | _ => progress adds_kept allowed
         end.
Qed.

Lemma run_from_kinds choices : kept (run_from bi cfg env choices).
Proof.
  induction choices as [|choice choices IH]; cbn [run_from]; unfold print_errors;
    repeat match goal with
           | |- preserves _ (load_plan _) => apply load_plan_kinds
           | |- preserves _ (initial_checks _ _ _) => apply initial_checks_kinds
           | |- preserves _ (sandbox_phase _ _ _) => apply sandbox_phase_kinds
           | |- preserves _ (repair_step _ _ _) => apply repair_step_kinds
           | |- preserves _ (run_from _ _ _ _) => apply IH
           | _ => progress adds_kept allowed
           end.
Qed.

End Kinds.

(** X16: without a key there is no oracle.  When no key for the oracle is
    configured, no run ever calls it, whatever the plan file, the answers
    of the runtime and the choices of the operator, the repair of the
    plan by the oracle among them: the trace of the run holds no oracle
    event. *)
Theorem no_key_no_oracle :
  forall (bi : Builtins) (cfg : Config) (env : Env) (d : Disk) (choices : list Choice),
    env_truthy (gemini_api_key cfg) = false ->
    filter is_llm (trace (snd (run bi cfg env d choices))) = [].
Proof.
  intros bi cfg env d choices K. unfold run.
  rewrite (adds_only_filter not_oracle is_llm (initial d)); [reflexivity| |].
  - intros e H. unfold not_oracle in H. now destruct (is_llm e).
  - apply (run_from_kinds bi cfg env not_oracle); try reflexivity. now left.
Qed.

Lemma no_key_no_oracle_witness :
  filter is_llm
    (trace (snd (run sample_builtins without_oracle catalog_runtime
                   (PlanFile half_resolved_plan)
                   [FixThePlanUsingLLM; RetryInitialValidation])))
  = [].
Proof. apply no_key_no_oracle. reflexivity. Defined.

Section Prompt.

Variable bi : Builtins.
Variable cfg : Config.
Variable env : Env.

Lemma print_errors_exits st :
  returns (print_errors bi) (fun o _ => o <> AwaitingChoice) st.
Proof.
  unfold print_errors. apply returns_bind, returns_get.
  destruct (errors st); [apply returns_ret; discriminate|].
  apply returns_bind, returns_print_lines. apply returns_ret. discriminate.
Qed.

Lemma sandbox_phase_exits st :
  returns (sandbox_phase bi cfg env) (fun o _ => o <> AwaitingChoice) st.
Proof.
  unfold sandbox_phase. apply returns_skip. intros _ st1.
  apply returns_bind, returns_get. apply returns_skip. intros _ st2.
  apply print_errors_exits.
Qed.

Lemma returns_kept {A} (m : M A) allowed (Q : A -> St -> Prop) st0 st :
  adds_only allowed st0 st ->
  preserves (adds_only allowed) m ->
  (forall a st', adds_only allowed st0 st' -> Q a st') ->
  returns m Q st.
Proof.
  intros H0 Hm HQ. eapply returns_mono; [apply (returns_preserves _ _ _ Hm)|].
  intros a st' H. apply HQ. now apply (adds_only_trans allowed st0 st).
Qed.

Lemma run_from_prompt choices : forall st0 st,
  adds_only not_creation st0 st ->
  returns (run_from bi cfg env choices)
    (fun o st' => o = AwaitingChoice -> adds_only not_creation st0 st') st.
Proof.
  assert (Hload : preserves (adds_only not_creation) (load_plan cfg))
    by (apply load_plan_kinds; reflexivity).
  assert (Hinit : preserves (adds_only not_creation) (initial_checks bi cfg env))
    by (apply initial_checks_kinds; reflexivity).
  assert (Hrep : preserves (adds_only not_creation) (repair_step bi cfg env))
    by (apply repair_step_kinds; try reflexivity; now right).
  assert (Hset : forall f, (forall s, trace (f s) = trace s) ->
                           preserves (adds_only not_creation) (modify f))
    by (intros f Hf s; apply adds_only_same, Hf).
  induction choices as [|choice choices IH]; intros st0 st H0; cbn [run_from];
    apply returns_bind;
    (apply (returns_kept _ not_creation _ st0 st H0); [now apply Hset|]);
    intros _ st1 H1; cbv beta;
    apply returns_bind;
    (apply (returns_kept _ not_creation _ st0 st1 H1 Hload));
    intros loaded st2 H2; cbv beta;
    (destruct (negb loaded);
     [eapply returns_mono; [apply print_errors_exits|];
      intros o st5 Ho Ha; contradiction|]);
    apply returns_bind;
    (apply (returns_kept _ not_creation _ st0 st2 H2); [now apply Hset|]);
    intros _ st3 H3; cbv beta;
    apply returns_bind;
    (apply (returns_kept _ not_creation _ st0 st3 H3 Hinit));
    intros _ st4 H4; cbv beta;
    apply returns_bind, returns_get;
    (destruct (errors st4);
     [eapply returns_mono; [apply sandbox_phase_exits|];
      intros o st5 Ho Ha; contradiction|]);
    apply returns_bind, returns_print_lines.
  - apply returns_ret. intros _. exact H4.
  - destruct choice.
    + now apply IH.
    + apply returns_bind.
      apply (returns_kept _ not_creation _ st0 st4 H4 Hrep).
      intros _ st5 H5. cbv beta. now apply IH.
    + apply returns_ret. discriminate.
Qed.

(** X17: the operator is asked before any sandbox request.  A run that is
    left waiting for the operator's choice has, in all its passes, made no
    creation request: instances are created in the sandbox only in the
    pass whose initial checks recorded no error, and that pass ends the
    run. *)
Theorem prompt_before_sandbox :
  forall (d : Disk) (choices : list Choice) (st' : St),
    run bi cfg env d choices = (Ok AwaitingChoice, st') ->
    filter is_post (trace st') = [].
Proof.
  intros d choices st' H. unfold run in H.
  pose proof (returns_ok _ _ _ _ _
                (run_from_prompt choices (initial d) (initial d)
                   (adds_only_refl _ _)) H eq_refl) as Ha.
  rewrite (adds_only_filter not_creation is_post (initial d) st'); [reflexivity| |exact Ha].
  intros e He. unfold not_creation in He. now destruct (is_post e).
Qed.

End Prompt.

Lemma prompt_before_sandbox_witness :
  exists st',
    run sample_builtins without_oracle catalog_runtime (PlanFile half_resolved_plan)
      [RetryInitialValidation] = (Ok AwaitingChoice, st')
    /\ filter is_post (trace st') = []
    /\ List.length (filter (fun e => match e with EvLoad _ => true | _ => false end)
                      (trace st')) = 2%nat.
Proof.
  run_as H (run sample_builtins without_oracle catalog_runtime
              (PlanFile half_resolved_plan) [RetryInitialValidation]).
  eexists. split; [exact H|].
  split; [exact (prompt_before_sandbox _ _ _ _ _ _ H)|reflexivity].
Defined.

(** ** What the validators leave of a plan *)

Lemma without_setitem keys k v kvs :
  mem k keys = true -> without keys (setitem k v kvs) = without keys kvs.
Proof.
  intros Hk. unfold without. induction kvs as [|[k' v'] kvs IH]; simpl.
  - now rewrite Hk.
  - destruct (k =? k')%string eqn:E; simpl.
    + apply String.eqb_eq in E. subst k'. now rewrite Hk.
    + now rewrite IH.
Qed.

Lemma map_replace_nth {A B} (f : A -> B) i x y (l : list A) :
  nth_error l i = Some y -> f x = f y -> map f (replace_nth i x l) = map f l.
Proof.
  revert i. induction l as [|a l IH]; intros [|i] H E; simpl in *; try discriminate.
  - injection H as ->. now rewrite E.
  - now rewrite (IH i H E).
Qed.

Lemma skeleton_assign keys i fld v d :
  mem fld keys = true ->
  skeleton keys (assign_processor_field i fld v d) = skeleton keys d.
Proof.
  intros Hk. unfold assign_processor_field.
  destruct d as [| | | | | |top]; try reflexivity.
  destruct (lookup "plan_details" top) as [[| | | | | |pd]|] eqn:E1; try reflexivity.
  destruct (lookup "processors" pd) as [[| | | | |ps|]|] eqn:E2; try reflexivity.
  destruct (nth_error ps i) as [[| | | | | |p]|] eqn:E3; try reflexivity.
  unfold skeleton. rewrite lookup_setitem_same, lookup_setitem_same, E1, E2.
  rewrite !setitem_setitem.
  rewrite (map_replace_nth (strip_processor keys) i _ (JObj p) ps E3);
    [reflexivity|].
  simpl. now rewrite without_setitem.
Qed.

Lemma same_skeleton_refl keys st : same_skeleton keys st st.
Proof. reflexivity. Qed.

Lemma same_skeleton_trans keys a b c :
  same_skeleton keys a b -> same_skeleton keys b c -> same_skeleton keys a c.
Proof. unfold same_skeleton. congruence. Qed.

(** What equal skeletons say about the two plans. *)
Lemma processors_of_skeleton keys d :
  processors_of (skeleton keys d) = map (strip_processor keys) (processors_of d).
Proof.
  unfold skeleton, processors_of, field.
  destruct d as [| | | | | |top]; try reflexivity.
  destruct (lookup "plan_details" top) as [[| | | | | |pd]|] eqn:E1;
    try (rewrite E1; reflexivity).
  destruct (lookup "processors" pd) as [[| | | | |ps|]|] eqn:E2;
    try (rewrite E1, E2; reflexivity).
  now rewrite lookup_setitem_same, lookup_setitem_same.
Qed.

Lemma connections_of_skeleton keys d :
  connections_of (skeleton keys d) = connections_of d.
Proof.
  unfold skeleton, connections_of, field.
  destruct d as [| | | | | |top]; try reflexivity.
  destruct (lookup "plan_details" top) as [[| | | | | |pd]|] eqn:E1;
    try (rewrite E1; reflexivity).
  destruct (lookup "processors" pd) as [[| | | | |ps|]|] eqn:E2;
    try (rewrite E1; reflexivity).
  rewrite lookup_setitem_same. rewrite lookup_setitem_other by discriminate.
  reflexivity.
Qed.

Lemma field_skeleton keys key d :
  key <> "plan_details" -> field key (skeleton keys d) = field key d.
Proof.
  intros Hk. unfold skeleton, field.
  destruct d as [| | | | | |top]; try reflexivity.
  destruct (lookup "plan_details" top) as [[| | | | | |pd]|] eqn:E1; try reflexivity.
  destruct (lookup "processors" pd) as [[| | | | |ps|]|] eqn:E2; try reflexivity.
  apply lookup_setitem_other. congruence.
Qed.

Lemma lookup_without keys key kvs :
  mem key keys = false -> lookup key (without keys kvs) = lookup key kvs.
Proof.
  intros Hk. unfold without. induction kvs as [|[k v] kvs IH]; simpl; [reflexivity|].
  destruct (mem k keys) eqn:Em; simpl.
  - destruct (key =? k)%string eqn:E; [|exact IH].
    apply String.eqb_eq in E. congruence.
  - now rewrite IH.
Qed.

Lemma field_strip keys key p :
  mem key keys = false -> field key (strip_processor keys p) = field key p.
Proof.
  intros Hk. destruct p; try reflexivity. simpl. now apply lookup_without.
Qed.

Lemma skeleton_reading keys d d' :
  skeleton keys d' = skeleton keys d -> differ_only_in keys d d'.
Proof.
  intros H. split; [exact H|]. split; [|split].
  - intros key Hk.
    rewrite <- (field_skeleton keys key d' Hk), H. now apply field_skeleton.
  - rewrite <- (connections_of_skeleton keys d'), H. apply connections_of_skeleton.
  - intros key Hk.
    assert (E : forall l, map (field key) (map (strip_processor keys) l)
                          = map (field key) l).
    { intros l. rewrite map_map. apply map_ext. intros p. now apply field_strip. }
    rewrite <- (E (processors_of d')), <- (E (processors_of d)).
    now rewrite <- !processors_of_skeleton, H.
Qed.

Ltac skeleton_kept keys :=
  repeat match goal with
         | |- preserves _ (append_error _) => unfold append_error
         | |- same_skeleton _ ?st (set_data (assign_processor_field _ _ _ (data ?st)) ?st) =>
             apply skeleton_assign; reflexivity
         | |- same_skeleton _ _ _ => reflexivity
         | |- preserves _ (try_request _ _) =>
             apply (preserves_try_request _ (same_skeleton_trans keys)); [|intro]
         | _ => progress preserve_with (same_skeleton_refl keys) (same_skeleton_trans keys)
         end.

Section Skeleton.

Variable bi : Builtins.
Variable cfg : Config.
Variable env : Env.

Lemma data_kept_skeleton keys {A} (m : M A) :
  (forall st, data (snd (m st)) = data st) -> preserves (same_skeleton keys) m.
Proof. intros H st. unfold same_skeleton. now rewrite H. Qed.

Lemma resolve_validation_data pc errs descs st :
  data (snd (resolve_validation_errors_with_llm bi cfg env pc errs descs st)) = data st.
Proof.
  destruct (resolve_validation_spec bi cfg env pc errs descs st)
    as [[_ H]|[[e H]|(ctx & _ & H)]]; now rewrite H.
Qed.

Lemma resolve_scheduling_data sc msg st :
  data (snd (resolve_scheduling_errors_with_llm bi cfg env sc msg st)) = data st.
Proof.
  destruct (resolve_scheduling_spec bi cfg env sc msg st) as [[_ H]|[_ H]];
    now rewrite H.
Qed.

Abbreviation kept := (preserves (same_skeleton configuration_fields)).

Lemma auto_correct_property_skeleton index had prop_name av :
  kept (auto_correct_property index had prop_name av).
Proof. unfold auto_correct_property. skeleton_kept configuration_fields. Qed.

Lemma inspect_skeleton index p_name p_id had cm loc proc_data :
  kept (inspect bi index p_name p_id had cm loc proc_data).
Proof.
  unfold inspect, auto_correct, auto_correct_descriptor.
  repeat match goal with
         | |- preserves _ (auto_correct_property _ _ _ _) =>
             apply auto_correct_property_skeleton
         | _ => progress skeleton_kept configuration_fields
         end.
Qed.

Lemma delete_processor_skeleton the_id version proc_data :
  kept (delete_processor env the_id version proc_data).
Proof. unfold delete_processor. skeleton_kept configuration_fields. Qed.

Lemma after_delete_skeleton index p_name p_type retry_count proc_data i :
  kept (after_delete bi cfg env index p_name p_type retry_count proc_data i).
Proof.
  unfold after_delete.
  repeat match goal with
         | |- preserves _ (resolve_validation_errors_with_llm _ _ _ _ _ _) =>
             apply data_kept_skeleton, resolve_validation_data
         | _ => progress skeleton_kept configuration_fields
         end.
Qed.

Lemma creation_refused_skeleton index p_name retry_count status_code error_text :
  kept (creation_refused bi cfg env index p_name retry_count status_code error_text).
Proof.
  unfold creation_refused.
  repeat match goal with
         | |- preserves _ (resolve_scheduling_errors_with_llm _ _ _ _ _) =>
             apply data_kept_skeleton, resolve_scheduling_data
         | _ => progress skeleton_kept configuration_fields
         end.
Qed.

Lemma attempt_skeleton index p_name p_type p_id cm retry_count loc :
  kept (attempt bi cfg env index p_name p_type p_id cm retry_count loc).
Proof.
  unfold attempt, attempt_body.
  repeat match goal with
         | |- preserves _ (inspect _ _ _ _ _ _ _ _) => apply inspect_skeleton
         | |- preserves _ (delete_processor _ _ _ _) => apply delete_processor_skeleton
         | |- preserves _ (after_delete _ _ _ _ _ _ _ _ _) => apply after_delete_skeleton
         | |- preserves _ (creation_refused _ _ _ _ _ _ _ _) =>
             apply creation_refused_skeleton
         | _ => progress skeleton_kept configuration_fields
         end.
Qed.

Lemma attempts_skeleton index p_name p_type p_id cm : forall remaining retry_count loc,
  kept (attempts bi cfg env remaining index p_name p_type p_id cm retry_count loc).
Proof.
  induction remaining as [|remaining IH]; intros retry_count loc; simpl.
  - apply (preserves_ret _ (same_skeleton_refl _)).
  - apply (preserves_bind _ (same_skeleton_trans _)); [apply attempt_skeleton|].
    intros [[|] loc']; [apply IH|apply (preserves_ret _ (same_skeleton_refl _))].
Qed.

Lemma validate_each_skeleton cm : forall l loc,
  kept (validate_each bi cfg env cm l loc).
Proof.
  induction l as [|[index processor] l IH]; intros loc; simpl.
  - apply (preserves_ret _ (same_skeleton_refl _)).
  - apply (preserves_bind _ (same_skeleton_trans _)); [|intro; apply IH].
    unfold validate_one.
    repeat (apply (preserves_bind _ (same_skeleton_trans _));
            [first [apply (preserves_lift _ (same_skeleton_refl _))
                   |apply (preserves_console_print _ (same_skeleton_refl _))]|intro]).
    apply attempts_skeleton.
Qed.

(** X18: the sandbox validation writes nothing but configuration.  Whether
    it returns or raises, the plan it leaves differs from the plan it
    found at most in the [properties], the [scheduling] and the
    [auto_terminated_relationships] of processors: no processor is added,
    removed or moved, every other field of every processor (its id, name
    and type among them) keeps its value, and so do the connections, the
    summary and every other top-level field. *)
Theorem sandbox_writes_configuration_only :
  forall st : St,
    differ_only_in configuration_fields (data st)
      (data (snd (validate_processor_configuration bi cfg env st))).
Proof.
  intros st. apply skeleton_reading. revert st.
  change (kept (validate_processor_configuration bi cfg env)).
  unfold validate_processor_configuration.
  repeat match goal with
         | |- preserves _ (validate_each _ _ _ _ _ _) => apply validate_each_skeleton
         | _ => progress skeleton_kept configuration_fields
         end.
Qed.

(** X19: the initial checks write nothing but types.  Whether they return
    or raise, the plan they leave differs from the plan they found at
    most in the [type] of processors. *)
Theorem initial_checks_write_types_only :
  forall st : St,
    differ_only_in ["type"] (data st) (data (snd (initial_checks bi cfg env st))).
Proof.
  intros st. apply skeleton_reading. revert st.
  change (preserves (same_skeleton ["type"]) (initial_checks bi cfg env)).
  assert (Ht : forall index p changed,
            preserves (same_skeleton ["type"])
              (resolve_processor_type bi index p changed)).
  { intros. unfold resolve_processor_type. skeleton_kept ["type"]. }
  assert (Ha : forall l changed,
            preserves (same_skeleton ["type"]) (resolve_all bi l changed)).
  { induction l as [|[index p] l IH]; intros changed; simpl.
    - apply (preserves_ret _ (same_skeleton_refl _)).
    - apply (preserves_bind _ (same_skeleton_trans _)); [apply Ht|intro; apply IH]. }
  unfold initial_checks.
  apply (preserves_bind _ (same_skeleton_trans _)).
  { apply data_kept_skeleton. intros st. apply validate_structure_same_plan. }
  intros _. apply (preserves_bind _ (same_skeleton_trans _)).
  2:{ intros _. apply data_kept_skeleton. intros st.
      apply validate_controller_services_same_plan. }
  unfold validate_processor_types.
  repeat match goal with
         | |- preserves _ (fetch_nifi_processor_types _ _) =>
             apply data_kept_skeleton; intros st; apply fetch_same_plan
         | |- preserves _ (resolve_all _ _ _) => apply Ha
         | _ => progress skeleton_kept ["type"]
         end.
Qed.

End Skeleton.

(* ================================================================== *)
(** * Properties of the builder *)
(* ================================================================== *)

Import Builder BuilderFacts.
Local Open Scope b_scope.

(** ** One turn of the loop over the processors *)

Lemma created_ids_app a b : created_ids (a ++ b) = (created_ids a ++ created_ids b)%list.
Proof. unfold created_ids. apply flat_map_app. Qed.

(** The [try] of the turn, step by step. *)
Lemma create_and_terminate_shape rt pg_id sources index proc bundle p_plan_id s :
  let out := create_and_terminate rt pg_id sources index proc bundle p_plan_id s in
  exists new,
    requests (snd out) = requests s ++ new
    /\ turn_requests rt pg_id sources p_plan_id s new
    /\ ids_step p_plan_id new (plan_id_to_nifi_id s) (plan_id_to_nifi_id (snd out)).
Proof.
  cbv zeta.
  destruct (create_and_terminate rt pg_id sources index proc bundle p_plan_id s)
    as [r s'] eqn:H.
  unfold create_and_terminate in H.
  unfold bbind at 1, blift at 1 in H.
  destruct (processor_payload proc bundle index) as [payload|e].
  2:{ injection H as _ <-. exists []. rewrite app_nil_r.
      split; [reflexivity|]. split; [now left|now left]. }
  unfold bbind at 1, bget at 1 in H. cbv iota beta zeta in H.
  unfold bbind at 1, send at 1 in H. cbv iota beta in H.
  remember (processor_reply rt (count is_creation s)) as reply eqn:Er0.
  set (s1 := {| requests := requests s ++ [CreateProcessor pg_id payload reply];
                plan_id_to_nifi_id := plan_id_to_nifi_id s |}) in *.
  assert (Only : forall r0, (r0, s1) = (r, s') ->
            exists new,
              requests (snd (r, s')) = requests s ++ new
              /\ turn_requests rt pg_id sources p_plan_id s new
              /\ ids_step p_plan_id new (plan_id_to_nifi_id s)
                   (plan_id_to_nifi_id (snd (r, s')))).
  { intros r0 E. injection E as _ <-.
    exists [CreateProcessor pg_id payload reply].
    split; [reflexivity|].
    split; [right; left; exists payload; now rewrite <- Er0|now left]. }
  unfold bbind at 1, blift at 1 in H.
  destruct reply as [body|e]; [|now apply (Only (Raise e))].
  cbv iota beta in H. unfold bbind at 1, blift at 1 in H.
  destruct (py_getitem body "component") as [component|e] eqn:Ec;
    [|now apply (Only (Raise e))].
  cbv iota beta in H. unfold bbind at 1, blift at 1 in H.
  destruct (py_getitem component "id") as [nifi_id|e] eqn:Ei;
    [|now apply (Only (Raise e))].
  cbv iota beta in H.
  assert (Hid : created_id (Ok body) = Some nifi_id).
  { unfold created_id, rbind. now rewrite Ec, Ei. }
  unfold bbind at 1, remember at 1 in H.
  destruct (hashable p_plan_id); [|now apply (Only (Raise TypeError))].
  cbv iota beta in H. cbn [requests plan_id_to_nifi_id s1] in H.
  set (s2 := {| requests := requests s ++ [CreateProcessor pg_id payload (Ok body)];
                plan_id_to_nifi_id := vset p_plan_id nifi_id (plan_id_to_nifi_id s) |})
    in *.
  assert (Filed : forall r0, (r0, s2) = (r, s') ->
            exists new,
              requests (snd (r, s')) = requests s ++ new
              /\ turn_requests rt pg_id sources p_plan_id s new
              /\ ids_step p_plan_id new (plan_id_to_nifi_id s)
                   (plan_id_to_nifi_id (snd (r, s')))).
  { intros r0 E. injection E as _ <-.
    exists [CreateProcessor pg_id payload (Ok body)].
    split; [reflexivity|].
    split; [right; left; exists payload; now rewrite <- Er0|].
    right. exists nifi_id. split; [|reflexivity].
    unfold created_ids. simpl. rewrite Hid. now left. }
  destruct (set_mem p_plan_id sources) eqn:Es; [now apply (Filed (Ok tt))|].
  unfold bbind at 1, blift at 1 in H.
  destruct (relationship_names body) as [names|e] eqn:En;
    [|now apply (Filed (Raise e))].
  cbv iota beta in H.
  destruct names as [|name names]; [now apply (Filed (Ok tt))|].
  unfold bbind at 1, blift at 1 in H.
  destruct (py_getitem body "revision") as [revision|e] eqn:Ev;
    [|now apply (Filed (Raise e))].
  cbv iota beta in H. unfold bbind at 1, blift at 1 in H.
  destruct (py_getitem revision "version") as [version|e] eqn:Ew;
    [|now apply (Filed (Raise e))].
  cbv iota beta in H.
  unfold bbind at 1, bget at 1 in H. cbv iota beta zeta in H.
  unfold bbind at 1, send at 1 in H. cbv iota beta in H.
  assert (Hcount : count is_update s2 = count is_update s).
  { unfold count, s2. cbn [requests]. rewrite filter_app. simpl. now rewrite app_nil_r. }
  rewrite Hcount in H.
  exists [ CreateProcessor pg_id payload (Ok body);
           UpdateProcessor nifi_id (update_payload nifi_id (name :: names) version)
             (update_reply rt (count is_update s)) ].
  assert (E : requests s' = (requests s ++ [CreateProcessor pg_id payload (Ok body)])
                            ++ [UpdateProcessor nifi_id
                                  (update_payload nifi_id (name :: names) version)
                                  (update_reply rt (count is_update s))]
              /\ plan_id_to_nifi_id s' = vset p_plan_id nifi_id (plan_id_to_nifi_id s)).
  { unfold bbind, blift, bret in H.
    destruct (update_reply rt (count is_update s)); injection H as _ <-;
      split; reflexivity. }
  destruct E as [E1 E2]. cbn [snd]. rewrite E1, E2, <- app_assoc.
  split; [reflexivity|]. split.
  - right. right. exists payload, body, nifi_id, (name :: names), version.
    rewrite <- Er0. repeat split; auto; try discriminate.
    unfold reported_version, rbind. now rewrite Ev, Ew.
  - right. exists nifi_id. split; [|reflexivity].
    unfold created_ids. simpl. rewrite Hid. now left.
Qed.

(** One turn, as the whole of [place_processor] runs it. *)
Lemma place_processor_turn rt pg_id types sources index proc s :
  let out := place_processor rt pg_id types sources index proc s in
  exists new,
    requests (snd out) = requests s ++ new
    /\ turn_requests rt pg_id sources (plan_id_of proc) s new
    /\ ids_step (plan_id_of proc) new (plan_id_to_nifi_id s)
         (plan_id_to_nifi_id (snd out)).
Proof.
  cbv zeta.
  destruct (place_processor rt pg_id types sources index proc s) as [r s'] eqn:H.
  assert (Nothing : forall r0 : result unit, (r0, s) = (r, s') ->
            exists new,
              requests (snd (r, s')) = requests s ++ new
              /\ turn_requests rt pg_id sources (plan_id_of proc) s new
              /\ ids_step (plan_id_of proc) new (plan_id_to_nifi_id s)
                   (plan_id_to_nifi_id (snd (r, s')))).
  { intros r0 E. injection E as _ <-. exists []. rewrite app_nil_r.
    split; [reflexivity|]. split; now left. }
  unfold place_processor in H. unfold bbind at 1, blift at 1 in H.
  destruct (py_getitem proc "type") as [p_type|e] eqn:Et; [|now apply (Nothing (Raise e))].
  cbv iota beta in H. unfold bbind at 1, blift at 1 in H.
  destruct proc as [| | | | | |kvs]; try discriminate.
  assert (Hname : exists p_name,
            py_get (JObj kvs) "name" (JStr ("Processor-" ++ str_of_nat index))
            = Ok p_name)
    by (unfold py_get; destruct (lookup "name" kvs); eauto).
  destruct Hname as [p_name Hname]. rewrite Hname in H. cbv iota beta in H.
  assert (Hid : py_get (JObj kvs) "id" JNull = Ok (plan_id_of (JObj kvs))).
  { unfold py_get, plan_id_of, member. now destruct (lookup "id" kvs). }
  unfold bbind at 1, blift at 1 in H. rewrite Hid in H. cbv iota beta in H.
  unfold bbind at 1, blift at 1 in H.
  destruct (vmem p_type types) as [[|]|e]; cbn [negb] in H; cbv iota beta in H;
    [|now apply (Nothing (Ok tt))|now apply (Nothing (Raise e))].
  destruct (vlookup p_type types) as [bundle|]; [|now apply (Nothing (Ok tt))].
  pose proof (create_and_terminate_shape rt pg_id sources index (JObj kvs) bundle
                (plan_id_of (JObj kvs)) s) as Hs. cbv zeta in Hs.
  unfold shielded in H.
  destruct (create_and_terminate rt pg_id sources index (JObj kvs) bundle
              (plan_id_of (JObj kvs)) s) as [[[]|e] s1];
    injection H as _ <-; exact Hs.
Qed.

(** X20: what one turn of the loop over the processors asks of the
    runtime.  The turn sends nothing, or one creation request, or a
    creation request followed by one update request.  It sends the update
    only when the creation was answered with an id, the processor's id in
    the plan is not the source of any connection, and the answer lists at
    least one relationship; the update then auto-terminates exactly the
    relationships the answer lists, at the version the answer reports.
    The id map is left as it was or gets the reported id filed under the
    processor's id in the plan. *)
Theorem place_processor_requests :
  forall (rt : Runtime) (pg_id : json) (types : vdict json) (sources : pyset)
         (index : nat) (proc : json) (s : BSt),
    let out := place_processor rt pg_id types sources index proc s in
    exists new,
      requests (snd out) = requests s ++ new
      /\ turn_requests rt pg_id sources (plan_id_of proc) s new
      /\ ids_step (plan_id_of proc) new (plan_id_to_nifi_id s)
           (plan_id_to_nifi_id (snd out)).
Proof.
  intros. apply place_processor_turn.
Qed.

(** ** The two loops *)

Lemma vlookup_vset_cases {V} (k k' : json) (v w : V) (d : vdict V) :
  vlookup k' (vset k v d) = Some w -> w = v \/ vlookup k' d = Some w.
Proof.
  induction d as [|[k0 v0] d IH]; simpl.
  - destruct (py_eq k' k); [intros H; injection H as <-; now left|discriminate].
  - destruct (py_eq k k0) eqn:E; simpl.
    + destruct (py_eq k' k0); [intros H; injection H as <-; now left|now right].
    + destruct (py_eq k' k0); [now right|exact IH].
Qed.

Lemma placed_zero s : placed 0 s s.
Proof.
  exists []. rewrite app_nil_r. repeat split; auto.
Qed.

Lemma placed_more n m s s' : (n <= m)%nat -> placed n s s' -> placed m s s'.
Proof.
  intros Hle (new & E & C & U & X & I). exists new. repeat split; auto. lia.
Qed.

Lemma placed_then n m a b c : placed n a b -> placed m b c -> placed (n + m) a c.
Proof.
  intros (n1 & E1 & C1 & U1 & X1 & I1) (n2 & E2 & C2 & U2 & X2 & I2).
  exists (n1 ++ n2). rewrite E2, E1, <- app_assoc. split; [reflexivity|].
  rewrite !filter_app, !length_app, X1, X2. repeat split; auto; lia.
Qed.

Lemma place_processor_placed rt pg_id types sources index proc s :
  placed 1 s (snd (place_processor rt pg_id types sources index proc s)).
Proof.
  destruct (place_processor_turn rt pg_id types sources index proc s)
    as (new & E & T & I).
  exists new. split; [exact E|].
  assert (Hc : (List.length (filter is_creation new) <= 1)%nat
               /\ (List.length (filter is_update new)
                   <= List.length (filter is_creation new))%nat
               /\ filter is_connection new = []).
  { destruct T as [->|[[payload ->]|(payload & body & nifi_id & names & version
                                     & _ & _ & _ & _ & _ & _ & ->)]];
      simpl; repeat split; lia. }
  destruct Hc as (C & U & X). repeat split; auto.
  intros Hr k v Hv. rewrite E, created_ids_app.
  destruct I as [I|(nifi_id & Hin & I)]; rewrite I in Hv.
  - apply in_or_app. left. now apply (Hr k).
  - apply vlookup_vset_cases in Hv. apply in_or_app.
    destruct Hv as [->|Hv]; [now right|left; now apply (Hr k)].
Qed.

Lemma place_all_placed rt pg_id types sources (l : list (nat * json)) : forall s,
  placed (List.length l)
    s (snd (each l (fun ip => place_processor rt pg_id types sources (fst ip) (snd ip)) s)).
Proof.
  induction l as [|[index proc] l IH]; intros s; simpl.
  - apply placed_zero.
  - unfold bbind.
    pose proof (place_processor_placed rt pg_id types sources index proc s) as H1.
    destruct (place_processor rt pg_id types sources index proc s) as [[[]|e] s1];
      simpl in H1.
    + apply (placed_then 1 (List.length l) s s1); [exact H1|apply IH].
    + simpl. apply (placed_more 1); [lia|exact H1].
Qed.

Lemma connected_zero s : connected 0 s s.
Proof. exists []. rewrite app_nil_r. repeat split; auto. Qed.

Lemma connected_more n m s s' : (n <= m)%nat -> connected n s s' -> connected m s s'.
Proof. intros Hle (new & E & I & C & F). exists new. repeat split; auto. lia. Qed.

Lemma connected_then n m a b c :
  connected n a b -> connected m b c -> connected (n + m) a c.
Proof.
  intros (n1 & E1 & I1 & C1 & F1) (n2 & E2 & I2 & C2 & F2).
  exists (n1 ++ n2). rewrite E2, E1, <- app_assoc. split; [reflexivity|].
  split; [congruence|]. split; [rewrite length_app; lia|].
  apply Forall_app. split; [exact F1|]. now rewrite <- I1.
Qed.

Lemma id_of_truthy ids k v :
  id_of ids k = Ok v -> truthy v = true -> vlookup k ids = Some v.
Proof.
  unfold id_of. destruct (hashable k); [|discriminate].
  destruct (vlookup k ids) as [w|]; intros H Ht; injection H as <-;
    [reflexivity|discriminate].
Qed.

Lemma connect_connected rt pg_id index conn s :
  connected 1 s (snd (connect rt pg_id index conn s)).
Proof.
  destruct (connect rt pg_id index conn s) as [r s'] eqn:H.
  assert (Nothing : forall r0 : result unit, (r0, s) = (r, s') ->
            connected 1 s (snd (r, s'))).
  { intros r0 E. injection E as _ <-. apply (connected_more 0); [lia|].
    apply connected_zero. }
  unfold connect in H. unfold bbind at 1, blift at 1 in H.
  destruct (py_getitem conn "from_id") as [src|e]; [|now apply (Nothing (Raise e))].
  cbv iota beta in H. unfold bbind at 1, blift at 1 in H.
  destruct (py_getitem conn "to_id") as [dst|e]; [|now apply (Nothing (Raise e))].
  cbv iota beta in H. unfold bbind at 1, blift at 1 in H.
  destruct (py_get conn "relationships" (JArr [])) as [rels|e];
    [|now apply (Nothing (Raise e))].
  cbv iota beta in H. unfold bbind at 1, bget at 1 in H. cbv iota beta in H.
  unfold bbind at 1, blift at 1 in H.
  destruct (id_of (plan_id_to_nifi_id s) src) as [src_id|e] eqn:Es;
    [|now apply (Nothing (Raise e))].
  cbv iota beta in H. unfold bbind at 1, blift at 1 in H.
  destruct (id_of (plan_id_to_nifi_id s) dst) as [dst_id|e] eqn:Ed;
    [|now apply (Nothing (Raise e))].
  cbv iota beta in H.
  destruct (truthy src_id) eqn:Ts; cbn [negb orb] in H;
    [|now apply (Nothing (Ok tt))].
  destruct (truthy dst_id) eqn:Td; cbn [negb orb] in H; cbv iota in H;
    [|now apply (Nothing (Ok tt))].
  unfold shielded, bbind, bget, send, blift, bret in H.
  exists [CreateConnection pg_id (connection_payload pg_id src_id dst_id rels)
            (connection_reply rt (count is_connection s))].
  assert (E : s' = {| requests :=
                        requests s ++
                        [CreateConnection pg_id
                           (connection_payload pg_id src_id dst_id rels)
                           (connection_reply rt (count is_connection s))];
                      plan_id_to_nifi_id := plan_id_to_nifi_id s |}).
  { destruct (connection_reply rt (count is_connection s)); now injection H as _ <-. }
  rewrite E. cbn [snd requests plan_id_to_nifi_id].
  split; [reflexivity|]. split; [reflexivity|]. split; [simpl; lia|].
  constructor; [|constructor].
  exists pg_id, src_id, dst_id, rels, (connection_reply rt (count is_connection s)).
  split; [reflexivity|]. split.
  - exists src. now apply id_of_truthy.
  - exists dst. now apply id_of_truthy.
Qed.

Lemma connect_all_connected rt pg_id (l : list (nat * json)) : forall s,
  connected (List.length l)
    s (snd (each l (fun ic => connect rt pg_id (fst ic) (snd ic)) s)).
Proof.
  induction l as [|[index conn] l IH]; intros s; simpl.
  - apply connected_zero.
  - unfold bbind.
    pose proof (connect_connected rt pg_id index conn s) as H1.
    destruct (connect rt pg_id index conn s) as [[[]|e] s1]; simpl in H1.
    + apply (connected_then 1 (List.length l) s s1); [exact H1|apply IH].
    + simpl. apply (connected_more 1); [lia|exact H1].
Qed.

(** ** A whole run *)

Lemma length_enumerate {A} (l : list A) : List.length (Builder.enumerate l) = List.length l.
Proof.
  unfold Builder.enumerate. rewrite length_combine, length_seq. apply Nat.min_id.
Qed.

Lemma filter_none {A} (p : A -> bool) (l : list A) x :
  filter p l = [] -> In x l -> p x = false.
Proof.
  intros H Hin. destruct (p x) eqn:E; [|reflexivity].
  assert (Hf : In x (filter p l)) by (apply filter_In; auto).
  rewrite H in Hf. contradiction.
Qed.

Lemma connections_only ids (l : list Request) :
  Forall (joins_remembered ids) l ->
  filter is_creation l = [] /\ filter is_update l = []
  /\ List.length (filter is_connection l) = List.length l
  /\ created_ids l = [].
Proof.
  induction 1 as [|r l (pg & src & dst & rels & reply & -> & _) _ IH]; simpl.
  - auto.
  - destruct IH as (C & U & X & I). rewrite C, U, X, I. auto.
Qed.

(** The requests of a run that got as far as the two loops. *)
Lemma loops_within (head new1 new2 : list Request) (s1 s2 : BSt) n m :
  filter is_creation head = [] -> filter is_update head = [] ->
  filter is_connection head = [] ->
  requests s1 = head ++ new1 ->
  (List.length (filter is_creation new1) <= n)%nat ->
  (List.length (filter is_update new1) <= List.length (filter is_creation new1))%nat ->
  filter is_connection new1 = [] ->
  ids_reported s1 ->
  (List.length new2 <= m)%nat ->
  Forall (joins_remembered (plan_id_to_nifi_id s1)) new2 ->
  joins_created (requests s1 ++ new2) /\ within_plan n m (requests s1 ++ new2).
Proof.
  intros Hc Hu Hx E1 C1 U1 X1 I1 C2 F2.
  destruct (connections_only _ _ F2) as (C & U & X & I).
  split.
  - intros pg_id payload reply Hin. apply in_app_or in Hin.
    destruct Hin as [Hin|Hin].
    + exfalso. rewrite E1 in Hin. apply in_app_or in Hin.
      destruct Hin as [Hin|Hin];
        [apply (filter_none _ _ _ Hx) in Hin|apply (filter_none _ _ _ X1) in Hin];
        discriminate.
    + rewrite Forall_forall in F2.
      destruct (F2 _ Hin) as (pg & src & dst & rels & reply' & Heq & [k Hk] & [k' Hk']).
      injection Heq as -> -> ->.
      exists src, dst, rels. split; [reflexivity|].
      rewrite created_ids_app. split; apply in_or_app; left.
      * now apply (I1 k).
      * now apply (I1 k').
  - unfold within_plan. rewrite E1, !filter_app, !length_app.
    rewrite Hc, Hu, Hx, C, U, X, X1. simpl. repeat split; lia.
Qed.

Lemma head_only (l : list Request) n m :
  filter is_creation l = [] -> filter is_update l = [] ->
  filter is_connection l = [] ->
  joins_created l /\ within_plan n m l.
Proof.
  intros C U X. split.
  - intros pg_id payload reply Hin. apply (filter_none _ _ _ X) in Hin. discriminate.
  - unfold within_plan. rewrite C, U, X. simpl. repeat split; lia.
Qed.

Lemma build_requests rt plan :
  let l := requests (snd (build rt plan start)) in
  joins_created l
  /\ within_plan (List.length (plan_list "processors" plan))
       (List.length (plan_list "connections" plan)) l.
Proof.
  cbv zeta. destruct (build rt plan start) as [r s'] eqn:H. cbn [snd].
  set (n := List.length (plan_list "processors" plan)).
  set (m := List.length (plan_list "connections" plan)).
  assert (Head : forall l, requests s' = l ->
            filter is_creation l = [] -> filter is_update l = [] ->
            filter is_connection l = [] ->
            joins_created (requests s') /\ within_plan n m (requests s')).
  { intros l -> C U X. now apply head_only. }
  unfold build in H. unfold bbind at 1, blift at 1 in H.
  destruct (py_get plan "plan_details" (JObj [])) as [details|e] eqn:Ed;
    [|injection H as _ <-; now apply (Head [])].
  cbv iota beta in H. unfold bbind at 1, blift at 1 in H.
  destruct (py_get details "flow_name" (JStr "NiFi Pipeline")) as [flow_name|e];
    [|injection H as _ <-; now apply (Head [])].
  cbv iota beta in H. unfold bbind at 1, blift at 1 in H.
  destruct (py_get details "processors" (JArr [])) as [processors|e] eqn:Ep;
    [|injection H as _ <-; now apply (Head [])].
  cbv iota beta in H. unfold bbind at 1, blift at 1 in H.
  destruct (py_get details "connections" (JArr [])) as [connections|e] eqn:Ec;
    [|injection H as _ <-; now apply (Head [])].
  cbv iota beta in H. unfold bbind at 1, blift at 1 in H.
  destruct (py_iter connections) as [conns|e] eqn:Ei;
    [|injection H as _ <-; now apply (Head [])].
  cbv iota beta in H. unfold bbind at 1, blift at 1 in H.
  destruct (source_ids conns []) as [sources|e];
    [|injection H as _ <-; now apply (Head [])].
  cbv iota beta in H. unfold bbind at 1, send at 1 in H. cbv iota beta in H.
  cbn [requests plan_id_to_nifi_id start app] in H.
  destruct (body <- types_reply rt ;; processor_types body)%res as [types|e];
    [|unfold bret in H; injection H as _ <-; now apply (Head [FetchTypes (types_reply rt)])].
  unfold bbind at 1, send at 1 in H. cbv iota beta in H.
  cbn [requests plan_id_to_nifi_id app] in H.
  destruct (body <- root_reply rt ;; flow <- py_getitem body "processGroupFlow" ;;
            py_getitem flow "id")%res as [root_id|e];
    [|unfold bret in H; injection H as _ <-;
      now apply (Head [FetchTypes (types_reply rt); FetchRoot (root_reply rt)])].
  unfold bbind at 1, send at 1 in H. cbv iota beta in H.
  cbn [requests plan_id_to_nifi_id app] in H.
  set (head := [FetchTypes (types_reply rt); FetchRoot (root_reply rt);
                CreateGroup root_id (group_payload flow_name) (group_reply rt)]) in *.
  destruct (pg <- group_reply rt ;; component <- py_getitem pg "component" ;;
            py_getitem component "id")%res as [pg_id|e];
    [|unfold bret in H; injection H as _ <-; now apply (Head head)].
  set (s0 := {| requests := head; plan_id_to_nifi_id := [] |}) in *.
  unfold bbind at 1, blift at 1 in H.
  destruct (py_iter processors) as [procs|e] eqn:Eq;
    [|injection H as _ <-; now apply (Head head)].
  cbv iota beta in H.
  assert (Hn : n = List.length (Builder.enumerate procs)).
  { unfold n, plan_list, rbind. now rewrite Ed, Ep, Eq, length_enumerate. }
  assert (Hm : m = List.length (Builder.enumerate conns)).
  { unfold m, plan_list, rbind. now rewrite Ed, Ec, Ei, length_enumerate. }
  assert (I0 : ids_reported s0) by (intros k v Hv; discriminate).
  unfold bbind at 1 in H.
  pose proof (place_all_placed rt pg_id types sources (Builder.enumerate procs) s0) as P.
  destruct (each (Builder.enumerate procs)
              (fun ip => place_processor rt pg_id types sources (fst ip) (snd ip)) s0)
    as [[[]|e] s1]; cbn [snd] in P; rewrite <- Hn in P;
    destruct P as (new1 & E1 & C1 & U1 & X1 & I1).
  2:{ injection H as _ <-.
      rewrite <- (app_nil_r (requests s1)).
      apply (loops_within head new1 [] s1 s1 n m); auto; simpl; try lia;
        try constructor. }
  unfold bbind at 1 in H.
  pose proof (connect_all_connected rt pg_id (Builder.enumerate conns) s1) as Q.
  destruct (each (Builder.enumerate conns)
              (fun ic => connect rt pg_id (fst ic) (snd ic)) s1)
    as [[[]|e] s2]; cbn [snd] in Q; rewrite <- Hm in Q;
    destruct Q as (new2 & E2 & _ & C2 & F2);
    (assert (Es : requests s' = requests s1 ++ new2)
      by (unfold bret in H; injection H as _ <-; exact E2));
    rewrite Es; apply (loops_within head new1 new2 s1 s1 n m); auto.
Qed.

(** X21: the builder connects only what the runtime created.  In every
    run of the builder, whether it ends with the pipeline built, with an
    exit or with an exception, each connection request it sent joins two
    processors whose ids the runtime reported in answer to earlier
    creation requests of the same run: a connection whose source or
    destination was not created is skipped. *)
Theorem connections_join_created :
  forall (rt : Runtime) (plan : json),
    joins_created (requests (snd (build rt plan start))).
Proof. intros rt plan. apply (build_requests rt plan). Qed.

(** X22: the builder asks for no more than the plan holds.  In every run
    it sends at most one creation request for each processor of the plan,
    at most one auto-termination update for each creation request, and at
    most one connection request for each connection of the plan. *)
Theorem builder_stays_within_plan :
  forall (rt : Runtime) (plan : json),
    within_plan (List.length (plan_list "processors" plan))
      (List.length (plan_list "connections" plan))
      (requests (snd (build rt plan start))).
Proof. intros rt plan. apply (build_requests rt plan). Qed.

(** The sample plan: [p1] feeds [p2], and a second connection leads to
    [p3], whose type the runtime does not know.  Both known processors
    are created; [p2], a leaf, gets all its relationships
    auto-terminated; only the connection between created processors is
    requested. *)
Lemma builder_sample_run :
  let out := build two_processor_runtime two_processor_plan start in
  fst out = Ok (Built (JStr "pg-1"))
  /\ created_ids (requests (snd out)) = [JStr "nifi-1"; JStr "nifi-2"]
  /\ filter is_update (requests (snd out))
     = [ UpdateProcessor (JStr "nifi-2")
           (update_payload (JStr "nifi-2") [JStr "success"; JStr "failure"] (JInt 1))
           (Ok (JObj [])) ]
  /\ filter is_connection (requests (snd out))
     = [ CreateConnection (JStr "pg-1")
           (connection_payload (JStr "pg-1") (JStr "nifi-1") (JStr "nifi-2")
              (JArr [JStr "success"]))
           (Ok (JObj [])) ].
Proof. repeat split; vm_compute; reflexivity. Qed.

(** ** What a successful run leaves in the file *)

Section OnDisk.

Variable bi : Builtins.
Variable cfg : Config.
Variable env : Env.

Lemma initial_checks_disk st : disk (snd (initial_checks bi cfg env st)) = disk st.
Proof.
  revert st.
  change (preserves (fun a b => disk b = disk a) (initial_checks bi cfg env)).
  assert (Hrefl : forall st : St, disk st = disk st) by reflexivity.
  assert (Htrans : forall a b c : St, disk b = disk a -> disk c = disk b -> disk c = disk a)
    by (intros; congruence).
  assert (Hrep : forall {A} (m : M A), preserves only_reported m ->
            preserves (fun a b => disk b = disk a) m).
  { intros A m H st. destruct (H st) as [more E]. now rewrite E. }
  unfold initial_checks.
  apply (preserves_bind _ Htrans); [apply Hrep, validate_structure_reports|intro].
  apply (preserves_bind _ Htrans);
    [|intro; apply Hrep, validate_controller_services_reports].
  assert (Hall : forall l changed,
            preserves (fun a b => disk b = disk a) (resolve_all bi l changed)).
  { induction l as [|[index p] l IH]; intros changed; simpl.
    - apply (preserves_ret _ Hrefl).
    - apply (preserves_bind _ Htrans); [|intro; apply IH].
      unfold resolve_processor_type, append_error.
      preserve_with Hrefl Htrans; reflexivity. }
  unfold validate_processor_types, fetch_nifi_processor_types, append_error.
  repeat match goal with
         | |- preserves _ (resolve_all _ _ _) => apply Hall
         | |- disk _ = disk _ => reflexivity
         | _ => progress preserve_with Hrefl Htrans
         end.
Qed.

Lemma load_plan_loaded st st' :
  load_plan cfg st = (Ok true, st') -> disk st' = PlanFile (data st').
Proof.
  unfold load_plan, bind, get, modify, append_error, ret. simpl.
  destruct (disk st) eqn:E; intros H; try discriminate.
  injection H as <-. simpl. exact E.
Qed.

Lemma load_plan_failed st st' :
  load_plan cfg st = (Ok false, st') -> errors st' <> [].
Proof.
  unfold load_plan, bind, get, modify, append_error, ret. simpl.
  destruct (disk st) eqn:E; intros H; try discriminate;
    injection H as <-; simpl; intros H; apply app_eq_nil in H; destruct H; discriminate.
Qed.

Lemma print_errors_zero st st' :
  print_errors bi st = (Ok (Exited 0), st') -> st' = st /\ errors st = [].
Proof.
  unfold print_errors, bind at 1, get at 1. cbv iota beta.
  destruct (errors st) as [|e l]; intros H; [unfold ret in H; now injection H as <-|].
  unfold bind in H.
  destruct (print_lines_cases bi " - " (e :: l) st) as [E|E]; rewrite E in H;
    discriminate.
Qed.

(** The last pass: from the plan just loaded to the exit. *)
Lemma sandbox_phase_on_disk st0 st st' :
  disk st0 = PlanFile (data st0) -> changes_made st0 = false ->
  flagged st0 st -> disk st = disk st0 ->
  sandbox_phase bi cfg env st = (Ok (Exited 0), st') ->
  disk st' = PlanFile (data st').
Proof.
  intros Hd Hc Hf Hk H. unfold sandbox_phase in H.
  pose proof (validate_processor_configuration_flagged bi cfg env st) as Hv.
  pose proof (validate_processor_configuration_steps bi cfg env st) as (Hdisk & _).
  unfold bind at 1 in H.
  destruct (validate_processor_configuration bi cfg env st) as [[[]|e] s1];
    [|discriminate].
  simpl in Hv, Hdisk. pose proof (flagged_trans _ _ _ Hf Hv) as H1.
  unfold bind at 1, get at 1 in H. cbv iota beta in H. unfold bind at 1 in H.
  destruct (changes_made s1) eqn:Hc1; unfold when in H.
  - destruct (save_plan bi cfg env s1) as [[[]|e] s2] eqn:Es; [|discriminate].
    apply saved_after_save in Es. destruct Es as (before & reply & _ & Hr).
    apply print_errors_zero in H. destruct H as [-> He].
    destruct reply as [|msg left_behind]; [exact Hr|].
    destruct Hr as (_ & earlier & Hr). rewrite Hr in He.
    apply app_eq_nil in He. destruct He. discriminate.
  - unfold ret in H. apply print_errors_zero in H. destruct H as [-> _].
    destruct H1 as [H1|[H1 _]]; [congruence|]. rewrite H1, Hdisk, Hk. exact Hd.
Qed.

Lemma run_from_on_disk choices : forall st,
  returns (run_from bi cfg env choices)
    (fun o st' => o = Exited 0 -> disk st' = PlanFile (data st')) st.
Proof.
  induction choices as [|choice choices IH]; intros st; cbn [run_from];
    apply returns_skip; intros _ st1;
    unfold returns;
    unfold bind at 1;
    destruct (load_plan cfg st1) as [[[|]|e] st2] eqn:El; try exact I;
    cbn [negb]; cbv iota;
    try (destruct (print_errors bi st2) as [[o|e] st3] eqn:Ep; [|exact I];
         intros ->; apply print_errors_zero in Ep; destruct Ep as [_ Ep];
         now apply load_plan_failed in El);
    apply load_plan_loaded in El;
    unfold bind at 1, modify at 1; cbv iota beta;
    unfold bind at 1;
    pose proof (initial_checks_flagged bi cfg env (set_changes_made false st2) eq_refl)
      as Hf;
    pose proof (initial_checks_disk (set_changes_made false st2)) as Hk;
    unfold returns in Hf;
    destruct (initial_checks bi cfg env (set_changes_made false st2))
      as [[[]|e] st4]; try exact I;
    simpl in Hk; unfold bind at 1, get at 1; cbv iota beta;
    destruct (errors st4) eqn:Ee;
    try (destruct (sandbox_phase bi cfg env st4) as [[o|e] st5] eqn:Es; [|exact I];
         intros ->;
         now apply (sandbox_phase_on_disk (set_changes_made false st2) st4 st5));
    unfold bind at 1;
    (destruct (print_lines_cases bi " - " (errors st4) st4) as [E|E];
     rewrite Ee in E; rewrite E; [|exact I]).
  - unfold ret. discriminate.
  - destruct choice.
    + apply IH.
    + apply returns_skip. intros _ st5. apply IH.
    + unfold ret. discriminate.
Qed.

(** X23: a run that succeeds leaves the validated plan in the file.  When
    a run exits with code 0, the plan file holds exactly the plan the
    validator has in memory at the exit, with every type rewrite,
    auto-correction and accepted fix in it. *)
Theorem successful_run_plan_on_disk :
  forall (d : Disk) (choices : list Choice) (st' : St),
    run bi cfg env d choices = (Ok (Exited 0), st') ->
    disk st' = PlanFile (data st').
Proof.
  intros d choices st' H.
  exact (returns_ok _ _ _ _ _ (run_from_on_disk choices (initial d)) H eq_refl).
Qed.

End OnDisk.

Lemma successful_run_plan_on_disk_witness :
  exists st',
    run sample_builtins without_oracle catalog_runtime (PlanFile short_type_plan) []
    = (Ok (Exited 0), st')
    /\ data st' <> short_type_plan
    /\ disk st' = PlanFile (data st').
Proof.
  run_as H (run sample_builtins without_oracle catalog_runtime
              (PlanFile short_type_plan) []).
  eexists. split; [exact H|].
  split; [intros E; vm_compute in E; discriminate E|].
  exact (successful_run_plan_on_disk _ _ _ _ _ _ H).
Defined.

(** ** Leaves for the builder, sources for the validator *)

Lemma is_source_cons id c connections :
  is_source id (c :: connections)
  = match connection_view c with
    | Some (f, _) => (f =? id)%string || is_source id connections
    | None => is_source id connections
    end.
Proof.
  unfold is_source, outgoing. simpl.
  destruct (connection_view c) as [[f rels]|]; [|reflexivity].
  destruct (f =? id)%string; reflexivity.
Qed.

Lemma source_ids_views : forall connections found,
  forallb (fun c => is_some (connection_view c)) connections = true ->
  exists sources,
    source_ids connections found = Ok sources
    /\ forall id, set_mem (JStr id) sources
                  = set_mem (JStr id) found || is_source id connections.
Proof.
  induction connections as [|c connections IH]; intros found H.
  - exists found. split; [reflexivity|]. intros id.
    unfold is_source. simpl. now rewrite orb_false_r.
  - simpl in H. apply andb_prop in H. destruct H as [Hc Hs].
    unfold connection_view, field in Hc.
    destruct c as [| | | | | |kvs]; try discriminate.
    destruct (lookup "from_id" kvs) as [[| | | |f| |]|] eqn:Ef; try discriminate.
    destruct (lookup "relationships" kvs) as [[| | | | |l|]|] eqn:Er; try discriminate.
    destruct (strings l) as [rels|] eqn:El; [|discriminate].
    cbn [source_ids]. unfold rbind at 1, py_contains, has_key. rewrite Ef.
    cbv iota beta. unfold rbind at 1, py_getitem. rewrite Ef. cbv iota beta.
    unfold rbind at 1, set_add. cbn [hashable]. cbv iota beta.
    destruct (IH (if set_mem (JStr f) found then found else found ++ [JStr f]) Hs)
      as (sources & Hrun & Hmem).
    exists sources. split; [exact Hrun|].
    intros id. rewrite Hmem, is_source_cons.
    unfold connection_view, field. rewrite Ef, Er, El. cbn [option_map].
    destruct (set_mem (JStr f) found) eqn:Ein.
    + destruct (f =? id)%string eqn:E; [|reflexivity].
      apply String.eqb_eq in E. subst id. rewrite Ein. reflexivity.
    + unfold set_mem in *. rewrite existsb_app. simpl.
      rewrite orb_false_r, <- orb_assoc. f_equal. f_equal. apply String.eqb_sym.
Qed.

(** X24: the builder's leaves and the processors the validator does not
    check for relationships.  Over connections that each name a string as
    source and strings as relationships, a processor id is in the set of
    sources the builder computes exactly when some connection starts at
    it, and it is a key of the validator's connections map exactly when
    some connection starts at it and it is not the empty string.  So a
    processor with an id that is not empty is a leaf for the builder
    exactly when the validator does not check its relationships; the
    empty id at which a connection starts is a source for the builder and
    unchecked by the validator. *)
Theorem builder_sources_are_checked :
  forall (connections : list json) (id : string),
    forallb (fun c => is_some (connection_view c)) connections = true ->
    exists sources connections_map,
      source_ids connections [] = Ok sources
      /\ add_connections [] connections = Ok connections_map
      /\ set_mem (JStr id) sources = is_source id connections
      /\ vmem (JStr id) connections_map
         = Ok (is_source id connections && negb (id =? "")%string).
Proof.
  intros connections id H.
  destruct (source_ids_views connections [] H) as (sources & Hrun & Hmem).
  assert (Hv : forall c, In c connections -> connection_view c <> None).
  { intros c Hin. rewrite forallb_forall in H. specialize (H c Hin).
    now destruct (connection_view c). }
  exists sources, (as_vdict (fold_left add_view (views_of connections) [])).
  split; [exact Hrun|].
  split; [exact (add_connections_views connections [] Hv)|].
  split; [now rewrite Hmem|].
  unfold vmem. cbn [hashable]. rewrite vlookup_as_vdict.
  destruct (slookup_fold id (views_of connections) []) as [Hs _].
  rewrite is_source_views. simpl in Hs.
  rewrite (andb_comm (existsb _ _)), <- Hs.
  now destruct (slookup id (fold_left add_view (views_of connections) [])).
Qed.

Lemma builder_sources_are_checked_witness :
  exists sources connections_map,
    source_ids nameless_connections [] = Ok sources
    /\ add_connections [] nameless_connections = Ok connections_map
    /\ set_mem (JStr "") sources = true
    /\ vmem (JStr "") connections_map = Ok false.
Proof.
  destruct (builder_sources_are_checked nameless_connections "" eq_refl)
    as (sources & cm & H & Hc & Hm & Hv).
  exists sources, cm. split; [exact H|]. split; [exact Hc|].
  split; [rewrite Hm|rewrite Hv]; reflexivity.
Defined.

(** ** Plans that cannot be read, plans that are empty *)

(** X25: a plan file that cannot be read ends the run at once, whatever
    the operator would have chosen.  When the file is missing or
    [json.load] finds it is not JSON, the error of the load is the only one
    recorded, and the run exits with code 1 once the console has shown it
    (a console that cannot show it ends the run with a [MarkupError]
    instead).  When the file is there but opening or decoding it raises
    another exception, that exception leaves the run, and no error is
    recorded.  In each case nothing is validated, and no request, oracle
    call or save is made. *)
Theorem unreadable_plan_ends_run :
  forall (bi : Builtins) (cfg : Config) (env : Env) (d : Disk) (choices : list Choice),
    (forall content, d <> PlanFile content) ->
    let left_with errs :=
      {| data := JNull; errors := errs; available_processor_types := [];
         changes_made := false; disk := d; trace := [EvLoad d] |} in
    let ending msg :=
      (if displayed bi [Lit " - "; Val msg] then Ok (Exited 1) else Raise MarkupError,
       left_with [msg]) in
    match d with
    | NoFile =>
        run bi cfg env d choices = ending ("File not found: " ++ plan_path cfg)%string
    | BadFile why =>
        run bi cfg env d choices = ending ("JSON Parse Error: " ++ why)%string
    | Unreadable e => run bi cfg env d choices = (Raise e, left_with [])
    | PlanFile _ => True
    end.
Proof.
  intros bi cfg env d choices Hd left_with ending. subst left_with ending.
  destruct d as [|why|e|content]; [| | |exact I];
    destruct choices; unfold run; cbv -[displayed String.append plan_path];
    try reflexivity;
    match goal with
    | |- context [displayed bi ?t] => destruct (displayed bi t); reflexivity
    end.
Qed.

Lemma unreadable_plan_ends_run_witness :
  run sample_builtins with_oracle catalog_runtime NoFile [FixThePlanUsingLLM]
  = (Ok (Exited 1),
     {| data := JNull; errors := ["File not found: plan.json"];
        available_processor_types := []; changes_made := false; disk := NoFile;
        trace := [EvLoad NoFile] |})
  /\ run sample_builtins with_oracle catalog_runtime (Unreadable UnicodeDecodeError) []
     = (Raise UnicodeDecodeError,
        {| data := JNull; errors := []; available_processor_types := [];
           changes_made := false; disk := Unreadable UnicodeDecodeError;
           trace := [EvLoad (Unreadable UnicodeDecodeError)] |}).
Proof.
  split.
  - exact (unreadable_plan_ends_run sample_builtins with_oracle catalog_runtime NoFile
             [FixThePlanUsingLLM] ltac:(discriminate)).
  - exact (unreadable_plan_ends_run sample_builtins with_oracle catalog_runtime
             (Unreadable UnicodeDecodeError) [] ltac:(discriminate)).
Defined.

(** X26: an empty plan passes.  When the plan file holds a JSON value that
    Python takes for false (an empty object or list, [null], [false],
    zero, the empty string) and a sandbox group is configured, every check
    returns at its first test: the run exits with code 0, without an
    error and without any request. *)
Theorem empty_plan_passes :
  forall (bi : Builtins) (cfg : Config) (env : Env) (content : json)
         (choices : list Choice),
    truthy content = false ->
    env_truthy (sandbox_pg_id cfg) = true ->
    run bi cfg env (PlanFile content) choices
    = (Ok (Exited 0),
       {| data := content; errors := []; available_processor_types := [];
          changes_made := false; disk := PlanFile content;
          trace := [EvLoad (PlanFile content)] |}).
Proof.
  intros bi cfg env content choices Ht Hs.
  assert (Hn : no_processors content = Ok true)
    by (unfold no_processors; now rewrite Ht).
  assert (Hi : forall st, data st = content -> initial_checks bi cfg env st = (Ok tt, st)).
  { intros st E. unfold initial_checks, bind.
    unfold validate_structure, bind, get. rewrite E, Ht. cbn [negb ret]. cbv iota beta.
    unfold validate_processor_types, bind, get, lift. rewrite E, Hn. cbn [ret].
    cbv iota beta.
    unfold validate_controller_services, bind, get, lift. rewrite E, Hn. reflexivity. }
  assert (Hv : forall st, data st = content ->
                 validate_processor_configuration bi cfg env st = (Ok tt, st)).
  { intros st E. unfold validate_processor_configuration. rewrite Hs. cbn [negb].
    cbv iota. unfold bind, get, lift. rewrite E, Hn. reflexivity. }
  unfold run.
  assert (E : forall cs, run_from bi cfg env cs (initial (PlanFile content))
              = (Ok (Exited 0),
                 {| data := content; errors := []; available_processor_types := [];
                    changes_made := false; disk := PlanFile content;
                    trace := [EvLoad (PlanFile content)] |})).
  { intros cs.
    assert (Hl : load_plan cfg (set_errors [] (initial (PlanFile content)))
                 = (Ok true,
                    {| data := content; errors := []; available_processor_types := [];
                       changes_made := false; disk := PlanFile content;
                       trace := [EvLoad (PlanFile content)] |})) by reflexivity.
    destruct cs; cbn [run_from]; unfold bind at 1, modify at 1; cbv iota beta;
      unfold bind at 1; rewrite Hl; cbv iota beta; cbn [negb]; cbv iota;
      unfold bind at 1, modify at 1; cbv iota beta;
      unfold bind at 1; rewrite Hi by reflexivity; cbv iota beta;
      unfold bind at 1, get at 1; cbv iota beta;
      cbn [errors set_changes_made]; unfold sandbox_phase, bind at 1;
      rewrite Hv by reflexivity; reflexivity. }
  apply E.
Qed.

Lemma empty_plan_passes_witness :
  run sample_builtins without_oracle unreachable_runtime (PlanFile (JObj [])) []
  = (Ok (Exited 0),
     {| data := JObj []; errors := []; available_processor_types := [];
        changes_made := false; disk := PlanFile (JObj []);
        trace := [EvLoad (PlanFile (JObj []))] |}).
Proof. apply empty_plan_passes; reflexivity. Defined.
